(** * MiniVSFS: the image builder and the file adder

    A shallow embedding of [mkfs_builder.c] and [mkfs_adder.c].

    Memory buffers and files are lists of bytes (each byte an integer in
    [0, 256)); the packed C structs are read and written in place, field by
    field, at their little-endian offsets, exactly as the C code does
    through its pointer casts.  Fixed-width C integers are integers with the
    wrap-around written out.  A C access outside the object it points into
    has no defined result: the embedding is total and returns [Fault]
    there, next to [Exit e] for the [exit(EXIT_FAILURE)] paths. *)

From Stdlib Require Import ZArith List Bool Lia.
Import ListNotations.
Local Open Scope Z_scope.

(** ** Outcomes of a run *)

Inductive error : Type :=
| EUsage              (* bad command line values *)
| EOpenInput          (* "Failed to open input image" *)
| ELayoutTooSmall     (* "File system too small for layout" *)
| EReadSuperblock
| EBadMagic           (* "Invalid file system magic number" *)
| EReadInodeBitmap
| EReadDataBitmap
| EReadInodeTable
| EReadDataRegion
| ENoFreeInode        (* "Sorry.No free inodes available" *)
| EOpenFile           (* "Failed to open file to add" *)
| EFileTooLarge       (* "File too large - exceeds 12 direct blocks" *)
| ENoFreeDataBlock    (* "Not enough free data blocks" *)
| EReadFileContent    (* "Failed to read file content" *)
| ERootDirFull        (* "Root directory is full" *)
| ECreateOutput       (* "Failed to create output image" *)
| ECreateImage        (* "Failed to create image file" *)
| EFileSize.          (* "File size incorrect" *)

Inductive outcome (A : Type) : Type :=
| Done (a : A)
| Exit (e : error)
| Fault.

Arguments Done {A} a.
Arguments Exit {A} e.
Arguments Fault {A}.

Definition bind {A B : Type} (m : outcome A) (k : A -> outcome B) : outcome B :=
  match m with
  | Done a => k a
  | Exit e => Exit e
  | Fault => Fault
  end.

Notation "x <- m ;; k" := (bind m (fun x => k))
  (at level 61, m at next level, right associativity).
Notation "' pat <- m ;; k" := (bind m (fun x => match x with pat => k end))
  (at level 61, pat pattern, m at next level, right associativity).

(** ** Fixed-width integers *)

Definition u8 (z : Z) : Z := z mod 2 ^ 8.
Definition u16 (z : Z) : Z := z mod 2 ^ 16.
Definition u32 (z : Z) : Z := z mod 2 ^ 32.
Definition u64 (z : Z) : Z := z mod 2 ^ 64.

(** Conversion to a 32-bit [int] and to a 64-bit [long]. *)
Definition i32 (z : Z) : Z :=
  let m := z mod 2 ^ 32 in if m <? 2 ^ 31 then m else m - 2 ^ 32.
Definition i64 (z : Z) : Z :=
  let m := z mod 2 ^ 64 in if m <? 2 ^ 63 then m else m - 2 ^ 64.

Definition BS : Z := 4096.
Definition INODE_SIZE : Z := 128.
Definition ROOT_INO : Z := 1.
Definition SB_SIZE : Z := 116.      (* sizeof(superblock_t) *)
Definition DIRENT_SIZE : Z := 64.   (* sizeof(dirent64_t) *)
Definition MAGIC : Z := 0x4D565346.

(** ** Byte buffers *)

Definition bytes := list Z.

Definition is_byte (b : Z) : Prop := 0 <= b < 256.
Definition bytes_ok (l : bytes) : Prop := Forall is_byte l.

Definition len (l : bytes) : Z := Z.of_nat (length l).

(** [slice buf off n] is [buf[off .. off+n)], [upd buf off d] is [buf] with
    [d] copied over [buf[off .. off+|d|)]. *)
Definition slice (buf : bytes) (off n : Z) : bytes :=
  firstn (Z.to_nat n) (skipn (Z.to_nat off) buf).

Definition upd (buf : bytes) (off : Z) (d : bytes) : bytes :=
  firstn (Z.to_nat off) buf ++ d ++ skipn (Z.to_nat off + length d) buf.

Definition in_range (buf : bytes) (off n : Z) : bool :=
  (0 <=? off) && (0 <=? n) && (off + n <=? len buf).

Definition get_bytes (buf : bytes) (off n : Z) : outcome bytes :=
  if in_range buf off n then Done (slice buf off n) else Fault.

Definition put_bytes (buf : bytes) (off : Z) (d : bytes) : outcome bytes :=
  if in_range buf off (len d) then Done (upd buf off d) else Fault.

(** Little-endian encoding of the [n] low bytes of [v]. *)
Fixpoint le_encode (n : nat) (v : Z) : bytes :=
  match n with
  | O => []
  | S n' => v mod 256 :: le_encode n' (v / 256)
  end.

Fixpoint le_decode (l : bytes) : Z :=
  match l with
  | [] => 0
  | b :: l' => b + 256 * le_decode l'
  end.

Definition get_u8 (buf : bytes) (off : Z) : outcome Z :=
  b <- get_bytes buf off 1 ;; Done (le_decode b).
Definition get_u16 (buf : bytes) (off : Z) : outcome Z :=
  b <- get_bytes buf off 2 ;; Done (le_decode b).
Definition get_u32 (buf : bytes) (off : Z) : outcome Z :=
  b <- get_bytes buf off 4 ;; Done (le_decode b).
Definition get_u64 (buf : bytes) (off : Z) : outcome Z :=
  b <- get_bytes buf off 8 ;; Done (le_decode b).

Definition put_u8 (buf : bytes) (off v : Z) : outcome bytes :=
  put_bytes buf off (le_encode 1 (u8 v)).
Definition put_u16 (buf : bytes) (off v : Z) : outcome bytes :=
  put_bytes buf off (le_encode 2 (u16 v)).
Definition put_u32 (buf : bytes) (off v : Z) : outcome bytes :=
  put_bytes buf off (le_encode 4 (u32 v)).
Definition put_u64 (buf : bytes) (off v : Z) : outcome bytes :=
  put_bytes buf off (le_encode 8 (u64 v)).

Definition zeros (n : Z) : bytes := repeat 0 (Z.to_nat n).

(** Unchecked reads, for objects whose size is known and for statements. *)
Definition rd_u8 (buf : bytes) (off : Z) : Z := le_decode (slice buf off 1).
Definition rd_u16 (buf : bytes) (off : Z) : Z := le_decode (slice buf off 2).
Definition rd_u32 (buf : bytes) (off : Z) : Z := le_decode (slice buf off 4).
Definition rd_u64 (buf : bytes) (off : Z) : Z := le_decode (slice buf off 8).
Definition byte_at (buf : bytes) (i : Z) : Z := nth (Z.to_nat i) buf 0.

(** ** Struct layouts ([#pragma pack(1)]) *)

Module SB.
Definition magic := 0.
Definition version := 4.
Definition block_size := 8.
Definition total_blocks := 12.
Definition inode_count := 20.
Definition inode_bitmap_start := 28.
Definition inode_bitmap_blocks := 36.
Definition data_bitmap_start := 44.
Definition data_bitmap_blocks := 52.
Definition inode_table_start := 60.
Definition inode_table_blocks := 68.
Definition data_region_start := 76.
Definition data_region_blocks := 84.
Definition root_inode := 92.
Definition mtime_epoch := 100.
Definition flags := 108.
Definition checksum := 112.
End SB.

Module INO.
Definition mode := 0.
Definition links := 2.
Definition uid := 4.
Definition gid := 8.
Definition size_bytes := 12.
Definition atime := 20.
Definition mtime := 28.
Definition ctime := 36.
Definition direct (i : Z) := 44 + 4 * i.
Definition reserved_0 := 92.
Definition reserved_1 := 96.
Definition reserved_2 := 100.
Definition proj_id := 104.
Definition uid16_gid16 := 108.
Definition xattr_ptr := 112.
Definition inode_crc := 120.
End INO.

Module DE.
Definition inode_no := 0.
Definition type := 4.
Definition name := 5.
Definition name_size := 58.
Definition checksum := 63.
End DE.

(** ** ChecksumEngine *)

(** [crc32_init]: the inner loop over [j], then the table. *)
Fixpoint crc32_init_entry (j : nat) (c : Z) : Z :=
  match j with
  | O => c
  | S j' =>
      crc32_init_entry j'
        (if Z.land c 1 =? 0 then Z.shiftr c 1
         else Z.lxor 0xEDB88320 (Z.shiftr c 1))
  end.

Definition CRC32_TAB : list Z :=
  Eval vm_compute in
    map (fun i => crc32_init_entry 8 (Z.of_nat i)) (seq 0 256).

(** One iteration of the loop of [crc32]. *)
Definition crc32_step (c b : Z) : Z :=
  Z.lxor (nth (Z.to_nat (Z.land (Z.lxor c b) 0xFF)) CRC32_TAB 0) (Z.shiftr c 8).

(** [crc32(data, n)]: reads [data[0 .. n)]. *)
Definition crc32 (data : bytes) (n : Z) : outcome Z :=
  p <- get_bytes data 0 n ;;
  Done (Z.lxor (fold_left crc32_step p 0xFFFFFFFF) 0xFFFFFFFF).

(** [superblock_crc_finalize(sb)]; [mem] is what [sb] points to. *)
Definition superblock_crc_finalize (mem : bytes) : outcome bytes :=
  mem1 <- put_u32 mem SB.checksum 0 ;;
  s <- crc32 mem1 (BS - 4) ;;
  put_u32 mem1 SB.checksum s.

(** [inode_crc_finalize(ino)], with [ino = buf + off]. *)
Definition inode_crc_finalize (buf : bytes) (off : Z) : outcome bytes :=
  tmp <- get_bytes buf off INODE_SIZE ;;
  tmp1 <- put_bytes tmp 120 (zeros 8) ;;
  c <- crc32 tmp1 120 ;;
  put_u64 buf (off + INO.inode_crc) c.

(** [dirent_checksum_finalize(de)], with [de = buf + off]. *)
Definition dirent_checksum_finalize (buf : bytes) (off : Z) : outcome bytes :=
  p <- get_bytes buf off 63 ;;
  let x := fold_left (fun x b => u8 (Z.lxor x b)) p 0 in
  put_u8 buf (off + DE.checksum) x.

(** ** Files ([FILE*] streams) *)

Record file : Type := { f_data : bytes; f_pos : Z }.

Definition fopen_r (content : bytes) : file := {| f_data := content; f_pos := 0 |}.
Definition fopen_w : file := {| f_data := []; f_pos := 0 |}.

(** [fseek(fp, off, SEEK_SET)]: [off] is a [long]; a negative offset is
    refused and leaves the position where it was (the result of [fseek] is
    not looked at by the callers). *)
Definition fseek (fp : file) (off : Z) : file :=
  if i64 off <? 0 then fp else {| f_data := f_data fp; f_pos := i64 off |}.

(** [fread(buf, size, 1, fp)]: [Some] when one whole item was read. *)
Definition fread (fp : file) (size : Z) : option (bytes * file) :=
  if (size <=? 0) || (len (f_data fp) <? f_pos fp + size) then None
  else Some (slice (f_data fp) (f_pos fp) size,
             {| f_data := f_data fp; f_pos := f_pos fp + size |}).

(** [fwrite(buf, |d|, 1, fp)]: a write past the end fills the hole with
    zero bytes. *)
Definition fwrite (fp : file) (d : bytes) : file :=
  let base := f_data fp ++ zeros (f_pos fp - len (f_data fp)) in
  {| f_data := firstn (Z.to_nat (f_pos fp)) base ++ d
               ++ skipn (Z.to_nat (f_pos fp) + length d) base;
     f_pos := f_pos fp + len d |}.

Definition fread_or (e : error) (fp : file) (size : Z) : outcome (bytes * file) :=
  match fread fp size with
  | Some r => Done r
  | None => Exit e
  end.

(** ** C strings *)

(** The characters of a C string, up to its terminator. *)
Fixpoint cstr (s : bytes) : bytes :=
  match s with
  | [] => []
  | c :: s' => if c =? 0 then [] else c :: cstr s'
  end.

Definition strlen (s : bytes) : Z := len (cstr s).

(** [strncpy(buf + off, src, n)]: at most [n] characters, then zero
    padding up to [n]. *)
Definition strncpy (buf : bytes) (off : Z) (src : bytes) (n : Z) : outcome bytes :=
  let chars := firstn (Z.to_nat n) (cstr src) in
  put_bytes buf off (chars ++ zeros (n - len chars)).

(** ** Geometry ([mkfs_builder.c], main, lines 163-177) *)

Record geometry : Type := {
  total_blocks : Z;
  inode_table_blocks : Z;
  data_region_start : Z;
  data_region_blocks : Z
}.

Definition compute_geometry (size_kib inodes : Z) : outcome geometry :=
  if (size_kib <? 180) || (4096 <? size_kib) ||
     (inodes <? 128) || (512 <? inodes) || negb (size_kib mod 4 =? 0)
  then Exit EUsage
  else
    let total_blocks := u64 (size_kib * 1024) / BS in
    let inode_table_blocks := u64 (u64 (u64 (inodes * INODE_SIZE) + BS) - 1) / BS in
    let data_region_start := u64 (3 + inode_table_blocks) in
    let data_region_blocks := u64 (total_blocks - data_region_start) in
    if data_region_blocks <? 1 then Exit ELayoutTooSmall
    else Done {| total_blocks := total_blocks;
                 inode_table_blocks := inode_table_blocks;
                 data_region_start := data_region_start;
                 data_region_blocks := data_region_blocks |}.

(** ** ImageBuilder ([mkfs_builder.c], main) *)

(** The designated initializer of [sb] (lines 181-198). *)
Definition init_superblock (g : geometry) (inodes now : Z) : outcome bytes :=
  sb <- put_u32 (zeros SB_SIZE) SB.magic MAGIC ;;
  sb <- put_u32 sb SB.version 1 ;;
  sb <- put_u32 sb SB.block_size BS ;;
  sb <- put_u64 sb SB.total_blocks (total_blocks g) ;;
  sb <- put_u64 sb SB.inode_count inodes ;;
  sb <- put_u64 sb SB.inode_bitmap_start 1 ;;
  sb <- put_u64 sb SB.inode_bitmap_blocks 1 ;;
  sb <- put_u64 sb SB.data_bitmap_start 2 ;;
  sb <- put_u64 sb SB.data_bitmap_blocks 1 ;;
  sb <- put_u64 sb SB.inode_table_start 3 ;;
  sb <- put_u64 sb SB.inode_table_blocks (inode_table_blocks g) ;;
  sb <- put_u64 sb SB.data_region_start (data_region_start g) ;;
  sb <- put_u64 sb SB.data_region_blocks (data_region_blocks g) ;;
  sb <- put_u64 sb SB.root_inode 1 ;;
  sb <- put_u64 sb SB.mtime_epoch now ;;
  put_u32 sb SB.flags 0.

(** [for (i = from; i < 12; i++) direct[i] = 0], [n] iterations left. *)
Fixpoint clear_direct (n : nat) (i : Z) (buf : bytes) (ino : Z) : outcome bytes :=
  match n with
  | O => Done buf
  | S n' =>
      buf <- put_u32 buf (ino + INO.direct i) 0 ;;
      clear_direct n' (i + 1) buf ino
  end.

(** Lines 248-260. *)
Definition init_root_inode (inode_table : bytes) (g : geometry) (now : Z)
  : outcome bytes :=
  t <- put_u16 inode_table INO.mode 0x4000 ;;
  t <- put_u16 t INO.links 2 ;;
  t <- put_u32 t INO.uid 0 ;;
  t <- put_u32 t INO.gid 0 ;;
  t <- put_u64 t INO.size_bytes (2 * DIRENT_SIZE) ;;
  t <- put_u64 t INO.atime now ;;
  t <- put_u64 t INO.mtime now ;;
  t <- put_u64 t INO.ctime now ;;
  t <- put_u32 t (INO.direct 0) (data_region_start g) ;;
  t <- clear_direct 11 1 t 0 ;;
  t <- put_u32 t INO.proj_id 1234 ;;
  inode_crc_finalize t 0.

(** One seeded entry: lines 287-290 and 295-298. *)
Definition init_dirent (data_region : bytes) (off : Z) (name : bytes)
  : outcome bytes :=
  d <- put_u32 data_region (off + DE.inode_no) 1 ;;
  d <- put_u8 d (off + DE.type) 2 ;;
  d <- strncpy d (off + DE.name) name DE.name_size ;;
  dirent_checksum_finalize d off.

(** [adjacent] is the memory that follows the local variable [sb]: the
    checksum routine is handed [&sb] and reads on from there. *)
Definition mkfs_builder (image_given : bool) (size_arg inodes_arg : Z)
    (now : Z) (adjacent : bytes) (can_create : bool) : outcome bytes :=
  let size_kib := u64 size_arg in
  let inodes := u64 inodes_arg in
  if negb image_given then Exit EUsage else
  g <- compute_geometry size_kib inodes ;;
  sb <- init_superblock g inodes now ;;
  mem <- superblock_crc_finalize (sb ++ adjacent) ;;
  let sb := firstn (Z.to_nat SB_SIZE) mem in
  if negb can_create then Exit ECreateImage else
  let fp := fopen_w in
  superblock_buffer <- put_bytes (zeros BS) 0 sb ;;
  let fp := fwrite fp superblock_buffer in
  inode_bitmap <- put_u8 (zeros BS) 0 0x01 ;;
  let fp := fwrite fp inode_bitmap in
  data_bitmap <- put_u8 (zeros BS) 0 0x01 ;;
  let fp := fwrite fp data_bitmap in
  inode_table <- init_root_inode (zeros (inode_table_blocks g * BS)) g now ;;
  let fp := fwrite fp inode_table in
  d <- init_dirent (zeros (data_region_blocks g * BS)) 0 [46] ;;
  data_region <- init_dirent d DIRENT_SIZE [46; 46] ;;
  let fp := fwrite fp data_region in
  if negb (f_pos fp =? i64 (u64 (total_blocks g * BS))) then Exit EFileSize
  else Done (f_data fp).

(** ** BitmapAllocator ([mkfs_adder.c]) *)

(** The test [bitmap[i / 8] & (1 << (i % 8))]. *)
Definition bit_is_set (byte i : Z) : bool :=
  negb (Z.land byte (Z.shiftl 1 (i mod 8)) =? 0).

(** [find_free_inode]: [n] iterations left, [initial] the loop counter. *)
Fixpoint find_free_inode_loop (bitmap : bytes) (n : nat) (initial : Z)
  : outcome Z :=
  match n with
  | O => Done (-1)
  | S n' =>
      b <- get_u8 bitmap (initial / 8) ;;
      if bit_is_set b initial then find_free_inode_loop bitmap n' (initial + 1)
      else Done (i32 (initial + 1))
  end.

Definition find_free_inode (bitmap : bytes) (inode_count : Z) : outcome Z :=
  find_free_inode_loop bitmap (Z.to_nat inode_count) 0.

Fixpoint find_free_data_block_loop (bitmap : bytes) (n : nat) (initial : Z)
  : outcome Z :=
  match n with
  | O => Done (-1)
  | S n' =>
      b <- get_u8 bitmap (initial / 8) ;;
      if bit_is_set b initial then find_free_data_block_loop bitmap n' (initial + 1)
      else Done (i32 initial)
  end.

Definition find_free_data_block (bitmap : bytes) (data_blocks : Z) : outcome Z :=
  find_free_data_block_loop bitmap (Z.to_nat data_blocks) 0.

(** [bitmap[k / 8] |= (1 << (k % 8))] for an [int k]. *)
Definition mark (bitmap : bytes) (k : Z) : outcome bytes :=
  b <- get_u8 bitmap (Z.quot k 8) ;;
  put_u8 bitmap (Z.quot k 8) (Z.lor b (Z.shiftl 1 (Z.rem k 8))).

(** ** FileInserter ([mkfs_adder.c], main) *)

(** Fields of the local [superblock_t sb]: the variable is 116 bytes
    whatever was read into it, so these reads cannot leave it. *)
Definition sb_u32 (sb : bytes) (off : Z) : Z := rd_u32 sb off.
Definition sb_u64 (sb : bytes) (off : Z) : Z := rd_u64 sb off.

(** What the adder holds in memory once the image is read. *)
Record fs : Type := {
  sb : bytes;
  inode_bitmap : bytes;
  data_bitmap : bytes;
  inode_table : bytes;
  data_region : bytes
}.

(** Lines 162-231. *)
Definition load (img : bytes) : outcome fs :=
  let fp := fopen_r img in
  '(sb, fp) <- fread_or EReadSuperblock fp SB_SIZE ;;
  if negb (sb_u32 sb SB.magic =? MAGIC) then Exit EBadMagic else
  let fp := fseek fp (u64 (sb_u64 sb SB.inode_bitmap_start * BS)) in
  '(inode_bitmap, fp) <- fread_or EReadInodeBitmap fp BS ;;
  let fp := fseek fp (u64 (sb_u64 sb SB.data_bitmap_start * BS)) in
  '(data_bitmap, fp) <- fread_or EReadDataBitmap fp BS ;;
  let fp := fseek fp (u64 (sb_u64 sb SB.inode_table_start * BS)) in
  '(inode_table, fp) <-
     fread_or EReadInodeTable fp (u64 (sb_u64 sb SB.inode_table_blocks * BS)) ;;
  let fp := fseek fp (u64 (sb_u64 sb SB.data_region_start * BS)) in
  '(data_region, fp) <-
     fread_or EReadDataRegion fp (u64 (sb_u64 sb SB.data_region_blocks * BS)) ;;
  Done {| sb := sb; inode_bitmap := inode_bitmap; data_bitmap := data_bitmap;
          inode_table := inode_table; data_region := data_region |}.

(** [data_blocks[i] = v] on the 12-entry local array. *)
Fixpoint set_nth (l : list Z) (i : nat) (v : Z) : list Z :=
  match l, i with
  | [], _ => []
  | _ :: l', O => v :: l'
  | x :: l', S i' => x :: set_nth l' i' v
  end.

(** Lines 268-279: [n] iterations left. *)
Fixpoint alloc_blocks (n : nat) (initial : Z) (sb : bytes)
    (data_bitmap : bytes) (data_blocks : list Z) : outcome (bytes * list Z) :=
  match n with
  | O => Done (data_bitmap, data_blocks)
  | S n' =>
      free_block <-
        find_free_data_block data_bitmap (sb_u64 sb SB.data_region_blocks) ;;
      if free_block =? -1 then Exit ENoFreeDataBlock else
      let data_blocks :=
        set_nth data_blocks (Z.to_nat initial)
          (u32 (u64 (sb_u64 sb SB.data_region_start + u64 free_block))) in
      data_bitmap <- mark data_bitmap free_block ;;
      alloc_blocks n' (initial + 1) sb data_bitmap data_blocks
  end.

(** Lines 294-299: [n] iterations left. *)
Fixpoint write_content (n : nat) (initial : Z) (sb : bytes)
    (needed_blocks file_size : Z) (data_blocks : list Z)
    (file_content data_region : bytes) : outcome bytes :=
  match n with
  | O => Done data_region
  | S n' =>
      let offset :=
        u64 (u64 (nth (Z.to_nat initial) data_blocks 0
                  - sb_u64 sb SB.data_region_start) * BS) in
      let copy_size :=
        if initial =? u64 (needed_blocks - 1)
        then u64 (file_size - u64 (initial * BS)) else BS in
      src <- get_bytes file_content (u64 (initial * BS)) copy_size ;;
      data_region <- put_bytes data_region offset src ;;
      write_content n' (initial + 1) sb needed_blocks file_size data_blocks
        file_content data_region
  end.

(** Lines 314-316: [n] iterations left. *)
Fixpoint set_direct (n : nat) (initial : Z) (needed_blocks : Z)
    (data_blocks : list Z) (buf : bytes) (ino : Z) : outcome bytes :=
  match n with
  | O => Done buf
  | S n' =>
      buf <- put_u32 buf (ino + INO.direct initial)
               (if initial <? needed_blocks
                then nth (Z.to_nat initial) data_blocks 0 else 0) ;;
      set_direct n' (initial + 1) needed_blocks data_blocks buf ino
  end.

(** Lines 303-318. *)
Definition create_inode (inode_table : bytes) (free_inode : Z)
    (file_size needed_blocks now : Z) (data_blocks : list Z) : outcome bytes :=
  let new_inode := u32 ((free_inode - 1) * INODE_SIZE) in
  t <- put_u16 inode_table (new_inode + INO.mode) 0x8000 ;;
  t <- put_u16 t (new_inode + INO.links) 1 ;;
  t <- put_u32 t (new_inode + INO.uid) 0 ;;
  t <- put_u32 t (new_inode + INO.gid) 0 ;;
  t <- put_u64 t (new_inode + INO.size_bytes) file_size ;;
  t <- put_u64 t (new_inode + INO.atime) now ;;
  t <- put_u64 t (new_inode + INO.mtime) now ;;
  t <- put_u64 t (new_inode + INO.ctime) now ;;
  t <- set_direct 12 0 needed_blocks data_blocks t new_inode ;;
  t <- put_u32 t (new_inode + INO.proj_id) 1234 ;;
  inode_crc_finalize t new_inode.

(** Lines 331-336: [n] iterations left; the result is [free_entry]. *)
Fixpoint scan_entries (n : nat) (i : Z) (data_region : bytes)
    (root_entries : Z) : outcome Z :=
  match n with
  | O => Done (-1)
  | S n' =>
      ino <- get_u32 data_region (root_entries + i * DIRENT_SIZE + DE.inode_no) ;;
      if ino =? 0 then Done (i32 i)
      else scan_entries n' (i + 1) data_region root_entries
  end.

(** [root_entries], as an offset into [data_region] (lines 324-326). *)
Definition root_entries_of (sb inode_table : bytes) : outcome Z :=
  direct0 <- get_u32 inode_table (INO.direct 0) ;;
  let root_data_block := u32 (u64 (direct0 - sb_u64 sb SB.data_region_start)) in
  Done (u32 (root_data_block * BS)).

(** Lines 329-350: the slot for the new entry, and the inode table after
    the root inode has grown if it had to. *)
Definition find_dir_slot (inode_table data_region : bytes) (root_entries : Z)
  : outcome (Z * bytes) :=
  size_bytes <- get_u64 inode_table INO.size_bytes ;;
  let entry_count := size_bytes / DIRENT_SIZE in
  free_entry <- scan_entries (Z.to_nat entry_count) 0 data_region root_entries ;;
  if free_entry =? -1 then
    if BS / DIRENT_SIZE <=? entry_count then Exit ERootDirFull else
    let free_entry := i32 entry_count in
    t <- put_u64 inode_table INO.size_bytes (size_bytes + DIRENT_SIZE) ;;
    t <- inode_crc_finalize t 0 ;;
    Done (free_entry, t)
  else Done (free_entry, inode_table).

(** Lines 353-363. *)
Definition write_dirent (data_region : bytes) (root_entries free_entry : Z)
    (free_inode : Z) (file_name : bytes) : outcome bytes :=
  let de := root_entries + free_entry * DIRENT_SIZE in
  d <- put_u32 data_region (de + DE.inode_no) free_inode ;;
  d <- put_u8 d (de + DE.type) 1 ;;
  let name_len := if 57 <? strlen file_name then 57 else strlen file_name in
  d <- put_bytes d (de + DE.name) (zeros 58) ;;
  d <- strncpy d (de + DE.name) file_name name_len ;;
  d <- put_u8 d (de + DE.name + name_len) 0 ;;
  dirent_checksum_finalize d de.

(** Lines 365-366. *)
Definition bump_root_links (inode_table : bytes) : outcome bytes :=
  links <- get_u16 inode_table INO.links ;;
  t <- put_u16 inode_table INO.links (links + 1) ;;
  inode_crc_finalize t 0.

(** Lines 234-366: everything done in memory.  [file] is the content of
    the file to add, [None] when it cannot be opened. *)
Definition add_file (s : fs) (file_name : bytes) (file : option bytes)
    (now : Z) : outcome fs :=
  free_inode <- find_free_inode (inode_bitmap s) (sb_u64 (sb s) SB.inode_count) ;;
  if free_inode =? -1 then Exit ENoFreeInode else
  match file with
  | None => Exit EOpenFile
  | Some content =>
      let file_size := u64 (len content) in
      let needed_blocks := u64 (u64 (file_size + BS) - 1) / BS in
      if 12 <? needed_blocks then Exit EFileTooLarge else
      '(data_bitmap, data_blocks) <-
         alloc_blocks (Z.to_nat needed_blocks) 0 (sb s) (data_bitmap s)
           (repeat 0 12) ;;
      '(file_content, _) <- fread_or EReadFileContent (fopen_r content) file_size ;;
      data_region <-
        write_content (Z.to_nat needed_blocks) 0 (sb s) needed_blocks file_size
          data_blocks file_content (data_region s) ;;
      inode_table <-
        create_inode (inode_table s) free_inode file_size needed_blocks now
          data_blocks ;;
      inode_bitmap <- mark (inode_bitmap s) (free_inode - 1) ;;
      root_entries <- root_entries_of (sb s) inode_table ;;
      '(free_entry, inode_table) <-
         find_dir_slot inode_table data_region root_entries ;;
      data_region <-
        write_dirent data_region root_entries free_entry free_inode file_name ;;
      inode_table <- bump_root_links inode_table ;;
      Done {| sb := sb s; inode_bitmap := inode_bitmap;
              data_bitmap := data_bitmap; inode_table := inode_table;
              data_region := data_region |}
  end.

(** Lines 369-396. *)
Definition persist (s : fs) : bytes :=
  let fp := fopen_w in
  let fp := fwrite fp (sb s) in
  let fp := fseek fp (u64 (sb_u64 (sb s) SB.inode_bitmap_start * BS)) in
  let fp := fwrite fp (inode_bitmap s) in
  let fp := fseek fp (u64 (sb_u64 (sb s) SB.data_bitmap_start * BS)) in
  let fp := fwrite fp (data_bitmap s) in
  let fp := fseek fp (u64 (sb_u64 (sb s) SB.inode_table_start * BS)) in
  let fp := fwrite fp (inode_table s) in
  let fp := fseek fp (u64 (sb_u64 (sb s) SB.data_region_start * BS)) in
  let fp := fwrite fp (data_region s) in
  f_data fp.

(** The whole run: [Done out] when the output image [out] was written,
    [Exit e] when the run ended in [exit(EXIT_FAILURE)], in which case the
    output file was not even created. *)
Definition mkfs_adder (input : option bytes) (file_name : bytes)
    (file : option bytes) (now : Z) (can_create : bool) : outcome bytes :=
  match input with
  | None => Exit EOpenInput
  | Some img =>
      s <- load img ;;
      s' <- add_file s file_name file now ;;
      if negb can_create then Exit ECreateOutput else Done (persist s')
  end.

(** ** Vocabulary of the statements *)

(** Bit [i] of a bitmap block. *)
Definition bitmap_bit (bitmap : bytes) (i : Z) : bool :=
  Z.testbit (byte_at bitmap (i / 8)) (i mod 8).

(** Block [b] of an image, and the regions the superblock points to. *)
Definition block (img : bytes) (b : Z) : bytes := slice img (b * BS) BS.

Definition img_inode_bitmap (img : bytes) : bytes :=
  block img (rd_u64 img SB.inode_bitmap_start).
Definition img_data_bitmap (img : bytes) : bytes :=
  block img (rd_u64 img SB.data_bitmap_start).
Definition img_inode_table (img : bytes) : bytes :=
  slice img (rd_u64 img SB.inode_table_start * BS)
    (rd_u64 img SB.inode_table_blocks * BS).
Definition img_data_region (img : bytes) : bytes :=
  slice img (rd_u64 img SB.data_region_start * BS)
    (rd_u64 img SB.data_region_blocks * BS).

(** Inode-table slot [k] (inode number [k + 1]) and data-region block [b]. *)
Definition inode_slot (img : bytes) (k : Z) : bytes :=
  slice (img_inode_table img) (k * INODE_SIZE) INODE_SIZE.
Definition data_block (img : bytes) (b : Z) : bytes :=
  slice (img_data_region img) (b * BS) BS.

(** The root directory's block, relative to the data region. *)
Definition root_block (img : bytes) : Z :=
  rd_u32 (img_inode_table img) (INO.direct 0) - rd_u64 img SB.data_region_start.

(** Entry [k] of the root directory. *)
Definition root_dirent (img : bytes) (k : Z) : bytes :=
  slice (data_block img (root_block img)) (k * DIRENT_SIZE) DIRENT_SIZE.

(** [a] and [b] agree everywhere outside the window [lo, hi). *)
Definition same_outside (lo hi : Z) (a b : bytes) : Prop :=
  len a = len b /\
  forall i, 0 <= i -> i < lo \/ hi <= i -> byte_at a i = byte_at b i.

(** [a] and [b] agree at every position that satisfies [P]. *)
Definition agree_on (P : Z -> Prop) (a b : bytes) : Prop :=
  len a = len b /\
  forall i, 0 <= i -> P i -> byte_at a i = byte_at b i.

(** Position [p] lies in block [b] of a region, in slot [k] of the inode
    table. *)
Definition in_block (b p : Z) : Prop := b * BS <= p < (b + 1) * BS.
Definition in_slot (k p : Z) : Prop := k * INODE_SIZE <= p < (k + 1) * INODE_SIZE.

(** The XOR of a run of bytes. *)
Definition xor_all (l : bytes) : Z := fold_left Z.lxor l 0.

(** A well-formed image: the invariants of the data model. *)
Definition valid_image (img : bytes) : Prop :=
  let itb := rd_u64 img SB.inode_table_blocks in
  let drs := rd_u64 img SB.data_region_start in
  let drb := rd_u64 img SB.data_region_blocks in
  let inodes := rd_u64 img SB.inode_count in
  rd_u32 img SB.magic = MAGIC /\
  rd_u32 img SB.block_size = BS /\
  rd_u64 img SB.inode_bitmap_start = 1 /\
  rd_u64 img SB.data_bitmap_start = 2 /\
  rd_u64 img SB.inode_table_start = 3 /\
  drs = 3 + itb /\
  1 <= drb /\
  rd_u64 img SB.total_blocks = drs + drb /\
  rd_u64 img SB.root_inode = ROOT_INO /\
  len img = rd_u64 img SB.total_blocks * BS /\
  1 <= inodes /\ inodes * INODE_SIZE <= itb * BS /\
  inodes <= 8 * BS /\ drb <= 8 * BS /\ itb <= 8 * BS /\
  bitmap_bit (img_inode_bitmap img) 0 = true /\
  0 <= root_block img < drb /\
  bitmap_bit (img_data_bitmap img) (root_block img) = true /\
  0 <= rd_u64 (img_inode_table img) INO.size_bytes /\
  rd_u64 (img_inode_table img) INO.size_bytes / DIRENT_SIZE <= 64.

(** Running the adder over and over, each output the next input. *)
Record insertion : Type := {
  ins_name : bytes;
  ins_content : bytes;
  ins_time : Z
}.

Fixpoint insert_all (img : bytes) (l : list insertion) : outcome bytes :=
  match l with
  | [] => Done img
  | i :: l' =>
      img' <- mkfs_adder (Some img) (ins_name i) (Some (ins_content i))
                (ins_time i) true ;;
      insert_all img' l'
  end.

Definition one_block (i : insertion) : Prop := 1 <= len (ins_content i) <= BS.

(** The image of an outcome, for concrete runs. *)
Definition image_of (o : outcome bytes) : bytes :=
  match o with
  | Done img => img
  | _ => []
  end.

(** The command-line bounds of the builder. *)
Definition args_in_bounds (size_kib inodes : Z) : Prop :=
  180 <= size_kib <= 4096 /\ size_kib mod 4 = 0 /\ 128 <= inodes <= 512.

(** Concrete inputs for the examples: the smallest image, and one with
    room for 64 data blocks. *)
Definition sample_geometry : geometry :=
  {| total_blocks := 45; inode_table_blocks := 4;
     data_region_start := 7; data_region_blocks := 38 |}.
Definition sample_superblock : bytes :=
  image_of (init_superblock sample_geometry 128 1700000000).
Definition sample_image : bytes :=
  image_of (mkfs_builder true 180 128 1700000000 (zeros 3976) true).
Definition roomy_image : bytes :=
  image_of (mkfs_builder true 284 128 1700000000 (zeros 3976) true).
Definition sample_file (k : Z) : insertion :=
  {| ins_name := [102; 48 + k / 10; 48 + k mod 10];
     ins_content := [72; 105; 10];
     ins_time := 1700000000 + k |}.

(** The image of an in-memory file system laid out in the builder's
    order: superblock block, the two bitmaps, inode table, data region. *)
Definition layout (s : fs) : bytes :=
  sb s ++ zeros (BS - SB_SIZE) ++ inode_bitmap s ++ data_bitmap s
  ++ inode_table s ++ data_region s.

(** The geometry fields of [sb s] describe the regions [s] holds. *)
Definition well_laid (s : fs) : Prop :=
  let itb := rd_u64 (sb s) SB.inode_table_blocks in
  let drb := rd_u64 (sb s) SB.data_region_blocks in
  len (sb s) = SB_SIZE /\
  rd_u32 (sb s) SB.magic = MAGIC /\
  rd_u64 (sb s) SB.inode_bitmap_start = 1 /\
  rd_u64 (sb s) SB.data_bitmap_start = 2 /\
  rd_u64 (sb s) SB.inode_table_start = 3 /\
  rd_u64 (sb s) SB.data_region_start = 3 + itb /\
  1 <= itb <= 8 * BS /\ 1 <= drb <= 8 * BS /\
  len (inode_bitmap s) = BS /\ len (data_bitmap s) = BS /\
  len (inode_table s) = itb * BS /\ len (data_region s) = drb * BS.

(** What the builder leaves in each region, for the geometry [g]. *)
Definition fresh_fs (g : geometry) (inodes : Z) (s : fs) : Prop :=
  well_laid s /\
  rd_u32 (sb s) SB.block_size = BS /\
  rd_u64 (sb s) SB.total_blocks = total_blocks g /\
  rd_u64 (sb s) SB.inode_count = inodes /\
  rd_u64 (sb s) SB.inode_table_blocks = inode_table_blocks g /\
  rd_u64 (sb s) SB.data_region_start = data_region_start g /\
  rd_u64 (sb s) SB.data_region_blocks = data_region_blocks g /\
  rd_u64 (sb s) SB.root_inode = 1 /\
  (forall i, 0 <= i -> bitmap_bit (inode_bitmap s) i = (i =? 0)) /\
  (forall i, 0 <= i -> bitmap_bit (data_bitmap s) i = (i =? 0)) /\
  same_outside 0 128 (zeros (inode_table_blocks g * BS)) (inode_table s) /\
  rd_u16 (inode_table s) INO.mode = 0x4000 /\
  rd_u16 (inode_table s) INO.links = 2 /\
  rd_u64 (inode_table s) INO.size_bytes = 128 /\
  rd_u32 (inode_table s) (INO.direct 0) = data_region_start g /\
  same_outside 0 128 (zeros (data_region_blocks g * BS)) (data_region s) /\
  rd_u32 (data_region s) 0 = 1 /\
  rd_u8 (data_region s) 4 = 2 /\
  slice (data_region s) 5 58 = 46 :: zeros 57 /\
  rd_u32 (data_region s) 64 = 1 /\
  rd_u8 (data_region s) 68 = 2 /\
  slice (data_region s) 69 58 = 46 :: 46 :: zeros 56.

(** The regions of an image, as the adder reads them. *)
Definition fs_of_image (img : bytes) : fs :=
  {| sb := slice img 0 SB_SIZE;
     inode_bitmap := img_inode_bitmap img;
     data_bitmap := img_data_bitmap img;
     inode_table := img_inode_table img;
     data_region := img_data_region img |}.

(** [valid_image], on the regions in memory. *)
Definition valid_fs (s : fs) : Prop :=
  let inodes := rd_u64 (sb s) SB.inode_count in
  let itb := rd_u64 (sb s) SB.inode_table_blocks in
  let drs := rd_u64 (sb s) SB.data_region_start in
  let drb := rd_u64 (sb s) SB.data_region_blocks in
  let rb := rd_u32 (inode_table s) (INO.direct 0) - drs in
  well_laid s /\
  1 <= inodes <= 8 * BS /\
  inodes * INODE_SIZE <= itb * BS /\
  bitmap_bit (inode_bitmap s) 0 = true /\
  0 <= rb < drb /\
  bitmap_bit (data_bitmap s) rb = true /\
  0 <= rd_u64 (inode_table s) INO.size_bytes /\
  rd_u64 (inode_table s) INO.size_bytes / DIRENT_SIZE <= 64.

(** What the adder needs of an image to read it: the magic number and the
    regions where the superblock says they are. *)
Definition readable (img : bytes) : Prop :=
  let itb := rd_u64 img SB.inode_table_blocks in
  let drb := rd_u64 img SB.data_region_blocks in
  rd_u32 img SB.magic = MAGIC /\
  rd_u64 img SB.inode_bitmap_start = 1 /\
  rd_u64 img SB.data_bitmap_start = 2 /\
  rd_u64 img SB.inode_table_start = 3 /\
  rd_u64 img SB.data_region_start = 3 + itb /\
  1 <= itb <= 8 * BS /\ 1 <= drb <= 8 * BS /\
  len img = (3 + itb + drb) * BS.

(** The size of the file to add, when there is one, fits the [long] that
    [ftell] returns. *)
Definition file_fits (file : option bytes) : Prop :=
  match file with
  | Some content => len content < 2 ^ 63
  | None => True
  end.

(** [s'] is [s] after the file [content] went in under the name
    [file_name] as inode [k + 1], with data blocks [dbs] and root directory
    entry [fe]. *)
Definition inserted (s : fs) (file_name content : bytes) (k : Z)
    (dbs : list Z) (fe : Z) (s' : fs) : Prop :=
  let drs := rd_u64 (sb s) SB.data_region_start in
  let drb := rd_u64 (sb s) SB.data_region_blocks in
  let rb := rd_u32 (inode_table s) (INO.direct 0) - drs in
  let size := rd_u64 (inode_table s) INO.size_bytes in
  let entry_count := size / DIRENT_SIZE in
  let needed := u64 (u64 (u64 (len content) + BS) - 1) / BS in
  let free j := rd_u32 (data_region s) (rb * BS + j * DIRENT_SIZE) = 0 in
  sb s' = sb s /\
  (* the slot *)
  0 <= fe < 64 /\
  (fe < entry_count /\ free fe /\ (forall j, 0 <= j < fe -> ~ free j) /\
     rd_u64 (inode_table s') INO.size_bytes = size
   \/
   fe = entry_count /\ (forall j, 0 <= j < entry_count -> ~ free j) /\
     rd_u64 (inode_table s') INO.size_bytes = size + 64) /\
  (* the inode bitmap *)
  len (inode_bitmap s') = BS /\
  (forall j, 0 <= j ->
     bitmap_bit (inode_bitmap s') j = (j =? k) || bitmap_bit (inode_bitmap s) j) /\
  (* the data bitmap *)
  len (data_bitmap s') = BS /\
  (forall j, 0 <= j ->
     bitmap_bit (data_bitmap s') j = true <->
     bitmap_bit (data_bitmap s) j = true \/
     exists t, 0 <= t < needed /\ nth (Z.to_nat t) dbs 0 = drs + j) /\
  (forall t, 0 <= t < needed ->
     exists fb, 0 <= fb < drb /\ nth (Z.to_nat t) dbs 0 = drs + fb /\
       bitmap_bit (data_bitmap s) fb = false) /\
  (* the inode table *)
  agree_on (fun p => ~ in_slot k p /\
              (p < 2 \/ 4 <= p < 12 \/ 20 <= p < 120 \/ 128 <= p))
    (inode_table s) (inode_table s') /\
  rd_u16 (inode_table s') INO.links = u16 (rd_u16 (inode_table s) INO.links + 1) /\
  rd_u16 (inode_table s') (k * INODE_SIZE + INO.mode) = 0x8000 /\
  rd_u16 (inode_table s') (k * INODE_SIZE + INO.links) = 1 /\
  rd_u64 (inode_table s') (k * INODE_SIZE + INO.size_bytes) = len content /\
  (* the data region *)
  agree_on (fun p =>
              ~ (rb * BS + fe * DIRENT_SIZE <= p < rb * BS + fe * DIRENT_SIZE + 64) /\
              forall t, 0 <= t < needed ->
                ~ in_block (nth (Z.to_nat t) dbs 0 - drs) p)
    (data_region s) (data_region s') /\
  rd_u32 (data_region s') (rb * BS + fe * DIRENT_SIZE + DE.inode_no) = k + 1 /\
  rd_u8 (data_region s') (rb * BS + fe * DIRENT_SIZE + DE.type) = 1 /\
  cstr (slice (data_region s') (rb * BS + fe * DIRENT_SIZE + DE.name) DE.name_size)
  = firstn 57 (cstr file_name).

(** Whether a run wrote an output image. *)
Definition wrote_output (o : outcome bytes) : bool :=
  match o with
  | Done _ => true
  | _ => false
  end.

(** The sample image after one small file went in. *)
Definition sample_output : bytes :=
  image_of (mkfs_adder (Some sample_image) [102; 49] (Some [72; 105; 10])
              1700000001 true).

(** A file system that has only ever been filled from the left: [m] files
    are in (inodes 2 .. m + 1, directory entries 2 .. m + 1 after "." and
    ".."), and the first [d] blocks of the data region are in use. *)
Definition packed (m d : Z) (s : fs) : Prop :=
  let drs := rd_u64 (sb s) SB.data_region_start in
  let drb := rd_u64 (sb s) SB.data_region_blocks in
  valid_fs s /\
  rd_u32 (sb s) SB.block_size = BS /\
  rd_u64 (sb s) SB.total_blocks = drs + drb /\
  rd_u64 (sb s) SB.root_inode = ROOT_INO /\
  0 <= m /\ 1 <= d /\
  (forall j, 0 <= j -> bitmap_bit (inode_bitmap s) j = (j <? m + 1)) /\
  (forall j, 0 <= j -> bitmap_bit (data_bitmap s) j = (j <? d)) /\
  rd_u32 (inode_table s) (INO.direct 0) = drs /\
  rd_u64 (inode_table s) INO.size_bytes = 64 * (m + 2) /\
  rd_u16 (inode_table s) INO.links = m + 2 /\
  (forall j, 0 <= j < m + 2 -> rd_u32 (data_region s) (j * DIRENT_SIZE) <> 0).

(** The number of blocks a file of [size] bytes takes. *)
Definition blocks_of (size : Z) : Z := u64 (u64 (u64 size + BS) - 1) / BS.

(** The first [n] sample files. *)
Definition sample_files (n : nat) : list insertion :=
  map (fun i => sample_file (Z.of_nat i)) (seq 0 n).

(** A root inode and a root directory block as the builder makes them. *)
Definition sample_root_inode : bytes :=
  image_of (init_root_inode (zeros INODE_SIZE) sample_geometry 1700000000).
Definition sample_root_block : bytes :=
  image_of (d <- init_dirent (zeros BS) 0 [46] ;; init_dirent d DIRENT_SIZE [46; 46]).

(** ** Vocabulary of the further statements *)

(** The number of clear bits among the first [n] bits of a bitmap. *)
Definition count_free (bitmap : bytes) (n : Z) : Z :=
  Z.of_nat (length (filter (fun j => negb (bitmap_bit bitmap (Z.of_nat j)))
                      (seq 0 (Z.to_nat n)))).

(** More of what a successful insertion leaves behind: the rest of the new
    inode, where its blocks lie and what they hold, the checksums, and the
    name field of the new entry. *)
Definition stored (s : fs) (file_name content : bytes) (now k : Z)
    (dbs : list Z) (fe : Z) (s' : fs) : Prop :=
  let drs := rd_u64 (sb s) SB.data_region_start in
  let drb := rd_u64 (sb s) SB.data_region_blocks in
  let rb := rd_u32 (inode_table s) (INO.direct 0) - drs in
  let needed := blocks_of (len content) in
  let ino := k * INODE_SIZE in
  let de := rb * BS + fe * DIRENT_SIZE in
  (* the new inode *)
  rd_u32 (inode_table s') (ino + INO.uid) = 0 /\
  rd_u32 (inode_table s') (ino + INO.gid) = 0 /\
  rd_u64 (inode_table s') (ino + INO.atime) = u64 now /\
  rd_u64 (inode_table s') (ino + INO.mtime) = u64 now /\
  rd_u64 (inode_table s') (ino + INO.ctime) = u64 now /\
  rd_u32 (inode_table s') (ino + INO.proj_id) = 1234 /\
  (forall t, 0 <= t < 12 ->
     rd_u32 (inode_table s') (ino + INO.direct t)
     = if t <? needed then nth (Z.to_nat t) dbs 0 else 0) /\
  agree_on (fun p => ino + 92 <= p < ino + 104 \/ ino + 108 <= p < ino + 120)
    (inode_table s) (inode_table s') /\
  (* its blocks *)
  (forall t u, 0 <= t -> t < u -> u < needed ->
     nth (Z.to_nat t) dbs 0 < nth (Z.to_nat u) dbs 0) /\
  (forall t j, 0 <= t < needed -> 0 <= j < nth (Z.to_nat t) dbs 0 - drs ->
     bitmap_bit (data_bitmap s') j = true) /\
  (forall t, 0 <= t < needed ->
     slice (data_region s') ((nth (Z.to_nat t) dbs 0 - drs) * BS)
       (Z.min BS (len content - t * BS))
     = slice content (t * BS) (Z.min BS (len content - t * BS))) /\
  count_free (data_bitmap s') drb = count_free (data_bitmap s) drb - needed /\
  (* the checksums *)
  crc32 (slice (inode_table s') ino INODE_SIZE) 120
    = Done (rd_u64 (inode_table s') (ino + INO.inode_crc)) /\
  crc32 (slice (inode_table s') 0 INODE_SIZE) 120
    = Done (rd_u64 (inode_table s') INO.inode_crc) /\
  (bytes_ok (data_region s) -> bytes_ok content -> bytes_ok file_name ->
   rd_u8 (data_region s') (de + DE.checksum)
   = xor_all (slice (data_region s') de 63)) /\
  (* the name field *)
  slice (data_region s') (de + DE.name) DE.name_size
  = firstn 57 (cstr file_name) ++ zeros (58 - len (firstn 57 (cstr file_name))).

(** What a reader of the file behind inode-table slot [ino] finds: the
    blocks its direct pointers name, one after the other, cut at the
    [remaining] bytes of the file. *)
Fixpoint read_blocks (n : nat) (t remaining : Z) (ino data_region : bytes)
    (drs : Z) : bytes :=
  match n with
  | O => []
  | S n' =>
      slice data_region ((rd_u32 ino (INO.direct t) - drs) * BS) (Z.min BS remaining)
      ++ read_blocks n' (t + 1) (remaining - BS) ino data_region drs
  end.

Definition read_back (img : bytes) (k : Z) : bytes :=
  let ino := inode_slot img k in
  read_blocks 12 0 (rd_u64 ino INO.size_bytes) ino (img_data_region img)
    (rd_u64 img SB.data_region_start).

(** * Proofs *)

(** ** Lists of bytes *)

Lemma len_nonneg (l : bytes) : 0 <= len l.
Proof. unfold len; lia. Qed.

Lemma len_app (a b : bytes) : len (a ++ b) = len a + len b.
Proof. unfold len; rewrite length_app; lia. Qed.

Lemma len_zeros (n : Z) : 0 <= n -> len (zeros n) = n.
Proof. intros; unfold len, zeros; rewrite repeat_length; lia. Qed.

Lemma len_slice (buf : bytes) (off n : Z) :
  0 <= off -> 0 <= n -> off + n <= len buf -> len (slice buf off n) = n.
Proof.
  unfold len, slice; intros.
  rewrite length_firstn, length_skipn; lia.
Qed.

Lemma len_upd (buf : bytes) (off : Z) (d : bytes) :
  0 <= off -> off + len d <= len buf -> len (upd buf off d) = len buf.
Proof.
  unfold len, upd; intros.
  rewrite !length_app, length_firstn, length_skipn; lia.
Qed.

Lemma byte_at_slice (buf : bytes) (off n i : Z) :
  0 <= off -> 0 <= i < n -> byte_at (slice buf off n) i = byte_at buf (off + i).
Proof.
  unfold byte_at, slice; intros.
  rewrite nth_firstn, nth_skipn.
  replace (Z.to_nat i <? Z.to_nat n)%nat with true
    by (symmetry; apply Nat.ltb_lt; lia).
  f_equal; lia.
Qed.

Lemma byte_at_upd (buf : bytes) (off : Z) (d : bytes) (i : Z) :
  0 <= off -> off + len d <= len buf -> 0 <= i ->
  byte_at (upd buf off d) i =
  if (off <=? i) && (i <? off + len d) then byte_at d (i - off)
  else byte_at buf i.
Proof.
  unfold byte_at, upd, len; intros Hoff Hin Hi.
  assert (Hl : length (firstn (Z.to_nat off) buf) = Z.to_nat off)
    by (rewrite length_firstn; lia).
  destruct (off <=? i) eqn:E1; simpl.
  - apply Z.leb_le in E1.
    rewrite app_nth2 by lia. rewrite Hl.
    destruct (i <? off + Z.of_nat (length d)) eqn:E2.
    + apply Z.ltb_lt in E2. rewrite app_nth1 by lia. f_equal; lia.
    + apply Z.ltb_ge in E2. rewrite app_nth2 by lia.
      rewrite nth_skipn. f_equal; lia.
  - apply Z.leb_gt in E1.
    rewrite app_nth1 by lia. rewrite nth_firstn.
    replace (Z.to_nat i <? Z.to_nat off)%nat with true
      by (symmetry; apply Nat.ltb_lt; lia).
    reflexivity.
Qed.

Lemma bytes_ext (a b : bytes) :
  len a = len b ->
  (forall i, 0 <= i < len a -> byte_at a i = byte_at b i) -> a = b.
Proof.
  unfold len, byte_at; intros Hl H.
  apply nth_ext with (d := 0) (d' := 0); [lia|].
  intros n Hn. specialize (H (Z.of_nat n)).
  rewrite Nat2Z.id in H. apply H; lia.
Qed.

Lemma slice_upd_same (buf : bytes) (off : Z) (d : bytes) :
  0 <= off -> off + len d <= len buf -> slice (upd buf off d) off (len d) = d.
Proof.
  intros. pose proof (len_nonneg d).
  apply bytes_ext.
  - rewrite len_slice; rewrite ?len_upd; lia.
  - intros i Hi. rewrite len_slice in Hi by (rewrite ?len_upd; lia).
    rewrite byte_at_slice, byte_at_upd by lia.
    replace ((off <=? off + i) && (off + i <? off + len d)) with true
      by (symmetry; apply andb_true_iff; split; [apply Z.leb_le|apply Z.ltb_lt]; lia).
    f_equal; lia.
Qed.

Lemma slice_full (buf : bytes) : slice buf 0 (len buf) = buf.
Proof.
  unfold slice, len. rewrite Nat2Z.id. simpl. apply firstn_all.
Qed.

Lemma slice_slice (buf : bytes) (off n off' n' : Z) :
  0 <= off -> 0 <= off' -> 0 <= n' -> off' + n' <= n ->
  slice (slice buf off n) off' n' = slice buf (off + off') n'.
Proof.
  intros. unfold slice.
  rewrite skipn_firstn_comm, firstn_firstn, skipn_skipn.
  f_equal; [lia|]. f_equal. lia.
Qed.

Lemma slice_app_l (a b : bytes) (off n : Z) :
  0 <= off -> 0 <= n -> off + n <= len a -> slice (a ++ b) off n = slice a off n.
Proof.
  unfold slice, len; intros.
  rewrite skipn_app, firstn_app, length_skipn.
  replace (Z.to_nat n - (length a - Z.to_nat off))%nat with 0%nat by lia.
  simpl. apply app_nil_r.
Qed.

Lemma slice_app_r (a b : bytes) (off n : Z) :
  len a <= off -> slice (a ++ b) off n = slice b (off - len a) n.
Proof.
  unfold slice, len; intros.
  rewrite skipn_app, skipn_all2 by lia. simpl.
  do 2 f_equal. lia.
Qed.

(** ** Windows *)

Lemma same_outside_refl lo hi a : same_outside lo hi a a.
Proof. split; auto. Qed.

Lemma same_outside_trans lo hi a b c :
  same_outside lo hi a b -> same_outside lo hi b c -> same_outside lo hi a c.
Proof.
  intros [L1 H1] [L2 H2]; split; [congruence|].
  intros; rewrite H1, H2; auto.
Qed.

Lemma same_outside_weaken lo hi lo' hi' a b :
  lo' <= lo -> hi <= hi' -> same_outside lo hi a b -> same_outside lo' hi' a b.
Proof.
  intros ? ? [L H]; split; [exact L|].
  intros; apply H; lia.
Qed.

Lemma same_outside_upd (buf : bytes) (off : Z) (d : bytes) :
  0 <= off -> off + len d <= len buf ->
  same_outside off (off + len d) buf (upd buf off d).
Proof.
  intros; split; [symmetry; apply len_upd; lia|].
  intros i Hi Ho. rewrite byte_at_upd by lia.
  destruct (off <=? i) eqn:E1, (i <? off + len d) eqn:E2; simpl; try reflexivity.
  apply Z.leb_le in E1; apply Z.ltb_lt in E2; lia.
Qed.

Lemma same_outside_slice lo hi a b off n :
  same_outside lo hi a b -> 0 <= off -> 0 <= n ->
  off + n <= lo \/ hi <= off -> slice a off n = slice b off n.
Proof.
  intros [L H] Hoff Hn Ho.
  unfold slice. apply nth_ext with (d := 0) (d' := 0).
  - unfold len in L. rewrite !length_firstn, !length_skipn. lia.
  - intros k Hk. rewrite length_firstn in Hk.
    rewrite !nth_firstn, !nth_skipn.
    destruct (k <? Z.to_nat n)%nat eqn:E; [|reflexivity].
    apply Nat.ltb_lt in E.
    specialize (H (off + Z.of_nat k)). unfold byte_at in H.
    replace (Z.to_nat (off + Z.of_nat k)) with (Z.to_nat off + k)%nat in H by lia.
    apply H; lia.
Qed.

Lemma same_outside_byte lo hi a b i :
  same_outside lo hi a b -> 0 <= i -> i < lo \/ hi <= i ->
  byte_at a i = byte_at b i.
Proof. intros [_ H]; auto. Qed.

Lemma same_outside_len lo hi a b : same_outside lo hi a b -> len a = len b.
Proof. intros [L _]; exact L. Qed.

(** ** Little-endian fields *)

Lemma length_le_encode (n : nat) (v : Z) : length (le_encode n v) = n.
Proof. revert v; induction n; simpl; intros; [|rewrite IHn]; reflexivity. Qed.

Lemma len_le_encode (n : nat) (v : Z) : len (le_encode n v) = Z.of_nat n.
Proof. unfold len; now rewrite length_le_encode. Qed.

Lemma le_decode_encode (n : nat) (v : Z) :
  le_decode (le_encode n v) = v mod 256 ^ Z.of_nat n.
Proof.
  revert v; induction n; intros v.
  - simpl. now rewrite Z.mod_1_r.
  - cbn [le_encode le_decode]. rewrite IHn.
    rewrite Nat2Z.inj_succ, Z.pow_succ_r by lia.
    rewrite Z.rem_mul_r by lia. reflexivity.
Qed.

Lemma le_encode_ok (n : nat) (v : Z) : bytes_ok (le_encode n v).
Proof.
  revert v; induction n; intros v; simpl.
  - constructor.
  - constructor; [|apply IHn].
    unfold is_byte. apply Z.mod_pos_bound. lia.
Qed.

Lemma le_decode_bound (l : bytes) :
  bytes_ok l -> 0 <= le_decode l < 256 ^ len l.
Proof.
  induction 1 as [|b l Hb _ IH].
  - simpl. lia.
  - cbn [le_decode]. unfold is_byte in Hb.
    replace (len (b :: l)) with (Z.succ (len l)) by (unfold len; simpl length; lia).
    rewrite Z.pow_succ_r by apply len_nonneg. lia.
Qed.

Lemma u8_small v : 0 <= v < 2 ^ 8 -> u8 v = v.
Proof. apply Z.mod_small. Qed.
Lemma u16_small v : 0 <= v < 2 ^ 16 -> u16 v = v.
Proof. apply Z.mod_small. Qed.
Lemma u32_small v : 0 <= v < 2 ^ 32 -> u32 v = v.
Proof. apply Z.mod_small. Qed.
Lemma u64_small v : 0 <= v < 2 ^ 64 -> u64 v = v.
Proof. apply Z.mod_small. Qed.

Lemma i32_small v : 0 <= v < 2 ^ 31 -> i32 v = v.
Proof.
  intros. unfold i32. rewrite Z.mod_small by lia.
  destruct (v <? 2 ^ 31) eqn:E; [reflexivity|]. apply Z.ltb_ge in E; lia.
Qed.

Lemma i64_small v : 0 <= v < 2 ^ 63 -> i64 v = v.
Proof.
  intros. unfold i64. rewrite Z.mod_small by lia.
  destruct (v <? 2 ^ 63) eqn:E; [reflexivity|]. apply Z.ltb_ge in E; lia.
Qed.

Lemma u8_range v : 0 <= u8 v < 2 ^ 8.
Proof. apply Z.mod_pos_bound; lia. Qed.
Lemma u16_range v : 0 <= u16 v < 2 ^ 16.
Proof. apply Z.mod_pos_bound; lia. Qed.
Lemma u32_range v : 0 <= u32 v < 2 ^ 32.
Proof. apply Z.mod_pos_bound; lia. Qed.
Lemma u64_range v : 0 <= u64 v < 2 ^ 64.
Proof. apply Z.mod_pos_bound; lia. Qed.

(** ** Checked accesses *)

Lemma in_range_true (buf : bytes) (off n : Z) :
  in_range buf off n = true <-> 0 <= off /\ 0 <= n /\ off + n <= len buf.
Proof.
  unfold in_range. rewrite !andb_true_iff, !Z.leb_le. tauto.
Qed.

Lemma get_bytes_ok (buf : bytes) (off n : Z) :
  0 <= off -> 0 <= n -> off + n <= len buf ->
  get_bytes buf off n = Done (slice buf off n).
Proof.
  intros. unfold get_bytes.
  replace (in_range buf off n) with true; [reflexivity|].
  symmetry; apply in_range_true; auto.
Qed.

Lemma get_bytes_inv (buf : bytes) (off n : Z) (r : bytes) :
  get_bytes buf off n = Done r ->
  0 <= off /\ 0 <= n /\ off + n <= len buf /\ r = slice buf off n.
Proof.
  unfold get_bytes. destruct (in_range buf off n) eqn:E; [|discriminate].
  apply in_range_true in E. intros [= <-]. tauto.
Qed.

Lemma get_bytes_fault (buf : bytes) (off n : Z) :
  len buf < off + n -> get_bytes buf off n = Fault.
Proof.
  intros. unfold get_bytes.
  destruct (in_range buf off n) eqn:E; [|reflexivity].
  apply in_range_true in E. lia.
Qed.

Lemma put_bytes_ok (buf : bytes) (off : Z) (d : bytes) :
  0 <= off -> off + len d <= len buf ->
  put_bytes buf off d = Done (upd buf off d).
Proof.
  intros. unfold put_bytes.
  replace (in_range buf off (len d)) with true; [reflexivity|].
  symmetry; apply in_range_true. pose proof (len_nonneg d). auto.
Qed.

Lemma put_bytes_inv (buf : bytes) (off : Z) (d r : bytes) :
  put_bytes buf off d = Done r ->
  0 <= off /\ off + len d <= len buf /\ r = upd buf off d.
Proof.
  unfold put_bytes. destruct (in_range buf off (len d)) eqn:E; [|discriminate].
  apply in_range_true in E. intros [= <-]. tauto.
Qed.

(** What one store does: it stays inside its window, keeps the length and
    can be read back. *)
Lemma put_bytes_spec (buf : bytes) (off : Z) (d r : bytes) :
  put_bytes buf off d = Done r ->
  same_outside off (off + len d) buf r /\ slice r off (len d) = d.
Proof.
  intros H. apply put_bytes_inv in H as (? & ? & ->).
  split; [apply same_outside_upd | apply slice_upd_same]; lia.
Qed.

Lemma bind_done {A B} (m : outcome A) (k : A -> outcome B) (b : B) :
  bind m k = Done b -> exists a, m = Done a /\ k a = Done b.
Proof. destruct m; simpl; intros; [eauto|discriminate..]. Qed.

Lemma rd_put_u8 buf off v r : put_u8 buf off v = Done r -> rd_u8 r off = u8 v.
Proof.
  intros H. apply put_bytes_spec in H as [_ H].
  rewrite len_le_encode in H. unfold rd_u8. change (Z.of_nat 1) with 1 in H.
  rewrite H, le_decode_encode. apply Z.mod_small, u8_range.
Qed.

Lemma rd_put_u16 buf off v r : put_u16 buf off v = Done r -> rd_u16 r off = u16 v.
Proof.
  intros H. apply put_bytes_spec in H as [_ H].
  rewrite len_le_encode in H. unfold rd_u16. change (Z.of_nat 2) with 2 in H.
  rewrite H, le_decode_encode. apply Z.mod_small, u16_range.
Qed.

Lemma rd_put_u32 buf off v r : put_u32 buf off v = Done r -> rd_u32 r off = u32 v.
Proof.
  intros H. apply put_bytes_spec in H as [_ H].
  rewrite len_le_encode in H. unfold rd_u32. change (Z.of_nat 4) with 4 in H.
  rewrite H, le_decode_encode. apply Z.mod_small, u32_range.
Qed.

Lemma rd_put_u64 buf off v r : put_u64 buf off v = Done r -> rd_u64 r off = u64 v.
Proof.
  intros H. apply put_bytes_spec in H as [_ H].
  rewrite len_le_encode in H. unfold rd_u64. change (Z.of_nat 8) with 8 in H.
  rewrite H, le_decode_encode. apply Z.mod_small, u64_range.
Qed.

Lemma put_u8_frame buf off v r :
  put_u8 buf off v = Done r -> same_outside off (off + 1) buf r.
Proof. intros H. apply put_bytes_spec in H as [H _]. now rewrite len_le_encode in H. Qed.

Lemma put_u16_frame buf off v r :
  put_u16 buf off v = Done r -> same_outside off (off + 2) buf r.
Proof. intros H. apply put_bytes_spec in H as [H _]. now rewrite len_le_encode in H. Qed.

Lemma put_u32_frame buf off v r :
  put_u32 buf off v = Done r -> same_outside off (off + 4) buf r.
Proof. intros H. apply put_bytes_spec in H as [H _]. now rewrite len_le_encode in H. Qed.

Lemma put_u64_frame buf off v r :
  put_u64 buf off v = Done r -> same_outside off (off + 8) buf r.
Proof. intros H. apply put_bytes_spec in H as [H _]. now rewrite len_le_encode in H. Qed.

Lemma put_u8_ok buf off v :
  0 <= off -> off + 1 <= len buf -> exists r, put_u8 buf off v = Done r.
Proof. intros. eexists. apply put_bytes_ok; rewrite ?len_le_encode; lia. Qed.

Lemma put_u16_ok buf off v :
  0 <= off -> off + 2 <= len buf -> exists r, put_u16 buf off v = Done r.
Proof. intros. eexists. apply put_bytes_ok; rewrite ?len_le_encode; lia. Qed.

Lemma put_u32_ok buf off v :
  0 <= off -> off + 4 <= len buf -> exists r, put_u32 buf off v = Done r.
Proof. intros. eexists. apply put_bytes_ok; rewrite ?len_le_encode; lia. Qed.

Lemma put_u64_ok buf off v :
  0 <= off -> off + 8 <= len buf -> exists r, put_u64 buf off v = Done r.
Proof. intros. eexists. apply put_bytes_ok; rewrite ?len_le_encode; lia. Qed.

Lemma get_u8_ok buf off :
  0 <= off -> off + 1 <= len buf -> get_u8 buf off = Done (rd_u8 buf off).
Proof. intros. unfold get_u8. rewrite get_bytes_ok by lia. reflexivity. Qed.

Lemma get_u16_ok buf off :
  0 <= off -> off + 2 <= len buf -> get_u16 buf off = Done (rd_u16 buf off).
Proof. intros. unfold get_u16. rewrite get_bytes_ok by lia. reflexivity. Qed.

Lemma get_u32_ok buf off :
  0 <= off -> off + 4 <= len buf -> get_u32 buf off = Done (rd_u32 buf off).
Proof. intros. unfold get_u32. rewrite get_bytes_ok by lia. reflexivity. Qed.

Lemma get_u64_ok buf off :
  0 <= off -> off + 8 <= len buf -> get_u64 buf off = Done (rd_u64 buf off).
Proof. intros. unfold get_u64. rewrite get_bytes_ok by lia. reflexivity. Qed.

Lemma get_u8_inv buf off v :
  get_u8 buf off = Done v -> 0 <= off /\ off + 1 <= len buf /\ v = rd_u8 buf off.
Proof.
  unfold get_u8. intros H. apply bind_done in H as (b & H & [= <-]).
  apply get_bytes_inv in H as (? & ? & ? & ->). auto.
Qed.

Lemma get_u16_inv buf off v :
  get_u16 buf off = Done v -> 0 <= off /\ off + 2 <= len buf /\ v = rd_u16 buf off.
Proof.
  unfold get_u16. intros H. apply bind_done in H as (b & H & [= <-]).
  apply get_bytes_inv in H as (? & ? & ? & ->). auto.
Qed.

Lemma get_u32_inv buf off v :
  get_u32 buf off = Done v -> 0 <= off /\ off + 4 <= len buf /\ v = rd_u32 buf off.
Proof.
  unfold get_u32. intros H. apply bind_done in H as (b & H & [= <-]).
  apply get_bytes_inv in H as (? & ? & ? & ->). auto.
Qed.

Lemma get_u64_inv buf off v :
  get_u64 buf off = Done v -> 0 <= off /\ off + 8 <= len buf /\ v = rd_u64 buf off.
Proof.
  unfold get_u64. intros H. apply bind_done in H as (b & H & [= <-]).
  apply get_bytes_inv in H as (? & ? & ? & ->). auto.
Qed.

(** Reads outside a window see the old value. *)
Lemma rd_u8_frame lo hi a b off :
  same_outside lo hi a b -> 0 <= off -> off + 1 <= lo \/ hi <= off ->
  rd_u8 b off = rd_u8 a off.
Proof. intros. unfold rd_u8. f_equal. symmetry. eapply same_outside_slice; eauto; lia. Qed.

Lemma rd_u16_frame lo hi a b off :
  same_outside lo hi a b -> 0 <= off -> off + 2 <= lo \/ hi <= off ->
  rd_u16 b off = rd_u16 a off.
Proof. intros. unfold rd_u16. f_equal. symmetry. eapply same_outside_slice; eauto; lia. Qed.

Lemma rd_u32_frame lo hi a b off :
  same_outside lo hi a b -> 0 <= off -> off + 4 <= lo \/ hi <= off ->
  rd_u32 b off = rd_u32 a off.
Proof. intros. unfold rd_u32. f_equal. symmetry. eapply same_outside_slice; eauto; lia. Qed.

Lemma rd_u64_frame lo hi a b off :
  same_outside lo hi a b -> 0 <= off -> off + 8 <= lo \/ hi <= off ->
  rd_u64 b off = rd_u64 a off.
Proof. intros. unfold rd_u64. f_equal. symmetry. eapply same_outside_slice; eauto; lia. Qed.

Lemma rd_u8_byte_at buf off : 0 <= off -> off < len buf -> rd_u8 buf off = byte_at buf off.
Proof.
  intros. unfold rd_u8.
  assert (E : slice buf off 1 = [byte_at buf off]).
  { apply bytes_ext.
    - rewrite len_slice by lia. reflexivity.
    - intros i Hi. rewrite len_slice in Hi by lia.
      assert (i = 0) by lia; subst i.
      rewrite byte_at_slice by lia. rewrite Z.add_0_r. reflexivity. }
  rewrite E. simpl. lia.
Qed.

(** ** Bits *)

Lemma testbit_high (a n m : Z) :
  0 <= n -> 0 <= a < 2 ^ n -> n <= m -> Z.testbit a m = false.
Proof.
  intros Hn Ha Hm. rewrite <- (Z.mod_small a (2 ^ n)) by lia.
  rewrite Z.testbit_mod_pow2 by lia.
  replace (m <? n) with false by (symmetry; apply Z.ltb_ge; lia).
  reflexivity.
Qed.

Lemma range_of_bits (x n : Z) :
  0 <= n -> 0 <= x -> (forall m, n <= m -> Z.testbit x m = false) ->
  0 <= x < 2 ^ n.
Proof.
  intros Hn Hx H. split; [exact Hx|].
  assert (E : x = x mod 2 ^ n).
  { apply Z.bits_inj'. intros m Hm.
    rewrite Z.testbit_mod_pow2 by lia.
    destruct (m <? n) eqn:E; [reflexivity|].
    apply Z.ltb_ge in E. simpl. auto. }
  rewrite E. apply Z.mod_pos_bound. lia.
Qed.

Lemma lxor_range (n a b : Z) :
  0 <= n -> 0 <= a < 2 ^ n -> 0 <= b < 2 ^ n -> 0 <= Z.lxor a b < 2 ^ n.
Proof.
  intros Hn Ha Hb. apply range_of_bits; [lia| |].
  - apply Z.lxor_nonneg. lia.
  - intros m Hm. rewrite Z.lxor_spec.
    rewrite (testbit_high a n m), (testbit_high b n m) by lia. reflexivity.
Qed.

Lemma bit_is_set_testbit (b i : Z) :
  bit_is_set b i = Z.testbit b (i mod 8).
Proof.
  unfold bit_is_set.
  assert (Hr : 0 <= i mod 8 < 8) by (apply Z.mod_pos_bound; lia).
  rewrite Z.shiftl_mul_pow2, Z.mul_1_l by lia.
  destruct (Z.testbit b (i mod 8)) eqn:T.
  - apply negb_true_iff, Z.eqb_neq. intros E.
    assert (F : Z.testbit (Z.land b (2 ^ (i mod 8))) (i mod 8) = false)
      by (rewrite E; apply Z.bits_0).
    rewrite Z.land_spec, T, Z.pow2_bits_eqb, Z.eqb_refl in F by lia.
    discriminate.
  - apply negb_false_iff, Z.eqb_eq. apply Z.bits_inj'. intros m Hm.
    rewrite Z.land_spec, Z.bits_0, Z.pow2_bits_eqb by lia.
    destruct (Z.eqb_spec (i mod 8) m); [subst; now rewrite T|].
    apply andb_false_r.
Qed.

(** ** The CRC stays in 32 bits *)

Lemma CRC32_TAB_range (k : nat) : 0 <= nth k CRC32_TAB 0 < 2 ^ 32.
Proof.
  assert (H : forallb (fun x => (0 <=? x) && (x <? 2 ^ 32)) CRC32_TAB = true)
    by (vm_compute; reflexivity).
  rewrite forallb_forall in H.
  destruct (Nat.lt_ge_cases k (length CRC32_TAB)) as [L|L].
  - specialize (H _ (nth_In _ 0 L)).
    apply andb_true_iff in H as [H1 H2].
    apply Z.leb_le in H1. apply Z.ltb_lt in H2. lia.
  - rewrite nth_overflow by exact L. lia.
Qed.

Lemma crc32_step_range (c b : Z) :
  0 <= c < 2 ^ 32 -> 0 <= crc32_step c b < 2 ^ 32.
Proof.
  intros Hc. unfold crc32_step. apply lxor_range; [lia|apply CRC32_TAB_range|].
  rewrite Z.shiftr_div_pow2 by lia. split.
  - apply Z.div_pos; lia.
  - apply Z.div_lt_upper_bound; lia.
Qed.

Lemma crc32_fold_range (p : bytes) (c : Z) :
  0 <= c < 2 ^ 32 -> 0 <= fold_left crc32_step p c < 2 ^ 32.
Proof.
  revert c; induction p as [|b p IH]; intros c Hc; simpl; [exact Hc|].
  apply IH, crc32_step_range, Hc.
Qed.

Lemma crc32_range (data : bytes) (n c : Z) :
  crc32 data n = Done c -> 0 <= c < 2 ^ 32.
Proof.
  unfold crc32. intros H. apply bind_done in H as (p & _ & [= <-]).
  apply lxor_range; [lia| |lia]. apply crc32_fold_range. lia.
Qed.

Lemma crc32_ok (data : bytes) (n : Z) :
  0 <= n <= len data -> exists c, crc32 data n = Done c.
Proof.
  intros. unfold crc32. rewrite get_bytes_ok by lia. simpl. eauto.
Qed.

(** The CRC looks at nothing but the [n] bytes it is given. *)
Lemma crc32_prefix (a b : bytes) (n : Z) :
  0 <= n <= len a -> n <= len b -> slice a 0 n = slice b 0 n ->
  crc32 a n = crc32 b n.
Proof.
  intros Ha Hb E. unfold crc32. rewrite !get_bytes_ok by lia. now rewrite E.
Qed.

(** The check value of the CRC-32 in use (IEEE 802.3) on "123456789". *)
Example crc32_check_value :
  crc32 [49; 50; 51; 52; 53; 54; 55; 56; 57] 9 = Done 0xCBF43926.
Proof. reflexivity. Qed.

(** ** The byte XOR *)

Lemma xor_fold_byte (p : bytes) (x : Z) :
  bytes_ok p -> 0 <= x < 256 ->
  fold_left (fun x b => u8 (Z.lxor x b)) p x = fold_left Z.lxor p x /\
  0 <= fold_left Z.lxor p x < 256.
Proof.
  intros Hp. revert x. induction Hp as [|b p Hb _ IH]; intros x Hx; simpl.
  - auto.
  - assert (R : 0 <= Z.lxor x b < 2 ^ 8)
      by (apply lxor_range; unfold is_byte in Hb; lia).
    rewrite u8_small by exact R. apply IH. lia.
Qed.

Lemma bytes_ok_slice (buf : bytes) (off n : Z) :
  bytes_ok buf -> bytes_ok (slice buf off n).
Proof.
  unfold bytes_ok, slice. intros H.
  rewrite <- (firstn_skipn (Z.to_nat off) buf) in H.
  apply Forall_app in H as [_ H].
  rewrite <- (firstn_skipn (Z.to_nat n) (skipn (Z.to_nat off) buf)) in H.
  now apply Forall_app in H as [H _].
Qed.

(** ** Finalizing the checksums *)

Lemma inode_crc_finalize_spec (buf : bytes) (off : Z) :
  0 <= off -> off + INODE_SIZE <= len buf ->
  exists buf' c,
    inode_crc_finalize buf off = Done buf' /\
    same_outside (off + 120) (off + 128) buf buf' /\
    crc32 (slice buf' off INODE_SIZE) 120 = Done c /\
    rd_u64 buf' (off + INO.inode_crc) = c.
Proof.
  unfold INODE_SIZE, INO.inode_crc. intros Hoff Hlen.
  unfold inode_crc_finalize, INODE_SIZE.
  rewrite get_bytes_ok by lia. cbn [bind].
  assert (Lt : len (slice buf off 128) = 128) by (apply len_slice; lia).
  rewrite put_bytes_ok by (rewrite ?len_zeros; lia). cbn [bind].
  set (tmp1 := upd (slice buf off 128) 120 (zeros 8)).
  assert (F1 : same_outside 120 128 (slice buf off 128) tmp1).
  { pose proof (same_outside_upd (slice buf off 128) 120 (zeros 8)) as S.
    rewrite len_zeros in S by lia. apply S; lia. }
  assert (L1 : len tmp1 = 128) by (rewrite <- (same_outside_len _ _ _ _ F1); exact Lt).
  destruct (crc32_ok tmp1 120) as [c Hc]; [lia|].
  rewrite Hc. cbn [bind].
  destruct (put_u64_ok buf (off + 120) c) as [buf' Hp]; [lia..|].
  exists buf', c. split; [exact Hp|].
  pose proof (put_u64_frame _ _ _ _ Hp) as F.
  replace (off + 120 + 8) with (off + 128) in F by lia.
  split; [exact F|]. split.
  - rewrite <- Hc. apply crc32_prefix.
    + rewrite len_slice; rewrite <- ?(same_outside_len _ _ _ _ F); lia.
    + lia.
    + rewrite slice_slice by lia.
      rewrite <- (same_outside_slice _ _ _ _ 0 120 F1) by lia.
      rewrite slice_slice by lia.
      symmetry. eapply same_outside_slice; eauto; lia.
  - rewrite (rd_put_u64 _ _ _ _ Hp). apply u64_small.
    pose proof (crc32_range _ _ _ Hc). lia.
Qed.

Lemma dirent_checksum_finalize_spec (buf : bytes) (off : Z) :
  0 <= off -> off + DIRENT_SIZE <= len buf ->
  exists buf',
    dirent_checksum_finalize buf off = Done buf' /\
    same_outside (off + 63) (off + 64) buf buf' /\
    (bytes_ok (slice buf off 63) ->
     rd_u8 buf' (off + DE.checksum) = xor_all (slice buf' off 63)).
Proof.
  unfold DIRENT_SIZE, DE.checksum. intros Hoff Hlen.
  unfold dirent_checksum_finalize, DE.checksum.
  rewrite get_bytes_ok by lia. cbn [bind].
  set (x := fold_left _ _ _).
  destruct (put_u8_ok buf (off + 63) x) as [buf' Hp]; [lia..|].
  exists buf'. split; [exact Hp|].
  pose proof (put_u8_frame _ _ _ _ Hp) as F.
  replace (off + 63 + 1) with (off + 64) in F by lia.
  split; [exact F|]. intros Hok.
  rewrite (rd_put_u8 _ _ _ _ Hp).
  rewrite <- (same_outside_slice _ _ _ _ off 63 F) by lia.
  destruct (xor_fold_byte (slice buf off 63) 0 Hok) as [E R]; [lia|].
  unfold xor_all. subst x. rewrite E. apply u8_small. exact R.
Qed.

(** C7. After [dirent_checksum_finalize] the XOR of the first 63 bytes of
    the entry is its checksum byte, and after [inode_crc_finalize] the
    CRC-32 of the first 120 bytes of the inode is its [inode_crc] field,
    read as a 64-bit value.  Both routines return on every record that
    lies inside its buffer. *)
Theorem finalized_checksums_hold (dbuf : bytes) (doff : Z) (ibuf : bytes) (ioff : Z) :
  bytes_ok dbuf ->
  0 <= doff -> doff + DIRENT_SIZE <= len dbuf ->
  0 <= ioff -> ioff + INODE_SIZE <= len ibuf ->
  (exists dbuf',
     dirent_checksum_finalize dbuf doff = Done dbuf' /\
     rd_u8 dbuf' (doff + DE.checksum) = xor_all (slice dbuf' doff 63)) /\
  (exists ibuf' c,
     inode_crc_finalize ibuf ioff = Done ibuf' /\
     crc32 (slice ibuf' ioff 120) 120 = Done c /\
     rd_u64 ibuf' (ioff + INO.inode_crc) = c).
Proof.
  intros Hok Hd1 Hd2 Hi1 Hi2. split.
  - destruct (dirent_checksum_finalize_spec dbuf doff Hd1 Hd2) as (d' & E & _ & X).
    exists d'. split; [exact E|]. apply X, bytes_ok_slice, Hok.
  - destruct (inode_crc_finalize_spec ibuf ioff Hi1 Hi2) as (i' & c & E & F & C & R).
    exists i', c. split; [exact E|]. split; [|exact R].
    rewrite <- C. unfold INODE_SIZE in *.
    assert (L : len i' = len ibuf) by (symmetry; eapply same_outside_len; eauto).
    apply crc32_prefix.
    + rewrite len_slice; lia.
    + rewrite len_slice; lia.
    + rewrite !slice_slice by lia. reflexivity.
Qed.

Lemma finalized_checksums_hold_witness :
  (exists dbuf',
     dirent_checksum_finalize (7 :: 0 :: 0 :: 0 :: 1 :: 97 :: zeros 58) 0 = Done dbuf' /\
     rd_u8 dbuf' (0 + DE.checksum) = xor_all (slice dbuf' 0 63)) /\
  (exists ibuf' c,
     inode_crc_finalize (zeros 128 ++ 0 :: 128 :: 1 :: zeros 125) 128 = Done ibuf' /\
     crc32 (slice ibuf' 128 120) 120 = Done c /\
     rd_u64 ibuf' (128 + INO.inode_crc) = c).
Proof.
  apply finalized_checksums_hold.
  - unfold bytes_ok. repeat constructor; unfold is_byte; lia.
  - lia.
  - vm_compute; discriminate.
  - lia.
  - vm_compute; discriminate.
Defined.

(** ** The superblock checksum *)

Lemma superblock_crc_needs_block (mem mem' : bytes) :
  superblock_crc_finalize mem = Done mem' -> BS - 4 <= len mem.
Proof.
  unfold superblock_crc_finalize. intros H.
  apply bind_done in H as (m1 & H1 & H).
  apply bind_done in H as (s & H2 & _).
  pose proof (put_u32_frame _ _ _ _ H1) as F.
  unfold crc32 in H2. apply bind_done in H2 as (p & H2 & _).
  apply get_bytes_inv in H2 as (_ & _ & H2 & _).
  rewrite (same_outside_len _ _ _ _ F). lia.
Qed.

(** C1 (the code does otherwise).  The checksum routine, handed a
    superblock record and nothing more, runs its CRC over [BS - 4 = 4092]
    bytes starting at the record: on every 116-byte record the read leaves
    the record, so the embedding in which such a read is an error always
    ends in that error. *)
Theorem superblock_crc_reads_past_record (sbr : bytes) :
  len sbr = SB_SIZE -> superblock_crc_finalize sbr = Fault.
Proof.
  unfold SB_SIZE. intros L. unfold superblock_crc_finalize.
  destruct (put_u32_ok sbr SB.checksum 0) as [m1 H1];
    [unfold SB.checksum; lia..|].
  rewrite H1. cbn [bind].
  pose proof (put_u32_frame _ _ _ _ H1) as F.
  unfold crc32. rewrite get_bytes_fault; [reflexivity|].
  rewrite <- (same_outside_len _ _ _ _ F), L. unfold BS. lia.
Qed.

Lemma superblock_crc_reads_past_record_witness :
  len sample_superblock = SB_SIZE /\
  superblock_crc_finalize sample_superblock = Fault.
Proof.
  split.
  - vm_compute; reflexivity.
  - apply superblock_crc_reads_past_record. vm_compute; reflexivity.
Defined.

(** ** Geometry *)

Lemma compute_geometry_in_bounds (size_kib inodes : Z) :
  args_in_bounds size_kib inodes ->
  exists g,
    compute_geometry size_kib inodes = Done g /\
    total_blocks g = size_kib * 1024 / 4096 /\
    4096 * (inode_table_blocks g - 1) < inodes * 128 <= 4096 * inode_table_blocks g /\
    data_region_start g = 3 + inode_table_blocks g /\
    data_region_blocks g = total_blocks g - data_region_start g /\
    1 <= data_region_blocks g.
Proof.
  unfold args_in_bounds, compute_geometry.
  intros (Hs & Hm & Hi).
  replace (size_kib <? 180) with false by (symmetry; apply Z.ltb_ge; lia).
  replace (4096 <? size_kib) with false by (symmetry; apply Z.ltb_ge; lia).
  replace (inodes <? 128) with false by (symmetry; apply Z.ltb_ge; lia).
  replace (512 <? inodes) with false by (symmetry; apply Z.ltb_ge; lia).
  rewrite Hm. cbn [orb negb Z.eqb].
  unfold BS, INODE_SIZE.
  rewrite (u64_small (size_kib * 1024)) by lia.
  rewrite (u64_small (inodes * 128)) by lia.
  rewrite (u64_small (inodes * 128 + 4096)) by lia.
  rewrite (u64_small (inodes * 128 + 4096 - 1)) by lia.
  set (tb := size_kib * 1024 / 4096).
  set (itb := (inodes * 128 + 4096 - 1) / 4096).
  assert (Htb : 45 <= tb <= 1024).
  { subst tb. split; [apply Z.div_le_lower_bound|apply Z.div_le_upper_bound]; lia. }
  assert (Hitb : 4096 * (itb - 1) < inodes * 128 <= 4096 * itb).
  { subst itb.
    pose proof (Z.div_mod (inodes * 128 + 4096 - 1) 4096 ltac:(lia)).
    pose proof (Z.mod_pos_bound (inodes * 128 + 4096 - 1) 4096 ltac:(lia)).
    lia. }
  rewrite (u64_small (3 + itb)) by lia.
  rewrite (u64_small (tb - (3 + itb))) by lia.
  replace (tb - (3 + itb) <? 1) with false by (symmetry; apply Z.ltb_ge; lia).
  eexists. split; [reflexivity|].
  cbn [total_blocks inode_table_blocks data_region_start data_region_blocks].
  repeat split; lia.
Qed.

Lemma compute_geometry_out_of_bounds (size_kib inodes : Z) :
  ~ args_in_bounds size_kib inodes ->
  compute_geometry size_kib inodes = Exit EUsage.
Proof.
  unfold args_in_bounds, compute_geometry. intros Hn.
  destruct (size_kib <? 180) eqn:E1; [reflexivity|].
  destruct (4096 <? size_kib) eqn:E2; [reflexivity|].
  destruct (inodes <? 128) eqn:E3; [reflexivity|].
  destruct (512 <? inodes) eqn:E4; [reflexivity|].
  destruct (size_kib mod 4 =? 0) eqn:E5; [|reflexivity].
  exfalso. apply Hn.
  apply Z.ltb_ge in E1, E2, E3, E4. apply Z.eqb_eq in E5. lia.
Qed.

(** C4. Inside the documented bounds the geometry computation succeeds
    with [total_blocks = size_kib * 1024 / 4096], [inode_table_blocks] the
    ceiling of [inodes * 128 / 4096], [data_region_start = 3 +
    inode_table_blocks] and [data_region_blocks = total_blocks -
    data_region_start >= 1]; outside them the pair is rejected. *)
Theorem compute_geometry_spec (size_kib inodes : Z) :
  (args_in_bounds size_kib inodes ->
   exists g,
     compute_geometry size_kib inodes = Done g /\
     total_blocks g = size_kib * 1024 / 4096 /\
     4096 * (inode_table_blocks g - 1) < inodes * 128 <= 4096 * inode_table_blocks g /\
     data_region_start g = 3 + inode_table_blocks g /\
     data_region_blocks g = total_blocks g - data_region_start g /\
     1 <= data_region_blocks g) /\
  (~ args_in_bounds size_kib inodes ->
   compute_geometry size_kib inodes = Exit EUsage).
Proof.
  split.
  - apply compute_geometry_in_bounds.
  - apply compute_geometry_out_of_bounds.
Qed.

Lemma compute_geometry_spec_witness :
  (exists g,
     compute_geometry 180 128 = Done g /\
     total_blocks g = 180 * 1024 / 4096 /\
     4096 * (inode_table_blocks g - 1) < 128 * 128 <= 4096 * inode_table_blocks g /\
     data_region_start g = 3 + inode_table_blocks g /\
     data_region_blocks g = total_blocks g - data_region_start g /\
     1 <= data_region_blocks g) /\
  compute_geometry 182 128 = Exit EUsage.
Proof.
  split.
  - apply (proj1 (compute_geometry_spec 180 128)).
    unfold args_in_bounds. split; [lia|]. split; [reflexivity|lia].
  - apply (proj2 (compute_geometry_spec 182 128)).
    unfold args_in_bounds. intros (_ & H & _). vm_compute in H. discriminate.
Defined.

(** ** Agreement on a set of positions *)

Lemma agree_on_refl P a : agree_on P a a.
Proof. split; auto. Qed.

Lemma agree_on_trans (P Q R : Z -> Prop) a b c :
  agree_on P a b -> agree_on Q b c ->
  (forall i, R i -> P i /\ Q i) -> agree_on R a c.
Proof.
  intros [L1 H1] [L2 H2] HR. split; [congruence|].
  intros i Hi Ri. destruct (HR i Ri). rewrite H1, H2; auto.
Qed.

Lemma agree_on_weaken (P Q : Z -> Prop) a b :
  agree_on P a b -> (forall i, Q i -> P i) -> agree_on Q a b.
Proof. intros [L H] HQ. split; [exact L|]. auto. Qed.

Lemma same_outside_agree lo hi a b :
  same_outside lo hi a b -> agree_on (fun i => i < lo \/ hi <= i) a b.
Proof. intros [L H]. split; auto. Qed.

Lemma agree_on_len P a b : agree_on P a b -> len a = len b.
Proof. intros [L _]; exact L. Qed.

Lemma agree_on_slice (P : Z -> Prop) a b off n :
  agree_on P a b -> 0 <= off -> 0 <= n ->
  (forall i, off <= i < off + n -> P i) -> slice a off n = slice b off n.
Proof.
  intros [L H] Hoff Hn HP.
  unfold slice. apply nth_ext with (d := 0) (d' := 0).
  - unfold len in L. rewrite !length_firstn, !length_skipn. lia.
  - intros k Hk. rewrite length_firstn in Hk.
    rewrite !nth_firstn, !nth_skipn.
    destruct (k <? Z.to_nat n)%nat eqn:E; [|reflexivity].
    apply Nat.ltb_lt in E.
    specialize (H (off + Z.of_nat k)). unfold byte_at in H.
    replace (Z.to_nat (off + Z.of_nat k)) with (Z.to_nat off + k)%nat in H by lia.
    apply H; [lia|]. apply HP. lia.
Qed.

(** ** Running a chain of stores *)

(** Two windows inside a third. *)
Lemma same_outside_join lo hi lo1 hi1 lo2 hi2 a b c :
  same_outside lo1 hi1 a b -> same_outside lo2 hi2 b c ->
  lo <= lo1 -> hi1 <= hi -> lo <= lo2 -> hi2 <= hi ->
  same_outside lo hi a c.
Proof.
  intros F1 F2 ? ? ? ?.
  apply same_outside_trans with b.
  - apply (same_outside_weaken lo1 hi1); assumption.
  - apply (same_outside_weaken lo2 hi2); assumption.
Qed.

Ltac offsets :=
  unfold SB.magic, SB.version, SB.block_size, SB.total_blocks, SB.inode_count,
    SB.inode_bitmap_start, SB.inode_bitmap_blocks, SB.data_bitmap_start,
    SB.data_bitmap_blocks, SB.inode_table_start, SB.inode_table_blocks,
    SB.data_region_start, SB.data_region_blocks, SB.root_inode, SB.mtime_epoch,
    SB.flags, SB.checksum,
    INO.mode, INO.links, INO.uid, INO.gid, INO.size_bytes, INO.atime, INO.mtime,
    INO.ctime, INO.direct, INO.reserved_0, INO.reserved_1, INO.reserved_2,
    INO.proj_id, INO.uid16_gid16, INO.xattr_ptr, INO.inode_crc,
    DE.inode_no, DE.type, DE.name, DE.name_size, DE.checksum,
    BS, INODE_SIZE, SB_SIZE, DIRENT_SIZE, ROOT_INO in *.

(** Carry what is known about the fields of [a] over a store that turned
    [a] into [b], given its window [F]. *)
Ltac carry a b F :=
  repeat match goal with
  | H : context [rd_u8 a ?o] |- _ =>
      rewrite <- (rd_u8_frame _ _ a b o F) in H by lia
  | H : context [rd_u16 a ?o] |- _ =>
      rewrite <- (rd_u16_frame _ _ a b o F) in H by lia
  | H : context [rd_u32 a ?o] |- _ =>
      rewrite <- (rd_u32_frame _ _ a b o F) in H by lia
  | H : context [rd_u64 a ?o] |- _ =>
      rewrite <- (rd_u64_frame _ _ a b o F) in H by lia
  end.

(** Bookkeeping after a store that turned [b] into [r] inside the window
    [F]: lengths, known fields, and the window accumulated so far. *)
Ltac after_store b r F :=
  let L := fresh "L" in
  pose proof (same_outside_len _ _ _ _ F) as L;
  carry b r F;
  try match goal with
      | FA : same_outside ?lo ?hi ?a b |- _ =>
          let FA' := fresh "FA" in
          assert (FA' : same_outside lo hi a r)
            by (apply (same_outside_join lo hi _ _ _ _ a b r FA F); lia);
          clear FA
      end;
  try match goal with
      | GA : agree_on ?P ?a b |- _ =>
          let GA' := fresh "GA" in
          assert (GA' : agree_on P a r)
            by (apply (agree_on_trans P _ P a b r GA (same_outside_agree _ _ _ _ F));
                cbv beta; intros; lia);
          clear GA
      end;
  clear F.

(** One store at the head of the goal: it succeeds, and the facts move to
    the new buffer. *)
Ltac store_with ok frame rd b o v :=
  let r := fresh "buf" in
  let P := fresh "P" in
  let F := fresh "F" in
  let R := fresh "R" in
  destruct (ok b o v) as [r P]; [lia ..|];
  rewrite P; cbn [bind];
  pose proof (frame _ _ _ _ P) as F;
  pose proof (rd _ _ _ _ P) as R;
  after_store b r F.

Ltac store :=
  match goal with
  | |- context [bind (put_u8 ?b ?o ?v) _] =>
      store_with put_u8_ok put_u8_frame rd_put_u8 b o v
  | |- context [bind (put_u16 ?b ?o ?v) _] =>
      store_with put_u16_ok put_u16_frame rd_put_u16 b o v
  | |- context [bind (put_u32 ?b ?o ?v) _] =>
      store_with put_u32_ok put_u32_frame rd_put_u32 b o v
  | |- context [bind (put_u64 ?b ?o ?v) _] =>
      store_with put_u64_ok put_u64_frame rd_put_u64 b o v
  end.

(** The same for the store a chain ends with. *)
Ltac last_store_with ok frame rd b o v :=
  let r := fresh "buf" in
  let P := fresh "P" in
  let F := fresh "F" in
  let R := fresh "R" in
  destruct (ok b o v) as [r P]; [lia ..|];
  pose proof (frame _ _ _ _ P) as F;
  pose proof (rd _ _ _ _ P) as R;
  after_store b r F;
  exists r; split; [exact P|].

Ltac last_store :=
  match goal with
  | |- exists r, put_u8 ?b ?o ?v = Done r /\ _ =>
      last_store_with put_u8_ok put_u8_frame rd_put_u8 b o v
  | |- exists r, put_u16 ?b ?o ?v = Done r /\ _ =>
      last_store_with put_u16_ok put_u16_frame rd_put_u16 b o v
  | |- exists r, put_u32 ?b ?o ?v = Done r /\ _ =>
      last_store_with put_u32_ok put_u32_frame rd_put_u32 b o v
  | |- exists r, put_u64 ?b ?o ?v = Done r /\ _ =>
      last_store_with put_u64_ok put_u64_frame rd_put_u64 b o v
  end.

(** Offsets that are sums of constants. *)
Ltac norm_off :=
  repeat match goal with
  | |- context [rd_u8 _ (?x + ?y)] => progress ring_simplify (x + y)
  | |- context [rd_u16 _ (?x + ?y)] => progress ring_simplify (x + y)
  | |- context [rd_u32 _ (?x + ?y)] => progress ring_simplify (x + y)
  | |- context [rd_u64 _ (?x + ?y)] => progress ring_simplify (x + y)
  | |- context [slice _ (?x + ?y) _] => progress ring_simplify (x + y)
  end.

(** The same for the checksum routines. *)
Ltac finalize :=
  match goal with
  | |- context [bind (inode_crc_finalize ?b ?o) _] =>
      let r := fresh "buf" in
      let c := fresh "c" in
      let E := fresh "E" in
      let F := fresh "F" in
      let C := fresh "C" in
      let R := fresh "R" in
      destruct (inode_crc_finalize_spec b o) as (r & c & E & F & C & R);
        [unfold INODE_SIZE; lia ..|];
      rewrite E; cbn [bind];
      after_store b r F
  | |- context [bind (dirent_checksum_finalize ?b ?o) _] =>
      let r := fresh "buf" in
      let E := fresh "E" in
      let F := fresh "F" in
      let X := fresh "X" in
      destruct (dirent_checksum_finalize_spec b o) as (r & E & F & X);
        [unfold DIRENT_SIZE; lia ..|];
      rewrite E; cbn [bind];
      after_store b r F
  end.

Ltac last_finalize :=
  match goal with
  | |- exists r, inode_crc_finalize ?b ?o = Done r /\ _ =>
      let r := fresh "buf" in
      let c := fresh "c" in
      let E := fresh "E" in
      let F := fresh "F" in
      let C := fresh "C" in
      let R := fresh "R" in
      destruct (inode_crc_finalize_spec b o) as (r & c & E & F & C & R);
        [unfold INODE_SIZE; lia ..|];
      after_store b r F;
      exists r; split; [exact E|]
  | |- exists r, dirent_checksum_finalize ?b ?o = Done r /\ _ =>
      let r := fresh "buf" in
      let E := fresh "E" in
      let F := fresh "F" in
      let X := fresh "X" in
      destruct (dirent_checksum_finalize_spec b o) as (r & E & F & X);
        [unfold DIRENT_SIZE; lia ..|];
      after_store b r F;
      exists r; split; [exact E|]
  end.

(** ** The builder's superblock *)

Lemma init_superblock_spec (g : geometry) (inodes now : Z) :
  exists sbr,
    init_superblock g inodes now = Done sbr /\
    len sbr = SB_SIZE /\
    rd_u32 sbr SB.magic = MAGIC /\
    rd_u32 sbr SB.block_size = BS /\
    rd_u64 sbr SB.total_blocks = u64 (total_blocks g) /\
    rd_u64 sbr SB.inode_count = u64 inodes /\
    rd_u64 sbr SB.inode_bitmap_start = 1 /\
    rd_u64 sbr SB.data_bitmap_start = 2 /\
    rd_u64 sbr SB.inode_table_start = 3 /\
    rd_u64 sbr SB.inode_table_blocks = u64 (inode_table_blocks g) /\
    rd_u64 sbr SB.data_region_start = u64 (data_region_start g) /\
    rd_u64 sbr SB.data_region_blocks = u64 (data_region_blocks g) /\
    rd_u64 sbr SB.root_inode = 1.
Proof.
  unfold init_superblock.
  assert (L0 : len (zeros SB_SIZE) = 116) by (apply len_zeros; unfold SB_SIZE; lia).
  offsets.
  do 15 store. last_store.
  repeat split; try lia; try assumption.
Qed.

Lemma superblock_crc_finalize_spec (mem : bytes) :
  BS - 4 <= len mem ->
  exists mem',
    superblock_crc_finalize mem = Done mem' /\ same_outside 112 116 mem mem'.
Proof.
  intros Hl. unfold superblock_crc_finalize. offsets.
  pose proof (same_outside_refl 112 116 mem) as FA.
  store.
  destruct (crc32_ok buf (4096 - 4)) as [s Hs]; [lia|].
  rewrite Hs. cbn [bind].
  last_store. assumption.
Qed.

(** ** The builder's bitmaps *)

Lemma byte_at_zeros (n i : Z) : byte_at (zeros n) i = 0.
Proof. unfold byte_at, zeros. apply nth_repeat. Qed.

Lemma testbit_one (k : Z) : 0 <= k -> Z.testbit 1 k = (k =? 0).
Proof.
  intros. change 1 with (2 ^ 0). rewrite Z.pow2_bits_eqb by lia.
  apply Z.eqb_sym.
Qed.

Lemma div8_mod8 (i : Z) : 0 <= i -> i = 8 * (i / 8) + i mod 8 /\ 0 <= i mod 8 < 8 /\ 0 <= i / 8.
Proof.
  intros. pose proof (Z.div_mod i 8 ltac:(lia)).
  pose proof (Z.mod_pos_bound i 8 ltac:(lia)).
  assert (0 <= i / 8) by (apply Z.div_pos; lia). lia.
Qed.

Lemma seed_bitmap_spec :
  exists bm,
    put_u8 (zeros BS) 0 0x01 = Done bm /\
    len bm = BS /\
    forall i, 0 <= i -> bitmap_bit bm i = (i =? 0).
Proof.
  assert (L0 : len (zeros BS) = 4096) by (apply len_zeros; unfold BS; lia).
  destruct (put_u8_ok (zeros BS) 0 1) as [bm P]; [lia..|].
  pose proof (put_u8_frame _ _ _ _ P) as F.
  pose proof (rd_put_u8 _ _ _ _ P) as R.
  pose proof (same_outside_len _ _ _ _ F) as L.
  exists bm. split; [exact P|]. split; [unfold BS; lia|].
  intros i Hi. unfold bitmap_bit.
  destruct (div8_mod8 i Hi) as (E & Hr & Hq).
  destruct (Z.eq_dec (i / 8) 0) as [Z0|NZ].
  - rewrite Z0, <- rd_u8_byte_at, R by lia.
    change (u8 1) with 1. rewrite testbit_one by lia.
    replace (i mod 8) with i by lia. reflexivity.
  - rewrite <- (same_outside_byte _ _ _ _ (i / 8) F) by lia.
    rewrite byte_at_zeros, Z.bits_0.
    symmetry. apply Z.eqb_neq. lia.
Qed.

(** ** The builder's root inode *)

Lemma init_root_inode_spec (t0 : bytes) (g : geometry) (now : Z) :
  INODE_SIZE <= len t0 ->
  exists t,
    init_root_inode t0 g now = Done t /\
    same_outside 0 128 t0 t /\
    rd_u16 t INO.mode = 0x4000 /\
    rd_u16 t INO.links = 2 /\
    rd_u64 t INO.size_bytes = 128 /\
    rd_u32 t (INO.direct 0) = u32 (data_region_start g).
Proof.
  intros Hl. unfold init_root_inode. cbn [clear_direct]. offsets.
  pose proof (same_outside_refl 0 128 t0) as FA.
  do 21 store. last_finalize.
  split; [assumption|]. repeat split; assumption.
Qed.

(** ** The builder's directory entries *)

Lemma len_firstn_le (l : bytes) (n : Z) : 0 <= n -> len (firstn (Z.to_nat n) l) <= n.
Proof. intros. unfold len. rewrite length_firstn. lia. Qed.

Lemma strncpy_spec (buf : bytes) (off : Z) (src : bytes) (n : Z) :
  0 <= off -> 0 <= n -> off + n <= len buf ->
  exists r,
    strncpy buf off src n = Done r /\
    same_outside off (off + n) buf r /\
    slice r off n =
      firstn (Z.to_nat n) (cstr src)
      ++ zeros (n - len (firstn (Z.to_nat n) (cstr src))).
Proof.
  intros Hoff Hn Hl. unfold strncpy.
  set (chars := firstn (Z.to_nat n) (cstr src)).
  assert (Hc : len chars <= n) by (apply len_firstn_le; lia).
  assert (Ld : len (chars ++ zeros (n - len chars)) = n).
  { rewrite len_app, len_zeros by lia. lia. }
  rewrite put_bytes_ok by lia.
  eexists. split; [reflexivity|]. split.
  - pose proof (same_outside_upd buf off (chars ++ zeros (n - len chars))) as S.
    rewrite Ld in S. apply S; lia.
  - pose proof (slice_upd_same buf off (chars ++ zeros (n - len chars))) as S.
    rewrite Ld in S. apply S; lia.
Qed.

Lemma init_dirent_spec (d : bytes) (off : Z) (name : bytes) :
  0 <= off -> off + DIRENT_SIZE <= len d ->
  exists d',
    init_dirent d off name = Done d' /\
    same_outside off (off + 64) d d' /\
    rd_u32 d' (off + DE.inode_no) = 1 /\
    rd_u8 d' (off + DE.type) = 2 /\
    slice d' (off + DE.name) DE.name_size =
      firstn 58 (cstr name) ++ zeros (58 - len (firstn 58 (cstr name))).
Proof.
  intros Hoff Hl. unfold init_dirent. offsets.
  pose proof (same_outside_refl off (off + 64) d) as FA.
  do 2 store.
  destruct (strncpy_spec buf0 (off + 5) name 58) as (r & E & F & N); [lia..|].
  rewrite E. cbn [bind]. after_store buf0 r F.
  last_finalize.
  split; [assumption|]. split; [assumption|]. split; [assumption|].
  change (Z.to_nat 58) with 58%nat in N. rewrite <- N. symmetry.
  match goal with
  | H : dirent_checksum_finalize r off = Done ?b |- _ =>
      destruct (dirent_checksum_finalize_spec r off) as (b' & E' & F' & _);
        [unfold DIRENT_SIZE; lia..|];
      assert (b' = b) by congruence; subst b'
  end.
  eapply same_outside_slice; eauto; lia.
Qed.

(** ** Writing a file front to back *)

Lemma fwrite_append (fp : file) (d : bytes) :
  f_pos fp = len (f_data fp) ->
  f_data (fwrite fp d) = f_data fp ++ d /\
  f_pos (fwrite fp d) = len (f_data (fwrite fp d)).
Proof.
  intros Hp. unfold fwrite. cbn [f_data f_pos]. rewrite Hp, Z.sub_diag.
  change (zeros 0) with (@nil Z). rewrite app_nil_r.
  unfold len. rewrite Nat2Z.id.
  rewrite firstn_all, skipn_all2 by lia. rewrite app_nil_r.
  split; [reflexivity|]. rewrite !length_app. lia.
Qed.

(** ** Reading a laid-out image *)

Lemma skipn_repeat (x : Z) (k m : nat) :
  skipn k (repeat x m) = repeat x (m - k).
Proof.
  revert m; induction k; intros m; simpl.
  - now rewrite Nat.sub_0_r.
  - destruct m; simpl; [reflexivity|apply IHk].
Qed.

Lemma upd_zeros_0 (n : Z) (d : bytes) :
  upd (zeros n) 0 d = d ++ zeros (n - len d).
Proof.
  unfold upd, zeros, len. simpl firstn. simpl app.
  rewrite skipn_repeat. do 2 f_equal. lia.
Qed.

Lemma slice_app_mid (a b c : bytes) : slice (a ++ b ++ c) (len a) (len b) = b.
Proof.
  pose proof (len_nonneg b).
  rewrite slice_app_r, Z.sub_diag by lia.
  rewrite slice_app_l by lia. apply slice_full.
Qed.

Lemma rd_u16_slice buf o n off :
  0 <= o -> 0 <= off -> off + 2 <= n -> rd_u16 (slice buf o n) off = rd_u16 buf (o + off).
Proof. intros. unfold rd_u16. now rewrite slice_slice by lia. Qed.

Lemma rd_u32_slice buf o n off :
  0 <= o -> 0 <= off -> off + 4 <= n -> rd_u32 (slice buf o n) off = rd_u32 buf (o + off).
Proof. intros. unfold rd_u32. now rewrite slice_slice by lia. Qed.

Lemma rd_u64_slice buf o n off :
  0 <= o -> 0 <= off -> off + 8 <= n -> rd_u64 (slice buf o n) off = rd_u64 buf (o + off).
Proof. intros. unfold rd_u64. now rewrite slice_slice by lia. Qed.

Lemma rd_u8_slice buf o n off :
  0 <= o -> 0 <= off -> off + 1 <= n -> rd_u8 (slice buf o n) off = rd_u8 buf (o + off).
Proof. intros. unfold rd_u8. now rewrite slice_slice by lia. Qed.

Lemma rd_u32_app_l a b off :
  0 <= off -> off + 4 <= len a -> rd_u32 (a ++ b) off = rd_u32 a off.
Proof. intros. unfold rd_u32. now rewrite slice_app_l by lia. Qed.

Lemma rd_u64_app_l a b off :
  0 <= off -> off + 8 <= len a -> rd_u64 (a ++ b) off = rd_u64 a off.
Proof. intros. unfold rd_u64. now rewrite slice_app_l by lia. Qed.

Section Layout.
Variable s : fs.
Hypothesis W : well_laid s.

Lemma layout_sb : slice (layout s) 0 SB_SIZE = sb s.
Proof.
  destruct W as (L & _). unfold layout.
  rewrite slice_app_l by (rewrite ?L; unfold SB_SIZE; lia).
  rewrite <- L. apply slice_full.
Qed.

Lemma layout_rd_u32 off :
  0 <= off -> off + 4 <= SB_SIZE -> rd_u32 (layout s) off = rd_u32 (sb s) off.
Proof.
  intros. destruct W as (L & _). unfold layout. apply rd_u32_app_l; lia.
Qed.

Lemma layout_rd_u64 off :
  0 <= off -> off + 8 <= SB_SIZE -> rd_u64 (layout s) off = rd_u64 (sb s) off.
Proof.
  intros. destruct W as (L & _). unfold layout. apply rd_u64_app_l; lia.
Qed.

Lemma layout_inode_bitmap : img_inode_bitmap (layout s) = inode_bitmap s.
Proof.
  unfold img_inode_bitmap, block.
  rewrite layout_rd_u64 by (offsets; lia).
  destruct W as (L & _ & E & _ & _ & _ & _ & _ & Li & _). rewrite E.
  unfold layout. rewrite app_assoc.
  replace (1 * BS) with (len (sb s ++ zeros (BS - SB_SIZE)))
    by (rewrite len_app, len_zeros; offsets; lia).
  rewrite <- Li. apply slice_app_mid.
Qed.

Lemma layout_data_bitmap : img_data_bitmap (layout s) = data_bitmap s.
Proof.
  unfold img_data_bitmap, block.
  rewrite layout_rd_u64 by (offsets; lia).
  destruct W as (L & _ & _ & E & _ & _ & _ & _ & Li & Ld & _). rewrite E.
  unfold layout. rewrite app_assoc.
  rewrite (app_assoc _ (inode_bitmap s)).
  replace (2 * BS) with (len ((sb s ++ zeros (BS - SB_SIZE)) ++ inode_bitmap s))
    by (rewrite !len_app, len_zeros; offsets; lia).
  rewrite <- Ld. apply slice_app_mid.
Qed.

Lemma layout_inode_table : img_inode_table (layout s) = inode_table s.
Proof.
  unfold img_inode_table.
  rewrite !layout_rd_u64 by (offsets; lia).
  destruct W as (L & _ & _ & _ & E & _ & _ & _ & Li & Ld & Lt & _). rewrite E.
  unfold layout. rewrite app_assoc.
  rewrite (app_assoc _ (inode_bitmap s)). rewrite (app_assoc _ (data_bitmap s)).
  replace (3 * BS) with
    (len (((sb s ++ zeros (BS - SB_SIZE)) ++ inode_bitmap s) ++ data_bitmap s))
    by (rewrite !len_app, len_zeros; offsets; lia).
  rewrite <- Lt. apply slice_app_mid.
Qed.

Lemma layout_data_region : img_data_region (layout s) = data_region s.
Proof.
  unfold img_data_region.
  rewrite !layout_rd_u64 by (offsets; lia).
  destruct W as (L & _ & _ & _ & _ & E & Hi & _ & Li & Ld & Lt & Lr). rewrite E.
  unfold layout. rewrite app_assoc.
  rewrite (app_assoc _ (inode_bitmap s)). rewrite (app_assoc _ (data_bitmap s)).
  rewrite (app_assoc _ (inode_table s)).
  rewrite slice_app_r by (rewrite !len_app, len_zeros; offsets; lia).
  replace (_ - _) with 0 by (rewrite !len_app, len_zeros; offsets; lia).
  rewrite <- Lr. apply slice_full.
Qed.

Lemma len_layout :
  len (layout s) =
  (3 + rd_u64 (sb s) SB.inode_table_blocks + rd_u64 (sb s) SB.data_region_blocks) * BS.
Proof.
  destruct W as (L & _ & _ & _ & _ & _ & _ & _ & Li & Ld & Lt & Lr).
  unfold layout. rewrite !len_app, len_zeros by (offsets; lia).
  offsets. lia.
Qed.

End Layout.

(** ** What the builder writes *)

Lemma mkfs_builder_fresh (size_kib inodes now : Z) (adjacent : bytes) :
  args_in_bounds size_kib inodes ->
  BS - 4 - SB_SIZE <= len adjacent ->
  exists g s,
    compute_geometry size_kib inodes = Done g /\
    mkfs_builder true size_kib inodes now adjacent true = Done (layout s) /\
    fresh_fs g inodes s /\
    total_blocks g = 3 + inode_table_blocks g + data_region_blocks g /\
    4 <= inode_table_blocks g <= 16 /\
    1 <= data_region_blocks g <= 1024 /\
    inodes * INODE_SIZE <= inode_table_blocks g * BS.
Proof.
  intros Hb Hadj.
  destruct (compute_geometry_in_bounds _ _ Hb) as (g & Hg & Gt & Gi & Gs & Gd & Gp).
  assert (Htb : 45 <= total_blocks g <= 1024).
  { destruct Hb as (Hs & _). rewrite Gt.
    split; [apply Z.div_le_lower_bound|apply Z.div_le_upper_bound]; lia. }
  assert (Hitb : 4 <= inode_table_blocks g <= 16) by (destruct Hb as (_ & _ & ?); lia).
  unfold mkfs_builder. cbn [negb].
  rewrite (u64_small size_kib), (u64_small inodes) by (destruct Hb as (? & _ & ?); lia).
  rewrite Hg. cbn [bind].
  destruct (init_superblock_spec g inodes now)
    as (sbr & Hsb & Ls & S1 & S2 & S3 & S4 & S5 & S6 & S7 & S8 & S9 & S10 & S11).
  rewrite Hsb. cbn [bind].
  destruct (superblock_crc_finalize_spec (sbr ++ adjacent)) as (mem & Hm & Fm).
  { rewrite len_app. offsets. lia. }
  rewrite Hm. cbn [bind].
  pose proof (same_outside_len _ _ _ _ Fm) as Lm. rewrite len_app in Lm.
  change (firstn (Z.to_nat SB_SIZE) mem) with (slice mem 0 SB_SIZE).
  set (sb' := slice mem 0 SB_SIZE).
  assert (Lsb : len sb' = 116) by (apply len_slice; offsets; lia).
  assert (T32 : forall off, 0 <= off -> off + 4 <= 112 -> rd_u32 sb' off = rd_u32 sbr off).
  { intros off ? ?. unfold sb'. rewrite rd_u32_slice by (offsets; lia).
    rewrite (rd_u32_frame _ _ _ _ _ Fm) by lia.
    apply rd_u32_app_l; offsets; lia. }
  assert (T64 : forall off, 0 <= off -> off + 8 <= 112 -> rd_u64 sb' off = rd_u64 sbr off).
  { intros off ? ?. unfold sb'. rewrite rd_u64_slice by (offsets; lia).
    rewrite (rd_u64_frame _ _ _ _ _ Fm) by lia.
    apply rd_u64_app_l; offsets; lia. }
  rewrite put_bytes_ok by (rewrite ?len_zeros; offsets; lia).
  cbn [bind]. rewrite upd_zeros_0.
  destruct seed_bitmap_spec as (bm & Hbm & Lbm & Bbm).
  rewrite Hbm. cbn [bind].
  destruct (init_root_inode_spec (zeros (inode_table_blocks g * BS)) g now)
    as (itab & Hit & Fit & I1 & I2 & I3 & I4).
  { rewrite len_zeros; offsets; lia. }
  rewrite Hit. cbn [bind].
  pose proof (same_outside_len _ _ _ _ Fit) as Lit.
  rewrite len_zeros in Lit by (offsets; lia).
  assert (Lz : len (zeros (data_region_blocks g * BS)) = data_region_blocks g * BS)
    by (apply len_zeros; offsets; lia).
  destruct (init_dirent_spec (zeros (data_region_blocks g * BS)) 0 [46])
    as (d1 & Hd1 & Fd1 & D1 & D2 & D3); [offsets; lia..|].
  rewrite Hd1. cbn [bind].
  pose proof (same_outside_len _ _ _ _ Fd1) as Ld1.
  destruct (init_dirent_spec d1 DIRENT_SIZE [46; 46])
    as (d2 & Hd2 & Fd2 & D4 & D5 & D6); [offsets; lia..|].
  rewrite Hd2. cbn [bind].
  pose proof (same_outside_len _ _ _ _ Fd2) as Ld2.
  set (blk0 := sb' ++ zeros (BS - len sb')).
  destruct (fwrite_append fopen_w blk0) as [W1 P1]; [reflexivity|].
  destruct (fwrite_append _ bm P1) as [W2 P2].
  destruct (fwrite_append _ bm P2) as [W3 P3].
  destruct (fwrite_append _ itab P3) as [W4 P4].
  destruct (fwrite_append _ d2 P4) as [W5 P5].
  rewrite P5, W5, W4, W3, W2, W1. cbn [fopen_w f_data app].
  assert (Lb0 : len blk0 = 4096).
  { unfold blk0. rewrite len_app, len_zeros; offsets; lia. }
  rewrite !len_app, Lb0, Lbm, <- Lit, <- Ld2, <- Ld1, Lz.
  rewrite (u64_small (total_blocks g * BS)) by (offsets; lia).
  rewrite i64_small by (offsets; lia).
  replace (_ =? _) with true by (symmetry; apply Z.eqb_eq; offsets; lia).
  cbn [negb].
  exists g.
  exists {| sb := sb'; inode_bitmap := bm; data_bitmap := bm;
            inode_table := itab; data_region := d2 |}.
  split; [reflexivity|]. split.
  { f_equal. unfold layout, blk0. cbn [sb inode_bitmap data_bitmap inode_table data_region].
    rewrite Lsb. change (BS - SB_SIZE) with (BS - 116).
    now rewrite <- !app_assoc. }
  assert (U : forall v, 0 <= v <= 1024 -> u64 v = v) by (intros; apply u64_small; lia).
  assert (E0 : rd_u32 d2 0 = 1).
  { change 0 with (0 + DE.inode_no) at 1.
    rewrite (rd_u32_frame _ _ _ _ _ Fd2) by (offsets; lia). exact D1. }
  assert (E1 : rd_u8 d2 4 = 2).
  { rewrite (rd_u8_frame _ _ _ _ _ Fd2) by (offsets; lia). exact D2. }
  assert (E2 : slice d2 5 58 = 46 :: zeros 57).
  { rewrite <- (same_outside_slice _ _ _ _ 5 58 Fd2) by (offsets; lia). exact D3. }
  split; [|repeat split; try lia].
  - unfold fresh_fs, well_laid.
    cbn [sb inode_bitmap data_bitmap inode_table data_region].
    rewrite !T32, !T64 by (offsets; lia).
    rewrite S1, S2, S3, S4, S5, S6, S7, S8, S9, S10, S11.
    rewrite !U by (offsets; lia).
    repeat match goal with |- _ /\ _ => split end;
      try assumption; try (offsets; lia); try reflexivity.
    + rewrite I4. apply u32_small. lia.
    + apply (same_outside_join 0 128 _ _ _ _ _ d1 d2 Fd1 Fd2); offsets; lia.
  - offsets. lia.
Qed.

Lemma slice_zeros (n off m : Z) :
  0 <= off -> 0 <= m -> off + m <= n -> slice (zeros n) off m = zeros m.
Proof.
  intros. apply bytes_ext.
  - rewrite len_slice, len_zeros; rewrite ?len_zeros; lia.
  - intros i Hi. rewrite len_slice in Hi by (rewrite ?len_zeros; lia).
    rewrite byte_at_slice, !byte_at_zeros by lia. reflexivity.
Qed.

(** C6. For every pair inside the bounds the builder returns an image of
    [total_blocks] blocks in which bit 0 is the only bit set in either
    bitmap, the root inode is a directory with link count 2, size 128 and
    [direct[0] = data_region_start], the root directory block starts with the
    two entries "." and "..", both for inode 1 and of type directory, and
    the other 62 slots of that block are empty.  [adjacent] is the memory
    after the builder's superblock variable, which the checksum routine
    reads (3976 bytes of it). *)
Theorem fresh_image_contents (size_kib inodes now : Z) (adjacent : bytes) :
  args_in_bounds size_kib inodes ->
  BS - 4 - SB_SIZE <= len adjacent ->
  exists g img,
    compute_geometry size_kib inodes = Done g /\
    mkfs_builder true size_kib inodes now adjacent true = Done img /\
    len img = total_blocks g * BS /\
    (forall i, 0 <= i < 8 * BS -> bitmap_bit (img_inode_bitmap img) i = (i =? 0)) /\
    (forall i, 0 <= i < 8 * BS -> bitmap_bit (img_data_bitmap img) i = (i =? 0)) /\
    rd_u16 (inode_slot img 0) INO.mode = 0x4000 /\
    rd_u16 (inode_slot img 0) INO.links = 2 /\
    rd_u64 (inode_slot img 0) INO.size_bytes = 128 /\
    rd_u32 (inode_slot img 0) (INO.direct 0) = data_region_start g /\
    rd_u64 img SB.data_region_start = data_region_start g /\
    root_block img = 0 /\
    rd_u32 (root_dirent img 0) DE.inode_no = 1 /\
    rd_u8 (root_dirent img 0) DE.type = 2 /\
    cstr (slice (root_dirent img 0) DE.name DE.name_size) = [46] /\
    rd_u32 (root_dirent img 1) DE.inode_no = 1 /\
    rd_u8 (root_dirent img 1) DE.type = 2 /\
    cstr (slice (root_dirent img 1) DE.name DE.name_size) = [46; 46] /\
    (forall k, 2 <= k < 64 -> root_dirent img k = zeros DIRENT_SIZE).
Proof.
  intros Hb Hadj.
  destruct (mkfs_builder_fresh size_kib inodes now adjacent Hb Hadj)
    as (g & s & Hg & Hm & Hf & Gt & Gi & Gd & Gn).
  exists g, (layout s). split; [exact Hg|]. split; [exact Hm|].
  destruct Hf as (W & F1 & F2 & F3 & F4 & F5 & F6 & F7 & Bi & Bd & Ft & T1 & T2
                  & T3 & T4 & Fr & R1 & R2 & R3 & R4 & R5 & R6).
  pose proof (same_outside_len _ _ _ _ Ft) as Lt.
  pose proof (same_outside_len _ _ _ _ Fr) as Lr.
  rewrite len_zeros in Lt, Lr by (offsets; lia).
  assert (RB : root_block (layout s) = 0).
  { unfold root_block. rewrite layout_inode_table, layout_rd_u64 by (auto; offsets; lia).
    rewrite T4, F5. lia. }
  unfold root_dirent, inode_slot, data_block.
  rewrite RB, layout_inode_table, layout_data_region, layout_inode_bitmap,
    layout_data_bitmap, len_layout, layout_rd_u64 by (auto; offsets; lia).
  rewrite F4, F5, F6. offsets.
  rewrite !rd_u16_slice, !rd_u64_slice, !rd_u32_slice, !rd_u8_slice by lia.
  rewrite !slice_slice by lia.
  norm_off. change (44 + 4 * 0) with 44 in T4.
  rewrite T1, T2, T3, T4, R1, R2, R3, R4, R5, R6.
  repeat match goal with |- _ /\ _ => split end;
    try reflexivity; try lia; try (intros; auto; lia).
  - intros i Hi. apply Bi. lia.
  - intros i Hi. apply Bd. lia.
  - intros k Hk. rewrite slice_slice by lia.
    match goal with
    | |- slice _ ?o _ = _ =>
        rewrite <- (same_outside_slice _ _ _ _ o 64 Fr) by lia
    end.
    apply slice_zeros; lia.
Qed.

Lemma fresh_image_contents_witness :
  exists g img,
    compute_geometry 180 128 = Done g /\
    mkfs_builder true 180 128 1700000000 (zeros 3976) true = Done img /\
    len img = total_blocks g * BS /\
    (forall i, 0 <= i < 8 * BS -> bitmap_bit (img_inode_bitmap img) i = (i =? 0)) /\
    (forall i, 0 <= i < 8 * BS -> bitmap_bit (img_data_bitmap img) i = (i =? 0)) /\
    rd_u16 (inode_slot img 0) INO.mode = 0x4000 /\
    rd_u16 (inode_slot img 0) INO.links = 2 /\
    rd_u64 (inode_slot img 0) INO.size_bytes = 128 /\
    rd_u32 (inode_slot img 0) (INO.direct 0) = data_region_start g /\
    rd_u64 img SB.data_region_start = data_region_start g /\
    root_block img = 0 /\
    rd_u32 (root_dirent img 0) DE.inode_no = 1 /\
    rd_u8 (root_dirent img 0) DE.type = 2 /\
    cstr (slice (root_dirent img 0) DE.name DE.name_size) = [46] /\
    rd_u32 (root_dirent img 1) DE.inode_no = 1 /\
    rd_u8 (root_dirent img 1) DE.type = 2 /\
    cstr (slice (root_dirent img 1) DE.name DE.name_size) = [46; 46] /\
    (forall k, 2 <= k < 64 -> root_dirent img k = zeros DIRENT_SIZE).
Proof.
  apply fresh_image_contents.
  - unfold args_in_bounds. split; [lia|]. split; [reflexivity|lia].
  - vm_compute. discriminate.
Defined.

(** ** The bitmap allocator *)

Lemma bitmap_probe (bm : bytes) (i : Z) :
  0 <= i < 8 * len bm ->
  get_u8 bm (i / 8) = Done (byte_at bm (i / 8)) /\
  bit_is_set (byte_at bm (i / 8)) i = bitmap_bit bm i.
Proof.
  intros Hi. destruct (div8_mod8 i) as (E & Hr & Hq); [lia|].
  split.
  - rewrite get_u8_ok by lia. f_equal. apply rd_u8_byte_at; lia.
  - apply bit_is_set_testbit.
Qed.

Lemma find_free_inode_loop_spec (bm : bytes) (n : nat) (i0 : Z) :
  0 <= i0 -> i0 + Z.of_nat n <= 8 * len bm ->
  (exists k, i0 <= k < i0 + Z.of_nat n /\
     bitmap_bit bm k = false /\
     (forall j, i0 <= j < k -> bitmap_bit bm j = true) /\
     find_free_inode_loop bm n i0 = Done (i32 (k + 1))) \/
  ((forall j, i0 <= j < i0 + Z.of_nat n -> bitmap_bit bm j = true) /\
   find_free_inode_loop bm n i0 = Done (-1)).
Proof.
  revert i0. induction n as [|n IH]; intros i0 H0 Hn.
  - right. split; [intros; lia|reflexivity].
  - cbn [find_free_inode_loop].
    destruct (bitmap_probe bm i0) as [G B]; [lia|].
    rewrite G. cbn [bind]. rewrite B.
    destruct (bitmap_bit bm i0) eqn:E.
    + destruct (IH (i0 + 1)) as [(k & Hk & Kf & Kb & Kr)|[Ha Hr]]; [lia..| |].
      * left. exists k. split; [lia|]. split; [exact Kf|]. split; [|exact Kr].
        intros j Hj. destruct (Z.eq_dec j i0); [subst; exact E|apply Kb; lia].
      * right. split; [|exact Hr].
        intros j Hj. destruct (Z.eq_dec j i0); [subst; exact E|apply Ha; lia].
    + left. exists i0. split; [lia|]. split; [exact E|]. split; [intros; lia|reflexivity].
Qed.

Lemma find_free_data_block_loop_spec (bm : bytes) (n : nat) (i0 : Z) :
  0 <= i0 -> i0 + Z.of_nat n <= 8 * len bm ->
  (exists k, i0 <= k < i0 + Z.of_nat n /\
     bitmap_bit bm k = false /\
     (forall j, i0 <= j < k -> bitmap_bit bm j = true) /\
     find_free_data_block_loop bm n i0 = Done (i32 k)) \/
  ((forall j, i0 <= j < i0 + Z.of_nat n -> bitmap_bit bm j = true) /\
   find_free_data_block_loop bm n i0 = Done (-1)).
Proof.
  revert i0. induction n as [|n IH]; intros i0 H0 Hn.
  - right. split; [intros; lia|reflexivity].
  - cbn [find_free_data_block_loop].
    destruct (bitmap_probe bm i0) as [G B]; [lia|].
    rewrite G. cbn [bind]. rewrite B.
    destruct (bitmap_bit bm i0) eqn:E.
    + destruct (IH (i0 + 1)) as [(k & Hk & Kf & Kb & Kr)|[Ha Hr]]; [lia..| |].
      * left. exists k. split; [lia|]. split; [exact Kf|]. split; [|exact Kr].
        intros j Hj. destruct (Z.eq_dec j i0); [subst; exact E|apply Kb; lia].
      * right. split; [|exact Hr].
        intros j Hj. destruct (Z.eq_dec j i0); [subst; exact E|apply Ha; lia].
    + left. exists i0. split; [lia|]. split; [exact E|]. split; [intros; lia|reflexivity].
Qed.

(** [find_free_inode] on a one-block bitmap: the first clear bit below
    [count], as an inode number, or [-1]. *)
Lemma find_free_inode_spec (bm : bytes) (count : Z) :
  len bm = BS -> 0 <= count <= 8 * BS ->
  (exists k, 0 <= k < count /\
     bitmap_bit bm k = false /\
     (forall j, 0 <= j < k -> bitmap_bit bm j = true) /\
     find_free_inode bm count = Done (k + 1)) \/
  ((forall j, 0 <= j < count -> bitmap_bit bm j = true) /\
   find_free_inode bm count = Done (-1)).
Proof.
  intros L Hc. unfold find_free_inode.
  destruct (find_free_inode_loop_spec bm (Z.to_nat count) 0)
    as [(k & Hk & Kf & Kb & Kr)|[Ha Hr]]; [lia | unfold BS in *; lia | |].
  - left. exists k. rewrite Z2Nat.id in Hk by lia.
    split; [lia|]. split; [exact Kf|]. split; [exact Kb|].
    rewrite Kr. f_equal. apply i32_small. unfold BS in *; lia.
  - right. rewrite Z2Nat.id in Ha by lia. auto.
Qed.

Lemma find_free_data_block_spec (bm : bytes) (count : Z) :
  len bm = BS -> 0 <= count <= 8 * BS ->
  (exists k, 0 <= k < count /\
     bitmap_bit bm k = false /\
     (forall j, 0 <= j < k -> bitmap_bit bm j = true) /\
     find_free_data_block bm count = Done k) \/
  ((forall j, 0 <= j < count -> bitmap_bit bm j = true) /\
   find_free_data_block bm count = Done (-1)).
Proof.
  intros L Hc. unfold find_free_data_block.
  destruct (find_free_data_block_loop_spec bm (Z.to_nat count) 0)
    as [(k & Hk & Kf & Kb & Kr)|[Ha Hr]]; [lia | unfold BS in *; lia | |].
  - left. exists k. rewrite Z2Nat.id in Hk by lia.
    split; [lia|]. split; [exact Kf|]. split; [exact Kb|].
    rewrite Kr. f_equal. apply i32_small. unfold BS in *; lia.
  - right. rewrite Z2Nat.id in Ha by lia. auto.
Qed.

Lemma same_index (j k : Z) :
  0 <= j -> 0 <= k -> (j =? k) = (j / 8 =? k / 8) && (j mod 8 =? k mod 8).
Proof.
  intros Hj Hk.
  destruct (div8_mod8 j Hj) as (Ej & _ & _).
  destruct (div8_mod8 k Hk) as (Ek & _ & _).
  destruct (Z.eqb_spec j k) as [->|N].
  - now rewrite !Z.eqb_refl.
  - symmetry. apply andb_false_iff.
    destruct (Z.eqb_spec (j / 8) (k / 8)) as [E1|]; [|now left].
    destruct (Z.eqb_spec (j mod 8) (k mod 8)) as [E2|]; [|now right].
    exfalso. apply N. lia.
Qed.

Lemma mark_spec (bm : bytes) (k : Z) :
  0 <= k < 8 * len bm ->
  exists bm',
    mark bm k = Done bm' /\
    len bm' = len bm /\
    forall j, 0 <= j -> bitmap_bit bm' j = (j =? k) || bitmap_bit bm j.
Proof.
  intros Hk. unfold mark.
  destruct (div8_mod8 k) as (E & Hr & Hq); [lia|].
  rewrite Z.quot_div_nonneg, Z.rem_mod_nonneg by lia.
  rewrite get_u8_ok by lia. cbn [bind].
  rewrite rd_u8_byte_at by lia.
  set (b := byte_at bm (k / 8)).
  destruct (put_u8_ok bm (k / 8) (Z.lor b (Z.shiftl 1 (k mod 8)))) as [bm' P]; [lia..|].
  pose proof (put_u8_frame _ _ _ _ P) as F.
  pose proof (rd_put_u8 _ _ _ _ P) as R.
  pose proof (same_outside_len _ _ _ _ F) as L.
  exists bm'. split; [exact P|]. split; [lia|].
  intros j Hj. unfold bitmap_bit.
  destruct (div8_mod8 j Hj) as (Ej & Hjr & Hjq).
  rewrite (same_index j k) by lia.
  destruct (Z.eqb_spec (j / 8) (k / 8)) as [Eq|Nq].
  - rewrite Eq. rewrite <- (rd_u8_byte_at bm') by lia. rewrite R.
    unfold u8. rewrite Z.mod_pow2_bits_low by lia.
    rewrite Z.lor_spec, Z.shiftl_mul_pow2, Z.mul_1_l, Z.pow2_bits_eqb by lia.
    fold b. rewrite orb_comm. cbn [andb]. f_equal. apply Z.eqb_sym.
  - cbn [andb orb]. f_equal. symmetry. apply (same_outside_byte _ _ _ _ _ F); lia.
Qed.

(** ** Streams *)

Lemma fseek_ok (fp : file) (off : Z) :
  0 <= off < 2 ^ 63 -> fseek fp off = {| f_data := f_data fp; f_pos := off |}.
Proof.
  intros H. unfold fseek. rewrite i64_small by lia.
  destruct (off <? 0) eqn:E; [apply Z.ltb_lt in E; lia|reflexivity].
Qed.

Lemma fread_ok (fp : file) (size : Z) :
  0 < size -> f_pos fp + size <= len (f_data fp) ->
  fread fp size =
  Some (slice (f_data fp) (f_pos fp) size,
        {| f_data := f_data fp; f_pos := f_pos fp + size |}).
Proof.
  intros Hs Hl. unfold fread.
  replace (size <=? 0) with false by (symmetry; apply Z.leb_gt; lia).
  replace (len (f_data fp) <? f_pos fp + size) with false
    by (symmetry; apply Z.ltb_ge; lia).
  reflexivity.
Qed.

Lemma fwrite_past_end (fp : file) (d : bytes) :
  len (f_data fp) <= f_pos fp ->
  fwrite fp d =
  {| f_data := f_data fp ++ zeros (f_pos fp - len (f_data fp)) ++ d;
     f_pos := f_pos fp + len d |}.
Proof.
  intros Hp. unfold fwrite. f_equal.
  set (base := f_data fp ++ zeros (f_pos fp - len (f_data fp))).
  assert (Lb : length base = Z.to_nat (f_pos fp)).
  { unfold base. rewrite length_app. unfold zeros. rewrite repeat_length.
    unfold len in *. lia. }
  rewrite firstn_all2, skipn_all2 by lia.
  unfold base. now rewrite app_nil_r, <- app_assoc.
Qed.

(** ** Loading and persisting *)

Lemma seek_write (fp : file) (off : Z) (d : bytes) :
  len (f_data fp) <= off < 2 ^ 63 ->
  fwrite (fseek fp off) d =
  {| f_data := f_data fp ++ zeros (off - len (f_data fp)) ++ d;
     f_pos := off + len d |}.
Proof.
  intros H. pose proof (len_nonneg (f_data fp)).
  rewrite fseek_ok by lia. rewrite fwrite_past_end by (cbn [f_data f_pos]; lia).
  reflexivity.
Qed.

Ltac seek_write_step :=
  match goal with
  | |- context [fwrite (fseek {| f_data := ?d; f_pos := ?p |} ?off) ?x] =>
      rewrite (seek_write {| f_data := d; f_pos := p |} off x)
        by (cbn [f_data]; lia);
      cbn [f_data]
  end.

Lemma persist_layout (s : fs) : well_laid s -> persist s = layout s.
Proof.
  intros (L & _ & E1 & E2 & E3 & E4 & Hi & Hd & Li & Ld & Lt & Lr).
  unfold persist, sb_u64. rewrite E1, E2, E3, E4.
  assert (W0 : fwrite fopen_w (sb s) = {| f_data := sb s; f_pos := 116 |}).
  { rewrite fwrite_past_end by (unfold fopen_w, len; cbn [f_data f_pos length]; lia).
    unfold fopen_w. cbn [f_data f_pos]. change (len []) with 0.
    change (zeros (0 - 0)) with (@nil Z). cbn [app]. f_equal. offsets. lia. }
  rewrite W0. offsets.
  rewrite !u64_small by lia.
  seek_write_step.
  set (d1 := sb s ++ zeros (1 * 4096 - len (sb s)) ++ inode_bitmap s).
  assert (L1 : len d1 = 2 * 4096).
  { unfold d1. rewrite !len_app, len_zeros; lia. }
  seek_write_step.
  rewrite L1, Z.sub_diag. change (zeros 0) with (@nil Z). cbn [app].
  set (d2 := d1 ++ data_bitmap s).
  assert (L2 : len d2 = 3 * 4096).
  { unfold d2. rewrite !len_app; lia. }
  seek_write_step.
  rewrite L2, Z.sub_diag. change (zeros 0) with (@nil Z). cbn [app].
  set (d3 := d2 ++ inode_table s).
  assert (L3 : len d3 = (3 + rd_u64 (sb s) 68) * 4096).
  { unfold d3. rewrite !len_app; lia. }
  seek_write_step.
  rewrite L3, Z.sub_diag. change (zeros 0) with (@nil Z). cbn [app].
  unfold d3, d2, d1, layout. rewrite L. offsets.
  change (1 * 4096 - 116) with (4096 - 116).
  now rewrite <- !app_assoc.
Qed.

Lemma fread_or_ok (e : error) (fp : file) (size : Z) :
  0 < size -> f_pos fp + size <= len (f_data fp) ->
  fread_or e fp size =
  Done (slice (f_data fp) (f_pos fp) size,
        {| f_data := f_data fp; f_pos := f_pos fp + size |}).
Proof. intros. unfold fread_or. now rewrite fread_ok. Qed.

Lemma load_readable (img : bytes) :
  readable img -> load img = Done (fs_of_image img) /\ well_laid (fs_of_image img).
Proof.
  intros (M & E1 & E2 & E3 & E4 & Hi & Hd & L).
  assert (S32 : forall off, 0 <= off -> off + 4 <= 116 ->
                  rd_u32 (slice img 0 SB_SIZE) off = rd_u32 img off).
  { intros. now rewrite rd_u32_slice by (offsets; lia). }
  assert (S64 : forall off, 0 <= off -> off + 8 <= 116 ->
                  rd_u64 (slice img 0 SB_SIZE) off = rd_u64 img off).
  { intros. now rewrite rd_u64_slice by (offsets; lia). }
  split.
  - unfold load, sb_u32, sb_u64.
    rewrite fread_or_ok by (unfold fopen_r; cbn [f_data f_pos]; offsets; lia).
    cbn [bind fopen_r f_data f_pos].
    rewrite S32, !S64 by (offsets; lia).
    rewrite M, Z.eqb_refl. cbn [negb]. rewrite E1, E2, E3, E4.
    offsets. rewrite !u64_small by lia.
    rewrite fseek_ok by lia.
    rewrite fread_or_ok by (cbn [f_data f_pos]; lia). cbn [bind f_data f_pos].
    rewrite fseek_ok by lia.
    rewrite fread_or_ok by (cbn [f_data f_pos]; lia). cbn [bind f_data f_pos].
    rewrite fseek_ok by lia.
    rewrite fread_or_ok by (cbn [f_data f_pos]; lia). cbn [bind f_data f_pos].
    rewrite fseek_ok by lia.
    rewrite fread_or_ok by (cbn [f_data f_pos]; lia). cbn [bind f_data f_pos].
    unfold fs_of_image, img_inode_bitmap, img_data_bitmap, img_inode_table,
      img_data_region, block.
    offsets. now rewrite E1, E2, E3, E4.
  - unfold well_laid, fs_of_image, img_inode_bitmap, img_data_bitmap,
      img_inode_table, img_data_region, block.
    cbn [sb inode_bitmap data_bitmap inode_table data_region].
    rewrite S32, !S64 by (offsets; lia).
    rewrite E1, E2, E3, E4. offsets.
    rewrite !len_slice by lia.
    repeat split; try assumption; lia.
Qed.

Lemma readable_layout (s : fs) : well_laid s -> readable (layout s).
Proof.
  intros W. pose proof W as (L & M & E1 & E2 & E3 & E4 & Hi & Hd & _).
  unfold readable.
  rewrite layout_rd_u32, !layout_rd_u64, len_layout by (auto; offsets; lia).
  repeat split; try assumption; lia.
Qed.

Lemma fs_of_image_layout (s : fs) : well_laid s -> fs_of_image (layout s) = s.
Proof.
  intros W. unfold fs_of_image.
  rewrite layout_sb, layout_inode_bitmap, layout_data_bitmap,
    layout_inode_table, layout_data_region by exact W.
  now destruct s.
Qed.

Lemma load_layout (s : fs) : well_laid s -> load (layout s) = Done s.
Proof.
  intros W. destruct (load_readable _ (readable_layout s W)) as [H _].
  now rewrite fs_of_image_layout in H.
Qed.

Lemma valid_image_readable (img : bytes) : valid_image img -> readable img.
Proof.
  unfold valid_image, readable.
  intros (M & _ & E1 & E2 & E3 & E4 & Hd & Et & _ & L & Hn & Hs & Hn8 & Hd8 & Hi8 & _).
  rewrite L, Et, E4.
  repeat split; try assumption; offsets; lia.
Qed.

Lemma valid_image_fs (img : bytes) :
  valid_image img -> load img = Done (fs_of_image img) /\ valid_fs (fs_of_image img).
Proof.
  intros V. destruct (load_readable img (valid_image_readable img V)) as [Hl W].
  split; [exact Hl|].
  destruct V as (M & _ & E1 & E2 & E3 & E4 & Hd & Et & _ & L & Hn & Hs & Hn8 & Hd8
                 & Hi8 & B0 & Rb & Br & Sz & Sc).
  unfold valid_fs. split; [exact W|].
  unfold root_block in *.
  unfold fs_of_image. cbn [sb inode_bitmap data_bitmap inode_table data_region].
  rewrite !rd_u64_slice by (offsets; lia). cbn [Z.add].
  repeat split; try assumption; lia.
Qed.

(** ** The new inode *)

Lemma create_inode_spec (itab : bytes) (fi file_size needed now : Z)
    (dbs : list Z) :
  u32 ((fi - 1) * INODE_SIZE) + INODE_SIZE <= len itab ->
  exists t c,
    create_inode itab fi file_size needed now dbs = Done t /\
    same_outside (u32 ((fi - 1) * INODE_SIZE))
      (u32 ((fi - 1) * INODE_SIZE) + 128) itab t /\
    rd_u16 t (u32 ((fi - 1) * INODE_SIZE) + INO.mode) = 0x8000 /\
    rd_u16 t (u32 ((fi - 1) * INODE_SIZE) + INO.links) = 1 /\
    rd_u64 t (u32 ((fi - 1) * INODE_SIZE) + INO.size_bytes) = u64 file_size /\
    crc32 (slice t (u32 ((fi - 1) * INODE_SIZE)) INODE_SIZE) 120 = Done c /\
    rd_u64 t (u32 ((fi - 1) * INODE_SIZE) + INO.inode_crc) = c.
Proof.
  intros Hl. unfold create_inode.
  pose proof (u32_range ((fi - 1) * INODE_SIZE)) as Ho.
  set (o := u32 ((fi - 1) * INODE_SIZE)) in *.
  cbn [set_direct]. offsets.
  pose proof (same_outside_refl o (o + 128) itab) as FA.
  do 21 store.
  match goal with
  | |- exists t c, inode_crc_finalize ?b ?off = Done t /\ _ =>
      destruct (inode_crc_finalize_spec b off) as (t & c & Ec & Fc & Cc & Rc);
        [unfold INODE_SIZE; lia..|];
      after_store b t Fc; exists t, c
  end.
  split; [assumption|]. split; [assumption|].
  repeat split; assumption.
Qed.

(** ** The root directory *)

Lemma scan_entries_spec (dreg : bytes) (re : Z) (n : nat) (i0 : Z) :
  0 <= re -> 0 <= i0 -> re + (i0 + Z.of_nat n) * DIRENT_SIZE <= len dreg ->
  (exists k, i0 <= k < i0 + Z.of_nat n /\
     rd_u32 dreg (re + k * DIRENT_SIZE) = 0 /\
     (forall j, i0 <= j < k -> rd_u32 dreg (re + j * DIRENT_SIZE) <> 0) /\
     scan_entries n i0 dreg re = Done (i32 k)) \/
  ((forall j, i0 <= j < i0 + Z.of_nat n -> rd_u32 dreg (re + j * DIRENT_SIZE) <> 0) /\
   scan_entries n i0 dreg re = Done (-1)).
Proof.
  revert i0. induction n as [|n IH]; intros i0 Hre H0 Hn.
  - right. split; [intros; lia|reflexivity].
  - cbn [scan_entries]. unfold DE.inode_no. rewrite Z.add_0_r.
    rewrite get_u32_ok by (unfold DIRENT_SIZE in *; lia). cbn [bind].
    destruct (Z.eqb_spec (rd_u32 dreg (re + i0 * DIRENT_SIZE)) 0) as [E|E].
    + left. exists i0. split; [lia|]. split; [exact E|]. split; [intros; lia|reflexivity].
    + destruct (IH (i0 + 1)) as [(k & Hk & Kf & Kb & Kr)|[Ha Hr]]; [lia..| |].
      * left. exists k. split; [lia|]. split; [exact Kf|]. split; [|exact Kr].
        intros j Hj. destruct (Z.eq_dec j i0); [subst; exact E|apply Kb; lia].
      * right. split; [|exact Hr].
        intros j Hj. destruct (Z.eq_dec j i0); [subst; exact E|apply Ha; lia].
Qed.

(** The three ways [find_dir_slot] can go. *)
Lemma find_dir_slot_spec (itab dreg : bytes) (re : Z) :
  let size := rd_u64 itab INO.size_bytes in
  let entry_count := size / DIRENT_SIZE in
  INODE_SIZE <= len itab ->
  0 <= size -> entry_count < 2 ^ 31 ->
  0 <= re -> re + entry_count * DIRENT_SIZE <= len dreg ->
  (exists k, 0 <= k < entry_count /\
     rd_u32 dreg (re + k * DIRENT_SIZE) = 0 /\
     (forall j, 0 <= j < k -> rd_u32 dreg (re + j * DIRENT_SIZE) <> 0) /\
     find_dir_slot itab dreg re = Done (k, itab)) \/
  ((forall j, 0 <= j < entry_count -> rd_u32 dreg (re + j * DIRENT_SIZE) <> 0) /\
   entry_count < 64 /\
   exists t c,
     find_dir_slot itab dreg re = Done (entry_count, t) /\
     agree_on (fun p => p < 12 \/ 20 <= p < 120 \/ 128 <= p) itab t /\
     rd_u64 t INO.size_bytes = u64 (size + 64) /\
     crc32 (slice t 0 INODE_SIZE) 120 = Done c /\
     rd_u64 t INO.inode_crc = c) \/
  ((forall j, 0 <= j < entry_count -> rd_u32 dreg (re + j * DIRENT_SIZE) <> 0) /\
   64 <= entry_count /\
   find_dir_slot itab dreg re = Exit ERootDirFull).
Proof.
  intros size entry_count Hl Hs He Hre Hr.
  assert (Hec : 0 <= entry_count) by (apply Z.div_pos; unfold DIRENT_SIZE; lia).
  unfold find_dir_slot.
  rewrite get_u64_ok by (offsets; lia). cbn [bind].
  fold size. fold entry_count.
  destruct (scan_entries_spec dreg re (Z.to_nat entry_count) 0)
    as [(k & Hk & Kf & Kb & Kr)|[Ha Hsc]]; [unfold DIRENT_SIZE in *; lia..| |].
  - left. rewrite Z2Nat.id in Hk by lia.
    exists k. split; [lia|]. split; [exact Kf|]. split; [exact Kb|].
    rewrite Kr. cbn [bind]. rewrite i32_small by lia.
    replace (k =? -1) with false by (symmetry; apply Z.eqb_neq; lia).
    reflexivity.
  - right. rewrite Z2Nat.id in Ha by lia.
    rewrite Hsc. cbn [bind]. cbn [Z.eqb Pos.eqb].
    change (BS / DIRENT_SIZE) with 64.
    destruct (64 <=? entry_count) eqn:E.
    + right. apply Z.leb_le in E. auto.
    + left. apply Z.leb_gt in E. split; [exact Ha|]. split; [exact E|].
      rewrite i32_small by lia. offsets.
      pose proof (agree_on_refl (fun p => p < 12 \/ 20 <= p < 120 \/ 128 <= p) itab) as GA.
      store.
      match goal with
      | |- exists t c, bind (inode_crc_finalize ?b ?off) _ = Done _ /\ _ =>
          destruct (inode_crc_finalize_spec b off) as (t & c & Ec & Fc & Cc & Rc);
            [unfold INODE_SIZE; lia..|];
          rewrite Ec; cbn [bind];
          after_store b t Fc; exists t, c
      end.
      split; [reflexivity|]. split; [assumption|].
      split; [assumption|]. split; assumption.
Qed.

Lemma strlen_nonneg (s : bytes) : 0 <= strlen s.
Proof. apply len_nonneg. Qed.

Lemma put_zeros_spec (buf : bytes) (off n : Z) :
  0 <= off -> 0 <= n -> off + n <= len buf ->
  exists r, put_bytes buf off (zeros n) = Done r /\ same_outside off (off + n) buf r.
Proof.
  intros. rewrite put_bytes_ok by (rewrite ?len_zeros; lia).
  eexists. split; [reflexivity|].
  pose proof (same_outside_upd buf off (zeros n)) as S.
  rewrite len_zeros in S by lia. apply S; lia.
Qed.

Lemma write_dirent_spec (dreg : bytes) (re fe fi : Z) (name : bytes) :
  0 <= re + fe * DIRENT_SIZE ->
  re + fe * DIRENT_SIZE + DIRENT_SIZE <= len dreg ->
  exists d,
    write_dirent dreg re fe fi name = Done d /\
    same_outside (re + fe * DIRENT_SIZE) (re + fe * DIRENT_SIZE + 64) dreg d /\
    rd_u32 d (re + fe * DIRENT_SIZE + DE.inode_no) = u32 fi /\
    rd_u8 d (re + fe * DIRENT_SIZE + DE.type) = 1.
Proof.
  intros H0 Hl. unfold write_dirent.
  set (de := re + fe * DIRENT_SIZE) in *.
  pose proof (strlen_nonneg name) as Hs.
  set (name_len := if 57 <? strlen name then 57 else strlen name).
  assert (Hn : 0 <= name_len <= 57).
  { unfold name_len. destruct (57 <? strlen name) eqn:E; [lia|].
    apply Z.ltb_ge in E. lia. }
  offsets.
  pose proof (same_outside_refl de (de + 64) dreg) as FA.
  do 2 store.
  destruct (put_zeros_spec buf0 (de + 5) 58) as (b1 & E1 & F1); [lia..|].
  rewrite E1. cbn [bind]. after_store buf0 b1 F1.
  destruct (strncpy_spec b1 (de + 5) name name_len) as (b2 & E2 & F2 & _); [lia..|].
  rewrite E2. cbn [bind]. after_store b1 b2 F2.
  store. last_finalize.
  split; [assumption|]. split; assumption.
Qed.

Lemma bump_root_links_spec (itab : bytes) :
  INODE_SIZE <= len itab ->
  exists t c,
    bump_root_links itab = Done t /\
    agree_on (fun p => p < 2 \/ 4 <= p < 120 \/ 128 <= p) itab t /\
    rd_u16 t INO.links = u16 (rd_u16 itab INO.links + 1) /\
    crc32 (slice t 0 INODE_SIZE) 120 = Done c /\
    rd_u64 t INO.inode_crc = c.
Proof.
  intros Hl. unfold bump_root_links. offsets.
  rewrite get_u16_ok by lia. cbn [bind].
  pose proof (agree_on_refl (fun p => p < 2 \/ 4 <= p < 120 \/ 128 <= p) itab) as GA.
  store.
  match goal with
  | |- exists t c, inode_crc_finalize ?b ?off = Done t /\ _ =>
      destruct (inode_crc_finalize_spec b off) as (t & c & Ec & Fc & Cc & Rc);
        [unfold INODE_SIZE; lia..|];
      after_store b t Fc; exists t, c
  end.
  split; [assumption|]. split; [assumption|]. split; [assumption|].
  split; assumption.
Qed.

(** X17. The slot search and the entry write, as two steps on their own: the
    search returns the first index [k] below [entry_count = size_bytes / 64]
    whose inode number is 0, the inode table being left as it was; if there
    is none and [entry_count < 64], it returns [entry_count], the root
    inode's [size_bytes] growing by 64 and its checksum being finalized
    again; if there is none and [entry_count >= 64] it ends with "Root
    directory is full".  In the first two cases the entry written at that
    index carries the new inode number and type 1. *)
Lemma dir_slot_choice (itab dreg : bytes) (re fi : Z) (name : bytes) :
  INODE_SIZE <= len itab ->
  0 <= rd_u64 itab INO.size_bytes <= BS ->
  0 <= re -> re + BS <= len dreg ->
  let entry_count := rd_u64 itab INO.size_bytes / DIRENT_SIZE in
  let free k := rd_u32 dreg (re + k * DIRENT_SIZE + DE.inode_no) = 0 in
  let placed k t :=
    find_dir_slot itab dreg re = Done (k, t) /\
    exists d,
      write_dirent dreg re k fi name = Done d /\
      same_outside (re + k * DIRENT_SIZE) (re + k * DIRENT_SIZE + 64) dreg d /\
      rd_u32 d (re + k * DIRENT_SIZE + DE.inode_no) = u32 fi /\
      rd_u8 d (re + k * DIRENT_SIZE + DE.type) = 1 in
  (exists k, 0 <= k < entry_count /\ free k /\
     (forall j, 0 <= j < k -> ~ free j) /\ placed k itab) \/
  ((forall j, 0 <= j < entry_count -> ~ free j) /\ entry_count < 64 /\
   exists t c,
     placed entry_count t /\
     same_outside 12 128 itab t /\
     rd_u64 t INO.size_bytes = rd_u64 itab INO.size_bytes + 64 /\
     crc32 (slice t 0 120) 120 = Done c /\
     rd_u64 t INO.inode_crc = c) \/
  ((forall j, 0 <= j < entry_count -> ~ free j) /\ 64 <= entry_count /\
   find_dir_slot itab dreg re = Exit ERootDirFull).
Proof.
  intros Hl Hs Hre Hr entry_count free placed.
  assert (Hec : 0 <= entry_count <= 64).
  { unfold entry_count, DIRENT_SIZE, BS in *. split.
    - apply Z.div_pos; lia.
    - apply Z.div_le_upper_bound; lia. }
  assert (Hfree : forall k, free k <-> rd_u32 dreg (re + k * DIRENT_SIZE) = 0).
  { intros k. unfold free, DE.inode_no. now rewrite Z.add_0_r. }
  assert (Hw : forall k t, 0 <= k < 64 ->
            find_dir_slot itab dreg re = Done (k, t) -> placed k t).
  { intros k t Hk Hf. split; [exact Hf|].
    apply write_dirent_spec; unfold DIRENT_SIZE, BS in *; lia. }
  destruct (find_dir_slot_spec itab dreg re)
    as [(k & Hk & Kf & Kb & Kr)|[(Ha & Hlt & t & c & Ht & Ft & St & Ct & Rt)|(Ha & Hge & Hx)]];
    [ exact Hl | lia
    | fold entry_count; lia
    | lia
    | fold entry_count; unfold DIRENT_SIZE, BS in *; lia
    | | | ].
  - left. exists k. split; [exact Hk|]. split; [apply Hfree, Kf|].
    split; [intros j Hj; rewrite Hfree; apply Kb, Hj|].
    apply Hw; [fold entry_count in Hk; lia|exact Kr].
  - right. left. split; [intros j Hj; rewrite Hfree; apply Ha, Hj|].
    split; [exact Hlt|]. exists t, c.
    split; [apply Hw; [fold entry_count in Hlt; lia|exact Ht]|].
    split; [|split; [|split; [|exact Rt]]].
    + destruct Ft as [Lf Hf]. split; [exact Lf|].
      intros i Hi Ho. apply Hf; [exact Hi|lia].
    + rewrite St. apply u64_small. unfold BS in *. lia.
    + rewrite <- Ct. unfold INODE_SIZE in *.
      pose proof (agree_on_len _ _ _ Ft).
      apply crc32_prefix; rewrite ?len_slice; try lia.
      rewrite !slice_slice by lia. reflexivity.
  - right. right. split; [intros j Hj; rewrite Hfree; apply Ha, Hj|]. auto.
Qed.

Lemma dir_slot_choice_witness :
  exists t d,
    find_dir_slot sample_root_inode sample_root_block 0 = Done (2, t) /\
    rd_u64 t INO.size_bytes = 192 /\
    write_dirent sample_root_block 0 2 2 [102] = Done d /\
    rd_u32 d (0 + 2 * DIRENT_SIZE + DE.inode_no) = 2.
Proof.
  assert (H1 : INODE_SIZE <= len sample_root_inode) by (vm_compute; discriminate).
  assert (H2 : 0 <= rd_u64 sample_root_inode INO.size_bytes <= BS)
    by (split; vm_compute; discriminate).
  assert (H3 : 0 <= 0) by lia.
  assert (H4 : 0 + BS <= len sample_root_block) by (vm_compute; discriminate).
  assert (Hn : forall j, 0 <= j < 2 ->
            rd_u32 sample_root_block (0 + j * DIRENT_SIZE + DE.inode_no) <> 0).
  { intros j Hj. assert (C : j = 0 \/ j = 1) by lia.
    destruct C as [-> | ->]; vm_compute; discriminate. }
  assert (He : rd_u64 sample_root_inode INO.size_bytes / DIRENT_SIZE = 2)
    by (vm_compute; reflexivity).
  destruct (dir_slot_choice sample_root_inode sample_root_block 0 2 [102] H1 H2 H3 H4)
    as [(k & Hk & Kf & _)|[(_ & _ & t & c & (Hf & d & Hw & _ & Hi & _) & _ & Hs & _)|(_ & Hge & _)]].
  - exfalso. rewrite He in Hk. exact (Hn k Hk Kf).
  - rewrite He in Hf, Hw, Hi. exists t, d.
    split; [exact Hf|]. split; [|split; [exact Hw|exact Hi]].
    rewrite Hs. vm_compute. reflexivity.
  - exfalso. rewrite He in Hge. lia.
Defined.

(** ** The local array [data_blocks] *)

Lemma length_set_nth (l : list Z) (i : nat) (v : Z) :
  length (set_nth l i v) = length l.
Proof.
  revert i; induction l as [|x l IH]; intros [|i]; simpl; auto.
Qed.

Lemma nth_set_nth_same (l : list Z) (i : nat) (v : Z) :
  (i < length l)%nat -> nth i (set_nth l i v) 0 = v.
Proof.
  revert i; induction l as [|x l IH]; intros [|i] H; simpl in *; try lia; auto.
  apply IH. lia.
Qed.

Lemma nth_set_nth_other (l : list Z) (i j : nat) (v : Z) :
  i <> j -> nth j (set_nth l i v) 0 = nth j l 0.
Proof.
  revert i j; induction l as [|x l IH]; intros [|i] [|j] H; simpl; auto; try lia.
Qed.

(** ** Allocating the data blocks *)

Lemma alloc_blocks_inv (sbk : bytes) (n : nat) :
  let drs := sb_u64 sbk SB.data_region_start in
  let drb := sb_u64 sbk SB.data_region_blocks in
  0 <= drs -> 0 <= drb <= 8 * BS -> drs + drb < 2 ^ 32 ->
  forall (i : Z) (dbm : bytes) (dbs : list Z) (dbm' : bytes) (dbs' : list Z),
  len dbm = BS -> 0 <= i -> i + Z.of_nat n <= Z.of_nat (length dbs) ->
  alloc_blocks n i sbk dbm dbs = Done (dbm', dbs') ->
  len dbm' = BS /\ length dbs' = length dbs /\
  (forall j, 0 <= j -> bitmap_bit dbm j = true -> bitmap_bit dbm' j = true) /\
  (forall j, 0 <= j -> bitmap_bit dbm' j = true ->
     bitmap_bit dbm j = true \/
     exists t, i <= t < i + Z.of_nat n /\ nth (Z.to_nat t) dbs' 0 = drs + j) /\
  (forall t, i <= t < i + Z.of_nat n ->
     exists fb, 0 <= fb < drb /\ nth (Z.to_nat t) dbs' 0 = drs + fb /\
       bitmap_bit dbm fb = false /\ bitmap_bit dbm' fb = true) /\
  (forall t, 0 <= t < i -> nth (Z.to_nat t) dbs' 0 = nth (Z.to_nat t) dbs 0).
Proof.
  intros drs drb Hs Hb H32.
  induction n as [|n IH]; intros i dbm dbs dbm' dbs' L Hi Hn H.
  - cbn [alloc_blocks] in H. injection H as <- <-.
    repeat split; auto; intros; lia.
  - cbn [alloc_blocks] in H. fold drs drb in H.
    destruct (find_free_data_block_spec dbm drb L Hb)
      as [(fb & Hfb & Ff & _ & Fr)|[_ Fr]]; rewrite Fr in H; cbn [bind] in H.
    2: { cbn [Z.eqb] in H. discriminate. }
    replace (fb =? -1) with false in H by (symmetry; apply Z.eqb_neq; lia).
    destruct (mark_spec dbm fb) as (dbm1 & Hm & L1 & B1); [unfold BS in *; lia|].
    rewrite Hm in H. cbn [bind] in H.
    rewrite (u64_small fb), (u64_small (drs + fb)), (u32_small (drs + fb)) in H
      by (unfold BS in *; lia).
    apply IH in H; [|lia|lia|rewrite length_set_nth; lia].
    destruct H as (L' & Ld & Mono & Back & All & Old).
    rewrite length_set_nth in Ld.
    assert (Ei : nth (Z.to_nat i) dbs' 0 = drs + fb).
    { rewrite Old by lia. apply nth_set_nth_same. lia. }
    split; [exact L'|]. split; [exact Ld|]. split; [|split; [|split]].
    + intros j Hj Bj. apply Mono; [exact Hj|]. rewrite B1, Bj by lia. apply orb_true_r.
    + intros j Hj Bj. destruct (Back j Hj Bj) as [B|(t & Ht & Et)].
      * rewrite B1 in B by lia. apply orb_true_iff in B as [B|B]; [|now left].
        apply Z.eqb_eq in B. subst j. right. exists i. split; [lia|exact Ei].
      * right. exists t. split; [lia|exact Et].
    + intros t Ht. destruct (Z.eq_dec t i) as [->|Ne].
      * exists fb. split; [lia|]. split; [exact Ei|]. split; [exact Ff|].
        apply Mono; [lia|]. rewrite B1, Z.eqb_refl by lia. reflexivity.
      * destruct (All t) as (fb' & Hfb' & Et & Bf & Bt); [lia|].
        exists fb'. split; [exact Hfb'|]. split; [exact Et|]. split; [|exact Bt].
        rewrite B1 in Bf by lia. apply orb_false_iff in Bf. tauto.
    + intros t Ht. rewrite Old by lia. apply nth_set_nth_other. lia.
Qed.

(** ** Copying the file content *)

Lemma write_content_spec (sbk : bytes) (needed fsize : Z) (dbs : list Z)
    (content : bytes) (n : nat) :
  let drs := sb_u64 sbk SB.data_region_start in
  0 <= drs -> 1 <= needed <= 12 ->
  (needed - 1) * BS < fsize <= needed * BS -> len content = fsize ->
  forall (i : Z) (dreg : bytes),
  0 <= i -> i + Z.of_nat n = needed ->
  (forall t, i <= t < needed ->
     exists fb, 0 <= fb /\ (fb + 1) * BS <= len dreg /\
       nth (Z.to_nat t) dbs 0 = drs + fb) ->
  drs + len dreg < 2 ^ 32 ->
  exists dreg',
    write_content n i sbk needed fsize dbs content dreg = Done dreg' /\
    agree_on (fun p => forall t, i <= t < needed ->
                ~ in_block (nth (Z.to_nat t) dbs 0 - drs) p) dreg dreg'.
Proof.
  intros drs Hs Hnd Hsz Hc.
  induction n as [|n IH]; intros i dreg Hi Hn Hb H32.
  - exists dreg. split; [reflexivity|apply agree_on_refl].
  - cbn [write_content]. fold drs.
    destruct (Hb i) as (fb & Hfb & Hfl & Efb); [lia|].
    rewrite Efb. replace (drs + fb - drs) with fb by lia.
    pose proof (len_nonneg dreg) as Hlen.
    unfold BS in *.
    rewrite (u64_small fb), (u64_small (fb * 4096)), (u64_small (needed - 1)),
      (u64_small (i * 4096)) by lia.
    set (copy_size := if i =? needed - 1 then u64 (fsize - i * 4096) else 4096).
    assert (Hcs : 0 < copy_size <= 4096 /\ i * 4096 + copy_size <= fsize).
    { unfold copy_size. destruct (Z.eqb_spec i (needed - 1)) as [E|E].
      - rewrite u64_small by lia. lia.
      - lia. }
    rewrite get_bytes_ok by lia. cbn [bind].
    assert (Ls : len (slice content (i * 4096) copy_size) = copy_size)
      by (apply len_slice; lia).
    rewrite put_bytes_ok by lia. cbn [bind].
    set (dreg1 := upd dreg (fb * 4096) (slice content (i * 4096) copy_size)).
    assert (F1 : same_outside (fb * 4096) (fb * 4096 + copy_size) dreg dreg1).
    { pose proof (same_outside_upd dreg (fb * 4096)
                    (slice content (i * 4096) copy_size)) as S.
      rewrite Ls in S. apply S; lia. }
    pose proof (same_outside_len _ _ _ _ F1) as L1.
    destruct (IH (i + 1) dreg1) as (dreg' & Hw & Ha); [lia|lia| |lia|].
    { intros t Ht. destruct (Hb t) as (fb' & ? & ? & ?); [lia|].
      exists fb'. repeat split; try assumption; lia. }
    exists dreg'. split; [exact Hw|].
    eapply agree_on_trans; [apply same_outside_agree, F1|exact Ha|].
    intros p Hp. split.
    + specialize (Hp i ltac:(lia)). rewrite Efb in Hp.
      replace (drs + fb - drs) with fb in Hp by lia.
      unfold in_block, BS in Hp. lia.
    + intros t Ht. apply Hp. lia.
Qed.

(** ** The name of the new entry *)

Lemma cstr_nonzero (s : bytes) : Forall (fun c => c <> 0) (cstr s).
Proof.
  induction s as [|c s IH]; cbn [cstr]; [constructor|].
  destruct (Z.eqb_spec c 0); constructor; auto.
Qed.

Lemma cstr_app_zeros (l : bytes) (k : Z) :
  Forall (fun c => c <> 0) l -> 1 <= k -> cstr (l ++ zeros k) = l.
Proof.
  intros Hl Hk. induction Hl as [|c l Hc _ IH]; cbn [app cstr].
  - unfold zeros. destruct (Z.to_nat k) eqn:E; [lia|]. reflexivity.
  - destruct (Z.eqb_spec c 0); [contradiction|]. now rewrite IH.
Qed.

Lemma byte_at_app (a b : bytes) (i : Z) :
  0 <= i ->
  byte_at (a ++ b) i = if i <? len a then byte_at a i else byte_at b (i - len a).
Proof.
  intros Hi. unfold byte_at, len.
  destruct (Z.ltb_spec i (Z.of_nat (length a))).
  - apply app_nth1. lia.
  - rewrite app_nth2 by lia. f_equal. lia.
Qed.

Lemma firstn_cstr_57 (name : bytes) :
  firstn (Z.to_nat (if 57 <? strlen name then 57 else strlen name)) (cstr name)
  = firstn 57 (cstr name).
Proof.
  unfold strlen, len. destruct (Z.ltb_spec 57 (Z.of_nat (length (cstr name)))).
  - reflexivity.
  - rewrite Nat2Z.id, firstn_all. symmetry. apply firstn_all2. lia.
Qed.

Lemma write_dirent_name (dreg : bytes) (re fe fi : Z) (name d : bytes) :
  0 <= re + fe * DIRENT_SIZE ->
  write_dirent dreg re fe fi name = Done d ->
  cstr (slice d (re + fe * DIRENT_SIZE + DE.name) DE.name_size)
  = firstn 57 (cstr name).
Proof.
  intros H0 H. unfold write_dirent in H.
  set (de := re + fe * DIRENT_SIZE) in *.
  pose proof (strlen_nonneg name) as Hs.
  pose proof (firstn_cstr_57 name) as Hch.
  set (name_len := if 57 <? strlen name then 57 else strlen name) in *.
  assert (Hn : 0 <= name_len <= 57).
  { unfold name_len. destruct (57 <? strlen name) eqn:E; [lia|].
    apply Z.ltb_ge in E. lia. }
  apply bind_done in H as (b0 & P0 & H).
  apply bind_done in H as (b1 & P1 & H).
  apply bind_done in H as (b2 & P2 & H).
  apply bind_done in H as (b3 & P3 & H).
  apply bind_done in H as (b4 & P4 & H).
  offsets.
  (* memset *)
  apply put_bytes_spec in P2 as [F2 S2]. rewrite len_zeros in F2, S2 by lia.
  pose proof (same_outside_len _ _ _ _ F2) as L2.
  (* strncpy *)
  unfold strncpy in P3. rewrite Hch in P3.
  set (chars := firstn 57 (cstr name)) in *.
  assert (Lc : len chars = name_len).
  { rewrite <- Hch. unfold len. rewrite length_firstn.
    unfold name_len, strlen, len in *.
    destruct (57 <? Z.of_nat (length (cstr name))) eqn:E;
      [apply Z.ltb_lt in E|apply Z.ltb_ge in E]; lia. }
  rewrite Lc, Z.sub_diag in P3. change (zeros 0) with (@nil Z) in P3.
  rewrite app_nil_r in P3. pose proof (put_bytes_inv _ _ _ _ P3) as (_ & B3 & _).
  apply put_bytes_spec in P3 as [F3 S3]. rewrite Lc in F3, S3, B3.
  pose proof (same_outside_len _ _ _ _ F3) as L3.
  (* the terminator *)
  pose proof (rd_put_u8 _ _ _ _ P4) as R4.
  apply put_u8_frame in P4 as F4.
  pose proof (same_outside_len _ _ _ _ F4) as L4.
  (* the checksum *)
  unfold dirent_checksum_finalize in H.
  apply bind_done in H as (p & _ & H).
  apply put_u8_frame in H as F5. unfold DE.checksum in F5.
  pose proof (same_outside_len _ _ _ _ F5) as L5.
  assert (Lb : de + 5 + 58 <= len b2).
  { pose proof (len_slice b2 (de + 5) 58) as X.
    unfold slice in S2. unfold len in *.
    assert (length (zeros 58) = 58%nat) by reflexivity.
    rewrite <- S2 in H1. rewrite length_firstn, length_skipn in H1. lia. }
  assert (E : slice d (de + 5) 58 = chars ++ zeros (58 - name_len)).
  { apply bytes_ext.
    - rewrite len_slice, len_app, len_zeros by lia. lia.
    - intros i Hi. rewrite len_slice in Hi by lia.
      rewrite byte_at_slice by lia.
      rewrite <- (same_outside_byte _ _ _ _ _ F5) by lia.
      rewrite byte_at_app, Lc, byte_at_zeros by lia.
      destruct (Z.ltb_spec i name_len).
      + rewrite <- (same_outside_byte _ _ _ _ _ F4) by lia.
        rewrite <- S3. rewrite byte_at_slice by lia. reflexivity.
      + destruct (Z.eq_dec i name_len) as [->|Ne].
        * rewrite <- rd_u8_byte_at by lia. exact R4.
        * rewrite <- (same_outside_byte _ _ _ _ _ F4) by lia.
          rewrite <- (same_outside_byte _ _ _ _ _ F3) by lia.
          rewrite <- (byte_at_slice b2 (de + 5) 58 i) by lia.
          rewrite S2. apply byte_at_zeros. }
  rewrite E. apply cstr_app_zeros; [|lia].
  unfold chars. pose proof (cstr_nonzero name) as Hz.
  rewrite <- (firstn_skipn 57 (cstr name)) in Hz.
  now apply Forall_app in Hz as [Hz _].
Qed.

(** ** One insertion, in memory *)

Lemma rd_u32_agree (P : Z -> Prop) a b off :
  agree_on P a b -> 0 <= off -> (forall i, off <= i < off + 4 -> P i) ->
  rd_u32 b off = rd_u32 a off.
Proof. intros. unfold rd_u32. f_equal. symmetry. eapply agree_on_slice; eauto; lia. Qed.

Lemma rd_u64_agree (P : Z -> Prop) a b off :
  agree_on P a b -> 0 <= off -> (forall i, off <= i < off + 8 -> P i) ->
  rd_u64 b off = rd_u64 a off.
Proof. intros. unfold rd_u64. f_equal. symmetry. eapply agree_on_slice; eauto; lia. Qed.

Lemma rd_u16_agree (P : Z -> Prop) a b off :
  agree_on P a b -> 0 <= off -> (forall i, off <= i < off + 2 -> P i) ->
  rd_u16 b off = rd_u16 a off.
Proof. intros. unfold rd_u16. f_equal. symmetry. eapply agree_on_slice; eauto; lia. Qed.

Lemma needed_blocks_spec (fsize : Z) :
  1 <= fsize <= 12 * BS ->
  let needed := u64 (u64 (u64 fsize + BS) - 1) / BS in
  1 <= needed <= 12 /\ (needed - 1) * BS < fsize <= needed * BS.
Proof.
  unfold BS. intros H. cbv zeta.
  rewrite (u64_small fsize), (u64_small (fsize + 4096)),
    (u64_small (fsize + 4096 - 1)) by lia.
  pose proof (Z.div_mod (fsize + 4096 - 1) 4096 ltac:(lia)).
  pose proof (Z.mod_pos_bound (fsize + 4096 - 1) 4096 ltac:(lia)).
  lia.
Qed.

Lemma add_file_no_inode (s : fs) (file_name : bytes) (now : Z)
    (file : option bytes) :
  valid_fs s ->
  (forall j, 0 <= j < rd_u64 (sb s) SB.inode_count ->
     bitmap_bit (inode_bitmap s) j = true) ->
  add_file s file_name file now = Exit ENoFreeInode.
Proof.
  intros V Hall. destruct V as (W & Hn & _).
  destruct W as (_ & _ & _ & _ & _ & _ & _ & _ & Li & _).
  unfold add_file, sb_u64.
  destruct (find_free_inode_spec (inode_bitmap s) (rd_u64 (sb s) SB.inode_count) Li)
    as [(k & Hk & Kf & _)|[_ Hr]]; [lia| |].
  - rewrite Hall in Kf by lia. discriminate.
  - rewrite Hr. reflexivity.
Qed.

Lemma add_file_too_large (s : fs) (file_name : bytes) (now : Z) (file : bytes) :
  valid_fs s ->
  12 * BS < len file < 2 ^ 63 ->
  add_file s file_name (Some file) now = Exit ENoFreeInode \/
  add_file s file_name (Some file) now = Exit EFileTooLarge.
Proof.
  intros V Hf. pose proof V as (W & Hn & _).
  destruct W as (_ & _ & _ & _ & _ & _ & _ & _ & Li & _).
  destruct (find_free_inode_spec (inode_bitmap s) (rd_u64 (sb s) SB.inode_count) Li)
    as [(k & Hk & Kf & Kb & Kr)|[Ha Hr]]; [lia| |].
  - right. unfold add_file, sb_u64. rewrite Kr. cbn [bind].
    replace (k + 1 =? -1) with false by (symmetry; apply Z.eqb_neq; lia).
    unfold BS in *.
    rewrite (u64_small (len file)), (u64_small (len file + 4096)),
      (u64_small (len file + 4096 - 1)) by lia.
    replace (12 <? _) with true; [reflexivity|].
    symmetry. apply Z.ltb_lt.
    assert (13 <= (len file + 4096 - 1) / 4096); [|lia].
    apply Z.div_le_lower_bound; lia.
  - left. now apply add_file_no_inode.
Qed.

Section AddFile.

Variables (s : fs) (file_name content : bytes) (now : Z).

Let inodes := rd_u64 (sb s) SB.inode_count.
Let drs := rd_u64 (sb s) SB.data_region_start.
Let drb := rd_u64 (sb s) SB.data_region_blocks.
Let rb := rd_u32 (inode_table s) (INO.direct 0) - drs.
Let size := rd_u64 (inode_table s) INO.size_bytes.
Let entry_count := size / DIRENT_SIZE.
Let needed := u64 (u64 (u64 (len content) + BS) - 1) / BS.
Let free (j : Z) : Prop :=
  rd_u32 (data_region s) (rb * BS + j * DIRENT_SIZE) = 0.

Hypothesis V : valid_fs s.

Lemma add_file_no_file (s' : fs) : add_file s file_name None now <> Done s'.
Proof.
  unfold add_file.
  destruct (find_free_inode _ _) as [v| |]; cbn [bind]; try discriminate.
  destruct (v =? -1); discriminate.
Qed.

Hypothesis Hsize : 1 <= len content <= 12 * BS.

Lemma add_file_alloc_stops (k : Z) (s' : fs) :
  0 <= k < inodes ->
  bitmap_bit (inode_bitmap s) k = false ->
  (forall j, 0 <= j < k -> bitmap_bit (inode_bitmap s) j = true) ->
  (forall r, alloc_blocks (Z.to_nat needed) 0 (sb s) (data_bitmap s) (repeat 0 12)
             <> Done r) ->
  add_file s file_name (Some content) now <> Done s'.
Proof.
  intros Hk Kf Kb Hno.
  pose proof V as (W & Hn & _).
  destruct W as (_ & _ & _ & _ & _ & _ & _ & _ & Li & _).
  fold inodes in Hn.
  destruct (needed_blocks_spec (len content) Hsize) as [Hnd _]. fold needed in Hnd.
  unfold add_file, sb_u64. fold inodes.
  destruct (find_free_inode_spec (inode_bitmap s) inodes Li)
    as [(k' & Hk' & Kf' & Kb' & Kr)|[Hfull _]]; [lia| |].
  2: { rewrite Hfull in Kf by lia. discriminate. }
  rewrite Kr. cbn [bind].
  replace (k' + 1 =? -1) with false by (symmetry; apply Z.eqb_neq; lia).
  fold needed.
  replace (12 <? needed) with false by (symmetry; apply Z.ltb_ge; lia).
  destruct (alloc_blocks _ _ _ _ _) as [r| |] eqn:A; cbn [bind]; try discriminate.
  exfalso. exact (Hno r eq_refl).
Qed.

(** With a free inode [k + 1] and the data blocks allocated, the rest of
    the run is determined by the root directory. *)
Lemma add_file_run (k : Z) (dbm' : bytes) (dbs : list Z) :
  0 <= k < inodes ->
  bitmap_bit (inode_bitmap s) k = false ->
  (forall j, 0 <= j < k -> bitmap_bit (inode_bitmap s) j = true) ->
  alloc_blocks (Z.to_nat needed) 0 (sb s) (data_bitmap s) (repeat 0 12)
    = Done (dbm', dbs) ->
  ((forall j, 0 <= j < entry_count -> ~ free j) /\ 64 <= entry_count /\
   add_file s file_name (Some content) now = Exit ERootDirFull) \/
  (exists fe s',
     add_file s file_name (Some content) now = Done s' /\
     data_bitmap s' = dbm' /\
     inserted s file_name content k dbs fe s').
Proof.
  intros Hk Kf Kb Ha.
  pose proof V as (W & Hn & Hs & B0 & Hrb & Brb & Hsz & Hcnt).
  pose proof W as (Lsb & _ & _ & _ & _ & Es & Hi & Hd & Li & Ld & Lt & Lr).
  fold inodes in Hn, Hs. fold drs in Es, Hrb, Brb. fold drb in Hd, Lr, Hrb.
  fold rb in Hrb, Brb. fold size in Hsz, Hcnt. fold entry_count in Hcnt.
  assert (Hk0 : k <> 0) by (intros ->; congruence).
  destruct (needed_blocks_spec (len content) Hsize) as [Hnd Hns]. fold needed in Hnd, Hns.
  assert (Hec : 0 <= entry_count <= 64).
  { split; [|exact Hcnt]. unfold entry_count, DIRENT_SIZE. apply Z.div_pos; lia. }
  assert (Hsz2 : size < 65 * 64).
  { unfold entry_count, DIRENT_SIZE in Hcnt.
    pose proof (Z.div_mod size 64 ltac:(lia)).
    pose proof (Z.mod_pos_bound size 64 ltac:(lia)). lia. }
  (* allocation *)
  assert (A1 : 0 <= sb_u64 (sb s) SB.data_region_start)
    by (unfold sb_u64; fold drs; lia).
  assert (A2 : 0 <= sb_u64 (sb s) SB.data_region_blocks <= 8 * BS)
    by (unfold sb_u64; fold drb; lia).
  assert (A3 : sb_u64 (sb s) SB.data_region_start
               + sb_u64 (sb s) SB.data_region_blocks < 2 ^ 32)
    by (unfold sb_u64; fold drs drb; unfold BS in *; lia).
  assert (A4 : 0 + Z.of_nat (Z.to_nat needed) <= Z.of_nat (length (repeat 0 12)))
    by (rewrite repeat_length; lia).
  destruct (alloc_blocks_inv (sb s) (Z.to_nat needed) A1 A2 A3 0 (data_bitmap s)
              (repeat 0 12) dbm' dbs Ld (Z.le_refl 0) A4 Ha)
    as (Ld' & Ldbs & Mono & Back & All & _).
  unfold sb_u64 in All, Back. fold drs drb in All. fold drs in Back.
  clear A1 A2 A3 A4.
  rewrite Z2Nat.id in All, Back by lia.
  assert (Hbits : forall j, 0 <= j ->
            bitmap_bit dbm' j = true <->
            bitmap_bit (data_bitmap s) j = true \/
            exists t, 0 <= t < needed /\ nth (Z.to_nat t) dbs 0 = drs + j).
  { intros j Hj. split.
    - intros Bj. destruct (Back j Hj Bj) as [B|(t & Ht & Et)]; [now left|].
      right. exists t. split; [lia|exact Et].
    - intros [B|(t & Ht & Et)]; [now apply Mono|].
      destruct (All t) as (fb & _ & Ef & _ & Bt); [lia|].
      assert (fb = j) by lia. now subst fb. }
  assert (Hall : forall t, 0 <= t < needed ->
            exists fb, 0 <= fb < drb /\ nth (Z.to_nat t) dbs 0 = drs + fb /\
              bitmap_bit (data_bitmap s) fb = false).
  { intros t Ht. destruct (All t) as (fb & Hfb & Ef & Bf & _); [lia|].
    exists fb. auto. }
  (* the run *)
  unfold add_file, sb_u64. fold inodes.
  destruct (find_free_inode_spec (inode_bitmap s) inodes Li)
    as [(k' & Hk' & Kf' & Kb' & Kr)|[Hfull _]]; [lia| |].
  2: { rewrite Hfull in Kf by lia. discriminate. }
  assert (k' = k).
  { destruct (Z.lt_trichotomy k' k) as [C|[C|C]]; [|exact C|].
    - rewrite Kb in Kf' by lia. discriminate.
    - rewrite Kb' in Kf by lia. discriminate. }
  subst k'. rewrite Kr. cbn [bind].
  replace (k + 1 =? -1) with false by (symmetry; apply Z.eqb_neq; lia).
  fold needed.
  rewrite (u64_small (len content)) by (unfold BS in *; lia).
  replace (12 <? needed) with false by (symmetry; apply Z.ltb_ge; lia).
  rewrite Ha. cbn [bind].
  rewrite fread_or_ok by (unfold fopen_r; cbn [f_data f_pos]; lia).
  cbn [bind fopen_r f_data f_pos]. rewrite slice_full.
  (* content *)
  destruct (write_content_spec (sb s) needed (len content) dbs content
              (Z.to_nat needed)) with (i := 0) (dreg := data_region s)
    as (dreg1 & Hw & Aw);
    unfold sb_u64; fold drs; try (unfold BS in *; lia).
  { intros t Ht. destruct (All t) as (fb & Hfb & Et & _); [lia|].
    exists fb. split; [lia|]. split; [unfold BS in *; nia|exact Et]. }
  rewrite Hw. cbn [bind].
  pose proof (agree_on_len _ _ _ Aw) as Lw.
  (* the new inode *)
  assert (Eo : u32 ((k + 1 - 1) * INODE_SIZE) = k * INODE_SIZE).
  { replace (k + 1 - 1) with k by lia. apply u32_small. unfold INODE_SIZE, BS in *. lia. }
  destruct (create_inode_spec (inode_table s) (k + 1) (len content) needed now dbs)
    as (itab1 & c1 & Hc & Fc & C1 & C2 & C3 & _).
  { rewrite Eo. unfold INODE_SIZE, BS in *. lia. }
  rewrite Eo in Fc, C1, C2, C3. rewrite Hc. cbn [bind].
  pose proof (same_outside_len _ _ _ _ Fc) as Lc.
  (* the inode bitmap *)
  replace (k + 1 - 1) with k by lia.
  destruct (mark_spec (inode_bitmap s) k) as (ibm' & Hm & Lm & Bm);
    [unfold BS in *; lia|].
  rewrite Hm. cbn [bind].
  (* the root directory *)
  assert (R44 : rd_u32 itab1 (INO.direct 0) = drs + rb).
  { rewrite (rd_u32_frame _ _ _ _ _ Fc) by (offsets; lia). unfold rb. lia. }
  assert (R12 : rd_u64 itab1 INO.size_bytes = size).
  { rewrite (rd_u64_frame _ _ _ _ _ Fc) by (offsets; lia). reflexivity. }
  unfold root_entries_of, sb_u64. fold drs.
  rewrite get_u32_ok by (offsets; lia). cbn [bind]. rewrite R44.
  replace (drs + rb - drs) with rb by lia.
  rewrite (u64_small rb), (u32_small rb), (u32_small (rb * BS))
    by (unfold BS in *; lia).
  assert (Hroot : forall p, in_block rb p ->
            forall t, 0 <= t < needed -> ~ in_block (nth (Z.to_nat t) dbs 0 - drs) p).
  { intros p Hp t Ht. destruct (All t) as (fb & Hfb & Et & Bf & _); [lia|].
    rewrite Et. replace (drs + fb - drs) with fb by lia.
    assert (fb <> rb) by (intros ->; congruence).
    unfold in_block, BS in *. intros Hq. nia. }
  assert (Efree : forall j, 0 <= j < 64 ->
            rd_u32 dreg1 (rb * BS + j * DIRENT_SIZE) = rd_u32 (data_region s) (rb * BS + j * DIRENT_SIZE)).
  { intros j Hj. apply (rd_u32_agree _ _ _ _ Aw); [unfold BS, DIRENT_SIZE in *; lia|].
    intros i Hq. apply Hroot. unfold in_block, BS, DIRENT_SIZE in *. lia. }
  pose proof (find_dir_slot_spec itab1 dreg1 (rb * BS)) as FS.
  cbv zeta in FS. rewrite R12 in FS. fold entry_count in FS.
  destruct FS
    as [(fe & Hfe & Ff & Fb & Fr)|[(Hno & Hlt & itab2 & c2 & Fr & Af & Sf & _)|(Hno & Hge & Fr)]];
    try (unfold INODE_SIZE, DIRENT_SIZE, BS in *; lia).
  - (* a free slot is reused *)
    right. rewrite Fr. cbn [bind].
    destruct (write_dirent_spec dreg1 (rb * BS) fe (k + 1) file_name)
      as (dreg2 & Hd2 & Fd & D1 & D2); [unfold DIRENT_SIZE, BS in *; lia..|].
    rewrite Hd2. cbn [bind].
    destruct (bump_root_links_spec itab1) as (itab3 & c3 & Hb3 & Ab & Lb & _);
      [unfold INODE_SIZE, BS in *; lia|].
    rewrite Hb3. cbn [bind].
    exists fe, {| sb := sb s; inode_bitmap := ibm'; data_bitmap := dbm';
                 inode_table := itab3; data_region := dreg2 |}.
    split; [reflexivity|]. split; [reflexivity|].
    unfold inserted. cbn [sb inode_bitmap data_bitmap inode_table data_region].
    fold drs drb. fold rb. fold size. fold entry_count. fold needed.
    split; [reflexivity|].
    split; [lia|]. split.
    { left. split; [lia|]. split; [unfold free; rewrite <- Efree by lia; exact Ff|].
      split.
      - intros j Hj. unfold free. rewrite <- Efree by lia. apply Fb, Hj.
      - rewrite (rd_u64_agree _ _ _ _ Ab) by (offsets; lia). exact R12. }
    split; [lia|]. split; [exact Bm|].
    split; [exact Ld'|]. split; [exact Hbits|]. split; [exact Hall|]. split.
    { eapply agree_on_trans; [apply same_outside_agree, Fc|exact Ab|].
      unfold in_slot, INODE_SIZE. intros i Hq. cbv beta. lia. }
    split.
    { rewrite Lb. do 2 f_equal. apply (rd_u16_frame _ _ _ _ _ Fc); offsets; lia. }
    split; [|split; [|split]].
    + rewrite (rd_u16_agree _ _ _ _ Ab) by (offsets; lia). exact C1.
    + rewrite (rd_u16_agree _ _ _ _ Ab) by (offsets; lia). exact C2.
    + rewrite (rd_u64_agree _ _ _ _ Ab) by (offsets; lia). rewrite C3.
      apply u64_small. unfold BS in *. lia.
    + split; [|split; [|split; [exact D2|]]].
      * eapply agree_on_trans; [exact Aw|apply same_outside_agree, Fd|].
        intros i Hq. cbv beta. split; [apply Hq|]. destruct Hq as [Hq _]. lia.
      * rewrite D1. apply u32_small. unfold BS in *. lia.
      * eapply write_dirent_name; [|exact Hd2]. unfold DIRENT_SIZE, BS in *. lia.
  - (* a slot is appended *)
    right. rewrite Fr. cbn [bind].
    destruct (write_dirent_spec dreg1 (rb * BS) entry_count (k + 1) file_name)
      as (dreg2 & Hd2 & Fd & D1 & D2); [unfold DIRENT_SIZE, BS in *; lia..|].
    rewrite Hd2. cbn [bind].
    pose proof (agree_on_len _ _ _ Af) as Laf.
    destruct (bump_root_links_spec itab2) as (itab3 & c3 & Hb3 & Ab & Lb & _);
      [unfold INODE_SIZE, BS in *; lia|].
    rewrite Hb3. cbn [bind].
    exists entry_count, {| sb := sb s; inode_bitmap := ibm'; data_bitmap := dbm';
                 inode_table := itab3; data_region := dreg2 |}.
    split; [reflexivity|]. split; [reflexivity|].
    unfold inserted. cbn [sb inode_bitmap data_bitmap inode_table data_region].
    fold drs drb. fold rb. fold size. fold entry_count. fold needed.
    split; [reflexivity|].
    split; [lia|]. split.
    { right. split; [reflexivity|]. split.
      - intros j Hj. unfold free. rewrite <- Efree by lia. apply Hno, Hj.
      - rewrite (rd_u64_agree _ _ _ _ Ab) by (offsets; lia). rewrite Sf.
        apply u64_small. unfold BS in *. lia. }
    split; [lia|]. split; [exact Bm|].
    split; [exact Ld'|]. split; [exact Hbits|]. split; [exact Hall|]. split.
    { eapply agree_on_trans; [apply same_outside_agree, Fc|
        eapply agree_on_trans; [exact Af|exact Ab|intros i Hq; exact Hq]|].
      unfold in_slot, INODE_SIZE. intros i Hq. cbv beta. lia. }
    split.
    { rewrite Lb. do 2 f_equal.
      rewrite (rd_u16_agree _ _ _ _ Af) by (offsets; lia).
      apply (rd_u16_frame _ _ _ _ _ Fc); offsets; lia. }
    split; [|split; [|split]].
    + rewrite (rd_u16_agree _ _ _ _ Ab), (rd_u16_agree _ _ _ _ Af) by (offsets; lia).
      exact C1.
    + rewrite (rd_u16_agree _ _ _ _ Ab), (rd_u16_agree _ _ _ _ Af) by (offsets; lia).
      exact C2.
    + rewrite (rd_u64_agree _ _ _ _ Ab), (rd_u64_agree _ _ _ _ Af) by (offsets; lia).
      rewrite C3. apply u64_small. unfold BS in *. lia.
    + split; [|split; [|split; [exact D2|]]].
      * eapply agree_on_trans; [exact Aw|apply same_outside_agree, Fd|].
        intros i Hq. cbv beta. split; [apply Hq|]. destruct Hq as [Hq _]. lia.
      * rewrite D1. apply u32_small. unfold BS in *. lia.
      * eapply write_dirent_name; [|exact Hd2]. unfold DIRENT_SIZE, BS in *. lia.
  - (* the directory is full *)
    left. rewrite Fr. cbn [bind].
    split; [|split; [exact Hge|reflexivity]].
    intros j Hj. unfold free. rewrite <- Efree by lia. apply Hno, Hj.
Qed.

End AddFile.

Lemma len_zero_nil (l : bytes) : len l = 0 -> l = [].
Proof. destruct l; [reflexivity|]. unfold len. simpl length. lia. Qed.

(** An empty file gets as far as [fread], which returns 0 items for it. *)
Lemma add_file_empty (s : fs) (file_name : bytes) (now : Z) (s' : fs) :
  add_file s file_name (Some []) now <> Done s'.
Proof.
  unfold add_file.
  destruct (find_free_inode _ _) as [v| |]; cbn [bind]; try discriminate.
  destruct (v =? -1); [discriminate|].
  change (u64 (len [])) with 0.
  change (u64 (u64 (0 + BS) - 1) / BS) with 0.
  cbn [Z.ltb Z.compare Z.to_nat alloc_blocks bind].
  unfold fread_or, fread. cbn [Z.leb Z.compare orb]. discriminate.
Qed.

(** Every successful insertion is an [inserted]. *)
Lemma add_file_inv (s : fs) (file_name : bytes) (file : option bytes) (now : Z)
    (s' : fs) :
  valid_fs s -> file_fits file ->
  add_file s file_name file now = Done s' ->
  exists content k dbs fe,
    file = Some content /\ 1 <= len content <= 12 * BS /\
    0 <= k < rd_u64 (sb s) SB.inode_count /\
    bitmap_bit (inode_bitmap s) k = false /\
    inserted s file_name content k dbs fe s'.
Proof.
  intros V Hfit H.
  destruct file as [content|]; [|exfalso; exact (add_file_no_file s file_name now s' H)].
  cbn [file_fits] in Hfit. pose proof (len_nonneg content) as Hl.
  assert (Hsize : 1 <= len content <= 12 * BS).
  { destruct (Z.eq_dec (len content) 0) as [E|E].
    - apply len_zero_nil in E. subst content.
      exfalso. exact (add_file_empty s file_name now s' H).
    - destruct (Z_le_gt_dec (len content) (12 * BS)) as [Le|Gt]; [lia|].
      destruct (add_file_too_large s file_name now content V) as [X|X];
        [lia|congruence..]. }
  pose proof V as (W & Hn & _).
  destruct W as (_ & _ & _ & _ & _ & _ & _ & _ & Li & _).
  destruct (find_free_inode_spec (inode_bitmap s) (rd_u64 (sb s) SB.inode_count) Li)
    as [(k & Hk & Kf & Kb & _)|[Hfull _]]; [lia| |].
  2: { rewrite (add_file_no_inode s file_name now (Some content) V Hfull) in H.
       discriminate. }
  destruct (alloc_blocks
              (Z.to_nat (u64 (u64 (u64 (len content) + BS) - 1) / BS)) 0 (sb s)
              (data_bitmap s) (repeat 0 12)) as [[dbm' dbs]| |] eqn:A.
  - destruct (add_file_run s file_name content now V Hsize k dbm' dbs Hk Kf Kb A)
      as [(_ & _ & X)|(fe & s'' & X & _ & I)]; [congruence|].
    assert (s'' = s') by congruence. subst s''.
    exists content, k, dbs, fe. auto.
  - exfalso. apply (add_file_alloc_stops s file_name content now V Hsize k s' Hk Kf Kb);
      [|exact H].
    intros r. rewrite A. discriminate.
  - exfalso. apply (add_file_alloc_stops s file_name content now V Hsize k s' Hk Kf Kb);
      [|exact H].
    intros r. rewrite A. discriminate.
Qed.

Lemma inserted_well_laid (s : fs) file_name content k dbs fe (s' : fs) :
  well_laid s -> inserted s file_name content k dbs fe s' -> well_laid s'.
Proof.
  intros (L & M & E1 & E2 & E3 & E4 & Hi & Hd & Li & Ld & Lt & Lr)
         (Es & _ & _ & Li' & _ & Ld' & _ & _ & At & _ & _ & _ & _ & Ar & _).
  pose proof (agree_on_len _ _ _ At). pose proof (agree_on_len _ _ _ Ar).
  unfold well_laid. rewrite Es.
  repeat split; try assumption; lia.
Qed.

(** The whole run, on a valid image. *)
Lemma mkfs_adder_inv (img file_name : bytes) (file : option bytes) (now : Z)
    (can_create : bool) (out : bytes) :
  valid_image img -> file_fits file ->
  mkfs_adder (Some img) file_name file now can_create = Done out ->
  exists s' content k dbs fe,
    out = layout s' /\ well_laid s' /\
    file = Some content /\ 1 <= len content <= 12 * BS /\
    0 <= k < rd_u64 img SB.inode_count /\
    bitmap_bit (img_inode_bitmap img) k = false /\
    inserted (fs_of_image img) file_name content k dbs fe s'.
Proof.
  intros V Hfit H. destruct (valid_image_fs img V) as [Hl Vs].
  unfold mkfs_adder in H. rewrite Hl in H. cbn [bind] in H.
  destruct (add_file _ _ _ _) as [s'| |] eqn:A; cbn [bind] in H; try discriminate.
  destruct can_create; cbn [negb] in H; [|discriminate].
  injection H as <-.
  destruct (add_file_inv _ _ _ _ _ Vs Hfit A) as (content & k & dbs & fe & Ef & Hs & Hk & Kf & I).
  pose proof Vs as (W & _).
  pose proof (inserted_well_laid _ _ _ _ _ _ _ W I) as W'.
  exists s', content, k, dbs, fe.
  split; [apply persist_layout, W'|]. split; [exact W'|].
  split; [exact Ef|]. split; [exact Hs|].
  unfold fs_of_image in Hk. cbn [sb] in Hk.
  rewrite rd_u64_slice in Hk by (offsets; lia).
  auto.
Qed.

(** ** The claims about one insertion *)

(** Closed facts about concrete images, settled by evaluation. *)
Ltac by_computation :=
  repeat match goal with |- _ /\ _ => split end;
  vm_compute; first [reflexivity | discriminate | intro; discriminate].

(** C5. On a valid image, a source file of more than 49152 bytes (13
    blocks or more) ends the run in [exit(EXIT_FAILURE)]: with "File too
    large", or with "No free inodes" when the inode table is full, which is
    looked at first.  [Exit] is reached before the output file is opened,
    so no output image exists afterwards. *)
Theorem oversized_file_rejected (img file_name content : bytes) (now : Z)
    (can_create : bool) :
  valid_image img ->
  12 * BS < len content < 2 ^ 63 ->
  exists e,
    mkfs_adder (Some img) file_name (Some content) now can_create = Exit e /\
    (e = EFileTooLarge \/ e = ENoFreeInode) /\
    12 < u64 (u64 (u64 (len content) + BS) - 1) / BS.
Proof.
  intros V Hc. destruct (valid_image_fs img V) as [Hl Vs].
  assert (Hn : 12 < u64 (u64 (u64 (len content) + BS) - 1) / BS).
  { unfold BS in *.
    rewrite (u64_small (len content)), (u64_small (len content + 4096)),
      (u64_small (len content + 4096 - 1)) by lia.
    assert (13 <= (len content + 4096 - 1) / 4096); [|lia].
    apply Z.div_le_lower_bound; lia. }
  unfold mkfs_adder. rewrite Hl. cbn [bind].
  destruct (add_file_too_large _ file_name now content Vs Hc) as [E|E];
    rewrite E; cbn [bind]; eauto.
Qed.


(** C8. On a valid image, whenever the adder writes an output image its
    first 116 bytes, the superblock record with its checksum, are those of
    the input image; a run that fails writes no output image at all. *)
Theorem superblock_untouched (img file_name : bytes) (file : option bytes)
    (now : Z) (can_create : bool) (out : bytes) :
  valid_image img -> file_fits file ->
  mkfs_adder (Some img) file_name file now can_create = Done out ->
  slice out 0 SB_SIZE = slice img 0 SB_SIZE.
Proof.
  intros V Hfit H.
  destruct (mkfs_adder_inv _ _ _ _ _ _ V Hfit H)
    as (s' & content & k & dbs & fe & -> & W' & _ & _ & _ & _ & I).
  rewrite layout_sb by exact W'.
  destruct I as (Es & _). exact Es.
Qed.

(** C10. On a valid image, a successful insertion leaves every data-region
    block byte for byte as it was, except the root directory's block and
    the blocks whose data-bitmap bit it set (the blocks allocated to the
    file); and every slot of the inode table, except the root inode's and
    the one whose inode-bitmap bit it set (the new inode). *)
Theorem insert_frame (img file_name : bytes) (file : option bytes) (now : Z)
    (can_create : bool) (out : bytes) :
  valid_image img -> file_fits file ->
  mkfs_adder (Some img) file_name file now can_create = Done out ->
  (forall b, 0 <= b < rd_u64 img SB.data_region_blocks ->
     b <> root_block img ->
     bitmap_bit (img_data_bitmap out) b = bitmap_bit (img_data_bitmap img) b ->
     data_block out b = data_block img b) /\
  (forall k, 0 <= k -> (k + 1) * INODE_SIZE <= len (img_inode_table img) ->
     k <> 0 ->
     bitmap_bit (img_inode_bitmap out) k = bitmap_bit (img_inode_bitmap img) k ->
     inode_slot out k = inode_slot img k).
Proof.
  intros V Hfit H.
  destruct (mkfs_adder_inv _ _ _ _ _ _ V Hfit H)
    as (s' & content & kn & dbs & fe & -> & W' & _ & Hs & Hk & Kf & I).
  destruct I as (_ & Hfe & _ & _ & Bi & _ & Bd & All & At & _ & _ & _ & _ & Ar & _).
  unfold fs_of_image in *.
  cbn [sb inode_bitmap data_bitmap inode_table data_region] in *.
  rewrite !rd_u64_slice in * by (offsets; lia). cbn [Z.add] in *.
  fold (root_block img) in Ar.
  unfold data_block, inode_slot.
  rewrite layout_data_bitmap, layout_data_region, layout_inode_bitmap,
    layout_inode_table by exact W'.
  split.
  - intros b Hb Hr Hbit. symmetry.
    apply (agree_on_slice _ _ _ _ _ Ar); [unfold BS; lia..|].
    intros p Hp. split.
    + unfold BS, DIRENT_SIZE in *. lia.
    + intros t Ht Hin.
      destruct (All t Ht) as (fb & Hfb & Et & Bf).
      rewrite Et in Hin. replace (_ + fb - _) with fb in Hin by lia.
      assert (fb = b) by (unfold in_block, BS in *; nia). subst fb.
      assert (Bn : bitmap_bit (data_bitmap s') b = true).
      { apply Bd; [lia|]. right. exists t. split; [exact Ht|exact Et]. }
      congruence.
  - intros k Hk0 Hkl Hk1 Hbit. symmetry.
    apply (agree_on_slice _ _ _ _ _ At); [unfold INODE_SIZE; lia..|].
    intros p Hp. split.
    + intros Hin.
      assert (kn = k) by (unfold in_slot, INODE_SIZE in *; lia). subst kn.
      rewrite Bi, Z.eqb_refl in Hbit by lia. cbn [orb] in Hbit. congruence.
    + unfold INODE_SIZE in *. lia.
Qed.



(** ** The root inode's checksum after a run *)

Lemma inode_crc_finalize_crc (buf : bytes) (off : Z) (t : bytes) :
  inode_crc_finalize buf off = Done t ->
  crc32 (slice t off INODE_SIZE) 120 = Done (rd_u64 t (off + INO.inode_crc)).
Proof.
  intros H. pose proof H as H'. unfold inode_crc_finalize in H'.
  apply bind_done in H' as (tmp & G & _).
  apply get_bytes_inv in G as (H0 & _ & Hl & _).
  destruct (inode_crc_finalize_spec buf off H0 Hl) as (t' & c & E & _ & C & R).
  assert (t' = t) by congruence. subst t'. now rewrite R.
Qed.

Lemma bump_root_links_crc (itab t : bytes) :
  bump_root_links itab = Done t ->
  crc32 (slice t 0 INODE_SIZE) 120 = Done (rd_u64 t INO.inode_crc).
Proof.
  intros H. unfold bump_root_links in H.
  apply bind_done in H as (links & _ & H); cbv beta in H.
  apply bind_done in H as (t1 & _ & H); cbv beta in H.
  exact (inode_crc_finalize_crc t1 0 t H).
Qed.

(** Every insertion ends with [bump_root_links], which finalizes the root
    inode's checksum. *)
Lemma add_file_root_crc (s : fs) (file_name : bytes) (file : option bytes)
    (now : Z) (s' : fs) :
  add_file s file_name file now = Done s' ->
  crc32 (slice (inode_table s') 0 INODE_SIZE) 120
  = Done (rd_u64 (inode_table s') INO.inode_crc).
Proof.
  intros H. unfold add_file in H.
  apply bind_done in H as (fi & _ & H); cbv beta in H.
  destruct (fi =? -1); [discriminate H|].
  destruct file as [content|]; [|discriminate H].
  destruct (12 <? _); [discriminate H|].
  apply bind_done in H as ([dbm dbs] & _ & H); cbv beta iota in H.
  apply bind_done in H as ([fc fp] & _ & H); cbv beta iota in H.
  apply bind_done in H as (dreg1 & _ & H); cbv beta in H.
  apply bind_done in H as (itab1 & _ & H); cbv beta in H.
  apply bind_done in H as (ibm & _ & H); cbv beta in H.
  apply bind_done in H as (re & _ & H); cbv beta in H.
  apply bind_done in H as ([fe itab2] & _ & H); cbv beta iota in H.
  apply bind_done in H as (dreg2 & _ & H); cbv beta in H.
  apply bind_done in H as (itab3 & Hb & H); cbv beta in H.
  injection H as <-. cbn [inode_table].
  exact (bump_root_links_crc itab2 itab3 Hb).
Qed.

(** C9. On a valid image, every run of the adder that writes an output
    image has put the new directory entry (the new inode's number, type 1,
    the name cut at 57 characters) into the root directory block at the
    first index [fe], counting from 0 up to [entry_count = size_bytes / 64],
    whose inode number was 0, the root inode's [size_bytes] staying as it
    was; or, when no entry below [entry_count] was free and
    [entry_count < 64], at index [entry_count], the root inode's
    [size_bytes] being 64 more in the output.  The other 63 entries of the
    block are those of the input, and the root inode's checksum in the
    output is the CRC-32 of its first 120 bytes.  When no entry below
    [entry_count] is free and [entry_count >= 64], no run writes an output
    image. *)
Theorem new_entry_slot (img file_name : bytes) (file : option bytes) (now : Z)
    (can_create : bool) :
  valid_image img -> file_fits file ->
  let run := mkfs_adder (Some img) file_name file now can_create in
  let entry_count := rd_u64 (inode_slot img 0) INO.size_bytes / DIRENT_SIZE in
  let free j := rd_u32 (root_dirent img j) DE.inode_no = 0 in
  (forall out, run = Done out ->
   exists fe k,
     0 <= fe < 64 /\
     bitmap_bit (img_inode_bitmap img) k = false /\
     bitmap_bit (img_inode_bitmap out) k = true /\
     root_block out = root_block img /\
     rd_u32 (root_dirent out fe) DE.inode_no = k + 1 /\
     rd_u8 (root_dirent out fe) DE.type = 1 /\
     cstr (slice (root_dirent out fe) DE.name DE.name_size)
       = firstn 57 (cstr file_name) /\
     (forall j, 0 <= j < 64 -> j <> fe -> root_dirent out j = root_dirent img j) /\
     (fe < entry_count /\ free fe /\ (forall j, 0 <= j < fe -> ~ free j) /\
        rd_u64 (inode_slot out 0) INO.size_bytes
        = rd_u64 (inode_slot img 0) INO.size_bytes
      \/
      fe = entry_count /\ entry_count < 64 /\
        (forall j, 0 <= j < entry_count -> ~ free j) /\
        rd_u64 (inode_slot out 0) INO.size_bytes
        = rd_u64 (inode_slot img 0) INO.size_bytes + 64) /\
     crc32 (inode_slot out 0) 120
       = Done (rd_u64 (inode_slot out 0) INO.inode_crc)) /\
  ((forall j, 0 <= j < entry_count -> ~ free j) -> 64 <= entry_count ->
   wrote_output run = false).
Proof.
  intros V Hfit run entry_count free.
  destruct (valid_image_fs img V) as [Hl Vs].
  pose proof Vs as (W & _ & Hsz & B0 & Hrb & Brb & Hsz0 & Hcnt).
  pose proof W as (_ & _ & _ & _ & _ & _ & Hi & Hd & _ & _ & Lt & Lr).
  assert (Main : forall out, run = Done out ->
    exists fe k,
      0 <= fe < 64 /\
      bitmap_bit (img_inode_bitmap img) k = false /\
      bitmap_bit (img_inode_bitmap out) k = true /\
      root_block out = root_block img /\
      rd_u32 (root_dirent out fe) DE.inode_no = k + 1 /\
      rd_u8 (root_dirent out fe) DE.type = 1 /\
      cstr (slice (root_dirent out fe) DE.name DE.name_size)
        = firstn 57 (cstr file_name) /\
      (forall j, 0 <= j < 64 -> j <> fe -> root_dirent out j = root_dirent img j) /\
      (fe < entry_count /\ free fe /\ (forall j, 0 <= j < fe -> ~ free j) /\
         rd_u64 (inode_slot out 0) INO.size_bytes
         = rd_u64 (inode_slot img 0) INO.size_bytes
       \/
       fe = entry_count /\ entry_count < 64 /\
         (forall j, 0 <= j < entry_count -> ~ free j) /\
         rd_u64 (inode_slot out 0) INO.size_bytes
         = rd_u64 (inode_slot img 0) INO.size_bytes + 64) /\
      crc32 (inode_slot out 0) 120
        = Done (rd_u64 (inode_slot out 0) INO.inode_crc)).
  { intros out H. unfold run, mkfs_adder in H. rewrite Hl in H. cbn [bind] in H.
    destruct (add_file _ _ _ _) as [s'| |] eqn:A; cbn [bind] in H; try discriminate.
    destruct can_create; cbn [negb] in H; [|discriminate].
    injection H as <-.
    pose proof (add_file_root_crc _ _ _ _ _ A) as Crc.
    destruct (add_file_inv _ _ _ _ _ Vs Hfit A)
      as (content & k & dbs & fe & Ef & Hs & Hk & Kf & I).
    pose proof (inserted_well_laid _ _ _ _ _ _ _ W I) as W'.
    assert (Hk1 : 1 <= k) by (destruct (Z.eq_dec k 0) as [->|]; [congruence|lia]).
    rewrite (persist_layout s' W').
    destruct I as (Es & Hfe & Slot & _ & Bi & _ & _ & All & At & _ & _ & _ & _
                   & Ar & D1 & D2 & D3).
    pose proof (agree_on_len _ _ _ At) as Lt'.
    pose proof (agree_on_len _ _ _ Ar) as Lr'.
    assert (E44 : rd_u32 (inode_table s') (INO.direct 0)
                  = rd_u32 (inode_table (fs_of_image img)) (INO.direct 0)).
    { apply (rd_u32_agree _ _ _ _ At); [offsets; lia|].
      unfold in_slot. offsets. intros; lia. }
    exists fe, k.
    unfold free, entry_count, root_dirent, root_block, data_block, inode_slot.
    rewrite layout_inode_table, layout_data_region, layout_inode_bitmap by exact W'.
    rewrite layout_rd_u64 by (auto; offsets; lia). rewrite Es, E44.
    unfold fs_of_image in *.
    cbn [sb inode_bitmap data_bitmap inode_table data_region] in *.
    rewrite !rd_u64_slice in * by (offsets; lia). cbn [Z.add] in *.
    set (drs := rd_u64 img SB.data_region_start) in *.
    set (drb := rd_u64 img SB.data_region_blocks) in *.
    set (rb := rd_u32 (img_inode_table img) (INO.direct 0) - drs) in *.
    set (size := rd_u64 (img_inode_table img) INO.size_bytes) in *.
    assert (Hfree : forall j, 0 <= j < 64 ->
              rd_u32 (slice (slice (img_data_region img) (rb * BS) BS)
                        (j * DIRENT_SIZE) DIRENT_SIZE) DE.inode_no
              = rd_u32 (img_data_region img) (rb * BS + j * DIRENT_SIZE)).
    { intros j Hj. rewrite !rd_u32_slice by (offsets; lia). f_equal. offsets. lia. }
    assert (Hents : 0 <= size / DIRENT_SIZE <= 64).
    { split; [|exact Hcnt]. unfold DIRENT_SIZE. apply Z.div_pos; lia. }
    split; [exact Hfe|]. split; [exact Kf|].
    split; [rewrite Bi, Z.eqb_refl by lia; reflexivity|].
    split; [reflexivity|].
    unfold INODE_SIZE in *.
    rewrite ?rd_u64_slice by (offsets; lia).
    change (0 * 128 + INO.size_bytes) with INO.size_bytes. fold size.
    split.
    { rewrite !rd_u32_slice by (offsets; lia).
      match goal with
      | |- rd_u32 _ ?o = _ =>
          replace o with (rb * BS + fe * DIRENT_SIZE + DE.inode_no) by (offsets; lia)
      end.
      exact D1. }
    split.
    { rewrite !rd_u8_slice by (offsets; lia).
      match goal with
      | |- rd_u8 _ ?o = _ =>
          replace o with (rb * BS + fe * DIRENT_SIZE + DE.type) by (offsets; lia)
      end.
      exact D2. }
    split.
    { rewrite !slice_slice by (offsets; lia).
      match goal with
      | |- cstr (slice _ ?o _) = _ =>
          replace o with (rb * BS + fe * DIRENT_SIZE + DE.name) by (offsets; lia)
      end.
      exact D3. }
    split.
    { intros j Hj Ne. rewrite !slice_slice by (offsets; lia). symmetry.
      apply (agree_on_slice _ _ _ _ _ Ar); [offsets; lia..|].
      intros p Hp. split; [offsets; lia|].
      intros t Ht Hin. destruct (All t Ht) as (fb & Hfb & Et & Bf).
      rewrite Et in Hin. replace (drs + fb - drs) with fb in Hin by lia.
      assert (fb = rb) by (unfold in_block in Hin; offsets; nia).
      subst fb. congruence. }
    split; [|exact Crc].
    destruct Slot as [(S1 & S2 & S3 & S4)|(S1 & S3 & S4)].
    - left. split; [exact S1|]. split; [rewrite Hfree by lia; exact S2|].
      split; [|exact S4].
      intros j Hj. rewrite Hfree by lia. apply S3, Hj.
    - right. split; [exact S1|]. split; [lia|]. split; [|exact S4].
      intros j Hj. rewrite Hfree by lia. apply S3, Hj. }
  split; [exact Main|].
  intros Hno Hge. destruct run as [out| |] eqn:R; try reflexivity.
  exfalso. destruct (Main out eq_refl) as (fe & k & Hfe & _ & _ & _ & _ & _ & _ & _ & Slot & _).
  destruct Slot as [(S1 & S2 & _)|(_ & S2 & _)]; [|lia].
  apply (Hno fe); [lia|exact S2].
Qed.


(** C3 (the code does otherwise, at size 0).  Whatever the image, the name
    and the time, the adder never writes an output image for an empty
    source file: [fread(file_content, 0, 1, fp)] returns 0, which the code
    takes for a read failure. *)
Theorem empty_file_never_inserted (input : option bytes) (file_name : bytes)
    (now : Z) (can_create : bool) :
  wrote_output (mkfs_adder input file_name (Some []) now can_create) = false.
Proof.
  unfold mkfs_adder. destruct input as [img|]; [|reflexivity].
  destruct (load img) as [s| |]; cbn [bind]; try reflexivity.
  destruct (add_file s file_name (Some []) now) as [s'| |] eqn:A;
    cbn [bind]; try reflexivity.
  exfalso. exact (add_file_empty s file_name now s' A).
Qed.


(** ** Allocation from a bitmap filled from the left *)

Lemma alloc_blocks_prefix (sbk : bytes) (n : nat) :
  let drs := sb_u64 sbk SB.data_region_start in
  let drb := sb_u64 sbk SB.data_region_blocks in
  0 <= drs -> 0 <= drb <= 8 * BS -> drs + drb < 2 ^ 32 ->
  forall (i : Z) (dbm : bytes) (dbs : list Z) (d : Z),
  len dbm = BS -> 0 <= i -> i + Z.of_nat n <= Z.of_nat (length dbs) ->
  0 <= d -> d + Z.of_nat n <= drb ->
  (forall j, 0 <= j -> bitmap_bit dbm j = (j <? d)) ->
  exists dbm' dbs',
    alloc_blocks n i sbk dbm dbs = Done (dbm', dbs') /\
    len dbm' = BS /\
    (forall j, 0 <= j -> bitmap_bit dbm' j = (j <? d + Z.of_nat n)) /\
    (forall t, i <= t < i + Z.of_nat n ->
       nth (Z.to_nat t) dbs' 0 = drs + d + (t - i)) /\
    (forall t, 0 <= t < i -> nth (Z.to_nat t) dbs' 0 = nth (Z.to_nat t) dbs 0) /\
    length dbs' = length dbs.
Proof.
  intros drs drb Hs Hb H32.
  induction n as [|n IH]; intros i dbm dbs d L Hi Hn Hd Hdn Hp.
  - exists dbm, dbs. split; [reflexivity|]. split; [exact L|].
    split; [intros j Hj; rewrite Hp by lia; f_equal; lia|].
    split; [intros; lia|]. split; reflexivity.
  - cbn [alloc_blocks]. fold drs drb.
    destruct (find_free_data_block_spec dbm drb L Hb)
      as [(fb & Hfb & Ff & Fbelow & Fr)|[Fall _]].
    2: { specialize (Fall d ltac:(lia)). rewrite Hp, Z.ltb_irrefl in Fall by lia.
         discriminate. }
    assert (fb = d).
    { rewrite Hp in Ff by lia. apply Z.ltb_ge in Ff.
      destruct (Z.eq_dec fb d) as [E|E]; [exact E|].
      specialize (Fbelow d ltac:(lia)). rewrite Hp, Z.ltb_irrefl in Fbelow by lia.
      discriminate. }
    subst fb. rewrite Fr. cbn [bind].
    replace (d =? -1) with false by (symmetry; apply Z.eqb_neq; lia).
    destruct (mark_spec dbm d) as (dbm1 & Hm & L1 & B1); [unfold BS in *; lia|].
    rewrite Hm. cbn [bind].
    rewrite (u64_small d), (u64_small (drs + d)), (u32_small (drs + d))
      by (unfold BS in *; lia).
    destruct (IH (i + 1) dbm1 (set_nth dbs (Z.to_nat i) (drs + d)) (d + 1))
      as (dbm' & dbs' & Ha & L' & B' & N' & O' & Ld');
      [lia | lia | rewrite length_set_nth; lia | lia | lia | |].
    { intros j Hj. rewrite B1, Hp by lia.
      destruct (Z.eqb_spec j d), (Z.ltb_spec j d), (Z.ltb_spec j (d + 1));
        cbn [orb]; try reflexivity; lia. }
    exists dbm', dbs'. split; [exact Ha|]. split; [exact L'|].
    split; [intros j Hj; rewrite B' by lia; f_equal; lia|].
    rewrite length_set_nth in Ld'.
    split; [|split; [|exact Ld']].
    + intros t Ht. destruct (Z.eq_dec t i) as [->|Ne].
      * rewrite O' by lia. rewrite nth_set_nth_same by lia. lia.
      * rewrite N' by lia. lia.
    + intros t Ht. rewrite O' by lia. apply nth_set_nth_other. lia.
Qed.

(** ** Validity is kept *)

Lemma inserted_valid (s : fs) file_name content k dbs fe (s' : fs) :
  valid_fs s -> 1 <= k -> inserted s file_name content k dbs fe s' -> valid_fs s'.
Proof.
  intros V Hk I. pose proof V as (W & Hn & Hs & B0 & Hrb & Brb & Hsz & Hcnt).
  pose proof (inserted_well_laid _ _ _ _ _ _ _ W I) as W'.
  destruct I as (Es & Hfe & Slot & _ & Bi & _ & Bd & _ & At & _ & _ & _ & _ & _).
  assert (E44 : rd_u32 (inode_table s') (INO.direct 0) = rd_u32 (inode_table s) (INO.direct 0)).
  { apply (rd_u32_agree _ _ _ _ At); [offsets; lia|].
    unfold in_slot. offsets. intros; lia. }
  unfold valid_fs. rewrite Es, E44.
  split; [exact W'|]. split; [exact Hn|]. split; [exact Hs|].
  split; [rewrite Bi by lia; rewrite B0; apply orb_true_r|].
  split; [exact Hrb|]. split; [apply Bd; [lia|now left]|].
  unfold DIRENT_SIZE in *.
  destruct Slot as [(_ & _ & _ & E)|(Ef & _ & E)]; rewrite E.
  - auto.
  - split; [lia|].
    replace (rd_u64 (inode_table s) INO.size_bytes + 64)
      with (rd_u64 (inode_table s) INO.size_bytes + 1 * 64) by lia.
    rewrite Z.div_add by lia. lia.
Qed.

Lemma valid_image_layout (s : fs) :
  valid_fs s ->
  rd_u32 (sb s) SB.block_size = BS ->
  rd_u64 (sb s) SB.total_blocks =
    rd_u64 (sb s) SB.data_region_start + rd_u64 (sb s) SB.data_region_blocks ->
  rd_u64 (sb s) SB.root_inode = ROOT_INO ->
  valid_image (layout s).
Proof.
  intros (W & Hn & Hs & B0 & Hrb & Brb & Hsz & Hcnt) Eb Et Er.
  pose proof W as (L & M & E1 & E2 & E3 & E4 & Hi & Hd & Li & Ld & Lt & Lr).
  unfold valid_image, root_block.
  rewrite layout_inode_bitmap, layout_data_bitmap, layout_inode_table,
    len_layout by exact W.
  rewrite layout_rd_u32, !layout_rd_u64 by (auto; offsets; lia).
  rewrite layout_rd_u32 by (auto; offsets; lia).
  repeat match goal with |- _ /\ _ => split end; try assumption; try lia.
Qed.

(** ** Filling an image from the left *)

Lemma fresh_packed (g : geometry) (inodes : Z) (s : fs) :
  fresh_fs g inodes s ->
  128 <= inodes <= 512 ->
  inodes * INODE_SIZE <= inode_table_blocks g * BS ->
  total_blocks g = 3 + inode_table_blocks g + data_region_blocks g ->
  packed 0 1 s.
Proof.
  intros (W & F1 & F2 & F3 & F4 & F5 & F6 & F7 & Bi & Bd & Ft & T1 & T2
          & T3 & T4 & Fr & R1 & R2 & R3 & R4 & R5 & R6) Hn Hs Ht.
  pose proof W as (L & M & E1 & E2 & E3 & E4 & Hi & Hd & Li & Ld & Lt & Lr).
  assert (Z1 : forall j, 0 <= j -> (j =? 0) = (j <? 1)).
  { intros j Hj. destruct (Z.eqb_spec j 0), (Z.ltb_spec j 1); try reflexivity; lia. }
  unfold packed, valid_fs.
  rewrite F2, F3, F4, F5, F6, T3, T4, T2.
  rewrite F4, F5 in E4. rewrite F4 in Hi. rewrite F6 in Hd.
  replace (data_region_start g - data_region_start g) with 0 by lia.
  rewrite Bi, Bd by lia. unfold DIRENT_SIZE, BS in *.
  repeat match goal with |- _ /\ _ => split end;
    try assumption; try reflexivity; try lia.
  - cbv. discriminate.
  - intros j Hj. rewrite Bi by lia. now apply Z1.
  - intros j Hj. rewrite Bd by lia. now apply Z1.
  - intros j Hj. assert (C : j = 0 \/ j = 1) by lia.
    destruct C as [-> | ->];
      [change (0 * 64) with 0; rewrite R1|change (1 * 64) with 64; rewrite R4];
      discriminate.
Qed.

Section PackedStep.

Variables (m d : Z) (s : fs) (file_name content : bytes) (now : Z).
Hypothesis P : packed m d s.
Hypothesis Hsize : 1 <= len content <= 12 * BS.
Hypothesis Hino : m + 1 < rd_u64 (sb s) SB.inode_count.
Hypothesis Hroom : d + blocks_of (len content) <= rd_u64 (sb s) SB.data_region_blocks.

(** One more file: it goes in as inode [m + 2], in the blocks [d ..], with
    a new directory entry at index [m + 2]; unless the directory has its
    64 entries. *)
Lemma packed_step :
  (m + 2 < 64 ->
   exists s' dbs,
     add_file s file_name (Some content) now = Done s' /\
     packed (m + 1) (d + blocks_of (len content)) s' /\
     inserted s file_name content (m + 1) dbs (m + 2) s' /\
     (forall t, 0 <= t < blocks_of (len content) ->
        nth (Z.to_nat t) dbs 0 = rd_u64 (sb s) SB.data_region_start + d + t)) /\
  (64 <= m + 2 ->
   add_file s file_name (Some content) now = Exit ERootDirFull).
Proof.
  destruct P as (V & Eb & Et & Er & Hm & Hd & Bi & Bd & E44 & E12 & E2 & En).
  pose proof V as (W & Hn & Hs & B0 & Hrb & Brb & Hsz & Hcnt).
  pose proof W as (L & M & E1 & E2' & E3 & E4 & Hi & Hdr & Li & Ld & Lt & Lr).
  destruct (needed_blocks_spec (len content) Hsize) as [Hnd Hns].
  fold (blocks_of (len content)) in Hnd, Hns.
  set (needed := blocks_of (len content)) in *.
  set (drs := rd_u64 (sb s) SB.data_region_start) in *.
  set (drb := rd_u64 (sb s) SB.data_region_blocks) in *.
  (* the data blocks *)
  destruct (alloc_blocks_prefix (sb s) (Z.to_nat needed)) with
    (i := 0) (dbm := data_bitmap s) (dbs := repeat 0 12) (d := d)
    as (dbm' & dbs & Ha & Ld' & Bd' & Nd & _ & _);
    unfold sb_u64; fold drs drb;
    try (unfold BS in *; lia); try (rewrite repeat_length; lia); try exact Bd.
  rewrite Z2Nat.id in Bd', Nd by lia.
  unfold sb_u64 in Nd. fold drs in Nd.
  (* the run *)
  assert (K1 : bitmap_bit (inode_bitmap s) (m + 1) = false)
    by (rewrite Bi by lia; apply Z.ltb_irrefl).
  assert (K2 : forall j, 0 <= j < m + 1 -> bitmap_bit (inode_bitmap s) j = true)
    by (intros j Hj; rewrite Bi by lia; apply Z.ltb_lt; lia).
  assert (Ec : rd_u64 (inode_table s) INO.size_bytes / DIRENT_SIZE = m + 2).
  { rewrite E12. unfold DIRENT_SIZE. rewrite Z.mul_comm. apply Z.div_mul. lia. }
  assert (Erb : rd_u32 (inode_table s) (INO.direct 0) - drs = 0) by lia.
  pose proof (add_file_run s file_name content now V Hsize (m + 1) dbm' dbs
                ltac:(lia) K1 K2 Ha) as R.
  rewrite Ec in R. fold drs in R. rewrite Erb in R.
  assert (Full : forall j, 0 <= j < m + 2 ->
            rd_u32 (data_region s) (0 * BS + j * DIRENT_SIZE) <> 0).
  { intros j Hj. cbn [Z.mul Z.add]. apply En, Hj. }
  split.
  - intros Hlt.
    destruct R as [(_ & Hge & _)|(fe & s' & Hr & Edb & I)]; [lia|].
    pose proof I as (Es & Hfe & Slot & Li' & Bi' & _ & _ & _ & At & El & _ & _ & _
                     & Ar & D1 & _).
    rewrite Ec in Slot. fold drs in Slot, Ar, D1. rewrite Erb in Slot, Ar, D1.
    change (u64 (u64 (u64 (len content) + BS) - 1) / BS) with needed in Ar.
    destruct Slot as [(Hf1 & Hf2 & _)|(Hfe2 & _ & Sz)].
    { exfalso. exact (Full fe ltac:(lia) Hf2). }
    subst fe. exists s', dbs. split; [exact Hr|]. split; [|split; [exact I|]].
    2: { intros t Ht. rewrite Nd by lia. lia. }
    assert (Hk1 : 1 <= m + 1) by lia.
    pose proof (inserted_valid s file_name content (m + 1) dbs (m + 2) s' V Hk1 I) as V'.
    unfold packed. rewrite Es. fold drs drb.
    split; [exact V'|]. split; [exact Eb|]. split; [exact Et|]. split; [exact Er|].
    split; [lia|]. split; [lia|]. split; [|split; [|split; [|split; [|split]]]].
    + intros j Hj. rewrite Bi', Bi by lia.
      destruct (Z.eqb_spec j (m + 1)), (Z.ltb_spec j (m + 1)), (Z.ltb_spec j (m + 1 + 1));
        cbn [orb]; try reflexivity; lia.
    + intros j Hj. rewrite Edb. apply Bd', Hj.
    + rewrite <- E44. apply (rd_u32_agree _ _ _ _ At); [offsets; lia|].
      unfold in_slot. offsets. intros; lia.
    + rewrite Sz, E12. lia.
    + rewrite El, E2. rewrite u16_small by lia. lia.
    + intros j Hj. destruct (Z.eq_dec j (m + 2)) as [->|Ne].
      * unfold DE.inode_no in D1. cbn [Z.mul] in D1.
        rewrite !Z.add_0_r, Z.add_0_l in D1.
        replace (m + 1 + 1) with (m + 2) in D1 by lia. rewrite D1. lia.
      * rewrite (rd_u32_agree _ _ _ _ Ar); [apply En; lia|unfold DIRENT_SIZE; lia|].
        intros p Hp. unfold DIRENT_SIZE, BS in *. split; [lia|].
        intros t Ht. rewrite Nd by lia.
        unfold in_block, BS. lia.
  - intros Hge.
    destruct R as [(_ & _ & Hr)|(fe & s' & _ & _ & I)]; [exact Hr|].
    destruct I as (_ & Hfe & Slot & _).
    rewrite Ec in Slot. fold drs in Slot. rewrite Erb in Slot.
    destruct Slot as [(Hf1 & Hf2 & _)|(Hfe2 & _)]; [|lia].
    exfalso. exact (Full fe ltac:(lia) Hf2).
Qed.

End PackedStep.

Lemma one_block_blocks (size : Z) : 1 <= size <= BS -> blocks_of size = 1.
Proof.
  intros H. destruct (needed_blocks_spec size) as [Hn Hs]; [unfold BS in *; lia|].
  fold (blocks_of size) in Hn, Hs. unfold BS in *. lia.
Qed.

Lemma mkfs_adder_packed (m d : Z) (s : fs) (file_name content : bytes) (now : Z) :
  packed m d s ->
  1 <= len content <= 12 * BS ->
  m + 1 < rd_u64 (sb s) SB.inode_count ->
  d + blocks_of (len content) <= rd_u64 (sb s) SB.data_region_blocks ->
  (m + 2 < 64 ->
   exists s' dbs,
     mkfs_adder (Some (layout s)) file_name (Some content) now true
       = Done (layout s') /\
     packed (m + 1) (d + blocks_of (len content)) s' /\
     inserted s file_name content (m + 1) dbs (m + 2) s' /\
     (forall t, 0 <= t < blocks_of (len content) ->
        nth (Z.to_nat t) dbs 0 = rd_u64 (sb s) SB.data_region_start + d + t)) /\
  (64 <= m + 2 ->
   forall can_create,
     mkfs_adder (Some (layout s)) file_name (Some content) now can_create
       = Exit ERootDirFull).
Proof.
  intros P Hsize Hino Hroom.
  pose proof P as ((W & _) & _).
  destruct (packed_step m d s file_name content now P Hsize Hino Hroom) as [Hok Hfull].
  unfold mkfs_adder. rewrite load_layout by exact W. cbn [bind].
  split.
  - intros Hlt. destruct (Hok Hlt) as (s' & dbs & Ha & P' & I & Nd).
    exists s', dbs. rewrite Ha. cbn [bind negb].
    pose proof P' as ((W' & _) & _).
    rewrite persist_layout by exact W'. auto.
  - intros Hge can_create. rewrite (Hfull Hge). reflexivity.
Qed.

Lemma insert_all_app (img : bytes) (l l' : list insertion) :
  insert_all img (l ++ l') = bind (insert_all img l) (fun img' => insert_all img' l').
Proof.
  revert img; induction l as [|i l IH]; intros img; cbn [insert_all app bind].
  - reflexivity.
  - destruct (mkfs_adder _ _ _ _ _); cbn [bind]; auto.
Qed.

Lemma insert_all_packed (l : list insertion) :
  forall (m : Z) (s : fs),
  packed m (m + 1) s ->
  Forall one_block l ->
  m + Z.of_nat (length l) <= 62 ->
  64 <= rd_u64 (sb s) SB.inode_count ->
  64 <= rd_u64 (sb s) SB.data_region_blocks ->
  exists s',
    insert_all (layout s) l = Done (layout s') /\
    packed (m + Z.of_nat (length l)) (m + Z.of_nat (length l) + 1) s' /\
    sb s' = sb s.
Proof.
  induction l as [|i l IH]; intros m s P Hl Hm Hi Hd.
  - exists s. cbn [insert_all length]. rewrite Z.add_0_r. auto.
  - apply Forall_cons_iff in Hl as [Hi1 Hl].
    cbn [length] in Hm. rewrite Nat2Z.inj_succ in Hm.
    pose proof P as (_ & _ & _ & _ & Hm0 & _).
    unfold one_block in Hi1.
    pose proof (one_block_blocks _ Hi1) as Eb.
    destruct (mkfs_adder_packed m (m + 1) s (ins_name i) (ins_content i) (ins_time i) P)
      as [Hok _]; [unfold BS in *; lia | lia | lia |].
    destruct (Hok ltac:(lia)) as (s1 & dbs & Hr & P1 & I & _).
    rewrite Eb in P1.
    assert (Es : sb s1 = sb s) by (destruct I as (Es & _); exact Es).
    destruct (IH (m + 1) s1 P1 Hl) as (s' & Hr' & P' & Es');
      [lia | rewrite Es; exact Hi | rewrite Es; exact Hd |].
    exists s'. cbn [insert_all length]. rewrite Hr. cbn [bind].
    rewrite Nat2Z.inj_succ.
    replace (m + Z.succ (Z.of_nat (length l))) with (m + 1 + Z.of_nat (length l)) by lia.
    split; [exact Hr'|]. split; [exact P'|]. congruence.
Qed.

Lemma compute_geometry_done_bounds (size_kib inodes : Z) (g : geometry) :
  compute_geometry size_kib inodes = Done g -> args_in_bounds size_kib inodes.
Proof.
  unfold compute_geometry, args_in_bounds. intros H.
  destruct (size_kib <? 180) eqn:E1; [discriminate|].
  destruct (4096 <? size_kib) eqn:E2; [discriminate|].
  destruct (inodes <? 128) eqn:E3; [discriminate|].
  destruct (512 <? inodes) eqn:E4; [discriminate|].
  destruct (size_kib mod 4 =? 0) eqn:E5; [|discriminate].
  apply Z.ltb_ge in E1, E2, E3, E4. apply Z.eqb_eq in E5. lia.
Qed.

(** The builder's image, as a packed file system with nothing in it. *)
Lemma mkfs_builder_packed (size_kib inodes now : Z) (adjacent : bytes) (g : geometry) :
  compute_geometry size_kib inodes = Done g ->
  BS - 4 - SB_SIZE <= len adjacent ->
  exists s,
    mkfs_builder true size_kib inodes now adjacent true = Done (layout s) /\
    packed 0 1 s /\
    rd_u64 (sb s) SB.inode_count = inodes /\
    rd_u64 (sb s) SB.data_region_blocks = data_region_blocks g /\
    rd_u64 (sb s) SB.data_region_start = data_region_start g /\
    128 <= inodes <= 512.
Proof.
  intros Hg Hadj.
  pose proof (compute_geometry_done_bounds _ _ _ Hg) as Hb.
  destruct (mkfs_builder_fresh size_kib inodes now adjacent Hb Hadj)
    as (g' & s & Hg' & Hm & Hf & Gt & Gi & Gd & Gn).
  assert (g' = g) by congruence. subst g'.
  exists s. split; [exact Hm|].
  destruct Hb as (_ & _ & Hn).
  split; [exact (fresh_packed g inodes s Hf Hn Gn Gt)|].
  destruct Hf as (_ & _ & _ & F3 & _ & F5 & F6 & _). auto.
Qed.

(** From a fresh image with room for 64 data blocks, 62 one-block files go
    in and the 63rd finds the root directory full. *)
Lemma fresh_dir_fills (size_kib inodes now : Z) (adjacent : bytes) (g : geometry)
    (files : list insertion) (last : insertion) (can_create : bool) :
  compute_geometry size_kib inodes = Done g ->
  64 <= data_region_blocks g ->
  BS - 4 - SB_SIZE <= len adjacent ->
  length files = 62%nat ->
  Forall one_block files -> one_block last ->
  exists img0 img62,
    mkfs_builder true size_kib inodes now adjacent true = Done img0 /\
    (forall n, (n <= 62)%nat -> wrote_output (insert_all img0 (firstn n files)) = true) /\
    insert_all img0 files = Done img62 /\
    mkfs_adder (Some img62) (ins_name last) (Some (ins_content last))
      (ins_time last) can_create = Exit ERootDirFull.
Proof.
  intros Hg Hroom Hadj Hlen Hone Hlast.
  destruct (mkfs_builder_packed size_kib inodes now adjacent g Hg Hadj)
    as (s0 & Hb & P0 & Ei & Ed & _ & Hn).
  destruct (insert_all_packed files 0 s0 P0 Hone) as (s62 & Hr & P62 & Es);
    [rewrite Hlen; lia | lia | lia |].
  rewrite Hlen in P62. change (0 + Z.of_nat 62) with 62 in P62.
  exists (layout s0), (layout s62). split; [exact Hb|]. split; [|split; [exact Hr|]].
  - intros n Hle.
    assert (Hf : Forall one_block (firstn n files)).
    { rewrite <- (firstn_skipn n files) in Hone. now apply Forall_app in Hone as [H _]. }
    destruct (insert_all_packed (firstn n files) 0 s0 P0 Hf) as (s' & Hr' & _);
      [rewrite length_firstn; lia | lia | lia |].
    rewrite Hr'. reflexivity.
  - unfold one_block in Hlast. pose proof (one_block_blocks _ Hlast) as Eb.
    destruct (mkfs_adder_packed 62 63 s62 (ins_name last) (ins_content last)
                (ins_time last) P62) as [_ Hfull];
      [unfold BS in *; lia | rewrite Es; lia | rewrite Es, Eb; lia |].
    apply Hfull. lia.
Qed.

(** C2 (as amended).  From a freshly built image whose data region has at
    least 64 blocks, inserting one-block files one after the other: each
    of the first 62 insertions succeeds, and the 63rd ends with "Root
    directory is full" and writes no output image. *)
Theorem root_directory_fills (size_kib inodes now : Z) (adjacent : bytes)
    (g : geometry) (files : list insertion) (last : insertion)
    (can_create : bool) :
  compute_geometry size_kib inodes = Done g ->
  64 <= data_region_blocks g ->
  BS - 4 - SB_SIZE <= len adjacent ->
  length files = 62%nat ->
  Forall one_block files -> one_block last ->
  exists img0 img62,
    mkfs_builder true size_kib inodes now adjacent true = Done img0 /\
    (forall n, (n <= 62)%nat -> wrote_output (insert_all img0 (firstn n files)) = true) /\
    insert_all img0 files = Done img62 /\
    mkfs_adder (Some img62) (ins_name last) (Some (ins_content last))
      (ins_time last) can_create = Exit ERootDirFull.
Proof. apply fresh_dir_fills. Qed.

Lemma sample_files_one_block (n : nat) : Forall one_block (sample_files n).
Proof.
  unfold sample_files. apply Forall_forall. intros x Hx.
  apply in_map_iff in Hx as (i & <- & _).
  unfold one_block, sample_file, BS. cbn. lia.
Qed.

Lemma root_directory_fills_witness :
  exists img0 img62,
    mkfs_builder true 284 128 1700000000 (zeros 3976) true = Done img0 /\
    (forall n, (n <= 62)%nat ->
       wrote_output (insert_all img0 (firstn n (sample_files 62))) = true) /\
    insert_all img0 (sample_files 62) = Done img62 /\
    mkfs_adder (Some img62) (ins_name (sample_file 62))
      (Some (ins_content (sample_file 62))) (ins_time (sample_file 62)) true
    = Exit ERootDirFull.
Proof.
  apply (root_directory_fills 284 128 1700000000 (zeros 3976)
           {| total_blocks := 71; inode_table_blocks := 4;
              data_region_start := 7; data_region_blocks := 64 |}).
  - reflexivity.
  - cbn. lia.
  - vm_compute. discriminate.
  - reflexivity.
  - apply sample_files_one_block.
  - unfold one_block, sample_file, BS. cbn. lia.
Defined.

(** The claim as stated fails: on the image built with [--size-kib 284
    --inodes 128], the first 62 insertions of a three-byte file succeed and
    the 63rd, which the claim says succeeds, ends with "Root directory is
    full". *)
Lemma sixty_third_insert_fails :
  wrote_output (insert_all roomy_image (sample_files 62)) = true /\
  insert_all roomy_image (sample_files 63) = Exit ERootDirFull.
Proof.
  destruct (fresh_dir_fills 284 128 1700000000 (zeros 3976)
              {| total_blocks := 71; inode_table_blocks := 4;
                 data_region_start := 7; data_region_blocks := 64 |}
              (sample_files 62) (sample_file 62) true)
    as (img0 & img62 & Hb & _ & Hr & Hx).
  - reflexivity.
  - cbn. lia.
  - vm_compute. discriminate.
  - reflexivity.
  - apply sample_files_one_block.
  - unfold one_block, sample_file, BS. cbn. lia.
  - assert (E : roomy_image = img0) by (unfold roomy_image; now rewrite Hb).
    rewrite E. split; [now rewrite Hr|].
    change (sample_files 63) with (sample_files 62 ++ [sample_file 62]).
    rewrite insert_all_app, Hr. cbn [bind insert_all].
    rewrite Hx. reflexivity.
Qed.

(** ** The sample runs *)

(** What the builder makes is a valid image. *)
Lemma mkfs_builder_valid (size_kib inodes now : Z) (adjacent : bytes) (g : geometry) :
  compute_geometry size_kib inodes = Done g ->
  BS - 4 - SB_SIZE <= len adjacent ->
  valid_image (image_of (mkfs_builder true size_kib inodes now adjacent true)).
Proof.
  intros Hg Hadj.
  destruct (mkfs_builder_packed size_kib inodes now adjacent g Hg Hadj)
    as (s & Hb & (V & Eb & Et & Er & _) & _).
  rewrite Hb. cbn [image_of]. now apply valid_image_layout.
Qed.

(** And so is what the adder makes of a valid image. *)
Lemma mkfs_adder_valid (img file_name : bytes) (file : option bytes) (now : Z)
    (can_create : bool) (out : bytes) :
  valid_image img -> file_fits file ->
  mkfs_adder (Some img) file_name file now can_create = Done out ->
  valid_image out.
Proof.
  intros V Hfit H.
  destruct (mkfs_adder_inv _ _ _ _ _ _ V Hfit H)
    as (s' & content & k & dbs & fe & -> & W' & _ & _ & Hk & Kf & I).
  destruct (valid_image_fs img V) as [_ Vs].
  assert (Hk1 : 1 <= k).
  { destruct V as (_ & _ & _ & _ & _ & _ & _ & _ & _ & _ & _ & _ & _ & _ & _ & B0 & _).
    destruct (Z.eq_dec k 0) as [->|]; [congruence|lia]. }
  pose proof (inserted_valid _ _ _ _ _ _ _ Vs Hk1 I) as V'.
  destruct I as (Es & _).
  destruct V as (_ & Eb & _ & _ & _ & _ & _ & Et & Er & _).
  apply valid_image_layout; [exact V'|rewrite Es..];
    unfold fs_of_image; cbn [sb];
    rewrite ?rd_u32_slice, ?rd_u64_slice by (offsets; lia); assumption.
Qed.

Lemma sample_image_valid : valid_image sample_image.
Proof.
  apply (mkfs_builder_valid 180 128 1700000000 (zeros 3976) sample_geometry).
  - reflexivity.
  - vm_compute. discriminate.
Qed.

Lemma done_image_of (o : outcome bytes) :
  wrote_output o = true -> o = Done (image_of o).
Proof. destruct o; cbn; congruence. Qed.

Lemma sample_insertion :
  mkfs_adder (Some sample_image) [102; 49] (Some [72; 105; 10]) 1700000001 true
  = Done sample_output.
Proof.
  destruct (mkfs_builder_packed 180 128 1700000000 (zeros 3976) sample_geometry)
    as (s0 & Hb & P0 & Ei & Ed & _ & _); [reflexivity|vm_compute; discriminate|].
  destruct (mkfs_adder_packed 0 1 s0 [102; 49] [72; 105; 10] 1700000001 P0)
    as [Hok _].
  - split; vm_compute; discriminate.
  - rewrite Ei. lia.
  - rewrite Ed. vm_compute. discriminate.
  - destruct (Hok ltac:(lia)) as (s1 & dbs & Hr & _).
    assert (E : sample_image = layout s0) by (unfold sample_image; now rewrite Hb).
    unfold sample_output. rewrite E.
    pose proof (f_equal wrote_output Hr) as Hw. cbn [wrote_output] in Hw.
    exact (done_image_of _ Hw).
Qed.

Lemma oversized_file_rejected_witness :
  exists e,
    mkfs_adder (Some sample_image) [98; 105; 103] (Some (zeros 49153))
      1700000001 true = Exit e /\
    (e = EFileTooLarge \/ e = ENoFreeInode) /\
    12 < u64 (u64 (u64 (len (zeros 49153)) + BS) - 1) / BS.
Proof.
  apply oversized_file_rejected.
  - exact sample_image_valid.
  - by_computation.
Defined.

Lemma superblock_untouched_witness :
  slice sample_output 0 SB_SIZE = slice sample_image 0 SB_SIZE.
Proof.
  apply (superblock_untouched sample_image [102; 49] (Some [72; 105; 10])
           1700000001 true sample_output).
  - exact sample_image_valid.
  - by_computation.
  - exact sample_insertion.
Defined.

Lemma insert_frame_witness :
  (forall b, 0 <= b < rd_u64 sample_image SB.data_region_blocks ->
     b <> root_block sample_image ->
     bitmap_bit (img_data_bitmap sample_output) b
       = bitmap_bit (img_data_bitmap sample_image) b ->
     data_block sample_output b = data_block sample_image b) /\
  (forall k, 0 <= k -> (k + 1) * INODE_SIZE <= len (img_inode_table sample_image) ->
     k <> 0 ->
     bitmap_bit (img_inode_bitmap sample_output) k
       = bitmap_bit (img_inode_bitmap sample_image) k ->
     inode_slot sample_output k = inode_slot sample_image k).
Proof.
  apply (insert_frame sample_image [102; 49] (Some [72; 105; 10])
           1700000001 true sample_output).
  - exact sample_image_valid.
  - by_computation.
  - exact sample_insertion.
Defined.

Lemma new_entry_slot_witness :
  exists fe k,
    0 <= fe < 64 /\
    bitmap_bit (img_inode_bitmap sample_image) k = false /\
    bitmap_bit (img_inode_bitmap sample_output) k = true /\
    root_block sample_output = root_block sample_image /\
    rd_u32 (root_dirent sample_output fe) DE.inode_no = k + 1 /\
    rd_u8 (root_dirent sample_output fe) DE.type = 1 /\
    cstr (slice (root_dirent sample_output fe) DE.name DE.name_size)
      = firstn 57 (cstr [102; 49]) /\
    (forall j, 0 <= j < 64 -> j <> fe ->
       root_dirent sample_output j = root_dirent sample_image j) /\
    (fe < rd_u64 (inode_slot sample_image 0) INO.size_bytes / DIRENT_SIZE /\
       rd_u32 (root_dirent sample_image fe) DE.inode_no = 0 /\
       (forall j, 0 <= j < fe ->
          ~ rd_u32 (root_dirent sample_image j) DE.inode_no = 0) /\
       rd_u64 (inode_slot sample_output 0) INO.size_bytes
       = rd_u64 (inode_slot sample_image 0) INO.size_bytes
     \/
     fe = rd_u64 (inode_slot sample_image 0) INO.size_bytes / DIRENT_SIZE /\
       rd_u64 (inode_slot sample_image 0) INO.size_bytes / DIRENT_SIZE < 64 /\
       (forall j,
          0 <= j < rd_u64 (inode_slot sample_image 0) INO.size_bytes / DIRENT_SIZE ->
          ~ rd_u32 (root_dirent sample_image j) DE.inode_no = 0) /\
       rd_u64 (inode_slot sample_output 0) INO.size_bytes
       = rd_u64 (inode_slot sample_image 0) INO.size_bytes + 64) /\
    crc32 (inode_slot sample_output 0) 120
      = Done (rd_u64 (inode_slot sample_output 0) INO.inode_crc).
Proof.
  assert (F : file_fits (Some [72; 105; 10])) by by_computation.
  exact (proj1 (new_entry_slot sample_image [102; 49] (Some [72; 105; 10])
                  1700000001 true sample_image_valid F)
           sample_output sample_insertion).
Defined.

(** On the freshly built sample image the empty file ends the run in
    "Failed to read file content". *)
Example empty_file_on_fresh_image :
  mkfs_adder (Some sample_image) [101] (Some []) 1700000001 true
  = Exit EReadFileContent.
Proof. vm_compute. reflexivity. Qed.

(** ** One file into a fresh image *)

(** A goal that is a known fact up to arithmetic on the offset and on the
    value. *)
Ltac from_fact H :=
  match type of H with
  | ?f ?b ?o = ?v =>
      match goal with
      | |- f b ?o' = ?v' =>
          replace o' with o by lia; replace v' with v by lia; exact H
      end
  end.

(** X15. Build, then add.  For every size from 1 to 49152 the insertion
    into a freshly built image goes through: [blocks_of size], the ceiling of [size / 4096], more bits are
    set in the data bitmap, inode 2 is a regular file of that size, the
    directory gets a third entry with the name cut at 57 characters, and
    the root inode has one more link. *)
Lemma fresh_insert_succeeds (size_kib inodes now : Z) (adjacent : bytes)
    (g : geometry) (file_name content : bytes) (now' : Z) :
  compute_geometry size_kib inodes = Done g ->
  BS - 4 - SB_SIZE <= len adjacent ->
  1 <= len content <= 12 * BS ->
  exists img out,
    mkfs_builder true size_kib inodes now adjacent true = Done img /\
    mkfs_adder (Some img) file_name (Some content) now' true = Done out /\
    (blocks_of (len content) - 1) * BS < len content <= blocks_of (len content) * BS /\
    (forall j, 0 <= j -> bitmap_bit (img_data_bitmap img) j = (j <? 1)) /\
    (forall j, 0 <= j ->
       bitmap_bit (img_data_bitmap out) j = (j <? 1 + blocks_of (len content))) /\
    (forall j, 0 <= j -> bitmap_bit (img_inode_bitmap out) j = (j <? 2)) /\
    rd_u16 (inode_slot out 1) INO.mode = 0x8000 /\
    rd_u64 (inode_slot out 1) INO.size_bytes = len content /\
    rd_u32 (root_dirent out 2) DE.inode_no = 2 /\
    rd_u8 (root_dirent out 2) DE.type = 1 /\
    cstr (slice (root_dirent out 2) DE.name DE.name_size) = firstn 57 (cstr file_name) /\
    rd_u16 (inode_slot img 0) INO.links = 2 /\
    rd_u16 (inode_slot out 0) INO.links = 3.
Proof.
  intros Hg Hadj Hsize.
  destruct (needed_blocks_spec (len content) Hsize) as [Hnd Hns].
  fold (blocks_of (len content)) in Hnd, Hns.
  pose proof (compute_geometry_done_bounds _ _ _ Hg) as Hb.
  destruct (compute_geometry_in_bounds _ _ Hb) as (g' & Hg' & Gt & Gi & Gs & Gd & _).
  assert (g' = g) by congruence. subst g'.
  assert (Hdrb : 26 <= data_region_blocks g).
  { destruct Hb as (Hs & _ & Hi).
    assert (45 <= total_blocks g) by (rewrite Gt; apply Z.div_le_lower_bound; lia).
    lia. }
  destruct (mkfs_builder_packed size_kib inodes now adjacent g Hg Hadj)
    as (s0 & Hm & P0 & Ei & Ed & Es & Hn).
  destruct (mkfs_adder_packed 0 1 s0 file_name content now' P0 Hsize) as [Hok _];
    [lia | lia |].
  destruct (Hok ltac:(lia)) as (s1 & dbs & Hr & P1 & I & _).
  exists (layout s0), (layout s1).
  split; [exact Hm|]. split; [exact Hr|]. split; [exact Hns|].
  pose proof P0 as ((W0 & _) & _ & _ & _ & _ & _ & _ & Bd0 & E044 & _ & L0 & _).
  pose proof P1 as ((W1 & _) & _ & _ & _ & _ & _ & Bi1 & Bd1 & E144 & _ & L1 & _).
  destruct I as (Esb & _ & _ & _ & _ & _ & _ & _ & _ & _ & M1 & _ & S1 & _ & D1 & D2 & D3).
  rewrite E044, Z.sub_diag in D1, D2, D3.
  unfold root_dirent, root_block, data_block, inode_slot.
  rewrite !layout_inode_table, !layout_data_region, !layout_inode_bitmap,
    !layout_data_bitmap by assumption.
  rewrite layout_rd_u64 by (auto; offsets; lia).
  rewrite E144, Z.sub_diag.
  offsets.
  rewrite !rd_u16_slice, !rd_u64_slice, !rd_u32_slice, !rd_u8_slice by lia.
  rewrite !slice_slice by lia. norm_off.
  repeat match goal with |- _ /\ _ => split end.
  - exact Bd0.
  - exact Bd1.
  - exact Bi1.
  - from_fact M1.
  - from_fact S1.
  - from_fact D1.
  - from_fact D2.
  - match type of D3 with
    | cstr (slice ?b ?o _) = _ =>
        match goal with
        | |- cstr (slice b ?o' _) = _ => replace o' with o by lia; exact D3
        end
    end.
  - exact L0.
  - exact L1.
Qed.

(** * Further properties *)

(** ** Searching a bitmap *)

Lemma find_free_inode_loop_skip (bm : bytes) (m : nat) (n : nat) (i0 : Z) :
  0 <= i0 -> i0 + Z.of_nat n <= 8 * len bm ->
  (forall j, i0 <= j < i0 + Z.of_nat n -> bitmap_bit bm j = true) ->
  find_free_inode_loop bm (n + m) i0 = find_free_inode_loop bm m (i0 + Z.of_nat n).
Proof.
  revert i0. induction n as [|n IH]; intros i0 H0 Hn Hall.
  - cbn [Nat.add]. f_equal. lia.
  - cbn [Nat.add find_free_inode_loop].
    destruct (bitmap_probe bm i0) as [G B]; [lia|].
    rewrite G. cbn [bind]. rewrite B, Hall by lia.
    rewrite IH by (try lia; intros; apply Hall; lia). f_equal. lia.
Qed.

Lemma find_free_data_block_loop_skip (bm : bytes) (m : nat) (n : nat) (i0 : Z) :
  0 <= i0 -> i0 + Z.of_nat n <= 8 * len bm ->
  (forall j, i0 <= j < i0 + Z.of_nat n -> bitmap_bit bm j = true) ->
  find_free_data_block_loop bm (n + m) i0
  = find_free_data_block_loop bm m (i0 + Z.of_nat n).
Proof.
  revert i0. induction n as [|n IH]; intros i0 H0 Hn Hall.
  - cbn [Nat.add]. f_equal. lia.
  - cbn [Nat.add find_free_data_block_loop].
    destruct (bitmap_probe bm i0) as [G B]; [lia|].
    rewrite G. cbn [bind]. rewrite B, Hall by lia.
    rewrite IH by (try lia; intros; apply Hall; lia). f_equal. lia.
Qed.

Lemma get_u8_past_end (bm : bytes) (i : Z) : len bm <= i -> get_u8 bm i = Fault.
Proof.
  intros H. unfold get_u8. rewrite get_bytes_fault; [reflexivity|lia].
Qed.

(** X1. Both bitmap searches are first fit.  With the count within the
    bits the bitmap has, they stop at the lowest clear bit [k] below
    [count]: [find_free_inode] answers the 1-based number [k + 1],
    [find_free_data_block] the index [k].  With all these bits set both
    answer [-1]. *)
Theorem bitmap_search_first_fit (bm : bytes) (count : Z) :
  0 <= count <= 8 * len bm -> count < 2 ^ 31 ->
  (exists k, 0 <= k < count /\
     bitmap_bit bm k = false /\
     (forall j, 0 <= j < k -> bitmap_bit bm j = true) /\
     find_free_inode bm count = Done (k + 1) /\
     find_free_data_block bm count = Done k) \/
  ((forall j, 0 <= j < count -> bitmap_bit bm j = true) /\
   find_free_inode bm count = Done (-1) /\
   find_free_data_block bm count = Done (-1)).
Proof.
  intros Hc H31. unfold find_free_inode, find_free_data_block.
  destruct (find_free_inode_loop_spec bm (Z.to_nat count) 0)
    as [(k & Hk & Kf & Kb & Kr)|[Ha Hr]]; [lia | lia | |].
  - left. exists k. rewrite Z2Nat.id in Hk by lia.
    split; [lia|]. split; [exact Kf|]. split; [exact Kb|].
    split; [rewrite Kr; f_equal; apply i32_small; lia|].
    destruct (find_free_data_block_loop_spec bm (Z.to_nat count) 0)
      as [(k' & Hk' & Kf' & Kb' & Kr')|[Ha' _]]; [lia | lia | |].
    + assert (k' = k).
      { destruct (Z.lt_trichotomy k' k) as [C|[C|C]]; [|exact C|].
        - rewrite Kb in Kf' by lia. discriminate.
        - rewrite Kb' in Kf by lia. discriminate. }
      subst k'. rewrite Kr'. f_equal. apply i32_small. lia.
    + rewrite Ha' in Kf by lia. discriminate.
  - right. rewrite Z2Nat.id in Ha by lia. split; [exact Ha|]. split; [exact Hr|].
    destruct (find_free_data_block_loop_spec bm (Z.to_nat count) 0)
      as [(k' & Hk' & Kf' & _)|[_ Hr']]; [lia | lia | |].
    + rewrite Z2Nat.id in Hk' by lia. rewrite Ha in Kf' by lia. discriminate.
    + exact Hr'.
Qed.

Lemma bitmap_search_first_fit_witness :
  (exists k, 0 <= k < 8 /\
     bitmap_bit [5] k = false /\
     (forall j, 0 <= j < k -> bitmap_bit [5] j = true) /\
     find_free_inode [5] 8 = Done (k + 1) /\
     find_free_data_block [5] 8 = Done k) \/
  ((forall j, 0 <= j < 8 -> bitmap_bit [5] j = true) /\
   find_free_inode [5] 8 = Done (-1) /\
   find_free_data_block [5] 8 = Done (-1)).
Proof.
  apply bitmap_search_first_fit.
  - split; vm_compute; discriminate.
  - reflexivity.
Defined.

(** X2. The searches do not check the count against the size of the
    bitmap: with a count beyond the bits the bitmap has, all of them set,
    both searches go on to the byte after the bitmap, a read out of
    bounds. *)
Theorem bitmap_search_overruns (bm : bytes) (count : Z) :
  8 * len bm < count ->
  (forall j, 0 <= j < 8 * len bm -> bitmap_bit bm j = true) ->
  find_free_inode bm count = Fault /\ find_free_data_block bm count = Fault.
Proof.
  intros Hc Hall. pose proof (len_nonneg bm) as Hl.
  unfold find_free_inode, find_free_data_block.
  replace (Z.to_nat count)
    with (Z.to_nat (8 * len bm) + S (Z.to_nat (count - 8 * len bm - 1)))%nat by lia.
  split.
  - rewrite find_free_inode_loop_skip by (try lia; intros; apply Hall; lia).
    cbn [find_free_inode_loop]. rewrite Z2Nat.id by lia.
    rewrite get_u8_past_end; [reflexivity|].
    cbn [Z.add]. rewrite Z.mul_comm, Z.div_mul by lia. lia.
  - rewrite find_free_data_block_loop_skip by (try lia; intros; apply Hall; lia).
    cbn [find_free_data_block_loop]. rewrite Z2Nat.id by lia.
    rewrite get_u8_past_end; [reflexivity|].
    cbn [Z.add]. rewrite Z.mul_comm, Z.div_mul by lia. lia.
Qed.

Lemma bitmap_search_overruns_witness :
  find_free_inode [255] 9 = Fault /\ find_free_data_block [255] 9 = Fault.
Proof.
  apply bitmap_search_overruns.
  - vm_compute. reflexivity.
  - intros j Hj. change (8 * len [255]) with 8 in Hj.
    assert (C : j = 0 \/ j = 1 \/ j = 2 \/ j = 3 \/ j = 4 \/ j = 5 \/ j = 6 \/ j = 7) by lia.
    repeat destruct C as [-> | C]; try subst j; reflexivity.
Defined.

(** ** Counting the clear bits *)

Lemma filter_flip (f f' : nat -> bool) (k : nat) (l : list nat) :
  NoDup l -> In k l -> f k = true -> f' k = false ->
  (forall j, j <> k -> f' j = f j) ->
  S (length (filter f' l)) = length (filter f l).
Proof.
  intros Hnd Hin Hk Hk' Hother.
  induction l as [|a l IH]; [contradiction|].
  apply NoDup_cons_iff in Hnd as [Ha Hnd].
  cbn [filter]. destruct (Nat.eq_dec a k) as [->|Ne].
  - rewrite Hk, Hk'. cbn [length]. f_equal. f_equal.
    apply filter_ext_in. intros j Hj. apply Hother. intros ->. contradiction.
  - rewrite (Hother a Ne). destruct Hin as [E|Hin]; [contradiction|].
    destruct (f a); cbn [length]; rewrite <- (IH Hnd Hin); reflexivity.
Qed.

Lemma filter_none (f : nat -> bool) (l : list nat) :
  (forall j, In j l -> f j = false) -> filter f l = [].
Proof.
  induction l as [|a l IH]; intros H; [reflexivity|].
  cbn [filter]. rewrite (H a (or_introl eq_refl)). apply IH.
  intros j Hj. apply H. now right.
Qed.

Lemma count_free_nonneg (bm : bytes) (n : Z) : 0 <= count_free bm n.
Proof. unfold count_free. lia. Qed.

Lemma count_free_le (bm : bytes) (n : Z) : 0 <= n -> count_free bm n <= n.
Proof.
  intros Hn. unfold count_free.
  pose proof (filter_length_le (fun j => negb (bitmap_bit bm (Z.of_nat j)))
                (seq 0 (Z.to_nat n))) as H.
  rewrite length_seq in H. lia.
Qed.

Lemma count_free_zero (bm : bytes) (n : Z) :
  0 <= n ->
  (count_free bm n = 0 <-> forall j, 0 <= j < n -> bitmap_bit bm j = true).
Proof.
  intros Hn. unfold count_free. split.
  - intros H j Hj.
    destruct (bitmap_bit bm j) eqn:E; [reflexivity|exfalso].
    assert (In (Z.to_nat j)
              (filter (fun j => negb (bitmap_bit bm (Z.of_nat j))) (seq 0 (Z.to_nat n)))).
    { apply filter_In. split; [apply in_seq; lia|].
      rewrite Z2Nat.id by lia. now rewrite E. }
    destruct (filter _ _); [contradiction|]. cbn [length] in H. lia.
  - intros H.
    rewrite filter_none; [reflexivity|].
    intros j Hj. apply in_seq in Hj. rewrite H by lia. reflexivity.
Qed.

Lemma count_free_mark (bm bm' : bytes) (n k : Z) :
  0 <= k < n -> bitmap_bit bm k = false ->
  (forall j, 0 <= j -> bitmap_bit bm' j = (j =? k) || bitmap_bit bm j) ->
  count_free bm' n = count_free bm n - 1.
Proof.
  intros Hk Hf Hm. unfold count_free.
  rewrite <- (filter_flip (fun j => negb (bitmap_bit bm (Z.of_nat j)))
                (fun j => negb (bitmap_bit bm' (Z.of_nat j))) (Z.to_nat k)).
  - lia.
  - apply seq_NoDup.
  - apply in_seq. lia.
  - rewrite Z2Nat.id by lia. now rewrite Hf.
  - rewrite Z2Nat.id by lia. rewrite Hm, Z.eqb_refl by lia. reflexivity.
  - intros j Hj. rewrite Hm by lia.
    replace (Z.of_nat j =? k) with false by (symmetry; apply Z.eqb_neq; lia).
    reflexivity.
Qed.

(** ** The allocation loop, as a whole *)

(** The loop ends in [Done] exactly when the bitmap has enough clear bits
    below [data_region_blocks], and then uses up that many of them. *)
Lemma alloc_blocks_total (sbk : bytes) (n : nat) :
  let drs := sb_u64 sbk SB.data_region_start in
  let drb := sb_u64 sbk SB.data_region_blocks in
  0 <= drs -> 0 <= drb <= 8 * BS -> drs + drb < 2 ^ 32 ->
  forall (i : Z) (dbm : bytes) (dbs : list Z),
  len dbm = BS -> 0 <= i ->
  (count_free dbm drb < Z.of_nat n ->
   alloc_blocks n i sbk dbm dbs = Exit ENoFreeDataBlock) /\
  (Z.of_nat n <= count_free dbm drb ->
   exists dbm' dbs',
     alloc_blocks n i sbk dbm dbs = Done (dbm', dbs') /\
     count_free dbm' drb = count_free dbm drb - Z.of_nat n).
Proof.
  intros drs drb Hs Hb H32.
  induction n as [|n IH]; intros i dbm dbs L Hi.
  - split.
    + intros H. pose proof (count_free_nonneg dbm drb). lia.
    + intros _. exists dbm, dbs. split; [reflexivity|]. cbn. lia.
  - cbn [alloc_blocks]. fold drs drb.
    destruct (find_free_data_block_spec dbm drb L Hb)
      as [(fb & Hfb & Ff & _ & Fr)|[Fall Fr]]; rewrite Fr; cbn [bind].
    + replace (fb =? -1) with false by (symmetry; apply Z.eqb_neq; lia).
      destruct (mark_spec dbm fb) as (dbm1 & Hm & L1 & B1); [unfold BS in *; lia|].
      rewrite Hm. cbn [bind].
      pose proof (count_free_mark dbm dbm1 drb fb Hfb Ff B1) as C1.
      assert (L1' : len dbm1 = BS) by lia.
      destruct (IH (i + 1) dbm1
                  (set_nth dbs (Z.to_nat i)
                     (u32 (u64 (sb_u64 sbk SB.data_region_start + u64 fb)))) L1')
        as [Hno Hyes]; [lia|].
      split.
      * intros H. apply Hno. lia.
      * intros H. destruct Hyes as (dbm' & dbs' & Ha & Hc); [lia|].
        exists dbm', dbs'. split; [exact Ha|]. lia.
    + cbn [Z.eqb]. apply count_free_zero in Fall; [|lia]. split.
      * reflexivity.
      * intros H. lia.
Qed.

(** The blocks come out in increasing order, and every bit below a block
    that was handed out is set afterwards: the loop takes the lowest clear
    bits. *)
Lemma alloc_blocks_order (sbk : bytes) (n : nat) :
  let drs := sb_u64 sbk SB.data_region_start in
  let drb := sb_u64 sbk SB.data_region_blocks in
  0 <= drs -> 0 <= drb <= 8 * BS -> drs + drb < 2 ^ 32 ->
  forall (i : Z) (dbm : bytes) (dbs : list Z) (dbm' : bytes) (dbs' : list Z),
  len dbm = BS -> 0 <= i -> i + Z.of_nat n <= Z.of_nat (length dbs) ->
  alloc_blocks n i sbk dbm dbs = Done (dbm', dbs') ->
  (forall t j, i <= t < i + Z.of_nat n ->
     0 <= j < nth (Z.to_nat t) dbs' 0 - drs -> bitmap_bit dbm' j = true) /\
  (forall t u, i <= t -> t < u -> u < i + Z.of_nat n ->
     nth (Z.to_nat t) dbs' 0 < nth (Z.to_nat u) dbs' 0).
Proof.
  intros drs drb Hs Hb H32.
  induction n as [|n IH]; intros i dbm dbs dbm' dbs' L Hi Hn H.
  - split; intros; lia.
  - cbn [alloc_blocks] in H. fold drs drb in H.
    destruct (find_free_data_block_spec dbm drb L Hb)
      as [(fb & Hfb & Ff & Fbelow & Fr)|[_ Fr]]; rewrite Fr in H; cbn [bind] in H.
    2: { cbn [Z.eqb] in H. discriminate. }
    replace (fb =? -1) with false in H by (symmetry; apply Z.eqb_neq; lia).
    destruct (mark_spec dbm fb) as (dbm1 & Hm & L1 & B1); [unfold BS in *; lia|].
    rewrite Hm in H. cbn [bind] in H.
    rewrite (u64_small fb), (u64_small (drs + fb)), (u32_small (drs + fb)) in H
      by (unfold BS in *; lia).
    assert (L1' : len dbm1 = BS) by lia.
    assert (Hn' : i + 1 + Z.of_nat n <= Z.of_nat (length (set_nth dbs (Z.to_nat i) (drs + fb))))
      by (rewrite length_set_nth; lia).
    destruct (alloc_blocks_inv sbk n Hs Hb H32 (i + 1) dbm1 _ dbm' dbs' L1'
                ltac:(lia) Hn' H) as (_ & _ & Mono & _ & All & Old).
    fold drs drb in All.
    destruct (IH (i + 1) dbm1 _ dbm' dbs' L1' ltac:(lia) Hn' H) as [Below Order].
    assert (Ei : nth (Z.to_nat i) dbs' 0 = drs + fb).
    { rewrite Old by lia. apply nth_set_nth_same. lia. }
    assert (Hlow : forall j, 0 <= j <= fb -> bitmap_bit dbm1 j = true).
    { intros j Hj. rewrite B1 by lia.
      destruct (Z.eqb_spec j fb); [reflexivity|]. cbn [orb]. apply Fbelow. lia. }
    assert (Hgt : forall u, i + 1 <= u < i + 1 + Z.of_nat n ->
              drs + fb < nth (Z.to_nat u) dbs' 0).
    { intros u Hu. destruct (All u Hu) as (fb' & Hfb' & Eu & Bf & _).
      rewrite Eu. destruct (Z_le_gt_dec fb' fb) as [Le|Gt]; [|lia].
      rewrite Hlow in Bf by lia. discriminate. }
    split.
    + intros t j Ht Hj. destruct (Z.eq_dec t i) as [->|Ne].
      * rewrite Ei in Hj. apply Mono; [lia|]. apply Hlow. lia.
      * apply (Below t j); [lia|exact Hj].
    + intros t u Ht Htu Hu. destruct (Z.eq_dec t i) as [->|Ne].
      * rewrite Ei. apply Hgt. lia.
      * apply Order; lia.
Qed.

(** ** What the copy loop leaves in the blocks *)

Lemma write_content_blocks (sbk : bytes) (needed fsize : Z) (dbs : list Z)
    (content : bytes) (n : nat) :
  let drs := sb_u64 sbk SB.data_region_start in
  0 <= drs -> 1 <= needed <= 12 ->
  (needed - 1) * BS < fsize <= needed * BS -> len content = fsize ->
  (forall t u, 0 <= t -> t < u -> u < needed ->
     nth (Z.to_nat t) dbs 0 <> nth (Z.to_nat u) dbs 0) ->
  forall (i : Z) (dreg dreg' : bytes),
  0 <= i -> i + Z.of_nat n = needed ->
  (forall t, i <= t < needed ->
     exists fb, 0 <= fb /\ (fb + 1) * BS <= len dreg /\
       nth (Z.to_nat t) dbs 0 = drs + fb) ->
  drs + len dreg < 2 ^ 32 ->
  write_content n i sbk needed fsize dbs content dreg = Done dreg' ->
  forall t, i <= t < needed ->
    slice dreg' ((nth (Z.to_nat t) dbs 0 - drs) * BS) (Z.min BS (fsize - t * BS))
    = slice content (t * BS) (Z.min BS (fsize - t * BS)).
Proof.
  intros drs Hs Hnd Hsz Hc Hdist.
  induction n as [|n IH]; intros i dreg dreg' Hi Hn Hb H32 H t Ht; [lia|].
  cbn [write_content] in H. fold drs in H.
  destruct (Hb i) as (fb & Hfb & Hfl & Efb); [lia|].
  rewrite Efb in H. replace (drs + fb - drs) with fb in H by lia.
  pose proof (len_nonneg dreg) as Hlen.
  unfold BS in *.
  rewrite (u64_small fb), (u64_small (fb * 4096)), (u64_small (needed - 1)),
    (u64_small (i * 4096)) in H by lia.
  set (copy_size := if i =? needed - 1 then u64 (fsize - i * 4096) else 4096) in H.
  assert (Hcs : 0 < copy_size <= 4096 /\ i * 4096 + copy_size <= fsize /\
                copy_size = Z.min 4096 (fsize - i * 4096)).
  { unfold copy_size. destruct (Z.eqb_spec i (needed - 1)) as [E|E].
    - rewrite u64_small by lia. lia.
    - lia. }
  rewrite get_bytes_ok in H by lia. cbn [bind] in H.
  assert (Ls : len (slice content (i * 4096) copy_size) = copy_size)
    by (apply len_slice; lia).
  rewrite put_bytes_ok in H by lia. cbn [bind] in H.
  set (dreg1 := upd dreg (fb * 4096) (slice content (i * 4096) copy_size)) in H.
  assert (F1 : same_outside (fb * 4096) (fb * 4096 + copy_size) dreg dreg1).
  { pose proof (same_outside_upd dreg (fb * 4096)
                  (slice content (i * 4096) copy_size)) as S.
    rewrite Ls in S. apply S; lia. }
  pose proof (same_outside_len _ _ _ _ F1) as L1.
  assert (Hb1 : forall t, i + 1 <= t < needed ->
            exists fb, 0 <= fb /\ (fb + 1) * 4096 <= len dreg1 /\
              nth (Z.to_nat t) dbs 0 = drs + fb).
  { intros t' Ht'. destruct (Hb t') as (fb' & ? & ? & ?); [lia|].
    exists fb'. repeat split; try assumption; lia. }
  destruct (Z.eq_dec t i) as [->|Ne].
  - destruct (write_content_spec sbk needed fsize dbs content n Hs)
      with (i := i + 1) (dreg := dreg1) as (dreg'' & Hw & Ha);
      fold drs; unfold BS; try lia; try assumption.
    fold drs in Hw. unfold BS in Hw.
    assert (dreg'' = dreg') by congruence. subst dreg''.
    rewrite Efb. replace (drs + fb - drs) with fb by lia.
    destruct Hcs as (Hc1 & Hc2 & Hc3). rewrite <- Hc3.
    rewrite <- (agree_on_slice _ _ _ _ _ Ha) by
      (try lia; intros p Hp t' Ht';
       destruct (Hb1 t' Ht') as (fb' & Hfb' & _ & Efb');
       rewrite Efb'; replace (drs + fb' - drs) with fb' by lia;
       assert (fb' <> fb)
         by (intros ->; apply (Hdist i t'); [lia..|congruence]);
       unfold in_block, BS; lia).
    unfold dreg1. rewrite <- Ls at 2. apply slice_upd_same; lia.
  - apply (IH (i + 1) dreg1 dreg'); try lia; assumption.
Qed.

Lemma create_inode_fields (itab : bytes) (fi file_size needed now : Z)
    (dbs : list Z) (t : bytes) :
  let o := u32 ((fi - 1) * INODE_SIZE) in
  o + INODE_SIZE <= len itab ->
  create_inode itab fi file_size needed now dbs = Done t ->
  rd_u32 t (o + INO.uid) = 0 /\
  rd_u32 t (o + INO.gid) = 0 /\
  rd_u64 t (o + INO.atime) = u64 now /\
  rd_u64 t (o + INO.mtime) = u64 now /\
  rd_u64 t (o + INO.ctime) = u64 now /\
  rd_u32 t (o + INO.proj_id) = 1234 /\
  (forall i, 0 <= i < 12 ->
     rd_u32 t (o + INO.direct i)
     = u32 (if i <? needed then nth (Z.to_nat i) dbs 0 else 0)).
Proof.
  intros o Hl H.
  pose proof (u32_range ((fi - 1) * INODE_SIZE)) as Ho. fold o in Ho.
  assert (G : exists t',
    create_inode itab fi file_size needed now dbs = Done t' /\
    rd_u32 t' (o + INO.uid) = 0 /\
    rd_u32 t' (o + INO.gid) = 0 /\
    rd_u64 t' (o + INO.atime) = u64 now /\
    rd_u64 t' (o + INO.mtime) = u64 now /\
    rd_u64 t' (o + INO.ctime) = u64 now /\
    rd_u32 t' (o + INO.proj_id) = 1234 /\
    (forall i, 0 <= i < 12 ->
       rd_u32 t' (o + INO.direct i)
       = u32 (if i <? needed then nth (Z.to_nat i) dbs 0 else 0))).
  { clear H. unfold create_inode. fold o.
    cbn [set_direct].
    repeat match goal with
    | |- context [0 + 1] => change (0 + 1) with 1
    | |- context [1 + 1] => change (1 + 1) with 2
    | |- context [2 + 1] => change (2 + 1) with 3
    | |- context [3 + 1] => change (3 + 1) with 4
    | |- context [4 + 1] => change (4 + 1) with 5
    | |- context [5 + 1] => change (5 + 1) with 6
    | |- context [6 + 1] => change (6 + 1) with 7
    | |- context [7 + 1] => change (7 + 1) with 8
    | |- context [8 + 1] => change (8 + 1) with 9
    | |- context [9 + 1] => change (9 + 1) with 10
    | |- context [10 + 1] => change (10 + 1) with 11
    end.
    offsets.
    do 21 store.
    match goal with
    | |- exists t, inode_crc_finalize ?b ?off = Done t /\ _ =>
        destruct (inode_crc_finalize_spec b off) as (t' & c & Ec & Fc & Cc & Rc);
          [unfold INODE_SIZE; lia..|];
        after_store b t' Fc; exists t'
    end.
    split; [assumption|].
    repeat match goal with |- _ /\ _ => split end; try assumption.
    intros i Hi.
    assert (C : i = 0 \/ i = 1 \/ i = 2 \/ i = 3 \/ i = 4 \/ i = 5 \/ i = 6 \/
                i = 7 \/ i = 8 \/ i = 9 \/ i = 10 \/ i = 11) by lia.
    repeat destruct C as [-> | C]; try subst i; assumption. }
  destruct G as (t' & E & G). assert (t' = t) by congruence. subst t'. exact G.
Qed.

(** The fields [create_inode] does not write keep what the slot held. *)
Lemma create_inode_keeps (itab : bytes) (fi file_size needed now : Z)
    (dbs : list Z) (t : bytes) :
  let o := u32 ((fi - 1) * INODE_SIZE) in
  o + INODE_SIZE <= len itab ->
  create_inode itab fi file_size needed now dbs = Done t ->
  agree_on (fun p => p < o \/ o + 92 <= p < o + 104 \/ o + 108 <= p < o + 120
                     \/ o + 128 <= p) itab t.
Proof.
  intros o Hl H.
  pose proof (u32_range ((fi - 1) * INODE_SIZE)) as Ho. fold o in Ho.
  assert (G : exists t',
    create_inode itab fi file_size needed now dbs = Done t' /\
    agree_on (fun p => p < o \/ o + 92 <= p < o + 104 \/ o + 108 <= p < o + 120
                       \/ o + 128 <= p) itab t').
  { clear H. unfold create_inode. fold o.
    cbn [set_direct]. offsets.
    pose proof (agree_on_refl
                  (fun p => p < o \/ o + 92 <= p < o + 104 \/ o + 108 <= p < o + 120
                            \/ o + 128 <= p) itab) as GA.
    do 21 store.
    match goal with
    | |- exists t, inode_crc_finalize ?b ?off = Done t /\ _ =>
        destruct (inode_crc_finalize_spec b off) as (t' & c & Ec & Fc & Cc & Rc);
          [unfold INODE_SIZE; lia..|];
        after_store b t' Fc; exists t'
    end.
    split; assumption. }
  destruct G as (t' & E & G). assert (t' = t) by congruence. subst t'. exact G.
Qed.

(** ** Buffers of bytes stay buffers of bytes *)

Lemma bytes_ok_app (a b : bytes) : bytes_ok a -> bytes_ok b -> bytes_ok (a ++ b).
Proof. unfold bytes_ok. intros. apply Forall_app. auto. Qed.

Lemma bytes_ok_firstn (n : nat) (a : bytes) : bytes_ok a -> bytes_ok (firstn n a).
Proof.
  unfold bytes_ok. intros H. rewrite <- (firstn_skipn n a) in H.
  now apply Forall_app in H as [H _].
Qed.

Lemma bytes_ok_skipn (n : nat) (a : bytes) : bytes_ok a -> bytes_ok (skipn n a).
Proof.
  unfold bytes_ok. intros H. rewrite <- (firstn_skipn n a) in H.
  now apply Forall_app in H as [_ H].
Qed.

Lemma bytes_ok_zeros (n : Z) : bytes_ok (zeros n).
Proof.
  unfold bytes_ok, zeros. apply Forall_forall. intros x Hx.
  apply repeat_spec in Hx. subst x. unfold is_byte. lia.
Qed.

Lemma bytes_ok_upd (buf : bytes) (off : Z) (d : bytes) :
  bytes_ok buf -> bytes_ok d -> bytes_ok (upd buf off d).
Proof.
  intros Hb Hd. unfold upd.
  apply bytes_ok_app; [now apply bytes_ok_firstn|].
  apply bytes_ok_app; [exact Hd|now apply bytes_ok_skipn].
Qed.

Lemma bytes_ok_put_bytes (buf : bytes) (off : Z) (d r : bytes) :
  bytes_ok buf -> bytes_ok d -> put_bytes buf off d = Done r -> bytes_ok r.
Proof.
  intros Hb Hd H. apply put_bytes_inv in H as (_ & _ & ->).
  now apply bytes_ok_upd.
Qed.

Lemma bytes_ok_put_u8 buf off v r :
  bytes_ok buf -> put_u8 buf off v = Done r -> bytes_ok r.
Proof. intros Hb. apply bytes_ok_put_bytes; [exact Hb|apply le_encode_ok]. Qed.

Lemma bytes_ok_put_u16 buf off v r :
  bytes_ok buf -> put_u16 buf off v = Done r -> bytes_ok r.
Proof. intros Hb. apply bytes_ok_put_bytes; [exact Hb|apply le_encode_ok]. Qed.

Lemma bytes_ok_put_u32 buf off v r :
  bytes_ok buf -> put_u32 buf off v = Done r -> bytes_ok r.
Proof. intros Hb. apply bytes_ok_put_bytes; [exact Hb|apply le_encode_ok]. Qed.

Lemma bytes_ok_put_u64 buf off v r :
  bytes_ok buf -> put_u64 buf off v = Done r -> bytes_ok r.
Proof. intros Hb. apply bytes_ok_put_bytes; [exact Hb|apply le_encode_ok]. Qed.

Lemma bytes_ok_cstr (s : bytes) : bytes_ok s -> bytes_ok (cstr s).
Proof.
  unfold bytes_ok. induction 1 as [|c s Hc _ IH]; cbn [cstr]; [constructor|].
  destruct (c =? 0); constructor; auto.
Qed.

Lemma bytes_ok_strncpy buf off src n r :
  bytes_ok buf -> bytes_ok src -> strncpy buf off src n = Done r -> bytes_ok r.
Proof.
  intros Hb Hs. unfold strncpy. apply bytes_ok_put_bytes; [exact Hb|].
  apply bytes_ok_app; [|apply bytes_ok_zeros].
  apply bytes_ok_firstn, bytes_ok_cstr, Hs.
Qed.

(** ** The entry that [write_dirent] leaves *)

Lemma write_dirent_checksum (dreg : bytes) (re fe fi : Z) (name d : bytes) :
  0 <= re + fe * DIRENT_SIZE ->
  bytes_ok dreg -> bytes_ok name ->
  write_dirent dreg re fe fi name = Done d ->
  bytes_ok d /\
  rd_u8 d (re + fe * DIRENT_SIZE + DE.checksum)
  = xor_all (slice d (re + fe * DIRENT_SIZE) 63).
Proof.
  intros H0 Hd Hn H. unfold write_dirent in H.
  set (de := re + fe * DIRENT_SIZE) in *.
  apply bind_done in H as (b0 & P0 & H).
  apply bind_done in H as (b1 & P1 & H).
  apply bind_done in H as (b2 & P2 & H).
  apply bind_done in H as (b3 & P3 & H).
  apply bind_done in H as (b4 & P4 & H).
  pose proof (bytes_ok_put_u32 _ _ _ _ Hd P0) as K0.
  pose proof (bytes_ok_put_u8 _ _ _ _ K0 P1) as K1.
  pose proof (bytes_ok_put_bytes _ _ _ _ K1 (bytes_ok_zeros 58) P2) as K2.
  pose proof (bytes_ok_strncpy _ _ _ _ _ K2 Hn P3) as K3.
  pose proof (bytes_ok_put_u8 _ _ _ _ K3 P4) as K4.
  assert (Lb : de + DIRENT_SIZE <= len b4).
  { unfold dirent_checksum_finalize in H.
    apply bind_done in H as (p & _ & H).
    unfold put_u8 in H. apply put_bytes_inv in H as (_ & H & _).
    rewrite len_le_encode in H. offsets. lia. }
  destruct (dirent_checksum_finalize_spec b4 de H0 Lb) as (d' & E & _ & X).
  assert (d' = d) by congruence. subst d'.
  split.
  - unfold dirent_checksum_finalize in H.
    apply bind_done in H as (p & _ & H). exact (bytes_ok_put_u8 _ _ _ _ K4 H).
  - apply X, bytes_ok_slice, K4.
Qed.

Lemma write_dirent_name_field (dreg : bytes) (re fe fi : Z) (name d : bytes) :
  0 <= re + fe * DIRENT_SIZE ->
  write_dirent dreg re fe fi name = Done d ->
  slice d (re + fe * DIRENT_SIZE + DE.name) DE.name_size
  = firstn 57 (cstr name) ++ zeros (58 - len (firstn 57 (cstr name))).
Proof.
  intros H0 H. unfold write_dirent in H.
  set (de := re + fe * DIRENT_SIZE) in *.
  pose proof (strlen_nonneg name) as Hs.
  pose proof (firstn_cstr_57 name) as Hch.
  set (name_len := if 57 <? strlen name then 57 else strlen name) in *.
  assert (Hn : 0 <= name_len <= 57).
  { unfold name_len. destruct (57 <? strlen name) eqn:E; [lia|].
    apply Z.ltb_ge in E. lia. }
  apply bind_done in H as (b0 & P0 & H).
  apply bind_done in H as (b1 & P1 & H).
  apply bind_done in H as (b2 & P2 & H).
  apply bind_done in H as (b3 & P3 & H).
  apply bind_done in H as (b4 & P4 & H).
  offsets.
  apply put_bytes_spec in P2 as [F2 S2]. rewrite len_zeros in F2, S2 by lia.
  pose proof (same_outside_len _ _ _ _ F2) as L2.
  unfold strncpy in P3. rewrite Hch in P3.
  set (chars := firstn 57 (cstr name)) in *.
  assert (Lc : len chars = name_len).
  { rewrite <- Hch. unfold len. rewrite length_firstn.
    unfold name_len, strlen, len in *.
    destruct (57 <? Z.of_nat (length (cstr name))) eqn:E;
      [apply Z.ltb_lt in E|apply Z.ltb_ge in E]; lia. }
  rewrite Lc, Z.sub_diag in P3. change (zeros 0) with (@nil Z) in P3.
  rewrite app_nil_r in P3. pose proof (put_bytes_inv _ _ _ _ P3) as (_ & B3 & _).
  apply put_bytes_spec in P3 as [F3 S3]. rewrite Lc in F3, S3, B3.
  pose proof (same_outside_len _ _ _ _ F3) as L3.
  pose proof (rd_put_u8 _ _ _ _ P4) as R4.
  apply put_u8_frame in P4 as F4.
  pose proof (same_outside_len _ _ _ _ F4) as L4.
  unfold dirent_checksum_finalize in H.
  apply bind_done in H as (p & _ & H).
  apply put_u8_frame in H as F5. unfold DE.checksum in F5.
  pose proof (same_outside_len _ _ _ _ F5) as L5.
  assert (Lb : de + 5 + 58 <= len b2).
  { pose proof (len_slice b2 (de + 5) 58) as X.
    unfold slice in S2. unfold len in *.
    assert (Hz : length (zeros 58) = 58%nat) by reflexivity.
    rewrite <- S2 in Hz. rewrite length_firstn, length_skipn in Hz. lia. }
  rewrite Lc.
  apply bytes_ext.
  - rewrite len_slice, len_app, len_zeros by lia. lia.
  - intros i Hi. rewrite len_slice in Hi by lia.
    rewrite byte_at_slice by lia.
    rewrite <- (same_outside_byte _ _ _ _ _ F5) by lia.
    rewrite byte_at_app, Lc, byte_at_zeros by lia.
    destruct (Z.ltb_spec i name_len).
    + rewrite <- (same_outside_byte _ _ _ _ _ F4) by lia.
      rewrite <- S3. rewrite byte_at_slice by lia. reflexivity.
    + destruct (Z.eq_dec i name_len) as [->|Ne].
      * rewrite <- rd_u8_byte_at by lia. exact R4.
      * rewrite <- (same_outside_byte _ _ _ _ _ F4) by lia.
        rewrite <- (same_outside_byte _ _ _ _ _ F3) by lia.
        rewrite <- (byte_at_slice b2 (de + 5) 58 i) by lia.
        rewrite S2. apply byte_at_zeros.
Qed.

(** ** The steps of a successful insertion *)

Lemma add_file_steps (s : fs) (file_name content : bytes) (now : Z) (s' : fs) :
  1 <= len content <= 12 * BS ->
  add_file s file_name (Some content) now = Done s' ->
  let needed := blocks_of (len content) in
  exists free_inode dbm dbs dreg1 itab1 ibm re fe itab2 dreg2 itab3,
    find_free_inode (inode_bitmap s) (sb_u64 (sb s) SB.inode_count)
      = Done free_inode /\
    alloc_blocks (Z.to_nat needed) 0 (sb s) (data_bitmap s) (repeat 0 12)
      = Done (dbm, dbs) /\
    write_content (Z.to_nat needed) 0 (sb s) needed (len content) dbs content
      (data_region s) = Done dreg1 /\
    create_inode (inode_table s) free_inode (len content) needed now dbs
      = Done itab1 /\
    mark (inode_bitmap s) (free_inode - 1) = Done ibm /\
    root_entries_of (sb s) itab1 = Done re /\
    find_dir_slot itab1 dreg1 re = Done (fe, itab2) /\
    write_dirent dreg1 re fe free_inode file_name = Done dreg2 /\
    bump_root_links itab2 = Done itab3 /\
    s' = {| sb := sb s; inode_bitmap := ibm; data_bitmap := dbm;
            inode_table := itab3; data_region := dreg2 |}.
Proof.
  intros Hsize H needed. unfold add_file in H.
  change (u64 (u64 (u64 (len content) + BS) - 1) / BS) with needed in H.
  rewrite (u64_small (len content)) in H by (unfold BS in *; lia).
  apply bind_done in H as (fi & Hfi & H); cbv beta iota in H.
  destruct (fi =? -1); [discriminate H|].
  destruct (12 <? needed); [discriminate H|].
  apply bind_done in H as ([dbm dbs] & Ha & H); cbv beta iota in H.
  rewrite fread_or_ok in H by (unfold fopen_r; cbn [f_data f_pos]; lia).
  cbn [bind fopen_r f_data f_pos] in H. rewrite slice_full in H.
  apply bind_done in H as (dreg1 & Hw & H); cbv beta iota in H.
  apply bind_done in H as (itab1 & Hc & H); cbv beta iota in H.
  apply bind_done in H as (ibm & Hm & H); cbv beta iota in H.
  apply bind_done in H as (re & Hre & H); cbv beta iota in H.
  apply bind_done in H as ([fe itab2] & Hf & H); cbv beta iota in H.
  apply bind_done in H as (dreg2 & Hd & H); cbv beta iota in H.
  apply bind_done in H as (itab3 & Hb & H); cbv beta iota in H.
  injection H as <-.
  exists fi, dbm, dbs, dreg1, itab1, ibm, re, fe, itab2, dreg2, itab3.
  repeat split; assumption.
Qed.

Lemma bytes_ok_write_content (sbk : bytes) (needed fsize : Z) (dbs : list Z)
    (content : bytes) (n : nat) :
  bytes_ok content ->
  forall (i : Z) (dreg dreg' : bytes),
  bytes_ok dreg ->
  write_content n i sbk needed fsize dbs content dreg = Done dreg' ->
  bytes_ok dreg'.
Proof.
  intros Hc. induction n as [|n IH]; intros i dreg dreg' Hd H.
  - cbn [write_content] in H. injection H as <-. exact Hd.
  - cbn [write_content] in H.
    apply bind_done in H as (src & Hs & H); cbv beta in H.
    apply bind_done in H as (d1 & Hp & H); cbv beta in H.
    apply get_bytes_inv in Hs as (_ & _ & _ & ->).
    apply (IH (i + 1) d1 dreg'); [|exact H].
    eapply bytes_ok_put_bytes; [exact Hd| |exact Hp].
    apply bytes_ok_slice, Hc.
Qed.

Section AddFileMore.

Variables (s : fs) (file_name content : bytes) (now : Z).

Let inodes := rd_u64 (sb s) SB.inode_count.
Let drs := rd_u64 (sb s) SB.data_region_start.
Let drb := rd_u64 (sb s) SB.data_region_blocks.
Let rb := rd_u32 (inode_table s) (INO.direct 0) - drs.
Let size := rd_u64 (inode_table s) INO.size_bytes.
Let entry_count := size / DIRENT_SIZE.
Let needed := blocks_of (len content).

Hypothesis V : valid_fs s.
Hypothesis Hsize : 1 <= len content <= 12 * BS.

Lemma add_file_stored (s' : fs) :
  add_file s file_name (Some content) now = Done s' ->
  exists k dbs fe,
    1 <= k < inodes /\
    bitmap_bit (inode_bitmap s) k = false /\
    (forall j, 0 <= j < k -> bitmap_bit (inode_bitmap s) j = true) /\
    inserted s file_name content k dbs fe s' /\
    stored s file_name content now k dbs fe s'.
Proof.
  intros H.
  destruct (add_file_steps s file_name content now s' Hsize H)
    as (fi & dbm & dbs & dreg1 & itab1 & ibm & re & fe & itab2 & dreg2 & itab3
        & Hfi & Ha & Hw & Hc & Hm & Hre & Hf & Hd & Hb & Es').
  fold needed in Ha, Hw, Hc.
  pose proof V as (W & Hn & Hs & B0 & Hrb & Brb & Hsz & Hcnt).
  pose proof W as (Lsb & _ & _ & _ & _ & Es & Hi & Hdr & Li & Ld & Lt & Lr).
  fold inodes in Hn, Hs. fold drs in Es, Hrb, Brb. fold drb in Hdr, Lr, Hrb.
  fold rb in Hrb, Brb. fold size in Hsz, Hcnt. fold entry_count in Hcnt.
  destruct (needed_blocks_spec (len content) Hsize) as [Hnd Hns].
  fold (blocks_of (len content)) in Hnd, Hns. fold needed in Hnd, Hns.
  (* the inode *)
  unfold sb_u64 in Hfi. fold inodes in Hfi.
  destruct (find_free_inode_spec (inode_bitmap s) inodes Li)
    as [(k & Hk & Kf & Kb & Kr)|[_ Kr]]; [lia| |].
  2: { rewrite Kr in Hfi. injection Hfi as <-.
       unfold add_file, sb_u64 in H. fold inodes in H. rewrite Kr in H.
       cbn in H. discriminate H. }
  assert (fi = k + 1) by congruence. subst fi.
  assert (Hk0 : k <> 0) by (intros ->; congruence).
  (* what is known already *)
  destruct (add_file_run s file_name content now V Hsize k dbm dbs
              ltac:(fold inodes; lia) Kf Kb Ha)
    as [(_ & _ & X)|(fe' & s'' & X & _ & I)]; [congruence|].
  assert (s'' = s') by congruence. subst s''. clear X.
  (* allocation *)
  assert (A1 : 0 <= sb_u64 (sb s) SB.data_region_start)
    by (unfold sb_u64; fold drs; lia).
  assert (A2 : 0 <= sb_u64 (sb s) SB.data_region_blocks <= 8 * BS)
    by (unfold sb_u64; fold drb; lia).
  assert (A3 : sb_u64 (sb s) SB.data_region_start
               + sb_u64 (sb s) SB.data_region_blocks < 2 ^ 32)
    by (unfold sb_u64; fold drs drb; unfold BS in *; lia).
  assert (A4 : 0 + Z.of_nat (Z.to_nat needed) <= Z.of_nat (length (repeat 0 12)))
    by (rewrite repeat_length; lia).
  destruct (alloc_blocks_inv (sb s) (Z.to_nat needed) A1 A2 A3 0 (data_bitmap s)
              (repeat 0 12) dbm dbs Ld (Z.le_refl 0) A4 Ha)
    as (Ld' & Ldbs & Mono & Back & All & _).
  destruct (alloc_blocks_order (sb s) (Z.to_nat needed) A1 A2 A3 0 (data_bitmap s)
              (repeat 0 12) dbm dbs Ld (Z.le_refl 0) A4 Ha)
    as (Below & Order).
  destruct (alloc_blocks_total (sb s) (Z.to_nat needed) A1 A2 A3 0 (data_bitmap s)
              (repeat 0 12) Ld (Z.le_refl 0)) as (Cno & Cyes).
  unfold sb_u64 in All, Back, Below, Cno, Cyes.
  fold drs drb in All. fold drs in Back, Below. fold drb in Cno, Cyes.
  rewrite Z2Nat.id in All, Back, Below, Order, Cno, Cyes by lia.
  cbn [Z.add] in All, Below, Order.
  assert (Hcount : count_free dbm drb = count_free (data_bitmap s) drb - needed).
  { destruct (Z_lt_le_dec (count_free (data_bitmap s) drb) needed) as [C|C].
    - rewrite (Cno C) in Ha. discriminate Ha.
    - destruct (Cyes C) as (dbm0 & dbs0 & E0 & C0). congruence. }
  clear Cno Cyes A4.
  (* content *)
  assert (Hblk : forall t, 0 <= t < needed ->
            exists fb, 0 <= fb /\ (fb + 1) * BS <= len (data_region s) /\
              nth (Z.to_nat t) dbs 0 = sb_u64 (sb s) SB.data_region_start + fb).
  { intros t Ht. destruct (All t) as (fb & Hfb & Et & _); [lia|].
    exists fb. split; [lia|]. split; [unfold BS in *; nia|exact Et]. }
  assert (H32 : sb_u64 (sb s) SB.data_region_start + len (data_region s) < 2 ^ 32)
    by (unfold sb_u64; fold drs; unfold BS in *; lia).
  destruct (write_content_spec (sb s) needed (len content) dbs content
              (Z.to_nat needed) A1 Hnd Hns eq_refl 0 (data_region s)
              (Z.le_refl 0) ltac:(lia) Hblk H32) as (dreg1' & Hw' & Aw).
  assert (dreg1' = dreg1) by congruence. subst dreg1'. clear Hw'.
  pose proof (agree_on_len _ _ _ Aw) as Lw.
  assert (Hdist : forall t u, 0 <= t -> t < u -> u < needed ->
            nth (Z.to_nat t) dbs 0 <> nth (Z.to_nat u) dbs 0).
  { intros t u H0 Htu Hu. specialize (Order t u H0 Htu Hu). lia. }
  pose proof (write_content_blocks (sb s) needed (len content) dbs content
                (Z.to_nat needed) A1 Hnd Hns eq_refl Hdist 0 (data_region s) dreg1
                (Z.le_refl 0) ltac:(lia) Hblk H32 Hw) as Cont.
  unfold sb_u64 in Cont. fold drs in Cont.
  (* the new inode *)
  assert (Eo : u32 ((k + 1 - 1) * INODE_SIZE) = k * INODE_SIZE).
  { replace (k + 1 - 1) with k by lia. apply u32_small. unfold INODE_SIZE, BS in *. lia. }
  assert (Hol : u32 ((k + 1 - 1) * INODE_SIZE) + INODE_SIZE <= len (inode_table s)).
  { rewrite Eo. unfold INODE_SIZE, BS in *. lia. }
  destruct (create_inode_spec (inode_table s) (k + 1) (len content) needed now dbs Hol)
    as (itab1' & c1 & Hc' & Fc & _ & _ & _ & Cc & Rc).
  assert (itab1' = itab1) by congruence. subst itab1'. clear Hc'.
  pose proof (create_inode_fields (inode_table s) (k + 1) (len content) needed now
                dbs itab1 Hol Hc) as Fields.
  pose proof (create_inode_keeps (inode_table s) (k + 1) (len content) needed now
                dbs itab1 Hol Hc) as Keeps.
  cbv zeta in Fields, Keeps. rewrite Eo in Fc, Cc, Rc, Fields, Keeps.
  pose proof (same_outside_len _ _ _ _ Fc) as Lc.
  (* the root directory *)
  assert (R44 : rd_u32 itab1 (INO.direct 0) = drs + rb).
  { rewrite (rd_u32_frame _ _ _ _ _ Fc) by (offsets; lia). unfold rb. lia. }
  assert (R12 : rd_u64 itab1 INO.size_bytes = size).
  { rewrite (rd_u64_frame _ _ _ _ _ Fc) by (offsets; lia). reflexivity. }
  assert (Ere : re = rb * BS).
  { unfold root_entries_of, sb_u64 in Hre. fold drs in Hre.
    rewrite get_u32_ok in Hre by (offsets; lia). cbn [bind] in Hre.
    rewrite R44 in Hre. replace (drs + rb - drs) with rb in Hre by lia.
    rewrite (u64_small rb), (u32_small rb), (u32_small (rb * BS)) in Hre
      by (unfold BS in *; lia).
    congruence. }
  subst re.
  assert (Hroot : forall p, in_block rb p ->
            forall t, 0 <= t < needed -> ~ in_block (nth (Z.to_nat t) dbs 0 - drs) p).
  { intros p Hp t Ht. destruct (All t) as (fb & Hfb & Et & Bf & _); [lia|].
    rewrite Et. replace (drs + fb - drs) with fb by lia.
    assert (fb <> rb) by (intros ->; congruence).
    unfold in_block, BS in *. intros Hq. nia. }
  assert (Efree : forall j, 0 <= j < 64 ->
            rd_u32 dreg1 (rb * BS + j * DIRENT_SIZE)
            = rd_u32 (data_region s) (rb * BS + j * DIRENT_SIZE)).
  { intros j Hj. apply (rd_u32_agree _ _ _ _ Aw); [unfold BS, DIRENT_SIZE in *; lia|].
    intros i Hq. unfold sb_u64. fold drs. apply Hroot.
    unfold in_block, BS, DIRENT_SIZE in *. lia. }
  assert (Hec : 0 <= entry_count <= 64).
  { split; [|exact Hcnt]. unfold entry_count, DIRENT_SIZE. apply Z.div_pos; lia. }
  pose proof I as (_ & Hfe' & Slot & _).
  fold drs in Slot. fold rb in Slot. fold size in Slot. fold entry_count in Slot.
  assert (Hslot : 0 <= fe < 64 /\ fe' = fe /\
            agree_on (fun p => p < 12 \/ 20 <= p < 120 \/ 128 <= p) itab1 itab2).
  { pose proof (find_dir_slot_spec itab1 dreg1 (rb * BS)) as FS.
    cbv zeta in FS. rewrite R12 in FS. fold entry_count in FS.
    destruct FS
      as [(fe0 & Hfe0 & Ff & Fb & Fr)|[(Hno & Hlt & it2 & c2 & Fr & Af & _)|(_ & _ & Fr)]];
      try (unfold INODE_SIZE, DIRENT_SIZE, BS in *; lia).
    - assert (fe0 = fe /\ itab1 = itab2) as [-> <-] by (split; congruence).
      split; [lia|]. split; [|apply agree_on_refl].
      rewrite Efree in Ff by lia.
      destruct Slot as [(S1 & S2 & S3 & _)|(S1 & S2 & _)].
      + destruct (Z.lt_trichotomy fe' fe) as [C|[C|C]]; [|exact C|].
        * exfalso. apply (Fb fe'); [lia|]. rewrite Efree by lia. exact S2.
        * exfalso. apply (S3 fe); [lia|exact Ff].
      + exfalso. apply (S2 fe); [lia|exact Ff].
    - assert (entry_count = fe /\ it2 = itab2) as [<- ->] by (split; congruence).
      split; [lia|]. split; [|exact Af].
      destruct Slot as [(S1 & S2 & _)|(S1 & _)]; [|exact S1].
      exfalso. apply (Hno fe'); [lia|]. rewrite Efree by lia. exact S2.
    - congruence. }
  destruct Hslot as (Hfe & -> & Af).
  pose proof (agree_on_len _ _ _ Af) as Laf.
  (* the entry *)
  assert (Hde0 : 0 <= rb * BS + fe * DIRENT_SIZE) by (unfold DIRENT_SIZE, BS in *; lia).
  assert (Hde1 : rb * BS + fe * DIRENT_SIZE + DIRENT_SIZE <= len dreg1)
    by (unfold DIRENT_SIZE, BS in *; lia).
  destruct (write_dirent_spec dreg1 (rb * BS) fe (k + 1) file_name Hde0 Hde1)
    as (dreg2' & Hd' & Fd & _).
  assert (dreg2' = dreg2) by congruence. subst dreg2'. clear Hd'.
  pose proof (write_dirent_name_field dreg1 (rb * BS) fe (k + 1) file_name dreg2
                Hde0 Hd) as Name.
  (* the link count *)
  destruct (bump_root_links_spec itab2) as (itab3' & c3 & Hb' & Ab & _ & C3 & R3);
    [unfold INODE_SIZE, BS in *; lia|].
  assert (itab3' = itab3) by congruence. subst itab3'. clear Hb'.
  pose proof (agree_on_len _ _ _ Ab) as Lab.
  (* slot [k] from [itab1] to [itab3] *)
  assert (A13 : agree_on (fun p => 128 <= p) itab1 itab3).
  { eapply agree_on_trans; [exact Af|exact Ab|]. intros i Hq. cbv beta. lia. }
  assert (Hk1 : 1 <= k) by lia.
  exists k, dbs, fe.
  split; [fold inodes; lia|]. split; [exact Kf|]. split; [exact Kb|]. split; [exact I|].
  subst s'. unfold stored.
  cbn [sb inode_bitmap data_bitmap inode_table data_region].
  fold drs drb. fold rb. fold needed.
  destruct Fields as (F1 & F2 & F3 & F4 & F5 & F6 & F7).
  unfold INODE_SIZE in *.
  repeat match goal with |- _ /\ _ => split end.
  - rewrite (rd_u32_agree _ _ _ _ A13) by (offsets; lia). exact F1.
  - rewrite (rd_u32_agree _ _ _ _ A13) by (offsets; lia). exact F2.
  - rewrite (rd_u64_agree _ _ _ _ A13) by (offsets; lia). exact F3.
  - rewrite (rd_u64_agree _ _ _ _ A13) by (offsets; lia). exact F4.
  - rewrite (rd_u64_agree _ _ _ _ A13) by (offsets; lia). exact F5.
  - rewrite (rd_u32_agree _ _ _ _ A13) by (offsets; lia). exact F6.
  - intros t Ht. rewrite (rd_u32_agree _ _ _ _ A13) by (offsets; lia).
    rewrite F7 by lia. destruct (Z.ltb_spec t needed) as [C|C]; [|reflexivity].
    destruct (All t) as (fb & Hfb & Et & _); [lia|].
    rewrite Et. apply u32_small. unfold BS in *. lia.
  - eapply agree_on_trans; [exact Keeps|exact A13|].
    intros i Hq. cbv beta. lia.
  - exact Order.
  - exact Below.
  - intros t Ht. rewrite <- Cont by exact Ht.
    destruct (All t Ht) as (fb & Hfb & Et & Bf & _). rewrite Et.
    replace (drs + fb - drs) with fb by lia.
    assert (fb <> rb) by (intros ->; congruence).
    symmetry. apply (same_outside_slice _ _ _ _ _ _ Fd);
      unfold DIRENT_SIZE, BS in *; lia.
  - exact Hcount.
  - rewrite <- R3 in C3. rewrite <- Rc in Cc.
    rewrite <- (rd_u64_agree _ _ _ _ A13) in Cc by (offsets; lia).
    rewrite <- Cc. apply crc32_prefix.
    + rewrite len_slice; lia.
    + rewrite len_slice; lia.
    + rewrite !slice_slice by lia. symmetry.
      apply (agree_on_slice _ _ _ _ _ A13); [lia..|]. intros; lia.
  - rewrite <- R3 in C3. exact C3.
  - intros Bd Bc Bn.
    apply (write_dirent_checksum dreg1 (rb * BS) fe (k + 1) file_name dreg2 Hde0);
      [|exact Bn|exact Hd].
    exact (bytes_ok_write_content _ _ _ _ _ _ Bc _ _ _ Bd Hw).
  - exact Name.
Qed.

End AddFileMore.

(** ** The whole run, once more *)

Lemma mkfs_adder_stored (img file_name : bytes) (file : option bytes) (now : Z)
    (can_create : bool) (out : bytes) :
  valid_image img -> file_fits file ->
  mkfs_adder (Some img) file_name file now can_create = Done out ->
  exists s' content k dbs fe,
    out = layout s' /\ well_laid s' /\
    file = Some content /\ 1 <= len content <= 12 * BS /\
    1 <= k < rd_u64 img SB.inode_count /\
    bitmap_bit (img_inode_bitmap img) k = false /\
    (forall j, 0 <= j < k -> bitmap_bit (img_inode_bitmap img) j = true) /\
    inserted (fs_of_image img) file_name content k dbs fe s' /\
    stored (fs_of_image img) file_name content now k dbs fe s'.
Proof.
  intros V Hfit H. destruct (valid_image_fs img V) as [Hl Vs].
  destruct (mkfs_adder_inv _ _ _ _ _ _ V Hfit H)
    as (s0 & content & _ & _ & _ & _ & _ & -> & Hs & _).
  unfold mkfs_adder in H. rewrite Hl in H. cbn [bind] in H.
  destruct (add_file _ _ _ _) as [s'| |] eqn:A; cbn [bind] in H; try discriminate.
  destruct can_create; cbn [negb] in H; [|discriminate].
  injection H as <-.
  destruct (add_file_stored _ _ _ _ Vs Hs _ A) as (k & dbs & fe & Hk & Kf & Kb & I & St).
  pose proof Vs as (W & _).
  pose proof (inserted_well_laid _ _ _ _ _ _ _ W I) as W'.
  exists s', content, k, dbs, fe.
  split; [apply persist_layout, W'|]. split; [exact W'|].
  split; [reflexivity|]. split; [exact Hs|].
  unfold fs_of_image in Hk. cbn [sb] in Hk.
  rewrite rd_u64_slice in Hk by (offsets; lia).
  auto.
Qed.

(** ** Reading a file back *)

Lemma skipn_all_len (c : bytes) (a : Z) : len c <= a -> skipn (Z.to_nat a) c = [].
Proof. intros H. apply skipn_all2. unfold len in H. lia. Qed.

Lemma read_blocks_content (ino dreg content : bytes) (drs needed : Z) (dbs : list Z) :
  1 <= needed <= 12 -> len content <= needed * BS ->
  (forall t, 0 <= t < 12 ->
     rd_u32 ino (INO.direct t) = if t <? needed then nth (Z.to_nat t) dbs 0 else 0) ->
  (forall t, 0 <= t < needed ->
     slice dreg ((nth (Z.to_nat t) dbs 0 - drs) * BS) (Z.min BS (len content - t * BS))
     = slice content (t * BS) (Z.min BS (len content - t * BS))) ->
  forall (n : nat) (t : Z), 0 <= t -> t + Z.of_nat n = 12 ->
  read_blocks n t (len content - t * BS) ino dreg drs
  = skipn (Z.to_nat (t * BS)) content.
Proof.
  intros Hnd Hlen Hptr Hcont.
  induction n as [|n IH]; intros t Ht Hn.
  - cbn [read_blocks]. symmetry. apply skipn_all_len. unfold BS in *. lia.
  - cbn [read_blocks].
    replace (len content - t * BS - BS) with (len content - (t + 1) * BS) by lia.
    rewrite IH by lia. rewrite Hptr by lia.
    pose proof (len_nonneg content) as Hl0.
    destruct (Z.ltb_spec t needed) as [C|C].
    + rewrite Hcont by lia. unfold slice.
      destruct (Z_le_gt_dec BS (len content - t * BS)) as [Le|Gt].
      * rewrite Z.min_l by lia.
        replace (Z.to_nat ((t + 1) * BS)) with (Z.to_nat BS + Z.to_nat (t * BS))%nat
          by (unfold BS; lia).
        rewrite <- skipn_skipn. apply firstn_skipn.
      * rewrite Z.min_r by lia.
        rewrite (skipn_all_len content ((t + 1) * BS)) by lia.
        rewrite app_nil_r. apply firstn_all2.
        rewrite length_skipn. unfold len in *. unfold BS in *. lia.
    + rewrite (skipn_all_len content ((t + 1) * BS)) by (unfold BS in *; lia).
      rewrite (skipn_all_len content (t * BS)) by (unfold BS in *; lia).
      rewrite app_nil_r. unfold slice.
      replace (Z.to_nat (Z.min BS (len content - t * BS))) with 0%nat
        by (unfold BS in *; lia).
      reflexivity.
Qed.

(** X10. The file can be read back from the output image.  The inode
    whose bit the run has set is named by one entry of the root directory,
    its size is the length of the source file, and following its direct
    pointers through the data region, block by block up to that size, gives
    the very bytes of the source file. *)
Theorem inserted_file_reads_back (img file_name content : bytes) (now : Z)
    (can_create : bool) (out : bytes) :
  valid_image img -> len content < 2 ^ 63 ->
  mkfs_adder (Some img) file_name (Some content) now can_create = Done out ->
  exists k fe,
    bitmap_bit (img_inode_bitmap img) k = false /\
    bitmap_bit (img_inode_bitmap out) k = true /\
    rd_u32 (root_dirent out fe) DE.inode_no = k + 1 /\
    rd_u64 (inode_slot out k) INO.size_bytes = len content /\
    read_back out k = content.
Proof.
  intros V Hfit H.
  destruct (mkfs_adder_stored img file_name (Some content) now can_create out V Hfit H)
    as (s' & c & k & dbs & fe & -> & W' & [= <-] & Hs & Hk & Kf & _ & I & St).
  destruct (needed_blocks_spec (len content) Hs) as [Hnd Hns].
  fold (blocks_of (len content)) in Hnd, Hns.
  pose proof (valid_image_fs img V) as [_ Vs].
  pose proof Vs as (W & _ & Hsz & _ & Hrb & _).
  pose proof W as (_ & _ & _ & _ & _ & _ & Hi & Hd & _ & _ & Lt & Lr).
  destruct I as (Es & Hfe & _ & _ & Bi & _ & _ & _ & At & _ & _ & _ & S1 & _ & D1 & _).
  destruct St as (_ & _ & _ & _ & _ & _ & Ptr & _ & _ & _ & Cont & _).
  pose proof (agree_on_len _ _ _ At) as Lt'.
  assert (E44 : rd_u32 (inode_table s') (INO.direct 0)
                = rd_u32 (inode_table (fs_of_image img)) (INO.direct 0)).
  { apply (rd_u32_agree _ _ _ _ At); [offsets; lia|].
    unfold in_slot. offsets. intros; lia. }
  exists k, fe.
  unfold read_back, root_dirent, root_block, data_block, inode_slot.
  rewrite layout_inode_table, layout_data_region, layout_inode_bitmap by exact W'.
  rewrite layout_rd_u64 by (auto; offsets; lia). rewrite Es, E44.
  unfold fs_of_image in *.
  cbn [sb inode_bitmap data_bitmap inode_table data_region] in *.
  rewrite !rd_u64_slice in * by (offsets; lia). cbn [Z.add] in *.
  set (drs := rd_u64 img SB.data_region_start) in *.
  set (rb := rd_u32 (img_inode_table img) (INO.direct 0) - drs) in *.
  split; [exact Kf|].
  split; [rewrite Bi, Z.eqb_refl by lia; reflexivity|].
  assert (Hk128 : (k + 1) * 128 <= len (inode_table s')) by (unfold INODE_SIZE, BS in *; lia).
  unfold INODE_SIZE, DIRENT_SIZE in *.
  split.
  { rewrite rd_u32_slice by (offsets; lia).
    rewrite rd_u32_slice by (offsets; lia).
    match goal with
    | |- rd_u32 _ ?o = _ => replace o with (rb * BS + fe * 64 + DE.inode_no)
                              by (offsets; lia)
    end.
    exact D1. }
  split.
  { exact S1. }
  rewrite S1.
  replace (len content) with (len content - 0 * BS) at 1 by lia.
  rewrite (read_blocks_content _ (data_region s') content drs
             (blocks_of (len content)) dbs Hnd); try lia.
  - reflexivity.
  - intros t Ht. rewrite rd_u32_slice by (offsets; lia). apply Ptr, Ht.
  - exact Cont.
Qed.

Lemma inserted_file_reads_back_witness :
  exists k fe,
    bitmap_bit (img_inode_bitmap sample_image) k = false /\
    bitmap_bit (img_inode_bitmap sample_output) k = true /\
    rd_u32 (root_dirent sample_output fe) DE.inode_no = k + 1 /\
    rd_u64 (inode_slot sample_output k) INO.size_bytes = len [72; 105; 10] /\
    read_back sample_output k = [72; 105; 10].
Proof.
  apply (inserted_file_reads_back sample_image [102; 49] [72; 105; 10]
           1700000001 true sample_output).
  - exact sample_image_valid.
  - by_computation.
  - exact sample_insertion.
Defined.

(** The regions of the output image of a run, in terms of what the run
    held in memory. *)
Ltac output_regions W' :=
  unfold root_dirent, root_block, data_block, inode_slot;
  rewrite ?layout_inode_table, ?layout_data_region, ?layout_inode_bitmap,
    ?layout_data_bitmap by exact W';
  rewrite ?layout_rd_u64 by (auto; offsets; lia).

(** X8. The inode record of the new file.  It lies in the lowest slot
    [k] whose bit was clear (never slot 0), and in the inode bitmap this bit
    is the only one to change.  The record is a regular file with one link,
    uid and gid 0, the size of the source file, the three times at the time
    of the run, project id 1234, and zero in every direct pointer past the
    blocks of the file.  The reserved fields, [uid16_gid16] and [xattr_ptr]
    are not written: they keep what the slot held in the input image. *)
Theorem new_inode_record (img file_name content : bytes) (now : Z)
    (can_create : bool) (out : bytes) :
  valid_image img -> len content < 2 ^ 63 ->
  mkfs_adder (Some img) file_name (Some content) now can_create = Done out ->
  exists k,
    1 <= k < rd_u64 img SB.inode_count /\
    bitmap_bit (img_inode_bitmap img) k = false /\
    (forall j, 0 <= j < k -> bitmap_bit (img_inode_bitmap img) j = true) /\
    (forall j, 0 <= j ->
       bitmap_bit (img_inode_bitmap out) j
       = (j =? k) || bitmap_bit (img_inode_bitmap img) j) /\
    rd_u16 (inode_slot out k) INO.mode = 0x8000 /\
    rd_u16 (inode_slot out k) INO.links = 1 /\
    rd_u32 (inode_slot out k) INO.uid = 0 /\
    rd_u32 (inode_slot out k) INO.gid = 0 /\
    rd_u64 (inode_slot out k) INO.size_bytes = len content /\
    rd_u64 (inode_slot out k) INO.atime = u64 now /\
    rd_u64 (inode_slot out k) INO.mtime = u64 now /\
    rd_u64 (inode_slot out k) INO.ctime = u64 now /\
    rd_u32 (inode_slot out k) INO.proj_id = 1234 /\
    (forall t, blocks_of (len content) <= t < 12 ->
       rd_u32 (inode_slot out k) (INO.direct t) = 0) /\
    slice (inode_slot out k) INO.reserved_0 12
      = slice (inode_slot img k) INO.reserved_0 12 /\
    slice (inode_slot out k) INO.uid16_gid16 12
      = slice (inode_slot img k) INO.uid16_gid16 12.
Proof.
  intros V Hfit H.
  destruct (mkfs_adder_stored img file_name (Some content) now can_create out V Hfit H)
    as (s' & c & k & dbs & fe & -> & W' & [= <-] & Hs & Hk & Kf & Kb & I & St).
  pose proof (valid_image_fs img V) as [_ Vs].
  pose proof Vs as (W & _ & Hsz & _).
  pose proof W as (_ & _ & _ & _ & _ & _ & Hi & Hd & _ & _ & Lt & Lr).
  destruct I as (Es & _ & _ & _ & Bi & _ & _ & _ & At & _ & M1 & M2 & S1 & _).
  destruct St as (F1 & F2 & F3 & F4 & F5 & F6 & Ptr & Keep & _).
  pose proof (agree_on_len _ _ _ At) as Lt'.
  exists k. output_regions W'.
  unfold fs_of_image in *.
  cbn [sb inode_bitmap data_bitmap inode_table data_region] in *.
  rewrite !rd_u64_slice in * by (offsets; lia). cbn [Z.add] in *.
  assert (Hk128 : (k + 1) * 128 <= len (inode_table s'))
    by (unfold INODE_SIZE, BS in *; lia).
  unfold INODE_SIZE in *.
  rewrite ?rd_u16_slice, ?rd_u32_slice by (offsets; lia).
  destruct (needed_blocks_spec (len content) Hs) as [Hnd _].
  fold (blocks_of (len content)) in Hnd.
  repeat match goal with |- _ /\ _ => split end;
    try assumption; try lia.
  - intros t Ht. rewrite rd_u32_slice by (offsets; lia). rewrite Ptr by lia.
    replace (t <? blocks_of (len content)) with false
      by (symmetry; apply Z.ltb_ge; lia).
    reflexivity.
  - rewrite !slice_slice by (offsets; lia). symmetry.
    apply (agree_on_slice _ _ _ _ _ Keep); [offsets; lia..|].
    intros i Hq. offsets. lia.
  - rewrite !slice_slice by (offsets; lia). symmetry.
    apply (agree_on_slice _ _ _ _ _ Keep); [offsets; lia..|].
    intros i Hq. offsets. lia.
Qed.

Lemma new_inode_record_witness :
  exists k,
    1 <= k < rd_u64 sample_image SB.inode_count /\
    bitmap_bit (img_inode_bitmap sample_image) k = false /\
    (forall j, 0 <= j < k -> bitmap_bit (img_inode_bitmap sample_image) j = true) /\
    (forall j, 0 <= j ->
       bitmap_bit (img_inode_bitmap sample_output) j
       = (j =? k) || bitmap_bit (img_inode_bitmap sample_image) j) /\
    rd_u16 (inode_slot sample_output k) INO.mode = 0x8000 /\
    rd_u16 (inode_slot sample_output k) INO.links = 1 /\
    rd_u32 (inode_slot sample_output k) INO.uid = 0 /\
    rd_u32 (inode_slot sample_output k) INO.gid = 0 /\
    rd_u64 (inode_slot sample_output k) INO.size_bytes = len [72; 105; 10] /\
    rd_u64 (inode_slot sample_output k) INO.atime = u64 1700000001 /\
    rd_u64 (inode_slot sample_output k) INO.mtime = u64 1700000001 /\
    rd_u64 (inode_slot sample_output k) INO.ctime = u64 1700000001 /\
    rd_u32 (inode_slot sample_output k) INO.proj_id = 1234 /\
    (forall t, blocks_of (len [72; 105; 10]) <= t < 12 ->
       rd_u32 (inode_slot sample_output k) (INO.direct t) = 0) /\
    slice (inode_slot sample_output k) INO.reserved_0 12
      = slice (inode_slot sample_image k) INO.reserved_0 12 /\
    slice (inode_slot sample_output k) INO.uid16_gid16 12
      = slice (inode_slot sample_image k) INO.uid16_gid16 12.
Proof.
  apply (new_inode_record sample_image [102; 49] [72; 105; 10]
           1700000001 true sample_output).
  - exact sample_image_valid.
  - by_computation.
  - exact sample_insertion.
Defined.

(** X9. The data blocks of the new file.  Its direct pointers name
    blocks inside the data region that were free in the input image and are
    taken in the output image, in increasing order, each one the lowest
    free block at its turn: every bit below it is set afterwards.  No other
    bit of the data bitmap changes, so the number of free blocks goes down
    by the number of blocks of the file. *)
Theorem file_blocks_lowest_free (img file_name content : bytes) (now : Z)
    (can_create : bool) (out : bytes) :
  valid_image img -> len content < 2 ^ 63 ->
  mkfs_adder (Some img) file_name (Some content) now can_create = Done out ->
  let drs := rd_u64 img SB.data_region_start in
  let drb := rd_u64 img SB.data_region_blocks in
  let needed := blocks_of (len content) in
  exists k,
    bitmap_bit (img_inode_bitmap img) k = false /\
    bitmap_bit (img_inode_bitmap out) k = true /\
    let blk t := rd_u32 (inode_slot out k) (INO.direct t) - drs in
    (forall t, 0 <= t < needed ->
       0 <= blk t < drb /\
       bitmap_bit (img_data_bitmap img) (blk t) = false /\
       bitmap_bit (img_data_bitmap out) (blk t) = true) /\
    (forall t u, 0 <= t -> t < u -> u < needed -> blk t < blk u) /\
    (forall t j, 0 <= t < needed -> 0 <= j < blk t ->
       bitmap_bit (img_data_bitmap out) j = true) /\
    (forall j, 0 <= j -> bitmap_bit (img_data_bitmap img) j = true ->
       bitmap_bit (img_data_bitmap out) j = true) /\
    (forall j, 0 <= j -> bitmap_bit (img_data_bitmap out) j = true ->
       bitmap_bit (img_data_bitmap img) j = true \/
       exists t, 0 <= t < needed /\ blk t = j) /\
    count_free (img_data_bitmap out) drb
    = count_free (img_data_bitmap img) drb - needed.
Proof.
  intros V Hfit H drs drb needed.
  destruct (mkfs_adder_stored img file_name (Some content) now can_create out V Hfit H)
    as (s' & c & k & dbs & fe & -> & W' & [= <-] & Hs & Hk & Kf & Kb & I & St).
  pose proof (valid_image_fs img V) as [_ Vs].
  pose proof Vs as (W & _ & Hsz & _).
  pose proof W as (_ & _ & _ & _ & _ & _ & Hi & Hd & _ & _ & Lt & Lr).
  destruct I as (Es & _ & _ & _ & Bi & _ & Bd & All & At & _).
  destruct St as (_ & _ & _ & _ & _ & _ & Ptr & _ & Order & Below & _ & Cnt & _).
  pose proof (agree_on_len _ _ _ At) as Lt'.
  destruct (needed_blocks_spec (len content) Hs) as [Hnd _].
  fold (blocks_of (len content)) in Hnd, Bd, All. fold needed in Hnd, Bd, All, Ptr, Order, Below, Cnt.
  exists k. output_regions W'.
  unfold fs_of_image in *.
  cbn [sb inode_bitmap data_bitmap inode_table data_region] in *.
  rewrite !rd_u64_slice in * by (offsets; lia). cbn [Z.add] in *.
  fold drs drb in Bd, All, Below, Cnt.
  assert (Hk128 : (k + 1) * 128 <= len (inode_table s'))
    by (unfold INODE_SIZE, BS in *; lia).
  unfold INODE_SIZE in *.
  assert (Eblk : forall t, 0 <= t < needed ->
            rd_u32 (slice (inode_table s') (k * 128) 128) (INO.direct t)
            = nth (Z.to_nat t) dbs 0).
  { intros t Ht. rewrite rd_u32_slice by (offsets; lia). rewrite Ptr by lia.
    replace (t <? needed) with true by (symmetry; apply Z.ltb_lt; lia).
    reflexivity. }
  split; [exact Kf|].
  split; [rewrite Bi, Z.eqb_refl by lia; reflexivity|].
  cbv zeta.
  repeat match goal with |- _ /\ _ => split end.
  - intros t Ht. rewrite Eblk by lia.
    destruct (All t Ht) as (fb & Hfb & Et & Bf). rewrite Et.
    replace (drs + fb - drs) with fb by lia.
    split; [lia|]. split; [exact Bf|].
    apply Bd; [lia|]. right. exists t. split; [exact Ht|exact Et].
  - intros t u H0 Htu Hu. rewrite !Eblk by lia.
    specialize (Order t u H0 Htu Hu). lia.
  - intros t j Ht Hj. rewrite Eblk in Hj by lia. exact (Below t j Ht Hj).
  - intros j Hj Bj. apply Bd; [exact Hj|now left].
  - intros j Hj Bj. apply Bd in Bj; [|exact Hj].
    destruct Bj as [B|(t & Ht & Et)]; [now left|].
    right. exists t. split; [exact Ht|]. rewrite Eblk by lia. lia.
  - exact Cnt.
Qed.

Lemma file_blocks_lowest_free_witness :
  let drs := rd_u64 sample_image SB.data_region_start in
  let drb := rd_u64 sample_image SB.data_region_blocks in
  let needed := blocks_of (len [72; 105; 10]) in
  exists k,
    bitmap_bit (img_inode_bitmap sample_image) k = false /\
    bitmap_bit (img_inode_bitmap sample_output) k = true /\
    let blk t := rd_u32 (inode_slot sample_output k) (INO.direct t) - drs in
    (forall t, 0 <= t < needed ->
       0 <= blk t < drb /\
       bitmap_bit (img_data_bitmap sample_image) (blk t) = false /\
       bitmap_bit (img_data_bitmap sample_output) (blk t) = true) /\
    (forall t u, 0 <= t -> t < u -> u < needed -> blk t < blk u) /\
    (forall t j, 0 <= t < needed -> 0 <= j < blk t ->
       bitmap_bit (img_data_bitmap sample_output) j = true) /\
    (forall j, 0 <= j -> bitmap_bit (img_data_bitmap sample_image) j = true ->
       bitmap_bit (img_data_bitmap sample_output) j = true) /\
    (forall j, 0 <= j -> bitmap_bit (img_data_bitmap sample_output) j = true ->
       bitmap_bit (img_data_bitmap sample_image) j = true \/
       exists t, 0 <= t < needed /\ blk t = j) /\
    count_free (img_data_bitmap sample_output) drb
    = count_free (img_data_bitmap sample_image) drb - needed.
Proof.
  apply (file_blocks_lowest_free sample_image [102; 49] [72; 105; 10]
           1700000001 true sample_output).
  - exact sample_image_valid.
  - by_computation.
  - exact sample_insertion.
Defined.

(** X13. The checksums of the output image verify.  On an image and a
    file made of bytes, after a successful run the stored CRC of the root
    inode and of the new inode is the CRC32 of the first 120 bytes of the
    record, and the last byte of the new directory entry is the XOR of its
    first 63 bytes. *)
Theorem output_checksums_verify (img file_name content : bytes) (now : Z)
    (can_create : bool) (out : bytes) :
  valid_image img -> len content < 2 ^ 63 ->
  bytes_ok img -> bytes_ok file_name -> bytes_ok content ->
  mkfs_adder (Some img) file_name (Some content) now can_create = Done out ->
  exists k fe,
    bitmap_bit (img_inode_bitmap img) k = false /\
    bitmap_bit (img_inode_bitmap out) k = true /\
    rd_u32 (root_dirent out fe) DE.inode_no = k + 1 /\
    crc32 (inode_slot out 0) 120 = Done (rd_u64 (inode_slot out 0) INO.inode_crc) /\
    crc32 (inode_slot out k) 120 = Done (rd_u64 (inode_slot out k) INO.inode_crc) /\
    rd_u8 (root_dirent out fe) DE.checksum = xor_all (slice (root_dirent out fe) 0 63).
Proof.
  intros V Hfit Bimg Bname Bcont H.
  destruct (mkfs_adder_stored img file_name (Some content) now can_create out V Hfit H)
    as (s' & c & k & dbs & fe & -> & W' & [= <-] & Hs & Hk & Kf & Kb & I & St).
  pose proof (valid_image_fs img V) as [_ Vs].
  pose proof Vs as (W & _ & Hsz & _ & Hrb & _).
  pose proof W as (_ & _ & _ & _ & _ & _ & Hi & Hd & _ & _ & Lt & Lr).
  destruct I as (Es & Hfe & _ & _ & Bi & _ & _ & _ & At & _ & _ & _ & _ & Ar & D1 & _).
  destruct St as (_ & _ & _ & _ & _ & _ & _ & _ & _ & _ & _ & _ & Ck & C0 & Xd & _).
  pose proof (agree_on_len _ _ _ At) as Lt'.
  pose proof (agree_on_len _ _ _ Ar) as Lr'.
  assert (E44 : rd_u32 (inode_table s') (INO.direct 0)
                = rd_u32 (inode_table (fs_of_image img)) (INO.direct 0)).
  { apply (rd_u32_agree _ _ _ _ At); [offsets; lia|].
    unfold in_slot. offsets. intros; lia. }
  exists k, fe. output_regions W'. rewrite Es, E44.
  unfold fs_of_image in *.
  cbn [sb inode_bitmap data_bitmap inode_table data_region] in *.
  rewrite !rd_u64_slice in * by (offsets; lia). cbn [Z.add] in *.
  set (drs := rd_u64 img SB.data_region_start) in *.
  set (rb := rd_u32 (img_inode_table img) (INO.direct 0) - drs) in *.
  assert (Hk128 : (k + 1) * 128 <= len (inode_table s'))
    by (unfold INODE_SIZE, BS in *; lia).
  unfold INODE_SIZE, DIRENT_SIZE in *.
  split; [exact Kf|].
  split; [rewrite Bi, Z.eqb_refl by lia; reflexivity|].
  rewrite ?rd_u64_slice, ?rd_u32_slice, ?rd_u8_slice by (offsets; unfold BS in *; lia).
  rewrite ?rd_u32_slice, ?rd_u8_slice by (offsets; unfold BS in *; lia).
  rewrite !slice_slice by (offsets; unfold BS in *; lia).
  split.
  { match goal with
    | |- rd_u32 _ ?o = _ => replace o with (rb * BS + fe * 64 + DE.inode_no)
                              by (offsets; lia)
    end.
    exact D1. }
  split; [exact C0|]. split; [exact Ck|].
  match goal with
  | |- rd_u8 _ ?o = xor_all (slice _ ?o' _) =>
      replace o with (rb * BS + fe * 64 + DE.checksum) by (offsets; lia);
      replace o' with (rb * BS + fe * 64) by lia
  end.
  apply Xd; [|exact Bcont|exact Bname].
  unfold img_data_region. apply bytes_ok_slice, Bimg.
Qed.

(** ** Images made of bytes *)

(** Take a chain of binds apart, one equation per step. *)
Ltac unchain H :=
  repeat (let x := fresh "b" in
          let P := fresh "P" in
          apply bind_done in H as (x & P & H); cbv beta iota in H).

Lemma bytes_ok_clear_direct (n : nat) (i : Z) (buf : bytes) (ino : Z) (r : bytes) :
  bytes_ok buf -> clear_direct n i buf ino = Done r -> bytes_ok r.
Proof.
  revert i buf. induction n as [|n IH]; intros i buf Hb H; cbn [clear_direct] in H.
  - now injection H as <-.
  - apply bind_done in H as (b & P & H); cbv beta in H.
    apply (IH (i + 1) b); [|exact H].
    exact (bytes_ok_put_u32 _ _ _ _ Hb P).
Qed.

(** A buffer reached by stores from a buffer of bytes. *)
Ltac bytes_chain :=
  repeat first
    [ assumption
    | apply bytes_ok_zeros
    | match goal with
      | P : put_u8 _ _ _ = Done ?r |- bytes_ok ?r =>
          refine (bytes_ok_put_u8 _ _ _ _ _ P)
      | P : put_u16 _ _ _ = Done ?r |- bytes_ok ?r =>
          refine (bytes_ok_put_u16 _ _ _ _ _ P)
      | P : put_u32 _ _ _ = Done ?r |- bytes_ok ?r =>
          refine (bytes_ok_put_u32 _ _ _ _ _ P)
      | P : put_u64 _ _ _ = Done ?r |- bytes_ok ?r =>
          refine (bytes_ok_put_u64 _ _ _ _ _ P)
      | P : put_bytes _ _ _ = Done ?r |- bytes_ok ?r =>
          refine (bytes_ok_put_bytes _ _ _ _ _ _ P)
      | P : strncpy _ _ _ _ = Done ?r |- bytes_ok ?r =>
          refine (bytes_ok_strncpy _ _ _ _ _ _ _ P)
      | P : clear_direct _ _ _ _ = Done ?r |- bytes_ok ?r =>
          refine (bytes_ok_clear_direct _ _ _ _ _ _ P)
      end ].

Lemma bytes_ok_inode_crc_finalize buf off r :
  bytes_ok buf -> inode_crc_finalize buf off = Done r -> bytes_ok r.
Proof.
  intros Hb H. unfold inode_crc_finalize in H. unchain H. bytes_chain.
Qed.

Lemma bytes_ok_dirent_checksum_finalize buf off r :
  bytes_ok buf -> dirent_checksum_finalize buf off = Done r -> bytes_ok r.
Proof.
  intros Hb H. unfold dirent_checksum_finalize in H. unchain H. bytes_chain.
Qed.

Lemma bytes_ok_superblock_crc_finalize mem r :
  bytes_ok mem -> superblock_crc_finalize mem = Done r -> bytes_ok r.
Proof.
  intros Hb H. unfold superblock_crc_finalize in H. unchain H. bytes_chain.
Qed.

Lemma bytes_ok_init_superblock g inodes now r :
  init_superblock g inodes now = Done r -> bytes_ok r.
Proof.
  intros H. unfold init_superblock in H. unchain H. bytes_chain.
Qed.

Lemma bytes_ok_init_root_inode t0 g now r :
  bytes_ok t0 -> init_root_inode t0 g now = Done r -> bytes_ok r.
Proof.
  intros Hb H. unfold init_root_inode in H.
  do 9 (let x := fresh "b" in
        let P := fresh "P" in
        apply bind_done in H as (x & P & H); cbv beta in H).
  unchain H. bytes_chain.
Qed.

Lemma bytes_ok_init_dirent d off name r :
  bytes_ok d -> bytes_ok name -> init_dirent d off name = Done r -> bytes_ok r.
Proof.
  intros Hb Hn H. unfold init_dirent in H. unchain H. cbv zeta in H. bytes_chain.
Qed.

Lemma bytes_ok_fwrite (fp : file) (d : bytes) :
  bytes_ok (f_data fp) -> bytes_ok d -> bytes_ok (f_data (fwrite fp d)).
Proof.
  intros Hf Hd. unfold fwrite. cbn [f_data].
  assert (bytes_ok (f_data fp ++ zeros (f_pos fp - len (f_data fp))))
    by (apply bytes_ok_app; [exact Hf|apply bytes_ok_zeros]).
  apply bytes_ok_app; [now apply bytes_ok_firstn|].
  apply bytes_ok_app; [exact Hd|now apply bytes_ok_skipn].
Qed.

Lemma mkfs_builder_bytes_ok image_given size_arg inodes_arg now adjacent can_create img :
  bytes_ok adjacent ->
  mkfs_builder image_given size_arg inodes_arg now adjacent can_create = Done img ->
  bytes_ok img.
Proof.
  intros Ha H. unfold mkfs_builder in H.
  destruct (negb image_given); [discriminate H|].
  apply bind_done in H as (g & Hg & H); cbv beta in H.
  apply bind_done in H as (sbr & Hsb & H); cbv beta in H.
  apply bind_done in H as (mem & Hm & H); cbv beta in H.
  destruct (negb can_create); [discriminate H|].
  apply bind_done in H as (b0 & H0 & H); cbv beta in H.
  apply bind_done in H as (b1 & H1 & H); cbv beta in H.
  apply bind_done in H as (b2 & H2 & H); cbv beta in H.
  apply bind_done in H as (b3 & H3 & H); cbv beta in H.
  apply bind_done in H as (b4 & H4 & H); cbv beta in H.
  apply bind_done in H as (b5 & H5 & H); cbv beta in H.
  destruct (negb _); [discriminate H|]. injection H as <-.
  pose proof (bytes_ok_init_superblock _ _ _ _ Hsb) as K1.
  assert (K2 : bytes_ok mem).
  { eapply bytes_ok_superblock_crc_finalize; [|exact Hm]. now apply bytes_ok_app. }
  assert (K3 : bytes_ok b0).
  { eapply bytes_ok_put_bytes; [| |exact H0];
      [apply bytes_ok_zeros|now apply bytes_ok_firstn]. }
  assert (K4 : bytes_ok b1) by (eapply bytes_ok_put_u8; [|exact H1]; apply bytes_ok_zeros).
  assert (K5 : bytes_ok b2) by (eapply bytes_ok_put_u8; [|exact H2]; apply bytes_ok_zeros).
  assert (K6 : bytes_ok b3)
    by (eapply bytes_ok_init_root_inode; [|exact H3]; apply bytes_ok_zeros).
  assert (K46 : bytes_ok [46]) by (repeat constructor; unfold is_byte; lia).
  assert (K4646 : bytes_ok [46; 46]) by (repeat constructor; unfold is_byte; lia).
  assert (K7 : bytes_ok b4)
    by (eapply bytes_ok_init_dirent; [| |exact H4]; [apply bytes_ok_zeros|exact K46]).
  assert (K8 : bytes_ok b5) by (eapply bytes_ok_init_dirent; [| |exact H5]; assumption).
  change (bytes_ok (f_data (fwrite (fwrite (fwrite (fwrite (fwrite fopen_w b0) b1)
                                      b2) b3) b5))).
  repeat apply bytes_ok_fwrite; try assumption.
  constructor.
Qed.

Lemma sample_image_bytes : bytes_ok sample_image.
Proof.
  destruct (mkfs_builder_packed 180 128 1700000000 (zeros 3976) sample_geometry)
    as (s0 & Hb & _); [reflexivity|vm_compute; discriminate|].
  assert (E : sample_image = layout s0) by (unfold sample_image; now rewrite Hb).
  rewrite E. apply (mkfs_builder_bytes_ok _ _ _ _ _ _ _ (bytes_ok_zeros 3976) Hb).
Qed.

Lemma output_checksums_verify_witness :
  exists k fe,
    bitmap_bit (img_inode_bitmap sample_image) k = false /\
    bitmap_bit (img_inode_bitmap sample_output) k = true /\
    rd_u32 (root_dirent sample_output fe) DE.inode_no = k + 1 /\
    crc32 (inode_slot sample_output 0) 120
      = Done (rd_u64 (inode_slot sample_output 0) INO.inode_crc) /\
    crc32 (inode_slot sample_output k) 120
      = Done (rd_u64 (inode_slot sample_output k) INO.inode_crc) /\
    rd_u8 (root_dirent sample_output fe) DE.checksum
      = xor_all (slice (root_dirent sample_output fe) 0 63).
Proof.
  apply (output_checksums_verify sample_image [102; 49] [72; 105; 10]
           1700000001 true sample_output).
  - exact sample_image_valid.
  - by_computation.
  - exact sample_image_bytes.
  - repeat constructor; unfold is_byte; lia.
  - repeat constructor; unfold is_byte; lia.
  - exact sample_insertion.
Defined.

(** X14. A run keeps the image well formed.  The output image of a run
    on a valid image is valid again and has the same length, so that it can
    be given to the adder again; the rest of its first block, after the
    superblock record, is zero, whatever the input held there. *)
Theorem output_image_valid (img file_name : bytes) (file : option bytes) (now : Z)
    (can_create : bool) (out : bytes) :
  valid_image img -> file_fits file ->
  mkfs_adder (Some img) file_name file now can_create = Done out ->
  valid_image out /\
  len out = len img /\
  slice out SB_SIZE (BS - SB_SIZE) = zeros (BS - SB_SIZE).
Proof.
  intros V Hfit H.
  split; [exact (mkfs_adder_valid img file_name file now can_create out V Hfit H)|].
  destruct (valid_image_fs img V) as [Hl Vs].
  pose proof Vs as (W & _).
  unfold mkfs_adder in H. rewrite Hl in H. cbn [bind] in H.
  destruct (add_file _ _ _ _) as [s'| |] eqn:A; cbn [bind] in H; try discriminate.
  destruct can_create; cbn [negb] in H; [|discriminate].
  injection H as <-.
  destruct (add_file_inv _ _ _ _ _ Vs Hfit A)
    as (content & k & dbs & fe & Ef & Hs & Hk & Kf & I).
  pose proof (inserted_well_laid _ _ _ _ _ _ _ W I) as W'.
  rewrite (persist_layout s' W').
  pose proof W' as (Lsb & _).
  split.
  - rewrite (len_layout s' W').
    destruct I as (Es & _). rewrite Es.
    unfold fs_of_image. cbn [sb]. rewrite !rd_u64_slice by (offsets; lia).
    rewrite !Z.add_0_l.
    destruct V as (_ & _ & _ & _ & _ & E4 & _ & Et & _ & L & _).
    rewrite L, Et, E4. lia.
  - unfold layout. rewrite slice_app_r by (offsets; lia).
    rewrite Lsb, Z.sub_diag.
    rewrite slice_app_l by (rewrite ?len_zeros; offsets; lia).
    rewrite <- (len_zeros (BS - SB_SIZE)) at 2 by (offsets; lia).
    apply slice_full.
Qed.

Lemma output_image_valid_witness :
  valid_image sample_output /\
  len sample_output = len sample_image /\
  slice sample_output SB_SIZE (BS - SB_SIZE) = zeros (BS - SB_SIZE).
Proof.
  apply (output_image_valid sample_image [102; 49] (Some [72; 105; 10])
           1700000001 true sample_output).
  - exact sample_image_valid.
  - by_computation.
  - exact sample_insertion.
Defined.

(** X12. What a run does to the root inode.  Mode, uid, gid and all that
    lies from the times to the end of the record but the checksum (bytes 20
    to 119: the times, the direct pointers, the reserved fields, the project
    id) stay as in the input image.  The link count goes up by one, modulo
    2^16, and the size stays or goes up by 64. *)
Theorem root_inode_kept (img file_name : bytes) (file : option bytes) (now : Z)
    (can_create : bool) (out : bytes) :
  valid_image img -> file_fits file ->
  mkfs_adder (Some img) file_name file now can_create = Done out ->
  rd_u16 (inode_slot out 0) INO.mode = rd_u16 (inode_slot img 0) INO.mode /\
  slice (inode_slot out 0) INO.uid 8 = slice (inode_slot img 0) INO.uid 8 /\
  slice (inode_slot out 0) INO.atime 100 = slice (inode_slot img 0) INO.atime 100 /\
  rd_u16 (inode_slot out 0) INO.links
  = u16 (rd_u16 (inode_slot img 0) INO.links + 1) /\
  (rd_u64 (inode_slot out 0) INO.size_bytes
   = rd_u64 (inode_slot img 0) INO.size_bytes \/
   rd_u64 (inode_slot out 0) INO.size_bytes
   = rd_u64 (inode_slot img 0) INO.size_bytes + 64).
Proof.
  intros V Hfit H.
  destruct (mkfs_adder_stored img file_name file now can_create out V Hfit H)
    as (s' & c & k & dbs & fe & -> & W' & _ & Hs & Hk & Kf & Kb & I & _).
  pose proof (valid_image_fs img V) as [_ Vs].
  pose proof Vs as (W & _).
  pose proof W as (_ & _ & _ & _ & _ & _ & Hi & Hd & _ & _ & Lt & Lr).
  destruct I as (_ & _ & Slot & _ & _ & _ & _ & _ & At & El & _).
  pose proof (agree_on_len _ _ _ At) as Lt'.
  output_regions W'.
  unfold fs_of_image in *.
  cbn [sb inode_bitmap data_bitmap inode_table data_region] in *.
  rewrite !rd_u64_slice in * by (offsets; lia). rewrite !Z.add_0_l in *.
  unfold INODE_SIZE in *.
  rewrite ?rd_u16_slice, ?rd_u64_slice by (offsets; unfold BS in *; lia).
  rewrite !slice_slice by (offsets; unfold BS in *; lia).
  change (0 * 128) with 0. rewrite !Z.add_0_l.
  split; [|split; [|split; [|split]]].
  - apply (rd_u16_agree _ _ _ _ At); [offsets; lia|].
    unfold in_slot. offsets. intros; lia.
  - symmetry. apply (agree_on_slice _ _ _ _ _ At); [offsets; lia..|].
    unfold in_slot. offsets. intros; lia.
  - symmetry. apply (agree_on_slice _ _ _ _ _ At); [offsets; lia..|].
    unfold in_slot. offsets. intros; lia.
  - exact El.
  - destruct Slot as [(_ & _ & _ & E)|(_ & _ & E)]; [left|right]; exact E.
Qed.

Lemma root_inode_kept_witness :
  rd_u16 (inode_slot sample_output 0) INO.mode
  = rd_u16 (inode_slot sample_image 0) INO.mode /\
  slice (inode_slot sample_output 0) INO.uid 8
  = slice (inode_slot sample_image 0) INO.uid 8 /\
  slice (inode_slot sample_output 0) INO.atime 100
  = slice (inode_slot sample_image 0) INO.atime 100 /\
  rd_u16 (inode_slot sample_output 0) INO.links
  = u16 (rd_u16 (inode_slot sample_image 0) INO.links + 1) /\
  (rd_u64 (inode_slot sample_output 0) INO.size_bytes
   = rd_u64 (inode_slot sample_image 0) INO.size_bytes \/
   rd_u64 (inode_slot sample_output 0) INO.size_bytes
   = rd_u64 (inode_slot sample_image 0) INO.size_bytes + 64).
Proof.
  apply (root_inode_kept sample_image [102; 49] (Some [72; 105; 10])
           1700000001 true sample_output).
  - exact sample_image_valid.
  - by_computation.
  - exact sample_insertion.
Defined.

(** X11. The name field of the new entry holds the name of the file up to
    its first zero byte, cut after 57 bytes, and zero bytes in all the rest
    of its 58 bytes; its last byte is always zero. *)
Theorem entry_name_field (img file_name content : bytes) (now : Z)
    (can_create : bool) (out : bytes) :
  valid_image img -> len content < 2 ^ 63 ->
  mkfs_adder (Some img) file_name (Some content) now can_create = Done out ->
  exists fe k,
    0 <= fe < 64 /\
    bitmap_bit (img_inode_bitmap img) k = false /\
    rd_u32 (root_dirent out fe) DE.inode_no = k + 1 /\
    slice (root_dirent out fe) DE.name DE.name_size
    = firstn 57 (cstr file_name) ++ zeros (58 - len (firstn 57 (cstr file_name))) /\
    byte_at (root_dirent out fe) (DE.name + 57) = 0.
Proof.
  intros V Hfit H.
  destruct (mkfs_adder_stored img file_name (Some content) now can_create out V Hfit H)
    as (s' & c & k & dbs & fe & -> & W' & [= <-] & Hs & Hk & Kf & Kb & I & St).
  pose proof (valid_image_fs img V) as [_ Vs].
  pose proof Vs as (W & _ & Hsz & _ & Hrb & _).
  pose proof W as (_ & _ & _ & _ & _ & _ & Hi & Hd & _ & _ & Lt & Lr).
  destruct I as (Es & Hfe & _ & _ & _ & _ & _ & _ & At & _ & _ & _ & _ & Ar & D1 & _).
  destruct St as (_ & _ & _ & _ & _ & _ & _ & _ & _ & _ & _ & _ & _ & _ & _ & Name).
  pose proof (agree_on_len _ _ _ At) as Lt'.
  pose proof (agree_on_len _ _ _ Ar) as Lr'.
  assert (E44 : rd_u32 (inode_table s') (INO.direct 0)
                = rd_u32 (inode_table (fs_of_image img)) (INO.direct 0)).
  { apply (rd_u32_agree _ _ _ _ At); [offsets; lia|].
    unfold in_slot. offsets. intros; lia. }
  exists fe, k. output_regions W'. rewrite Es, E44.
  unfold fs_of_image in *.
  cbn [sb inode_bitmap data_bitmap inode_table data_region] in *.
  rewrite !rd_u64_slice in * by (offsets; lia). rewrite !Z.add_0_l in *.
  set (drs := rd_u64 img SB.data_region_start) in *.
  set (rb := rd_u32 (img_inode_table img) (INO.direct 0) - drs) in *.
  unfold DIRENT_SIZE in *.
  assert (Hname : slice (slice (slice (data_region s') (rb * BS) BS) (fe * 64) 64)
                    DE.name DE.name_size
                  = firstn 57 (cstr file_name)
                    ++ zeros (58 - len (firstn 57 (cstr file_name)))).
  { rewrite !slice_slice by (offsets; lia).
    match goal with
    | |- slice _ ?o _ = _ =>
        replace o with (rb * BS + fe * 64 + DE.name) by (offsets; lia)
    end.
    exact Name. }
  split; [exact Hfe|]. split; [exact Kf|]. split; [|split; [exact Hname|]].
  - rewrite !rd_u32_slice by (offsets; lia).
    match goal with
    | |- rd_u32 _ ?o = _ => replace o with (rb * BS + fe * 64 + DE.inode_no)
                              by (offsets; lia)
    end.
    exact D1.
  - assert (Lc : len (firstn 57 (cstr file_name)) <= 57).
    { unfold len. rewrite length_firstn. lia. }
    pose proof (len_nonneg (firstn 57 (cstr file_name))) as Lc0.
    rewrite <- (byte_at_slice _ DE.name DE.name_size 57)
      by (offsets; rewrite ?len_slice; rewrite ?len_slice; unfold BS in *; lia).
    rewrite Hname. rewrite byte_at_app by lia.
    replace (57 <? len (firstn 57 (cstr file_name))) with false
      by (symmetry; apply Z.ltb_ge; lia).
    apply byte_at_zeros.
Qed.

Lemma entry_name_field_witness :
  exists fe k,
    0 <= fe < 64 /\
    bitmap_bit (img_inode_bitmap sample_image) k = false /\
    rd_u32 (root_dirent sample_output fe) DE.inode_no = k + 1 /\
    slice (root_dirent sample_output fe) DE.name DE.name_size
    = firstn 57 (cstr [102; 49]) ++ zeros (58 - len (firstn 57 (cstr [102; 49]))) /\
    byte_at (root_dirent sample_output fe) (DE.name + 57) = 0.
Proof.
  apply (entry_name_field sample_image [102; 49] [72; 105; 10]
           1700000001 true sample_output).
  - exact sample_image_valid.
  - by_computation.
  - exact sample_insertion.
Defined.

Lemma fresh_insert_succeeds_witness :
  exists img out,
    mkfs_builder true 180 128 1700000000 (zeros 3976) true = Done img /\
    mkfs_adder (Some img) [102; 49] (Some [72; 105; 10]) 1700000001 true = Done out /\
    (blocks_of (len [72; 105; 10]) - 1) * BS < len [72; 105; 10]
      <= blocks_of (len [72; 105; 10]) * BS /\
    (forall j, 0 <= j -> bitmap_bit (img_data_bitmap img) j = (j <? 1)) /\
    (forall j, 0 <= j ->
       bitmap_bit (img_data_bitmap out) j = (j <? 1 + blocks_of (len [72; 105; 10]))) /\
    (forall j, 0 <= j -> bitmap_bit (img_inode_bitmap out) j = (j <? 2)) /\
    rd_u16 (inode_slot out 1) INO.mode = 0x8000 /\
    rd_u64 (inode_slot out 1) INO.size_bytes = len [72; 105; 10] /\
    rd_u32 (root_dirent out 2) DE.inode_no = 2 /\
    rd_u8 (root_dirent out 2) DE.type = 1 /\
    cstr (slice (root_dirent out 2) DE.name DE.name_size) = firstn 57 (cstr [102; 49]) /\
    rd_u16 (inode_slot img 0) INO.links = 2 /\
    rd_u16 (inode_slot out 0) INO.links = 3.
Proof.
  apply (fresh_insert_succeeds 180 128 1700000000 (zeros 3976) sample_geometry
           [102; 49] [72; 105; 10] 1700000001).
  - reflexivity.
  - vm_compute. discriminate.
  - by_computation.
Defined.

(** X16. Insertions into a fresh image fill it from the left.  After [n]
    insertions ([n <= 62]) of files of one block each into a freshly built
    image with at least 64 data blocks, the image is valid, its superblock
    is the one that was built, inodes 1 to [n + 1] and data blocks 0 to [n]
    are exactly the ones in use, and the root directory, still in block 0,
    has [n + 2] entries, none of them free, and [n + 2] links. *)
Theorem repeated_insertion_state (size_kib inodes now : Z) (adjacent : bytes)
    (g : geometry) (files : list insertion) :
  compute_geometry size_kib inodes = Done g ->
  64 <= data_region_blocks g ->
  BS - 4 - SB_SIZE <= len adjacent ->
  (length files <= 62)%nat ->
  Forall one_block files ->
  let n := Z.of_nat (length files) in
  exists img0 img,
    mkfs_builder true size_kib inodes now adjacent true = Done img0 /\
    insert_all img0 files = Done img /\
    valid_image img /\
    slice img 0 SB_SIZE = slice img0 0 SB_SIZE /\
    (forall j, 0 <= j -> bitmap_bit (img_inode_bitmap img) j = (j <? n + 1)) /\
    (forall j, 0 <= j -> bitmap_bit (img_data_bitmap img) j = (j <? n + 1)) /\
    root_block img = 0 /\
    rd_u64 (inode_slot img 0) INO.size_bytes = 64 * (n + 2) /\
    rd_u16 (inode_slot img 0) INO.links = n + 2 /\
    (forall j, 0 <= j < n + 2 -> rd_u32 (root_dirent img j) DE.inode_no <> 0).
Proof.
  intros Hg Hroom Hadj Hlen Hone n.
  destruct (mkfs_builder_packed size_kib inodes now adjacent g Hg Hadj)
    as (s0 & Hb & P0 & Ei & Ed & _ & Hn).
  destruct (insert_all_packed files 0 s0 P0 Hone) as (s' & Hr & P' & Es);
    [lia | lia | lia |].
  cbn [Z.add] in P'. fold n in P'.
  exists (layout s0), (layout s'). split; [exact Hb|]. split; [exact Hr|].
  pose proof P0 as ((W0 & _) & _).
  destruct P' as (V' & Eb & Et & Er & _ & _ & Bi & Bd & E44 & E12 & E2 & En).
  pose proof V' as (W' & _).
  pose proof W' as (_ & _ & _ & _ & _ & _ & Hi & Hd & _ & _ & Lt & Lr).
  split; [now apply valid_image_layout|].
  split; [rewrite !layout_sb by assumption; exact Es|].
  assert (Hn2 : 0 <= n <= 62) by lia.
  unfold root_dirent, root_block, data_block, inode_slot.
  rewrite layout_inode_table, layout_data_region, layout_inode_bitmap,
    layout_data_bitmap by exact W'.
  rewrite layout_rd_u64 by (auto; offsets; lia). rewrite E44, Z.sub_diag.
  unfold INODE_SIZE, DIRENT_SIZE in *.
  rewrite rd_u64_slice, rd_u16_slice by (offsets; unfold BS in *; lia).
  change (0 * 128) with 0. rewrite !Z.add_0_l.
  repeat match goal with |- _ /\ _ => split end; try assumption; try reflexivity.
  intros j Hj. rewrite !rd_u32_slice by (offsets; unfold BS in *; lia).
  match goal with
  | |- rd_u32 _ ?o <> _ => replace o with (j * 64) by (offsets; lia)
  end.
  apply En, Hj.
Qed.

Lemma repeated_insertion_state_witness :
  let n := Z.of_nat (length (sample_files 5)) in
  exists img0 img,
    mkfs_builder true 284 128 1700000000 (zeros 3976) true = Done img0 /\
    insert_all img0 (sample_files 5) = Done img /\
    valid_image img /\
    slice img 0 SB_SIZE = slice img0 0 SB_SIZE /\
    (forall j, 0 <= j -> bitmap_bit (img_inode_bitmap img) j = (j <? n + 1)) /\
    (forall j, 0 <= j -> bitmap_bit (img_data_bitmap img) j = (j <? n + 1)) /\
    root_block img = 0 /\
    rd_u64 (inode_slot img 0) INO.size_bytes = 64 * (n + 2) /\
    rd_u16 (inode_slot img 0) INO.links = n + 2 /\
    (forall j, 0 <= j < n + 2 -> rd_u32 (root_dirent img j) DE.inode_no <> 0).
Proof.
  apply (repeated_insertion_state 284 128 1700000000 (zeros 3976)
           {| total_blocks := 71; inode_table_blocks := 4;
              data_region_start := 7; data_region_blocks := 64 |}).
  - reflexivity.
  - cbn. lia.
  - vm_compute. discriminate.
  - cbn. lia.
  - apply sample_files_one_block.
Defined.

(** ** Which way a run ends *)

Section AddFileOutcome.

Variables (s : fs) (file_name : bytes) (now : Z) (k : Z).

Let inodes := rd_u64 (sb s) SB.inode_count.
Let drs := rd_u64 (sb s) SB.data_region_start.
Let drb := rd_u64 (sb s) SB.data_region_blocks.
Let rb := rd_u32 (inode_table s) (INO.direct 0) - drs.
Let entry_count := rd_u64 (inode_table s) INO.size_bytes / DIRENT_SIZE.

Hypothesis V : valid_fs s.
Hypothesis Hk : 0 <= k < inodes.
Hypothesis Kf : bitmap_bit (inode_bitmap s) k = false.

Lemma add_file_finds_inode :
  exists k', 0 <= k' < inodes /\
    bitmap_bit (inode_bitmap s) k' = false /\
    (forall j, 0 <= j < k' -> bitmap_bit (inode_bitmap s) j = true) /\
    find_free_inode (inode_bitmap s) (sb_u64 (sb s) SB.inode_count) = Done (k' + 1).
Proof.
  pose proof V as (W & Hn & _).
  destruct W as (_ & _ & _ & _ & _ & _ & _ & _ & Li & _).
  fold inodes in Hn. unfold sb_u64. fold inodes.
  destruct (find_free_inode_spec (inode_bitmap s) inodes Li)
    as [(k' & Hk' & Kf' & Kb' & Kr)|[Hfull _]]; [lia| |].
  - exists k'. auto.
  - rewrite Hfull in Kf by lia. discriminate.
Qed.

Lemma add_file_cannot_open : add_file s file_name None now = Exit EOpenFile.
Proof.
  destruct add_file_finds_inode as (k' & Hk' & _ & _ & Kr).
  unfold add_file. rewrite Kr. cbn [bind].
  replace (k' + 1 =? -1) with false by (symmetry; apply Z.eqb_neq; lia).
  reflexivity.
Qed.

Lemma add_file_oversized (content : bytes) :
  12 * BS < len content < 2 ^ 63 ->
  add_file s file_name (Some content) now = Exit EFileTooLarge.
Proof.
  intros Hf. destruct add_file_finds_inode as (k' & Hk' & _ & _ & Kr).
  unfold add_file. rewrite Kr. cbn [bind].
  replace (k' + 1 =? -1) with false by (symmetry; apply Z.eqb_neq; lia).
  unfold BS in *.
  rewrite (u64_small (len content)), (u64_small (len content + 4096)),
    (u64_small (len content + 4096 - 1)) by lia.
  replace (12 <? _) with true; [reflexivity|].
  symmetry. apply Z.ltb_lt.
  assert (13 <= (len content + 4096 - 1) / 4096); [|lia].
  apply Z.div_le_lower_bound; lia.
Qed.

Lemma add_file_nothing_to_read :
  add_file s file_name (Some []) now = Exit EReadFileContent.
Proof.
  destruct add_file_finds_inode as (k' & Hk' & _ & _ & Kr).
  unfold add_file. rewrite Kr. cbn [bind].
  replace (k' + 1 =? -1) with false by (symmetry; apply Z.eqb_neq; lia).
  reflexivity.
Qed.

Variable content : bytes.
Hypothesis Hsize : 1 <= len content <= 12 * BS.

Let needed := blocks_of (len content).

Lemma add_file_out_of_blocks :
  count_free (data_bitmap s) drb < needed ->
  add_file s file_name (Some content) now = Exit ENoFreeDataBlock.
Proof.
  intros Hc. destruct add_file_finds_inode as (k' & Hk' & _ & _ & Kr).
  pose proof V as (W & _ & _ & _ & Hrb & _).
  pose proof W as (_ & _ & _ & _ & _ & Es & Hi & Hd & _ & Ld & _).
  fold drs in Es, Hrb. fold drb in Hd, Hrb.
  destruct (needed_blocks_spec (len content) Hsize) as [Hnd _].
  fold (blocks_of (len content)) in Hnd. fold needed in Hnd.
  assert (A1 : 0 <= sb_u64 (sb s) SB.data_region_start)
    by (unfold sb_u64; fold drs; lia).
  assert (A2 : 0 <= sb_u64 (sb s) SB.data_region_blocks <= 8 * BS)
    by (unfold sb_u64; fold drb; lia).
  assert (A3 : sb_u64 (sb s) SB.data_region_start
               + sb_u64 (sb s) SB.data_region_blocks < 2 ^ 32)
    by (unfold sb_u64; fold drs drb; unfold BS in *; lia).
  destruct (alloc_blocks_total (sb s) (Z.to_nat needed) A1 A2 A3 0 (data_bitmap s)
              (repeat 0 12) Ld (Z.le_refl 0)) as (Cno & _).
  unfold sb_u64 in Cno. fold drb in Cno. rewrite Z2Nat.id in Cno by lia.
  unfold add_file. rewrite Kr. cbn [bind].
  replace (k' + 1 =? -1) with false by (symmetry; apply Z.eqb_neq; lia).
  change (u64 (u64 (u64 (len content) + BS) - 1) / BS) with needed.
  replace (12 <? needed) with false by (symmetry; apply Z.ltb_ge; lia).
  rewrite (Cno Hc). reflexivity.
Qed.

Lemma add_file_with_blocks :
  needed <= count_free (data_bitmap s) drb ->
  let free j := rd_u32 (data_region s) (rb * BS + j * DIRENT_SIZE) = 0 in
  ((forall j, 0 <= j < entry_count -> ~ free j) /\ 64 <= entry_count /\
   add_file s file_name (Some content) now = Exit ERootDirFull) \/
  (exists fe s',
     0 <= fe < 64 /\
     (fe < entry_count /\ free fe \/ fe = entry_count) /\
     add_file s file_name (Some content) now = Done s').
Proof.
  intros Hc free. destruct add_file_finds_inode as (k' & Hk' & Kf' & Kb' & _).
  pose proof V as (W & _ & _ & _ & Hrb & _).
  pose proof W as (_ & _ & _ & _ & _ & Es & Hi & Hd & _ & Ld & _).
  fold drs in Es, Hrb. fold drb in Hd, Hrb.
  destruct (needed_blocks_spec (len content) Hsize) as [Hnd _].
  fold (blocks_of (len content)) in Hnd. fold needed in Hnd.
  assert (A1 : 0 <= sb_u64 (sb s) SB.data_region_start)
    by (unfold sb_u64; fold drs; lia).
  assert (A2 : 0 <= sb_u64 (sb s) SB.data_region_blocks <= 8 * BS)
    by (unfold sb_u64; fold drb; lia).
  assert (A3 : sb_u64 (sb s) SB.data_region_start
               + sb_u64 (sb s) SB.data_region_blocks < 2 ^ 32)
    by (unfold sb_u64; fold drs drb; unfold BS in *; lia).
  destruct (alloc_blocks_total (sb s) (Z.to_nat needed) A1 A2 A3 0 (data_bitmap s)
              (repeat 0 12) Ld (Z.le_refl 0)) as (_ & Cyes).
  unfold sb_u64 in Cyes. fold drb in Cyes. rewrite Z2Nat.id in Cyes by lia.
  destruct (Cyes Hc) as (dbm' & dbs & Ha & _).
  destruct (add_file_run s file_name content now V Hsize k' dbm' dbs
              ltac:(fold inodes; lia) Kf' Kb' Ha)
    as [(Hno & Hge & X)|(fe & s' & X & _ & I)].
  - left. auto.
  - right. exists fe, s'. destruct I as (_ & Hfe & Slot & _).
    split; [exact Hfe|]. split; [|exact X].
    destruct Slot as [(S1 & S2 & _)|(S1 & _)]; [left; split; assumption|right; exact S1].
Qed.

End AddFileOutcome.

(** X6. The order of the checks of the adder, on a valid image.  With
    no free inode the run ends there, whatever the file.  Otherwise a file
    that cannot be opened ends it; then a file of more than 12 blocks; then
    a data region with fewer free blocks than the file needs; then an empty
    file, whose read fails; then a root directory with 64 entries, none of
    them free; then an output file that cannot be created.  In all other
    cases the run writes an output image. *)
Theorem adder_exit_order (img file_name : bytes) (file : option bytes) (now : Z)
    (can_create : bool) :
  valid_image img -> file_fits file ->
  let run := mkfs_adder (Some img) file_name file now can_create in
  let inodes_full :=
    forall j, 0 <= j < rd_u64 img SB.inode_count ->
      bitmap_bit (img_inode_bitmap img) j = true in
  let free_blocks :=
    count_free (img_data_bitmap img) (rd_u64 img SB.data_region_blocks) in
  let entry_count := rd_u64 (inode_slot img 0) INO.size_bytes / DIRENT_SIZE in
  let dir_full :=
    64 <= entry_count /\
    forall j, 0 <= j < entry_count -> rd_u32 (root_dirent img j) DE.inode_no <> 0 in
  (inodes_full -> run = Exit ENoFreeInode) /\
  (~ inodes_full ->
   match file with
   | None => run = Exit EOpenFile
   | Some content =>
       let needed := blocks_of (len content) in
       (12 * BS < len content -> run = Exit EFileTooLarge) /\
       (len content <= 12 * BS -> free_blocks < needed ->
        run = Exit ENoFreeDataBlock) /\
       (len content = 0 -> run = Exit EReadFileContent) /\
       (1 <= len content <= 12 * BS -> needed <= free_blocks ->
        (dir_full -> run = Exit ERootDirFull) /\
        (~ dir_full -> can_create = false -> run = Exit ECreateOutput) /\
        (~ dir_full -> can_create = true -> exists out, run = Done out))
   end).
Proof.
  intros V Hfit run inodes_full free_blocks entry_count dir_full.
  destruct (valid_image_fs img V) as [Hl Vs].
  pose proof Vs as (W & Hn & _ & _ & Hrb & _ & Hsz0 & Hcnt).
  pose proof W as (_ & _ & _ & _ & _ & _ & Hi & Hd & Li & _ & Lt & Lr).
  assert (Erun : run = bind (add_file (fs_of_image img) file_name file now)
                   (fun s' => if negb can_create then Exit ECreateOutput
                              else Done (persist s'))).
  { unfold run, mkfs_adder. rewrite Hl. reflexivity. }
  unfold fs_of_image in Hn, Hrb, Hsz0, Hcnt, Hi, Hd, Li, Lt, Lr.
  cbn [sb inode_bitmap data_bitmap inode_table data_region] in Hn, Hrb, Hsz0, Hcnt,
    Hi, Hd, Li, Lt, Lr.
  rewrite !rd_u64_slice in Hn, Hrb, Hi, Hd, Lt, Lr by (offsets; lia).
  rewrite !Z.add_0_l in Hn, Hrb, Hi, Hd, Lt, Lr.
  split.
  - intros Hfull. rewrite Erun.
    rewrite (add_file_no_inode (fs_of_image img) file_name now file Vs); [reflexivity|].
    unfold fs_of_image. cbn [sb inode_bitmap].
    rewrite rd_u64_slice by (offsets; lia). exact Hfull.
  - intros Hnot.
    assert (Hfree : exists k, 0 <= k < rd_u64 (sb (fs_of_image img)) SB.inode_count /\
              bitmap_bit (inode_bitmap (fs_of_image img)) k = false).
    { unfold fs_of_image. cbn [sb inode_bitmap].
      rewrite rd_u64_slice by (offsets; lia). rewrite Z.add_0_l.
      destruct (find_free_inode_spec (img_inode_bitmap img) (rd_u64 img SB.inode_count) Li)
        as [(k & Hk & Kf & _)|[Hfull _]]; [lia| |].
      - exists k. auto.
      - contradiction. }
    destruct Hfree as (k & Hk & Kf).
    destruct file as [content|].
    2: { rewrite Erun, (add_file_cannot_open _ file_name now k Vs Hk Kf). reflexivity. }
    cbn [file_fits] in Hfit. pose proof (len_nonneg content) as Hl0.
    cbv zeta. split; [|split; [|split]].
    + intros Hbig.
      rewrite Erun, (add_file_oversized _ file_name now k Vs Hk Kf content); [reflexivity|lia].
    + intros Hle Hc.
      assert (Hsize : 1 <= len content <= 12 * BS).
      { destruct (Z.eq_dec (len content) 0) as [E|E]; [|lia].
        exfalso. rewrite E in Hc. change (blocks_of 0) with 0 in Hc.
        pose proof (count_free_nonneg (img_data_bitmap img)
                      (rd_u64 img SB.data_region_blocks)).
        unfold free_blocks in Hc. lia. }
      rewrite Erun, (add_file_out_of_blocks _ file_name now k Vs Hk Kf content Hsize);
        [reflexivity|].
      unfold fs_of_image. cbn [sb data_bitmap].
      rewrite rd_u64_slice by (offsets; lia). exact Hc.
    + intros E0. apply len_zero_nil in E0. subst content.
      pose proof (add_file_nothing_to_read _ file_name now k Vs Hk Kf) as X.
      rewrite Erun.
      match goal with
      | |- bind ?a _ = _ =>
          replace a with (@Exit fs EReadFileContent) by (symmetry; exact X)
      end.
      reflexivity.
    + intros Hsize Hc.
      pose proof (add_file_with_blocks _ file_name now k Vs Hk Kf content Hsize) as R.
      unfold fs_of_image in R.
      cbn [sb inode_bitmap data_bitmap inode_table data_region] in R.
      rewrite !rd_u64_slice in R by (offsets; lia). rewrite !Z.add_0_l in R.
      specialize (R Hc). cbv zeta in R.
      set (drs := rd_u64 img SB.data_region_start) in *.
      set (rb := rd_u32 (img_inode_table img) (INO.direct 0) - drs) in *.
      assert (Ec : entry_count
                   = rd_u64 (img_inode_table img) INO.size_bytes / DIRENT_SIZE).
      { unfold entry_count, inode_slot, INODE_SIZE.
        rewrite rd_u64_slice by (offsets; unfold BS in *; lia). reflexivity. }
      assert (Hent : forall j, 0 <= j < 64 ->
                rd_u32 (root_dirent img j) DE.inode_no
                = rd_u32 (img_data_region img) (rb * BS + j * DIRENT_SIZE)).
      { intros j Hj. unfold root_dirent, data_block, root_block. fold drs. fold rb.
        rewrite !rd_u32_slice by (offsets; lia). f_equal. offsets. lia. }
      rewrite <- Ec in R.
      assert (Hec : entry_count <= 64) by (rewrite Ec; exact Hcnt).
      assert (Cases : dir_full /\ run = Exit ERootDirFull \/
                      ~ dir_full /\ exists s',
                        add_file (fs_of_image img) file_name (Some content) now = Done s').
      { destruct R as [(Hno & Hge & X)|(fe & s' & Hfe & Slot & X)].
        - left. split.
          + split; [exact Hge|]. intros j Hj. rewrite Hent by lia. apply Hno, Hj.
          + rewrite Erun. unfold fs_of_image. rewrite X. reflexivity.
        - right. split; [|exists s'; exact X].
          intros (Hge & Hno). destruct Slot as [(S1 & S2)|S1]; [|lia].
          apply (Hno fe); [lia|]. rewrite Hent by lia. exact S2. }
      destruct Cases as [(Hfull & X)|(Hnf & s' & X)].
      * split; [intros _; exact X|]. split; intros; contradiction.
      * split; [intros; contradiction|].
        rewrite Erun, X. cbn [bind].
        split; intros _ ->; cbn [negb]; eauto.
Qed.

Lemma adder_exit_order_witness :
  let img := sample_image in
  let file := Some [72; 105; 10] in
  let run := mkfs_adder (Some img) [102; 49] file 1700000001 true in
  let inodes_full :=
    forall j, 0 <= j < rd_u64 img SB.inode_count ->
      bitmap_bit (img_inode_bitmap img) j = true in
  let free_blocks :=
    count_free (img_data_bitmap img) (rd_u64 img SB.data_region_blocks) in
  let entry_count := rd_u64 (inode_slot img 0) INO.size_bytes / DIRENT_SIZE in
  let dir_full :=
    64 <= entry_count /\
    forall j, 0 <= j < entry_count -> rd_u32 (root_dirent img j) DE.inode_no <> 0 in
  (inodes_full -> run = Exit ENoFreeInode) /\
  (~ inodes_full ->
   match file with
   | None => run = Exit EOpenFile
   | Some content =>
       let needed := blocks_of (len content) in
       (12 * BS < len content -> run = Exit EFileTooLarge) /\
       (len content <= 12 * BS -> free_blocks < needed ->
        run = Exit ENoFreeDataBlock) /\
       (len content = 0 -> run = Exit EReadFileContent) /\
       (1 <= len content <= 12 * BS -> needed <= free_blocks ->
        (dir_full -> run = Exit ERootDirFull) /\
        (~ dir_full -> true = false -> run = Exit ECreateOutput) /\
        (~ dir_full -> true = true -> exists out, run = Done out))
   end).
Proof.
  apply (adder_exit_order sample_image [102; 49] (Some [72; 105; 10]) 1700000001 true).
  - exact sample_image_valid.
  - by_computation.
Defined.

Lemma add_file_never_faults (s : fs) (file_name : bytes) (file : option bytes)
    (now : Z) :
  valid_fs s -> file_fits file -> add_file s file_name file now <> Fault.
Proof.
  intros V Hfit.
  pose proof V as (W & Hn & _).
  pose proof W as (_ & _ & _ & _ & _ & _ & _ & _ & Li & _).
  destruct (find_free_inode_spec (inode_bitmap s) (rd_u64 (sb s) SB.inode_count) Li)
    as [(k & Hk & Kf & _)|[Hfull _]]; [lia| |].
  2: { rewrite (add_file_no_inode s file_name now file V Hfull). discriminate. }
  destruct file as [content|].
  2: { rewrite (add_file_cannot_open s file_name now k V Hk Kf). discriminate. }
  cbn [file_fits] in Hfit. pose proof (len_nonneg content) as Hl0.
  destruct (Z.eq_dec (len content) 0) as [E0|E0].
  { apply len_zero_nil in E0. subst content.
    pose proof (add_file_nothing_to_read s file_name now k V Hk Kf) as X.
    intros F. assert (Y : @Fault fs = Exit EReadFileContent)
      by (rewrite <- F; exact X).
    discriminate Y. }
  destruct (Z_le_gt_dec (len content) (12 * BS)) as [Le|Gt].
  2: { rewrite (add_file_oversized s file_name now k V Hk Kf content); [discriminate|lia]. }
  assert (Hsize : 1 <= len content <= 12 * BS) by lia.
  destruct (Z_lt_le_dec (count_free (data_bitmap s) (rd_u64 (sb s) SB.data_region_blocks))
              (blocks_of (len content))) as [C|C].
  - rewrite (add_file_out_of_blocks s file_name now k V Hk Kf content Hsize C).
    discriminate.
  - destruct (add_file_with_blocks s file_name now k V Hk Kf content Hsize C)
      as [(_ & _ & X)|(fe & s' & _ & _ & X)]; rewrite X; discriminate.
Qed.

(** X7. On a valid image the adder stays within its buffers: whatever
    the name, the file and the time, no run reads or writes out of
    bounds. *)
Theorem adder_never_faults (img file_name : bytes) (file : option bytes) (now : Z)
    (can_create : bool) :
  valid_image img -> file_fits file ->
  mkfs_adder (Some img) file_name file now can_create <> Fault.
Proof.
  intros V Hfit. destruct (valid_image_fs img V) as [Hl Vs].
  unfold mkfs_adder. rewrite Hl. cbn [bind].
  pose proof (add_file_never_faults _ file_name file now Vs Hfit) as N.
  destruct (add_file _ _ _ _) as [s'| |]; cbn [bind]; [|discriminate|contradiction].
  destruct (negb can_create); discriminate.
Qed.

Lemma adder_never_faults_witness :
  mkfs_adder (Some sample_image) [102; 49] (Some (zeros 5000)) 1700000001 false
  <> Fault.
Proof.
  apply adder_never_faults.
  - exact sample_image_valid.
  - by_computation.
Defined.

(** ** Which way the builder ends *)

Lemma u64_u64 (z : Z) : u64 (u64 z) = u64 z.
Proof. unfold u64. apply Z.mod_mod. lia. Qed.

Lemma mkfs_builder_u64 (image_given : bool) (size_arg inodes_arg now : Z)
    (adjacent : bytes) (can_create : bool) :
  mkfs_builder image_given size_arg inodes_arg now adjacent can_create
  = mkfs_builder image_given (u64 size_arg) (u64 inodes_arg) now adjacent can_create.
Proof. unfold mkfs_builder. now rewrite !u64_u64. Qed.

Lemma superblock_crc_short (mem : bytes) :
  SB_SIZE <= len mem < BS - 4 -> superblock_crc_finalize mem = Fault.
Proof.
  unfold SB_SIZE, BS. intros L. unfold superblock_crc_finalize.
  destruct (put_u32_ok mem SB.checksum 0) as [m1 H1];
    [unfold SB.checksum; lia..|].
  rewrite H1. cbn [bind].
  pose proof (put_u32_frame _ _ _ _ H1) as F.
  unfold crc32. rewrite get_bytes_fault; [reflexivity|].
  rewrite <- (same_outside_len _ _ _ _ F). unfold BS. lia.
Qed.

(** X3. The ways the builder ends.  Without an image name, or with a
    size or an inode count outside the bounds (the command-line values
    taken as unsigned 64-bit numbers), it ends with the usage message.
    Otherwise the superblock checksum is computed, reading the 3976 bytes
    after the record: with fewer bytes there this read is out of bounds.
    With these bytes there, the run fails when the image cannot be created
    and otherwise writes a valid image of exactly [size_kib * 1024] bytes;
    the layout and the file size checks never fire. *)
Theorem builder_outcomes (image_given : bool) (size_arg inodes_arg now : Z)
    (adjacent : bytes) (can_create : bool) :
  let size_kib := u64 size_arg in
  let inodes := u64 inodes_arg in
  let run := mkfs_builder image_given size_arg inodes_arg now adjacent can_create in
  (image_given = false \/ ~ args_in_bounds size_kib inodes -> run = Exit EUsage) /\
  (image_given = true -> args_in_bounds size_kib inodes ->
   (len adjacent < BS - 4 - SB_SIZE -> run = Fault) /\
   (BS - 4 - SB_SIZE <= len adjacent ->
    (can_create = false -> run = Exit ECreateImage) /\
    (can_create = true ->
     exists img, run = Done img /\ len img = size_kib * 1024 /\ valid_image img))).
Proof.
  intros size_kib inodes run. split.
  - intros [->|Hn]; unfold run, mkfs_builder; [reflexivity|].
    destruct image_given; [|reflexivity]. cbn [negb].
    fold size_kib inodes.
    rewrite (compute_geometry_out_of_bounds _ _ Hn). reflexivity.
  - intros -> Hb.
    destruct (compute_geometry_in_bounds _ _ Hb) as (g & Hg & Gt & Gi & Gs & Gd & Gp).
    destruct (init_superblock_spec g inodes now) as (sbr & Hsb & Ls & _).
    pose proof (len_nonneg adjacent) as La.
    split; [|split].
    + intros Hshort. unfold run, mkfs_builder. cbn [negb].
      fold size_kib inodes. rewrite Hg. cbn [bind]. rewrite Hsb. cbn [bind].
      rewrite superblock_crc_short; [reflexivity|].
      rewrite len_app, Ls. offsets. lia.
    + intros ->. unfold run, mkfs_builder. cbn [negb].
      fold size_kib inodes. rewrite Hg. cbn [bind]. rewrite Hsb. cbn [bind].
      destruct (superblock_crc_finalize_spec (sbr ++ adjacent)) as (mem & Hm & _).
      { rewrite len_app, Ls. offsets. lia. }
      rewrite Hm. reflexivity.
    + intros ->. unfold run. rewrite mkfs_builder_u64. fold size_kib inodes.
      destruct (mkfs_builder_fresh size_kib inodes now adjacent Hb H)
        as (g' & s & Hg' & Hm & Hf & Gt' & _).
      assert (g' = g) by congruence. subst g'.
      destruct (mkfs_builder_packed size_kib inodes now adjacent g Hg H)
        as (s1 & Hm1 & (V1 & Eb & Et & Er & _) & _).
      assert (layout s1 = layout s) by congruence.
      exists (layout s). split; [exact Hm|]. split.
      * destruct Hf as (W & _ & _ & _ & F4 & _ & F6 & _).
        rewrite (len_layout s W), F4, F6.
        destruct Hb as (Hs & Hmod & _).
        assert (E : size_kib * 1024 = 4096 * (size_kib * 1024 / 4096)).
        { pose proof (Z.div_mod (size_kib * 1024) 4096 ltac:(lia)) as D.
          assert (M : (size_kib * 1024) mod 4096 = 0).
          { apply Z.mod_divide; [lia|]. apply Z.mod_divide in Hmod; [|lia].
            destruct Hmod as [q Hq]. exists q. lia. }
          lia. }
        unfold BS. lia.
      * rewrite <- H0. now apply valid_image_layout.
Qed.

Lemma builder_outcomes_witness :
  let size_kib := u64 180 in
  let inodes := u64 128 in
  let run := mkfs_builder true 180 128 1700000000 (zeros 3976) true in
  (true = false \/ ~ args_in_bounds size_kib inodes -> run = Exit EUsage) /\
  (true = true -> args_in_bounds size_kib inodes ->
   (len (zeros 3976) < BS - 4 - SB_SIZE -> run = Fault) /\
   (BS - 4 - SB_SIZE <= len (zeros 3976) ->
    (true = false -> run = Exit ECreateImage) /\
    (true = true ->
     exists img, run = Done img /\ len img = size_kib * 1024 /\ valid_image img))).
Proof.
  exact (builder_outcomes true 180 128 1700000000 (zeros 3976) true).
Defined.

(** ** A truncated image *)

Lemma fread_or_short (e : error) (fp : file) (size : Z) :
  len (f_data fp) < f_pos fp + size -> fread_or e fp size = Exit e.
Proof.
  intros H. unfold fread_or, fread.
  replace (len (f_data fp) <? f_pos fp + size) with true
    by (symmetry; apply Z.ltb_lt; lia).
  now rewrite orb_true_r.
Qed.

(** X5. A truncated image is refused.  Given the first [n] bytes of a
    readable image, with [n] below its length, the adder ends at the first
    read that does not get all its bytes: the superblock below 116 bytes,
    the inode bitmap below 2 blocks, the data bitmap below 3 blocks, the
    inode table below [3 + inode_table_blocks] blocks, the data region
    otherwise. *)
Theorem truncated_image_rejected (img : bytes) (n : Z) (file_name : bytes)
    (file : option bytes) (now : Z) (can_create : bool) :
  readable img -> 0 <= n < len img ->
  let itb := rd_u64 img SB.inode_table_blocks in
  mkfs_adder (Some (firstn (Z.to_nat n) img)) file_name file now can_create
  = Exit (if n <? SB_SIZE then EReadSuperblock
          else if n <? 2 * BS then EReadInodeBitmap
          else if n <? 3 * BS then EReadDataBitmap
          else if n <? (3 + itb) * BS then EReadInodeTable
          else EReadDataRegion).
Proof.
  intros (M & E1 & E2 & E3 & E4 & Hi & Hd & L) Hn itb.
  change (firstn (Z.to_nat n) img) with (slice img 0 n).
  set (cut := slice img 0 n).
  assert (Lc : len cut = n) by (unfold cut; rewrite len_slice; lia).
  unfold mkfs_adder.
  destruct (n <? SB_SIZE) eqn:C0.
  { apply Z.ltb_lt in C0. unfold load.
    rewrite fread_or_short by (cbn [fopen_r f_data f_pos]; lia).
    reflexivity. }
  apply Z.ltb_ge in C0. revert C0. offsets. intros C0.
  assert (S32 : forall off, 0 <= off -> off + 4 <= 116 ->
                  rd_u32 (slice cut 0 116) off = rd_u32 img off).
  { intros. unfold cut. rewrite !rd_u32_slice by lia. f_equal. }
  assert (S64 : forall off, 0 <= off -> off + 8 <= 116 ->
                  rd_u64 (slice cut 0 116) off = rd_u64 img off).
  { intros. unfold cut. rewrite !rd_u64_slice by lia. f_equal. }
  unfold load, sb_u32, sb_u64.
  rewrite fread_or_ok by (unfold fopen_r; cbn [f_data f_pos]; offsets; lia).
  cbn [bind fopen_r f_data f_pos]. offsets.
  rewrite S32, !S64 by (offsets; lia).
  rewrite M, Z.eqb_refl. cbn [negb]. rewrite E1, E2, E3, E4.
  fold itb in Hi, L |- *.
  revert Hi Hd L. offsets. intros Hi Hd L.
  rewrite !u64_small by lia.
  rewrite fseek_ok by lia.
  destruct (n <? 2 * 4096) eqn:C1.
  { apply Z.ltb_lt in C1.
    rewrite fread_or_short by (cbn [f_data f_pos]; lia). reflexivity. }
  apply Z.ltb_ge in C1.
  rewrite fread_or_ok by (cbn [f_data f_pos]; lia). cbn [bind f_data f_pos].
  rewrite fseek_ok by lia.
  destruct (n <? 3 * 4096) eqn:C2.
  { apply Z.ltb_lt in C2.
    rewrite fread_or_short by (cbn [f_data f_pos]; lia). reflexivity. }
  apply Z.ltb_ge in C2.
  rewrite fread_or_ok by (cbn [f_data f_pos]; lia). cbn [bind f_data f_pos].
  rewrite fseek_ok by lia.
  destruct (n <? (3 + itb) * 4096) eqn:C3.
  { apply Z.ltb_lt in C3.
    rewrite fread_or_short by (cbn [f_data f_pos]; lia). reflexivity. }
  apply Z.ltb_ge in C3.
  rewrite fread_or_ok by (cbn [f_data f_pos]; lia). cbn [bind f_data f_pos].
  rewrite fseek_ok by lia.
  rewrite fread_or_short by (cbn [f_data f_pos]; lia). reflexivity.
Qed.

Lemma valid_image_min_len (img : bytes) : valid_image img -> 5 * BS <= len img.
Proof.
  intros (_ & _ & _ & _ & _ & Ed & Hd & Et & _ & L & Hi & Hs & _).
  rewrite L, Et, Ed. revert Hs. offsets. nia.
Qed.

Lemma truncated_image_rejected_witness :
  mkfs_adder (Some (firstn (Z.to_nat 10000) sample_image)) [102; 49]
    (Some [72; 105; 10]) 1700000001 true
  = Exit (if 10000 <? SB_SIZE then EReadSuperblock
          else if 10000 <? 2 * BS then EReadInodeBitmap
          else if 10000 <? 3 * BS then EReadDataBitmap
          else if 10000 <? (3 + rd_u64 sample_image SB.inode_table_blocks) * BS
               then EReadInodeTable
          else EReadDataRegion).
Proof.
  apply (truncated_image_rejected sample_image 10000).
  - exact (valid_image_readable _ sample_image_valid).
  - pose proof (valid_image_min_len _ sample_image_valid) as H.
    revert H. offsets. lia.
Defined.

(** X4. An input file of at least 116 bytes whose first four bytes are
    not the magic number is refused with the message on the magic number,
    before anything else of it is read. *)
Theorem bad_magic_rejected (img file_name : bytes) (file : option bytes)
    (now : Z) (can_create : bool) :
  SB_SIZE <= len img -> rd_u32 img SB.magic <> MAGIC ->
  mkfs_adder (Some img) file_name file now can_create = Exit EBadMagic.
Proof.
  intros L M. unfold mkfs_adder, load, sb_u32.
  rewrite fread_or_ok by (unfold fopen_r; cbn [f_data f_pos]; offsets; revert L; offsets; lia).
  cbn [bind fopen_r f_data f_pos].
  rewrite rd_u32_slice by (offsets; lia). cbn [Z.add].
  destruct (rd_u32 img SB.magic =? MAGIC) eqn:E.
  - apply Z.eqb_eq in E. contradiction.
  - reflexivity.
Qed.

Lemma bad_magic_rejected_witness :
  mkfs_adder (Some (zeros 116)) [102; 49] (Some [72; 105; 10]) 1700000001 true
  = Exit EBadMagic.
Proof.
  apply bad_magic_rejected.
  - vm_compute. discriminate.
  - vm_compute. discriminate.
Defined.

(** ** The rest of the records of a fresh image *)

Lemma init_superblock_rest (g : geometry) (inodes now : Z) (sbr : bytes) :
  init_superblock g inodes now = Done sbr ->
  rd_u32 sbr SB.version = 1 /\
  rd_u64 sbr SB.inode_bitmap_blocks = 1 /\
  rd_u64 sbr SB.data_bitmap_blocks = 1 /\
  rd_u64 sbr SB.mtime_epoch = u64 now /\
  rd_u32 sbr SB.flags = 0.
Proof.
  intros H.
  assert (G : exists r,
    init_superblock g inodes now = Done r /\
    rd_u32 r SB.version = 1 /\
    rd_u64 r SB.inode_bitmap_blocks = 1 /\
    rd_u64 r SB.data_bitmap_blocks = 1 /\
    rd_u64 r SB.mtime_epoch = u64 now /\
    rd_u32 r SB.flags = 0).
  { clear H. unfold init_superblock.
    assert (L0 : len (zeros SB_SIZE) = 116) by (apply len_zeros; unfold SB_SIZE; lia).
    offsets.
    do 15 store. last_store.
    repeat split; try lia; try assumption. }
  destruct G as (r & E & G). assert (r = sbr) by congruence. subst r. exact G.
Qed.

Lemma init_root_inode_rest (t0 : bytes) (g : geometry) (now : Z) (t : bytes) :
  INODE_SIZE <= len t0 ->
  init_root_inode t0 g now = Done t ->
  rd_u32 t INO.uid = 0 /\
  rd_u32 t INO.gid = 0 /\
  rd_u64 t INO.atime = u64 now /\
  rd_u64 t INO.mtime = u64 now /\
  rd_u64 t INO.ctime = u64 now /\
  rd_u32 t INO.proj_id = 1234 /\
  (forall i, 1 <= i < 12 -> rd_u32 t (INO.direct i) = 0) /\
  agree_on (fun p => 92 <= p < 104 \/ 108 <= p < 120) t0 t /\
  crc32 (slice t 0 INODE_SIZE) 120 = Done (rd_u64 t INO.inode_crc).
Proof.
  intros Hl H.
  assert (G : exists r,
    init_root_inode t0 g now = Done r /\
    rd_u32 r INO.uid = 0 /\
    rd_u32 r INO.gid = 0 /\
    rd_u64 r INO.atime = u64 now /\
    rd_u64 r INO.mtime = u64 now /\
    rd_u64 r INO.ctime = u64 now /\
    rd_u32 r INO.proj_id = 1234 /\
    (forall i, 1 <= i < 12 -> rd_u32 r (INO.direct i) = 0) /\
    agree_on (fun p => 92 <= p < 104 \/ 108 <= p < 120) t0 r).
  { clear H. unfold init_root_inode. cbn [clear_direct].
    repeat match goal with
    | |- context [1 + 1] => change (1 + 1) with 2
    | |- context [2 + 1] => change (2 + 1) with 3
    | |- context [3 + 1] => change (3 + 1) with 4
    | |- context [4 + 1] => change (4 + 1) with 5
    | |- context [5 + 1] => change (5 + 1) with 6
    | |- context [6 + 1] => change (6 + 1) with 7
    | |- context [7 + 1] => change (7 + 1) with 8
    | |- context [8 + 1] => change (8 + 1) with 9
    | |- context [9 + 1] => change (9 + 1) with 10
    | |- context [10 + 1] => change (10 + 1) with 11
    end.
    offsets.
    pose proof (agree_on_refl (fun p => 92 <= p < 104 \/ 108 <= p < 120) t0) as GA.
    do 21 store. last_finalize.
    repeat match goal with |- _ /\ _ => split end; try assumption.
    intros i Hi.
    assert (Ci : i = 1 \/ i = 2 \/ i = 3 \/ i = 4 \/ i = 5 \/
                 i = 6 \/ i = 7 \/ i = 8 \/ i = 9 \/ i = 10 \/ i = 11) by lia.
    repeat destruct Ci as [-> | Ci]; try subst i; assumption. }
  destruct G as (r & E & G). assert (r = t) by congruence. subst r.
  repeat match goal with |- _ /\ _ => split end; try apply G.
  unfold init_root_inode in H.
  do 11 (apply bind_done in H as (? & _ & H); cbv beta iota in H).
  change (rd_u64 t INO.inode_crc) with (rd_u64 t (0 + INO.inode_crc)).
  exact (inode_crc_finalize_crc _ _ _ H).
Qed.

(** The run of the builder, with the steps that made the parts of the
    image. *)
Lemma mkfs_builder_parts (size_kib inodes now : Z) (adjacent : bytes) :
  args_in_bounds size_kib inodes ->
  BS - 4 - SB_SIZE <= len adjacent ->
  exists g s sbr mem d1,
    compute_geometry size_kib inodes = Done g /\
    mkfs_builder true size_kib inodes now adjacent true = Done (layout s) /\
    fresh_fs g inodes s /\
    (init_superblock g inodes now = Done sbr /\
     len sbr = SB_SIZE /\
     superblock_crc_finalize (sbr ++ adjacent) = Done mem /\
     sb s = slice mem 0 SB_SIZE /\
     init_root_inode (zeros (inode_table_blocks g * BS)) g now = Done (inode_table s) /\
     init_dirent (zeros (data_region_blocks g * BS)) 0 [46] = Done d1 /\
     init_dirent d1 DIRENT_SIZE [46; 46] = Done (data_region s)) /\
    4 <= inode_table_blocks g <= 16 /\
    1 <= data_region_blocks g <= 1024.
Proof.
  intros Hb Hadj.
  destruct (compute_geometry_in_bounds _ _ Hb) as (g & Hg & Gt & Gi & Gs & Gd & Gp).
  assert (Htb : 45 <= total_blocks g <= 1024).
  { destruct Hb as (Hs & _). rewrite Gt.
    split; [apply Z.div_le_lower_bound|apply Z.div_le_upper_bound]; lia. }
  assert (Hitb : 4 <= inode_table_blocks g <= 16) by (destruct Hb as (_ & _ & ?); lia).
  unfold mkfs_builder. cbn [negb].
  rewrite (u64_small size_kib), (u64_small inodes) by (destruct Hb as (? & _ & ?); lia).
  rewrite Hg. cbn [bind].
  destruct (init_superblock_spec g inodes now)
    as (sbr & Hsb & Ls & S1 & S2 & S3 & S4 & S5 & S6 & S7 & S8 & S9 & S10 & S11).
  rewrite Hsb. cbn [bind].
  destruct (superblock_crc_finalize_spec (sbr ++ adjacent)) as (mem & Hm & Fm).
  { rewrite len_app. offsets. lia. }
  rewrite Hm. cbn [bind].
  pose proof (same_outside_len _ _ _ _ Fm) as Lm. rewrite len_app in Lm.
  change (firstn (Z.to_nat SB_SIZE) mem) with (slice mem 0 SB_SIZE).
  set (sb' := slice mem 0 SB_SIZE).
  assert (Lsb : len sb' = 116) by (apply len_slice; offsets; lia).
  assert (T32 : forall off, 0 <= off -> off + 4 <= 112 -> rd_u32 sb' off = rd_u32 sbr off).
  { intros off ? ?. unfold sb'. rewrite rd_u32_slice by (offsets; lia).
    rewrite (rd_u32_frame _ _ _ _ _ Fm) by lia.
    apply rd_u32_app_l; offsets; lia. }
  assert (T64 : forall off, 0 <= off -> off + 8 <= 112 -> rd_u64 sb' off = rd_u64 sbr off).
  { intros off ? ?. unfold sb'. rewrite rd_u64_slice by (offsets; lia).
    rewrite (rd_u64_frame _ _ _ _ _ Fm) by lia.
    apply rd_u64_app_l; offsets; lia. }
  rewrite put_bytes_ok by (rewrite ?len_zeros; offsets; lia).
  cbn [bind]. rewrite upd_zeros_0.
  destruct seed_bitmap_spec as (bm & Hbm & Lbm & Bbm).
  rewrite Hbm. cbn [bind].
  destruct (init_root_inode_spec (zeros (inode_table_blocks g * BS)) g now)
    as (itab & Hit & Fit & I1 & I2 & I3 & I4).
  { rewrite len_zeros; offsets; lia. }
  rewrite Hit. cbn [bind].
  pose proof (same_outside_len _ _ _ _ Fit) as Lit.
  rewrite len_zeros in Lit by (offsets; lia).
  assert (Lz : len (zeros (data_region_blocks g * BS)) = data_region_blocks g * BS)
    by (apply len_zeros; offsets; lia).
  destruct (init_dirent_spec (zeros (data_region_blocks g * BS)) 0 [46])
    as (d1 & Hd1 & Fd1 & D1 & D2 & D3); [offsets; lia..|].
  rewrite Hd1. cbn [bind].
  pose proof (same_outside_len _ _ _ _ Fd1) as Ld1.
  destruct (init_dirent_spec d1 DIRENT_SIZE [46; 46])
    as (d2 & Hd2 & Fd2 & D4 & D5 & D6); [offsets; lia..|].
  rewrite Hd2. cbn [bind].
  pose proof (same_outside_len _ _ _ _ Fd2) as Ld2.
  set (blk0 := sb' ++ zeros (BS - len sb')).
  destruct (fwrite_append fopen_w blk0) as [W1 P1]; [reflexivity|].
  destruct (fwrite_append _ bm P1) as [W2 P2].
  destruct (fwrite_append _ bm P2) as [W3 P3].
  destruct (fwrite_append _ itab P3) as [W4 P4].
  destruct (fwrite_append _ d2 P4) as [W5 P5].
  rewrite P5, W5, W4, W3, W2, W1. cbn [fopen_w f_data app].
  assert (Lb0 : len blk0 = 4096).
  { unfold blk0. rewrite len_app, len_zeros; offsets; lia. }
  rewrite !len_app, Lb0, Lbm, <- Lit, <- Ld2, <- Ld1, Lz.
  rewrite (u64_small (total_blocks g * BS)) by (offsets; lia).
  rewrite i64_small by (offsets; lia).
  replace (_ =? _) with true by (symmetry; apply Z.eqb_eq; offsets; lia).
  cbn [negb].
  exists g.
  exists {| sb := sb'; inode_bitmap := bm; data_bitmap := bm;
            inode_table := itab; data_region := d2 |}, sbr, mem, d1.
  split; [reflexivity|]. split.
  { f_equal. unfold layout, blk0. cbn [sb inode_bitmap data_bitmap inode_table data_region].
    rewrite Lsb. change (BS - SB_SIZE) with (BS - 116).
    now rewrite <- !app_assoc. }
  assert (U : forall v, 0 <= v <= 1024 -> u64 v = v) by (intros; apply u64_small; lia).
  assert (E0 : rd_u32 d2 0 = 1).
  { change 0 with (0 + DE.inode_no) at 1.
    rewrite (rd_u32_frame _ _ _ _ _ Fd2) by (offsets; lia). exact D1. }
  assert (E1 : rd_u8 d2 4 = 2).
  { rewrite (rd_u8_frame _ _ _ _ _ Fd2) by (offsets; lia). exact D2. }
  assert (E2 : slice d2 5 58 = 46 :: zeros 57).
  { rewrite <- (same_outside_slice _ _ _ _ 5 58 Fd2) by (offsets; lia). exact D3. }
  split; [|split; [|split; lia]].
  - unfold fresh_fs, well_laid.
    cbn [sb inode_bitmap data_bitmap inode_table data_region].
    rewrite !T32, !T64 by (offsets; lia).
    rewrite S1, S2, S3, S4, S5, S6, S7, S8, S9, S10, S11.
    rewrite !U by (offsets; lia).
    repeat match goal with |- _ /\ _ => split end;
      try assumption; try (offsets; lia); try reflexivity.
    + rewrite I4. apply u32_small. lia.
    + apply (same_outside_join 0 128 _ _ _ _ _ d1 d2 Fd1 Fd2); offsets; lia.
  - cbn [sb inode_table data_region].
    repeat match goal with |- _ /\ _ => split end; try assumption; reflexivity.
Qed.

Lemma superblock_crc_finalize_value (sbr adjacent mem : bytes) :
  len sbr = SB_SIZE ->
  superblock_crc_finalize (sbr ++ adjacent) = Done mem ->
  crc32 (slice sbr 0 112 ++ zeros 4 ++ adjacent) (BS - 4)
  = Done (rd_u32 mem SB.checksum).
Proof.
  intros Ls H. unfold superblock_crc_finalize in H.
  apply bind_done in H as (m1 & P0 & H). cbv beta iota in H.
  apply bind_done in H as (c & P1 & H). cbv beta iota in H.
  rewrite (rd_put_u32 _ _ _ _ H).
  rewrite u32_small by (pose proof (crc32_range _ _ _ P1); lia).
  rewrite <- P1. f_equal.
  unfold put_u32 in P0. apply put_bytes_inv in P0 as (_ & _ & ->).
  unfold upd, slice, SB.checksum.
  assert (Ln : length sbr = 116%nat) by (unfold len, SB_SIZE in Ls; lia).
  change (Z.to_nat 112) with 112%nat. change (Z.to_nat 0) with 0%nat.
  cbn [skipn]. change (le_encode 4 (u32 0)) with (zeros 4).
  change (length (zeros 4)) with 4%nat.
  rewrite firstn_app, skipn_app, Ln.
  change (112 - 116)%nat with 0%nat. change (112 + 4 - 116)%nat with 0%nat.
  cbn [firstn skipn]. rewrite app_nil_r.
  rewrite (skipn_all2 sbr) by lia. reflexivity.
Qed.

Lemma init_dirent_checksum (d : bytes) (off : Z) (name d' : bytes) :
  0 <= off -> bytes_ok d -> bytes_ok name ->
  init_dirent d off name = Done d' ->
  rd_u8 d' (off + DE.checksum) = xor_all (slice d' off 63).
Proof.
  intros H0 Hd Hn H. unfold init_dirent in H.
  apply bind_done in H as (b0 & P0 & H). cbv beta iota in H.
  apply bind_done in H as (b1 & P1 & H). cbv beta iota in H.
  apply bind_done in H as (b2 & P2 & H). cbv beta iota in H.
  pose proof (bytes_ok_put_u32 _ _ _ _ Hd P0) as K0.
  pose proof (bytes_ok_put_u8 _ _ _ _ K0 P1) as K1.
  pose proof (bytes_ok_strncpy _ _ _ _ _ K1 Hn P2) as K2.
  assert (Lb : off + DIRENT_SIZE <= len b2).
  { unfold dirent_checksum_finalize in H.
    apply bind_done in H as (p & _ & H).
    unfold put_u8 in H. apply put_bytes_inv in H as (_ & H & _).
    rewrite len_le_encode in H. offsets. lia. }
  destruct (dirent_checksum_finalize_spec b2 off H0 Lb) as (r & E & _ & X).
  assert (r = d') by congruence. subst r.
  apply X, bytes_ok_slice, K2.
Qed.

(** X18. The rest of a fresh image.  For every pair inside the bounds the
    image the builder writes has, in its superblock, the magic number,
    version 1, block size 4096, the computed geometry, the inode count, one
    block for each bitmap at blocks 1 and 2, the inode table at block 3,
    root inode 1, the time of the run and no flags.  The stored checksum is
    the CRC32 of the record, its checksum field zero, followed by the 3976
    bytes of memory that came after it, while the first block of the image
    ends in zeros.  The root inode has uid and gid 0, the three times at the
    time of the run, zero in direct pointers 1 to 11 and in the fields that
    are never written, project id 1234, and a CRC that verifies.  Every
    other inode slot and every data block but the first is zero, and the
    checksum byte of both directory entries is the XOR of their first 63
    bytes. *)
Theorem fresh_image_records (size_kib inodes now : Z) (adjacent : bytes) :
  args_in_bounds size_kib inodes ->
  BS - 4 - SB_SIZE <= len adjacent ->
  exists g img,
    compute_geometry size_kib inodes = Done g /\
    mkfs_builder true size_kib inodes now adjacent true = Done img /\
    (* the superblock *)
    rd_u32 img SB.magic = MAGIC /\
    rd_u32 img SB.version = 1 /\
    rd_u32 img SB.block_size = BS /\
    rd_u64 img SB.total_blocks = total_blocks g /\
    rd_u64 img SB.inode_count = inodes /\
    rd_u64 img SB.inode_bitmap_start = 1 /\
    rd_u64 img SB.inode_bitmap_blocks = 1 /\
    rd_u64 img SB.data_bitmap_start = 2 /\
    rd_u64 img SB.data_bitmap_blocks = 1 /\
    rd_u64 img SB.inode_table_start = 3 /\
    rd_u64 img SB.inode_table_blocks = inode_table_blocks g /\
    rd_u64 img SB.data_region_start = data_region_start g /\
    rd_u64 img SB.data_region_blocks = data_region_blocks g /\
    rd_u64 img SB.root_inode = 1 /\
    rd_u64 img SB.mtime_epoch = u64 now /\
    rd_u32 img SB.flags = 0 /\
    crc32 (slice img 0 SB.checksum ++ zeros 4 ++ adjacent) (BS - 4)
      = Done (rd_u32 img SB.checksum) /\
    slice img SB_SIZE (BS - SB_SIZE) = zeros (BS - SB_SIZE) /\
    (* the root inode *)
    rd_u32 (inode_slot img 0) INO.uid = 0 /\
    rd_u32 (inode_slot img 0) INO.gid = 0 /\
    rd_u64 (inode_slot img 0) INO.atime = u64 now /\
    rd_u64 (inode_slot img 0) INO.mtime = u64 now /\
    rd_u64 (inode_slot img 0) INO.ctime = u64 now /\
    (forall i, 1 <= i < 12 -> rd_u32 (inode_slot img 0) (INO.direct i) = 0) /\
    slice (inode_slot img 0) INO.reserved_0 12 = zeros 12 /\
    rd_u32 (inode_slot img 0) INO.proj_id = 1234 /\
    slice (inode_slot img 0) INO.uid16_gid16 12 = zeros 12 /\
    crc32 (inode_slot img 0) 120 = Done (rd_u64 (inode_slot img 0) INO.inode_crc) /\
    (* the other inodes *)
    (forall k, 1 <= k -> (k + 1) * INODE_SIZE <= inode_table_blocks g * BS ->
       inode_slot img k = zeros INODE_SIZE) /\
    (* the two entries, and the other data blocks *)
    rd_u8 (root_dirent img 0) DE.checksum = xor_all (slice (root_dirent img 0) 0 63) /\
    rd_u8 (root_dirent img 1) DE.checksum = xor_all (slice (root_dirent img 1) 0 63) /\
    (forall b, 1 <= b < data_region_blocks g -> data_block img b = zeros BS).
Proof.
  intros Hb Hadj.
  destruct (mkfs_builder_parts size_kib inodes now adjacent Hb Hadj)
    as (g & s & sbr & mem & d1 & Hg & Hm & Hf & (Hsb & Ls & Hc & Es & Hit & Hd1 & Hd2)
        & Gi & Gd).
  exists g, (layout s). split; [exact Hg|]. split; [exact Hm|].
  destruct Hf as (W & F1 & F2 & F3 & F4 & F5 & F6 & F7 & Bi & Bd & Ft & T1 & T2
                  & T3 & T4 & Fr & R1 & R2 & R3 & R4 & R5 & R6).
  pose proof W as (Lsb & M & E1 & E2 & E3 & E4 & _).
  pose proof (same_outside_len _ _ _ _ Ft) as Lt.
  pose proof (same_outside_len _ _ _ _ Fr) as Lr.
  rewrite len_zeros in Lt, Lr by (offsets; lia).
  destruct (init_superblock_rest _ _ _ _ Hsb) as (V1 & V2 & V3 & V4 & V5).
  assert (Lz : INODE_SIZE <= len (zeros (inode_table_blocks g * BS)))
    by (rewrite len_zeros; offsets; lia).
  destruct (init_root_inode_rest _ _ _ _ Lz Hit)
    as (N1 & N2 & N3 & N4 & N5 & N6 & N7 & N8 & N9).
  pose proof (superblock_crc_finalize_value _ _ _ Ls Hc) as Cv.
  destruct (superblock_crc_finalize_spec (sbr ++ adjacent)) as (mem' & Hm' & Fm).
  { rewrite len_app. revert Ls Hadj. offsets. lia. }
  assert (mem' = mem) by congruence. subst mem'.
  pose proof (same_outside_len _ _ _ _ Fm) as Lm. rewrite len_app in Lm.
  assert (T32 : forall off, 0 <= off -> off + 4 <= 112 ->
                  rd_u32 (layout s) off = rd_u32 sbr off).
  { intros off ? ?. rewrite layout_rd_u32 by (auto; offsets; lia).
    rewrite Es, rd_u32_slice by (offsets; lia).
    rewrite (rd_u32_frame _ _ _ _ _ Fm) by lia.
    apply rd_u32_app_l; revert Ls; offsets; lia. }
  assert (T64 : forall off, 0 <= off -> off + 8 <= 112 ->
                  rd_u64 (layout s) off = rd_u64 sbr off).
  { intros off ? ?. rewrite layout_rd_u64 by (auto; offsets; lia).
    rewrite Es, rd_u64_slice by (offsets; lia).
    rewrite (rd_u64_frame _ _ _ _ _ Fm) by lia.
    apply rd_u64_app_l; revert Ls; offsets; lia. }
  assert (RB : root_block (layout s) = 0).
  { unfold root_block. rewrite layout_inode_table, layout_rd_u64 by (auto; offsets; lia).
    rewrite T4, F5. lia. }
  assert (K1 : bytes_ok d1).
  { refine (bytes_ok_init_dirent _ _ _ _ (bytes_ok_zeros _) _ Hd1).
    repeat constructor; unfold is_byte; lia. }
  assert (X0 : rd_u8 (data_region s) 63 = xor_all (slice (data_region s) 0 63)).
  { destruct (init_dirent_spec d1 DIRENT_SIZE [46; 46]) as (d2 & Hd2' & Fd2 & _).
    { offsets. lia. }
    { pose proof (same_outside_len _ _ _ _ Fr) as L.
      destruct (init_dirent_spec (zeros (data_region_blocks g * BS)) 0 [46])
        as (d1' & Hd1' & Fd1 & _); [offsets; lia| |].
      - rewrite len_zeros by (offsets; lia). offsets. lia.
      - assert (d1' = d1) by congruence. subst d1'.
        rewrite <- (same_outside_len _ _ _ _ Fd1).
        rewrite len_zeros by (offsets; lia). offsets. lia. }
    assert (d2 = data_region s) by congruence. subst d2.
    revert Fd2. offsets. intros Fd2.
    rewrite (rd_u8_frame _ _ _ _ _ Fd2) by lia.
    rewrite <- (same_outside_slice _ _ _ _ 0 63 Fd2) by lia.
    refine (init_dirent_checksum _ 0 _ _ _ (bytes_ok_zeros _) _ Hd1); [lia|].
    repeat constructor; unfold is_byte; lia. }
  assert (X1 : rd_u8 (data_region s) 127 = xor_all (slice (data_region s) 64 63)).
  { refine (init_dirent_checksum _ 64 _ _ _ K1 _ Hd2); [lia|].
    repeat constructor; unfold is_byte; lia. }
  unfold root_dirent, inode_slot, data_block.
  rewrite RB, layout_inode_table, layout_data_region by exact W.
  change (0 * INODE_SIZE) with 0. change (0 * BS) with 0.
  assert (Q : slice (layout s) 0 112 = slice sbr 0 112).
  { replace (slice (layout s) 0 112) with (slice (slice (layout s) 0 SB_SIZE) 0 112)
      by (rewrite slice_slice by (offsets; lia); reflexivity).
    rewrite (layout_sb s W), Es. rewrite slice_slice by (offsets; lia).
    cbn [Z.add].
    rewrite <- (same_outside_slice _ _ _ _ 0 112 Fm) by lia.
    apply slice_app_l; revert Ls; offsets; lia. }
  assert (Qc : rd_u32 (layout s) SB.checksum = rd_u32 mem SB.checksum).
  { rewrite layout_rd_u32 by (auto; offsets; lia).
    rewrite Es, rd_u32_slice by (offsets; lia). reflexivity. }
  assert (Qp : slice (layout s) SB_SIZE (BS - SB_SIZE) = zeros (BS - SB_SIZE)).
  { unfold layout.
    pose proof (slice_app_mid (sb s) (zeros (BS - SB_SIZE))
                  (inode_bitmap s ++ data_bitmap s ++ inode_table s ++ data_region s))
      as Qm.
    rewrite Lsb, len_zeros in Qm by (offsets; lia). exact Qm. }
  revert N7 N8 N9. offsets. intros N7 N8 N9.
  rewrite !rd_u32_slice, !rd_u64_slice, !rd_u8_slice by lia.
  rewrite !slice_slice by lia.
  rewrite !Z.add_0_l.
  repeat match goal with |- _ /\ _ => split end.
  - rewrite layout_rd_u32 by (auto; offsets; lia). exact M.
  - rewrite T32 by lia. exact V1.
  - rewrite layout_rd_u32 by (auto; offsets; lia). exact F1.
  - rewrite layout_rd_u64 by (auto; offsets; lia). exact F2.
  - rewrite layout_rd_u64 by (auto; offsets; lia). exact F3.
  - rewrite layout_rd_u64 by (auto; offsets; lia). exact E1.
  - rewrite T64 by lia. exact V2.
  - rewrite layout_rd_u64 by (auto; offsets; lia). exact E2.
  - rewrite T64 by lia. exact V3.
  - rewrite layout_rd_u64 by (auto; offsets; lia). exact E3.
  - rewrite layout_rd_u64 by (auto; offsets; lia). exact F4.
  - rewrite layout_rd_u64 by (auto; offsets; lia). exact F5.
  - rewrite layout_rd_u64 by (auto; offsets; lia). exact F6.
  - rewrite layout_rd_u64 by (auto; offsets; lia). exact F7.
  - rewrite T64 by lia. exact V4.
  - rewrite T32 by lia. exact V5.
  - rewrite Q, Qc. exact Cv.
  - exact Qp.
  - exact N1.
  - exact N2.
  - exact N3.
  - exact N4.
  - exact N5.
  - intros i Hi. rewrite rd_u32_slice by lia. apply N7, Hi.
  - rewrite <- (agree_on_slice _ _ _ 92 12 N8) by (intros; lia).
    apply slice_zeros; lia.
  - exact N6.
  - rewrite <- (agree_on_slice _ _ _ 108 12 N8) by (intros; lia).
    apply slice_zeros; lia.
  - exact N9.
  - intros k Hk1 Hk2.
    rewrite <- (same_outside_slice _ _ _ _ (k * 128) 128 Ft) by lia.
    apply slice_zeros; lia.
  - exact X0.
  - exact X1.
  - intros b Hb1.
    rewrite <- (same_outside_slice _ _ _ _ (b * 4096) 4096 Fr) by lia.
    apply slice_zeros; lia.
Qed.

Lemma fresh_image_records_witness :
  exists g img,
    compute_geometry 180 128 = Done g /\
    mkfs_builder true 180 128 1700000000 (zeros 3976) true = Done img /\
    (* the superblock *)
    rd_u32 img SB.magic = MAGIC /\
    rd_u32 img SB.version = 1 /\
    rd_u32 img SB.block_size = BS /\
    rd_u64 img SB.total_blocks = total_blocks g /\
    rd_u64 img SB.inode_count = 128 /\
    rd_u64 img SB.inode_bitmap_start = 1 /\
    rd_u64 img SB.inode_bitmap_blocks = 1 /\
    rd_u64 img SB.data_bitmap_start = 2 /\
    rd_u64 img SB.data_bitmap_blocks = 1 /\
    rd_u64 img SB.inode_table_start = 3 /\
    rd_u64 img SB.inode_table_blocks = inode_table_blocks g /\
    rd_u64 img SB.data_region_start = data_region_start g /\
    rd_u64 img SB.data_region_blocks = data_region_blocks g /\
    rd_u64 img SB.root_inode = 1 /\
    rd_u64 img SB.mtime_epoch = u64 1700000000 /\
    rd_u32 img SB.flags = 0 /\
    crc32 (slice img 0 SB.checksum ++ zeros 4 ++ zeros 3976) (BS - 4)
      = Done (rd_u32 img SB.checksum) /\
    slice img SB_SIZE (BS - SB_SIZE) = zeros (BS - SB_SIZE) /\
    (* the root inode *)
    rd_u32 (inode_slot img 0) INO.uid = 0 /\
    rd_u32 (inode_slot img 0) INO.gid = 0 /\
    rd_u64 (inode_slot img 0) INO.atime = u64 1700000000 /\
    rd_u64 (inode_slot img 0) INO.mtime = u64 1700000000 /\
    rd_u64 (inode_slot img 0) INO.ctime = u64 1700000000 /\
    (forall i, 1 <= i < 12 -> rd_u32 (inode_slot img 0) (INO.direct i) = 0) /\
    slice (inode_slot img 0) INO.reserved_0 12 = zeros 12 /\
    rd_u32 (inode_slot img 0) INO.proj_id = 1234 /\
    slice (inode_slot img 0) INO.uid16_gid16 12 = zeros 12 /\
    crc32 (inode_slot img 0) 120 = Done (rd_u64 (inode_slot img 0) INO.inode_crc) /\
    (* the other inodes *)
    (forall k, 1 <= k -> (k + 1) * INODE_SIZE <= inode_table_blocks g * BS ->
       inode_slot img k = zeros INODE_SIZE) /\
    (* the two entries, and the other data blocks *)
    rd_u8 (root_dirent img 0) DE.checksum = xor_all (slice (root_dirent img 0) 0 63) /\
    rd_u8 (root_dirent img 1) DE.checksum = xor_all (slice (root_dirent img 1) 0 63) /\
    (forall b, 1 <= b < data_region_blocks g -> data_block img b = zeros BS).
Proof.
  apply fresh_image_records.
  - unfold args_in_bounds. split; [lia|]. split; [reflexivity|lia].
  - vm_compute. discriminate.
Defined.
